(* ===== verification/_CoqProject ===== *)
-Q . S2P
Prelude.v
GoStrings.v
Json.v
Netip.v
Filepath.v
Uapi.v
Crypto.v
Configurer.v
WgDevice.v
ConfigurerSpec.v
Routes.v
RouteManager.v
SysOps.v
WgIface.v
KernelModule.v
Grpc.v
EngineData.v
SignalClient.v
SignalSched.v
MgmtClient.v
Helper.v
HelperSpec.v
MiniClient.v
MiniSpec.v
Command.v
CommandSpec.v
Rest.v
RestSpec.v
Engine.v
EnginePeers.v
EngineSpec.v
EngineLife.v
Connect.v
ConnectSpec.v
