(* ===== verification/Prelude.v ===== *)
(** * Verification of the NetBird client

    This library models the client's Go code under [src/go] and proves what its
    parts promise. The client keeps a WireGuard interface in step with what a
    management server sends: the network map's peers become WireGuard peers and
    peer connections, its routes become kernel routes, and so on.

    ** The program's parts, and the files that model them

    - go/iface/configurer: the two back ends that configure WireGuard. [Uapi] holds
      the configuration text of the userspace device (usp.go): the writer and the
      three readers. [Configurer] holds both back ends, [Kernel] (kernel_unix.go)
      and [Usp] (usp.go), as implementations of one interface [cfgC]. [WgDevice] is
      an abstract WireGuard device; [ConfigurerSpec] proves that the userspace back
      end, which talks text to the device, implements operations on it.
    - go/iface, go/iface/wgaddr: [WgIface], the interface object in front of a
      configurer and a tunnel device.
    - go/iface/device: [KernelModule], the search for and loading of the kernel
      modules (kernel_module_linux.go) and the WireGuard link (wg_link_linux.go).
    - go/internal/routemanager: [RouteManager], which keeps a handler and a watcher
      per selected network (manager.go); [SysOps], which keeps the kernel's routing
      rules, tables and routes (systemops_linux.go, systemops.go). [Routes] holds
      the route data both use.
    - go/internal/engine.go: [EngineData], the messages and the pure conversions,
      with the signal message format of go/signal/client/client.go; [Engine], every
      method and goroutine; [EnginePeers], [EngineSpec] and [EngineLife], the
      theorems about them.
    - go/signal/client: [SignalClient], every method of the client (grpc.go), and
      [SignalSched], the goroutines around it: those that wait for the stream and
      the decryption worker (worker.go), as step relations. go/management/client:
      [MgmtClient], every method of the client (grpc.go). [Grpc] is what both use:
      contexts, connection states, status codes, retrying and sealing.
    - go/internal/connect.go: [Connect], the connection loop with the engines it
      makes, and [ConnectSpec], what holds when it ends.
    - go/cmd: [Command], the commands up, down and status, and [CommandSpec].
      go/management/client/rest: [Rest], every method of the API, and [RestSpec].
    - helper/, the process that receives updates for the C port: [Helper] (main.go,
      management.go) and [HelperSpec]. go/miniclient, a client of its own that works
      with the ip and wg tools: [MiniClient] and [MiniSpec]. [Crypto] holds the sealed
      messages of both (helper/crypto.go, go/miniclient/encryption).
    - [GoStrings], [Netip], [Filepath] and [Json] define what the code uses of Go's
      strings, strconv, hex, base64, net, netip, path/filepath and encoding/json
      packages, on strings of bytes.

    ** How code becomes definitions

    A Go function that only computes is a function. A method is a computation of the
    monad [M] of this file: it reads and writes its object's fields ([loc]), calls
    code outside the repository ([call], whose effect on the outside world is given
    by a [Handler]), and ends with a value, an error or a panic; an error undoes
    nothing. The calls are the constructors of one inductive type per component
    ([rmC], [sysC], [ifC], [engC], [sigC], [mgC], [conC], [cmdC], [helpC], [miniC], [restC], ...), and every call with its answer is recorded,
    so that theorems can speak of what was asked of the outside ([saw]). What a
    theorem needs of code outside the repository is a class: laws of the handler
    ([RoutingKernel], [IfaceClock], [PeerWorld], [UapiDevice], [SignalWorld],
    [ChanWorld], [MgmtWorld], [HelperWorld], [MiniWorld], [ModuleKernel]) or of pure functions ([WgTypes], [RouteLib], [EngLib],
    [MultiError], [NbNet], [NbVars], [GrpcLib], [Sealing], [NaclBox], [Proto], [CmdLib], [UrlLib], ...), each with an
    instance that runs ([Sample...] modules), on which the witnesses evaluate.
    [MapOrder] makes the iteration order of Go's maps arbitrary; [BackoffLib] makes
    [backoff.Retry] any function that follows its documentation ([attempts]): any
    number of attempts, between which the outside may change.

    A method that holds its object's mutex from start to end is one step; the
    goroutines the code starts are operations of their own. Where one object's
    methods run as part of another's they do so in place: the connection loop
    allocates engines ([cn_engines]) and runs the operations of [Engine] on them
    ([on_engine]), and what other goroutines do with the engine while the loop waits
    is what the wait answers ([others]). Logging is left out,
    except where its arguments call something. Integers are Z, with their
    wrap-around ([wrapu], [wraps]) written where they are cut or may overflow;
    machine ints are 64-bit. Only Linux builds are modelled ([GOOS]). The one loop
    that is bounded by a clock ([WgIface.wait_loop]) has fuel 51, which the proof of
    [Close_spec] shows to be enough. The loops that receive from a stream have the
    fuel their caller gives; [SignalWorld], [MgmtWorld] and [HelperWorld] bound what
    one stream delivers, and with that much fuel they never run out
    ([Receive_forwards], [Sync_delivers], [receive_follows]). The JSON reader's fuel
    is computed from the text's length, and is enough ([parse_fuel]). Every other recursion is structural or has fuel computed from
    its input's length.

    ** What the theorems show

    - The engine: a well-formed network map that is not outdated, applied without an
      error, leaves exactly its peers connected, as it describes them
      ([updateNetworkMap_in_step]); over all sequences of operations the serial never
      drops ([engine_invariant]); a start that fails and a stop have called [Close] of
      the interface that was made ([Start_starts_or_closes], without Rosenpass, and
      [Stop_stops]); the conversions of routes, DNS settings, checks, offers and rules
      field by field, on every branch.
    - The connection loop: however it ends, by a panic included, no engine it made
      has its interface open ([run_closes_interfaces]), and all the clients and
      contexts it opened are closed ([run_releases]).
    - The clients: [Sync] hands over exactly the updates the streams carry, in
      order, over all reconnections; the signal client forwards every message to its
      one worker, which handles them in order; sending and login retry exactly as
      they say; a sealed message is opened as it was sent; announcing a connection
      releases whoever waits for it, except for a wakeup lost between reading the
      status and asking for the channel ([WaitStreamConnected_lost_wakeup]).
    - The configurers: the configuration text reads back as the configuration, less
      [UpdateOnly] ([toWgUserspaceString_read_back]); device dumps are read as they are,
      less IPv6 endpoints ([parseStatus_dump]); and the operations made of a read and two
      writes are atomic operations of the abstract device.
    - Routing: classification of routes; which handlers are made, removed and kept
      ([updateSystemRoutes_spec]), one watcher per selected network; the setup's rules
      installed or their deletion tried, and no other rule touched; routes added and
      removed exactly.
    - The interface and modules: closing always ends; addresses round-trip; a module
      is loaded after its dependencies, and one reported as there is there
      ([tryToLoadModule_loaded]).
    - The command line: up calls the daemon in a fixed order and closes its
      connection ([runInDaemonMode_order]); what its three requests hold and when each is
      refused ([settings_agree]); which external addresses it takes
      ([validateNATExternalIPs_spec]). The REST client: one request per method, and what becomes of
      its answer ([rest_calls_spec]); whose account a client speaks for
      ([Impersonate_spec]).
    - The helper: its files follow the updates it receives ([receive_follows]), each
      replaced as a whole ([writeJSONAtomic_atomic]). The mini client: the commands it
      runs and where it stops ([Apply_spec]), the key it keeps ([runUp_keeps_private_key]), the file it
      reads back ([loadConfig_saveConfig]). Both open what the other seals.

    ** Not modelled

    The protobuf code, which is generated; the C port; the mocks; the registration of
    the command line's flags; what the mini client prints, but for its status; the
    helper's signal handling. Data races between a method and a field read outside the
    mutex are not modelled, but for the status that [WaitStreamConnected] reads. *)

From Stdlib Require Import ZArith Lia.
From stdpp Require Import base tactics list strings gmap fin_maps.

Declare Scope go_scope.
Delimit Scope go_scope with go.
#[global] Open Scope Z_scope.
#[global] Open Scope go_scope.
#[global] Arguments String.append !_ _ / : simpl nomatch.

(** An object the program reaches through a pointer or an interface value. *)
Notation ref := Z (only parsing).

(** ** Go's error values *)

(** An error value, as far as the program can tell two of them apart:
    [Sentinel] is a package-level variable compared by identity, [New] a fresh
    [errors.New] or [fmt.Errorf] value, [Wrap] an error formatted with [%w],
    [Opaque] one formatted with [%s] or [%v] (its cause is not unwrapped),
    [Errno] a [syscall.Errno], [Status] a gRPC status error, [Permanent] the
    backoff library's permanent error, [Multi] a [multierror.Error]. *)
Inductive error :=
  | Sentinel (name : string)
  | New (msg : string)
  | Wrap (msg : string) (inner : error)
  | Opaque (msg : string) (cause : error)
  | Errno (n : Z)
  | Status (code : Z) (msg : string)
  | Permanent (inner : error)
  | Multi (errs : list error).

(** [errors.Is err target] for a target that is a sentinel or an errno:
    compare, then unwrap. *)
Fixpoint errors_Is (err target : error) : bool :=
  match err with
  | Sentinel a => match target with Sentinel b => bool_decide (a = b) | _ => false end
  | Errno a => match target with Errno b => a =? b | _ => false end
  | Wrap _ e | Permanent e => errors_Is e target
  | Multi es => existsb (fun e => errors_Is e target) es
  | New _ | Opaque _ _ | Status _ _ => false
  end.

(** The project's [errors.FormatErrorOrNil] (package [client/errors], not in the
    repository): nil exactly when no error was appended to the multierror. *)
Class MultiError := {
  FormatErrorOrNil : list error -> option error;
  FormatErrorOrNil_nil : forall es, FormatErrorOrNil es = None <-> es = []
}.

(** ** Computations: state, effects, errors and panics *)

(** How a Go call ends: it returns a value, it returns a non-nil error, or it
    panics (nil dereference, index out of range). *)
Inductive outcome (A : Type) :=
  | Ok (a : A)
  | Err (e : error)
  | Panic (why : string).
Arguments Ok {A} a.
Arguments Err {A} e.
Arguments Panic {A} why.

(** A call to code outside the repository, with the answer it got. *)
Inductive event (C : Set -> Type) :=
  | Event {R : Set} (c : C R) (answer : R).
Arguments Event {C R} c answer.

(** The code outside the repository, seen through the calls [C] a component
    makes: how each call changes the world and what it answers. *)
Class Handler (C : Set -> Type) (W : Type) :=
  handle : forall {R : Set}, C R -> W -> R * W.

(** What a running component holds: its own fields [L], the outside world [W]
    and the calls it made so far, the latest first. *)
Record state (C : Set -> Type) (L W : Type) := mkState {
  loc : L;
  world : W;
  calls : list (event C)
}.
Arguments mkState {C L W} loc world calls.
Arguments loc {C L W} s.
Arguments world {C L W} s.
Arguments calls {C L W} s.

(** A Go function body: an error does not undo the state changes made before it. *)
Definition M (C : Set -> Type) (L W A : Type) : Type :=
  state C L W -> outcome A * state C L W.

Section monad.
Context {C : Set -> Type} {L W : Type}.

Definition ret {A} (a : A) : M C L W A := fun s => (Ok a, s).
Definition fail {A} (e : error) : M C L W A := fun s => (Err e, s).
Definition panic {A} (why : string) : M C L W A := fun s => (Panic why, s).
Definition bind {A B} (m : M C L W A) (k : A -> M C L W B) : M C L W B := fun s =>
  match m s with
  | (Ok a, s') => k a s'
  | (Err e, s') => (Err e, s')
  | (Panic p, s') => (Panic p, s')
  end.
(** [if err := f(); err != nil { ... }]: the error as a value. *)
Definition try {A} (m : M C L W A) : M C L W (A + error) := fun s =>
  match m s with
  | (Ok a, s') => (Ok (inl a), s')
  | (Err e, s') => (Ok (inr e), s')
  | (Panic p, s') => (Panic p, s')
  end.
(** A failed call that is only logged: [if err := f(); err != nil { log }]. *)
Definition ignore {A} (m : M C L W A) : M C L W unit := bind (try m) (fun _ => ret tt).
(** [return fmt.Errorf("...: %w", err)]. *)
Definition wrap {A} (f : error -> error) (m : M C L W A) : M C L W A := fun s =>
  match m s with
  | (Err e, s') => (Err (f e), s')
  | r => r
  end.
Definition get : M C L W L := fun s => (Ok (loc s), s).
Definition modify (f : L -> L) : M C L W unit := fun s =>
  (Ok tt, mkState (f (loc s)) (world s) (calls s)).
(** A call to code outside the repository. *)
Definition call `{!Handler C W} {R} (c : C R) : M C L W R := fun s =>
  let '(r, w) := handle c (world s) in
  (Ok r, mkState (loc s) w (Event c r :: calls s)).
(** A method call on a nil pointer or interface value panics. *)
Definition deref {A B} (what : string) (o : option B) (k : B -> M C L W A) : M C L W A :=
  match o with Some r => k r | None => panic (what +:+ ": nil pointer dereference") end.
(** A pure computation that may fail or panic. *)
Definition lift {A} (o : outcome A) : M C L W A := fun s => (o, s).
(** A call that returns only an error. *)
Definition check (m : M C L W (option error)) : M C L W unit :=
  bind m (fun o => match o with None => ret tt | Some e => fail e end).
(** A call that returns a value and an error. *)
Definition check_val {A} (m : M C L W (A + error)) : M C L W A :=
  bind m (fun r => match r with inl a => ret a | inr e => fail e end).
Definition when (b : bool) (m : M C L W unit) : M C L W unit := if b then m else ret tt.
(** [for _, x := range l { body }] where the body may return an error. *)
Fixpoint for_each {A} (l : list A) (body : A -> M C L W unit) : M C L W unit :=
  match l with
  | [] => ret tt
  | x :: l' => bind (body x) (fun _ => for_each l' body)
  end.
(** The same loop collecting one optional value per element ([append]). *)
Fixpoint for_collect {A B} (l : list A) (body : A -> M C L W (option B)) : M C L W (list B) :=
  match l with
  | [] => ret []
  | x :: l' =>
      bind (body x) (fun o =>
      bind (for_collect l' body) (fun bs =>
      ret (match o with Some b => b :: bs | None => bs end)))
  end.
(** [defer d()]: [d] runs however the body ends, and the body's outcome is
    kept unless [d] panics. *)
Definition with_defer {A} (m : M C L W A) (d : M C L W unit) : M C L W A := fun s =>
  let '(r, s') := m s in
  match d s' with
  | (Panic p, s'') => (Panic p, s'')
  | (_, s'') => (r, s'')
  end.

(** A local variable that a closure assigns: [m] runs with the variable beside the
    component's fields. *)
Definition local_var {V A} (v : V) (m : M C (L * V) W A) : M C L W (A * V) := fun s =>
  let '(r, s') := m (mkState (loc s, v) (world s) (calls s)) in
  (match r with Ok a => Ok (a, (loc s').2) | Err e => Err e | Panic p => Panic p end,
   mkState (loc s').1 (world s') (calls s')).
End monad.

Notation "'let*' x ':=' m 'in' k" := (bind m (fun x => k))
  (at level 10, x pattern, m at level 200, k at level 200) : go_scope.
Notation "m ';;;' k" := (bind m (fun _ => k))
  (at level 100, right associativity) : go_scope.

(** Machine integers: reduction to an unsigned width, and to a signed one. *)
Definition wrapu (w z : Z) : Z := z mod 2 ^ w.
Definition wraps (w z : Z) : Z :=
  let u := wrapu w z in if u <? 2 ^ (w - 1) then u else u - 2 ^ w.

(** A Go map iterated with [range]: some order of its entries. *)
Class MapOrder := {
  map_order : forall {A : Type}, gmap string A -> list (string * A);
  map_order_perm : forall {A : Type} (m : gmap string A), map_order m ≡ₚ map_to_list m
}.

(** ** Lists *)

Lemma filter_all_out {A} (P : A -> Prop) `{!forall x, Decision (P x)} (l : list A) :
  (forall x, x ∈ l -> ~ P x) -> filter P l = [].
Proof.
  induction l as [|x l IH]; intros Hl; [done |].
  rewrite filter_cons_False by (apply Hl; left). apply IH. intros y Hy. apply Hl. by right.
Qed.

Lemma Forall_filter_sub {A} (P Q : A -> Prop) `{!forall x, Decision (P x)} (l : list A) :
  Forall Q l -> Forall Q (filter P l).
Proof.
  rewrite !Forall_forall. intros HQ x Hx. apply list_elem_of_filter in Hx as [_ Hx]. auto.
Qed.

Lemma sublist_In {A} (l k : list A) x : sublist l k -> x ∈ l -> x ∈ k.
Proof. intros H. induction H; rewrite ?elem_of_cons; naive_solver. Qed.

Lemma sublist_no_dup {A} (l k : list A) : sublist l k -> NoDup k -> NoDup l.
Proof.
  intros H. induction H as [|x l k H IH|x l k H IH]; intros Hk; [done | |];
    apply NoDup_cons in Hk as [Hx Hk]; [|by apply IH].
  apply NoDup_cons. split; [| by apply IH]. intros Hi. apply Hx. by eapply sublist_In.
Qed.

(** ** Reasoning about computations *)

Create HintDb go_inv.

Section hoare.
Context {C : Set -> Type} {L W : Type}.
Implicit Types s : state C L W.

(** [m] keeps the property [I] of the component's state, however it ends. *)
Definition preserves {A} (I : state C L W -> Prop) (m : M C L W A) : Prop :=
  forall s, I s -> I (m s).2.

Lemma bind_run {A B} (m : M C L W A) (k : A -> M C L W B) s a s' :
  m s = (Ok a, s') -> bind m k s = k a s'.
Proof. intros H. unfold bind. by rewrite H. Qed.

Lemma bind_stop {A B} (m : M C L W A) (k : A -> M C L W B) s e s' :
  m s = (Err e, s') -> bind m k s = (Err e, s').
Proof. intros H. unfold bind. by rewrite H. Qed.

Lemma bind_inv_ok {A B} (m : M C L W A) (k : A -> M C L W B) s b s'' :
  bind m k s = (Ok b, s'') -> exists a s', m s = (Ok a, s') /\ k a s' = (Ok b, s'').
Proof. unfold bind. destruct (m s) as [[a|e|p] s'] eqn:E; intros H; [eauto | done | done]. Qed.

Lemma bind_assoc {A B D} (m : M C L W A) (k : A -> M C L W B) (h : B -> M C L W D) s :
  bind (bind m k) h s = bind m (fun a => bind (k a) h) s.
Proof. unfold bind. by destruct (m s) as [[] ?]. Qed.

Lemma preserves_ret {A} I (a : A) : preserves I (ret a).
Proof. intros s Hs; exact Hs. Qed.
Lemma preserves_fail {A} I e : preserves I (@fail C L W A e).
Proof. intros s Hs; exact Hs. Qed.
Lemma preserves_panic {A} I p : preserves I (@panic C L W A p).
Proof. intros s Hs; exact Hs. Qed.
Lemma preserves_get I : preserves I get.
Proof. intros s Hs; exact Hs. Qed.
Lemma preserves_bind {A B} I (m : M C L W A) (k : A -> M C L W B) :
  preserves I m -> (forall a, preserves I (k a)) -> preserves I (bind m k).
Proof.
  intros Hm Hk s Hs. specialize (Hm s Hs). unfold bind.
  destruct (m s) as [[a|e|p] s']; [by apply Hk | done | done].
Qed.
Lemma preserves_try {A} I (m : M C L W A) : preserves I m -> preserves I (try m).
Proof. intros Hm s Hs. specialize (Hm s Hs). unfold try. by destruct (m s) as [[] ?]. Qed.
Lemma preserves_wrap {A} I f (m : M C L W A) : preserves I m -> preserves I (wrap f m).
Proof. intros Hm s Hs. specialize (Hm s Hs). unfold wrap. by destruct (m s) as [[] ?]. Qed.
Lemma preserves_ignore {A} I (m : M C L W A) : preserves I m -> preserves I (ignore m).
Proof. intros Hm. apply preserves_bind; [by apply preserves_try | intros ? s Hs; exact Hs]. Qed.
Lemma preserves_when I b m : preserves I m -> preserves I (when b m).
Proof. intros Hm. destruct b; [exact Hm | intros s Hs; exact Hs]. Qed.
Lemma preserves_check I m : preserves I m -> preserves I (check m).
Proof. intros Hm. apply preserves_bind; [done |]. intros [] s Hs; exact Hs. Qed.
Lemma preserves_check_val {A} I (m : M C L W (A + error)) :
  preserves I m -> preserves I (check_val m).
Proof. intros Hm. apply preserves_bind; [done |]. intros [] s Hs; exact Hs. Qed.
Lemma preserves_deref {A B} I what (o : option B) (k : B -> M C L W A) :
  (forall r, preserves I (k r)) -> preserves I (deref what o k).
Proof. intros Hk. destruct o; [apply Hk | intros s Hs; exact Hs]. Qed.
Lemma preserves_lift {A} I (o : outcome A) : preserves I (lift o).
Proof. intros s Hs; exact Hs. Qed.
Lemma preserves_for_each {A} I (l : list A) body :
  (forall x, preserves I (body x)) -> preserves I (for_each l body).
Proof.
  intros Hb. induction l as [|x l IH]; [intros s Hs; exact Hs |].
  apply preserves_bind; [apply Hb | by intros _].
Qed.
Lemma preserves_for_collect {A B} I (l : list A) (body : A -> M C L W (option B)) :
  (forall x, preserves I (body x)) -> preserves I (for_collect l body).
Proof.
  intros Hb. induction l as [|x l IH]; [intros s Hs; exact Hs |].
  apply preserves_bind; [apply Hb |]. intros o. apply preserves_bind; [done |]. intros bs s Hs; exact Hs.
Qed.
Lemma preserves_with_defer {A} I (m : M C L W A) d :
  preserves I m -> preserves I d -> preserves I (with_defer m d).
Proof.
  intros Hm Hd s Hs. specialize (Hm s Hs). unfold with_defer.
  destruct (m s) as [r s']. specialize (Hd s' Hm). by destruct (d s') as [[] ?].
Qed.
End hoare.

#[export] Hint Resolve preserves_ret preserves_fail preserves_panic preserves_get preserves_bind
  preserves_try preserves_wrap preserves_ignore preserves_when preserves_check
  preserves_check_val preserves_deref preserves_lift preserves_for_each preserves_for_collect preserves_with_defer : go_inv.

(** *** Weakest preconditions: [wp m Q s] says that [m], started in [s], does not
    panic and ends with a value or an error (the argument of [Q]) satisfying [Q]. *)

Section wp.
Context {C : Set -> Type} {L W : Type}.
Implicit Types s : state C L W.

Definition wp {A} (m : M C L W A) (Q : A + error -> state C L W -> Prop) : state C L W -> Prop :=
  fun s => match m s with
           | (Ok a, s') => Q (inl a) s'
           | (Err e, s') => Q (inr e) s'
           | (Panic _, _) => False
           end.

(** What a bound continuation needs. *)
Definition wp_then {A B} (k : A -> M C L W B) (Q : B + error -> state C L W -> Prop)
    : A + error -> state C L W -> Prop :=
  fun r s => match r with inl a => wp (k a) Q s | inr e => Q (inr e) s end.

Lemma wp_mono {A} (m : M C L W A) (Q Q' : A + error -> state C L W -> Prop) s :
  wp m Q s -> (forall r s', Q r s' -> Q' r s') -> wp m Q' s.
Proof. unfold wp. destruct (m s) as [[]?]; auto. Qed.

Lemma wp_bind {A B} (m : M C L W A) (k : A -> M C L W B) Q s :
  wp m (wp_then k Q) s -> wp (bind m k) Q s.
Proof. unfold wp, bind, wp_then, wp. by destruct (m s) as [[]?]. Qed.

Lemma wp_assoc {A B D} (m : M C L W A) (k : A -> M C L W B) (h : B -> M C L W D) Q s :
  wp (bind (bind m k) h) Q s -> wp (bind m (fun a => bind (k a) h)) Q s.
Proof. unfold wp. by rewrite bind_assoc. Qed.

Lemma wp_ret {A} (a : A) (Q : A + error -> state C L W -> Prop) s : Q (inl a) s -> wp (ret a) Q s.
Proof. done. Qed.
Lemma wp_fail {A} e (Q : A + error -> state C L W -> Prop) s : Q (inr e) s -> wp (fail e) Q s.
Proof. done. Qed.
Lemma wp_get (Q : L + error -> state C L W -> Prop) s : Q (inl (loc s)) s -> wp get Q s.
Proof. done. Qed.
Lemma wp_modify f (Q : unit + error -> state C L W -> Prop) s :
  Q (inl tt) (mkState (f (loc s)) (world s) (calls s)) -> wp (modify f) Q s.
Proof. done. Qed.
Lemma wp_call `{!Handler C W} {R} (c : C R) (Q : R + error -> state C L W -> Prop) s :
  (forall r w, handle c (world s) = (r, w) -> Q (inl r) (mkState (loc s) w (Event c r :: calls s))) ->
  wp (call c) Q s.
Proof. unfold wp, call. destruct (handle c (world s)) as [r w]. auto. Qed.
Lemma wp_try {A} (m : M C L W A) (Q : (A + error) + error -> state C L W -> Prop) s :
  wp m (fun r => Q (inl r)) s -> wp (try m) Q s.
Proof. unfold wp, try. by destruct (m s) as [[]?]. Qed.
Lemma wp_wrap {A} f (m : M C L W A) (Q : A + error -> state C L W -> Prop) s :
  wp m (fun r => Q (match r with inl a => inl a | inr e => inr (f e) end)) s -> wp (wrap f m) Q s.
Proof. unfold wp, wrap. by destruct (m s) as [[]?]. Qed.
Lemma wp_ignore {A} (m : M C L W A) (Q : unit + error -> state C L W -> Prop) s :
  wp m (fun _ => Q (inl tt)) s -> wp (ignore m) Q s.
Proof. unfold wp, ignore, bind, try. by destruct (m s) as [[]?]. Qed.
Lemma wp_check (m : M C L W (option error)) (Q : unit + error -> state C L W -> Prop) s :
  wp m (fun r => match r with
                 | inl None => Q (inl tt) | inl (Some e) | inr e => Q (inr e) end) s ->
  wp (check m) Q s.
Proof. unfold wp, check, bind. by destruct (m s) as [[[]| |]?]. Qed.
Lemma wp_check_val {A} (m : M C L W (A + error)) (Q : A + error -> state C L W -> Prop) s :
  wp m (fun r => match r with
                 | inl (inl a) => Q (inl a) | inl (inr e) | inr e => Q (inr e) end) s ->
  wp (check_val m) Q s.
Proof. unfold wp, check_val, bind. by destruct (m s) as [[[]| |]?]. Qed.
Lemma wp_deref {A B} what (o : option B) (k : B -> M C L W A) Q s :
  is_Some o -> (forall r, o = Some r -> wp (k r) Q s) -> wp (deref what o k) Q s.
Proof. intros [r ->] H. by apply H. Qed.
Lemma wp_lift {A} (o : outcome A) (Q : A + error -> state C L W -> Prop) s :
  match o with Ok a => Q (inl a) s | Err e => Q (inr e) s | Panic _ => False end -> wp (lift o) Q s.
Proof. by destruct o. Qed.
Lemma wp_with_defer {A} (m : M C L W A) d (Q : A + error -> state C L W -> Prop) s :
  wp m (fun r => wp d (fun _ => Q r)) s -> wp (with_defer m d) Q s.
Proof. unfold wp, with_defer. destruct (m s) as [[]s1]; [| |done]; by destruct (d s1) as [[]?]. Qed.
Lemma wp_when b m (Q : unit + error -> state C L W -> Prop) s :
  (b = true -> wp m Q s) -> (b = false -> Q (inl tt) s) -> wp (when b m) Q s.
Proof. destruct b; intros H1 H2; [exact (H1 eq_refl) | exact (H2 eq_refl)]. Qed.

(** A loop keeps an invariant that each body keeps, the list of what is left
    being part of it; an error of the body ends the loop. *)
Lemma wp_for_each {A} (I : list A -> state C L W -> Prop) (l : list A) body Q s :
  I l s ->
  (forall x l' s, I (x :: l') s ->
     wp (body x) (fun r => match r with inl _ => I l' | inr e => Q (inr e) end) s) ->
  (forall s, I [] s -> Q (inl tt) s) ->
  wp (for_each l body) Q s.
Proof.
  intros HI Hb HQ. revert s HI. induction l as [|x l IH]; intros s HI; [by apply HQ |].
  apply wp_bind. eapply wp_mono; [by apply Hb |]. intros [[]|e] s'; cbn; auto.
Qed.

(** The same for the loop that collects, with what it has collected so far. *)
Lemma wp_for_collect {A B} (I : list A -> list B -> state C L W -> Prop) (l : list A) body Q s :
  I l [] s ->
  (forall x l' acc s, I (x :: l') acc s ->
     wp (body x) (fun r s' => match r with
                              | inl o => I l' (acc ++ match o with Some b => [b] | None => [] end) s'
                              | inr e => Q (inr e) s' end) s) ->
  (forall acc s, I [] acc s -> Q (inl acc) s) ->
  wp (for_collect l body) Q s.
Proof.
  intros HI Hb HQ.
  cut (forall acc s, I l acc s ->
    wp (for_collect l body) (fun r s' => match r with inl bs => Q (inl (acc ++ bs)) s'
                                                    | inr e => Q (inr e) s' end) s).
  { intros H. eapply wp_mono; [by apply (H []) |]. by intros [bs|e] s'. }
  clear s HI. induction l as [|x l IH]; intros acc s HI.
  - apply wp_ret. rewrite app_nil_r. by apply HQ.
  - apply wp_bind. eapply wp_mono; [by apply Hb |]. intros [o|e] s' H; [|exact H].
    apply wp_bind. eapply wp_mono; [by apply IH |]. intros [bs|e] s'' H'; [|exact H'].
    apply wp_ret. destruct o as [b|]; [|by rewrite app_nil_r in H'].
    by rewrite <- (assoc_L (++)) in H'.
Qed.

(** A property every step keeps can be added to what a program ends with. *)
Lemma wp_preserves {A} (I : state C L W -> Prop) (m : M C L W A) Q s :
  preserves I m -> I s -> wp m Q s -> wp m (fun r s' => Q r s' /\ I s') s.
Proof.
  intros Hp HI. specialize (Hp s HI). unfold wp. by destruct (m s) as [[]?].
Qed.

Lemma wp_inv {A} (I : state C L W -> Prop) (m : M C L W A) Q s :
  wp m (fun _ _ => True) s -> preserves I m -> I s -> (forall r s', I s' -> Q r s') -> wp m Q s.
Proof.
  intros Hw Hp HI HQ. eapply wp_mono; [by eapply wp_preserves |]. intros r s' [_ H]. by apply HQ.
Qed.

(** What a part of the log says, in the order of the calls. *)
Definition logged {B} (f : event C -> option B) (evs : list (event C)) : list B := omap f (reverse evs).

Lemma logged_app {B} (f : event C -> option B) e1 e2 : logged f (e2 ++ e1) = logged f e1 ++ logged f e2.
Proof. unfold logged. by rewrite reverse_app, omap_app. Qed.

Lemma logged_cons {B} (f : event C -> option B) ev evs :
  logged f (ev :: evs) = logged f evs ++ option_list (f ev).
Proof. unfold logged. rewrite reverse_cons, omap_app. cbn. by destruct (f ev). Qed.
Lemma logged_skip {B} (f : event C -> option B) ev evs :
  f ev = None -> logged f (ev :: evs) = logged f evs.
Proof. intros H. rewrite logged_cons, H. apply app_nil_r. Qed.

(** A call once made stays on record. *)
Definition saw (ev : event C) (s : state C L W) : Prop := ev ∈ calls s.

Lemma preserves_saw_call `{!Handler C W} {R} ev (c : C R) : preserves (saw ev) (call c).
Proof. intros s Hs. unfold call. destruct (handle c (world s)) as [r w]. by right. Qed.
Lemma preserves_saw_modify ev f : preserves (saw ev) (modify f).
Proof. intros s Hs. exact Hs. Qed.

Lemma wp_run {A} (m : M C L W A) Q s a s' : m s = (Ok a, s') -> wp m Q s -> Q (inl a) s'.
Proof. intros H. unfold wp. by rewrite H. Qed.

Lemma wp_no_panic {A} (m : M C L W A) Q s : wp m Q s -> forall p, (m s).1 <> Panic p.
Proof. unfold wp. by destruct (m s) as [[]?]. Qed.
End wp.

Lemma wp_local_var {C : Set -> Type} {L W V : Type} {A} (v : V) (m : M C (L * V) W A)
    (Q : A * V + error -> state C L W -> Prop) (s : state C L W) :
  wp m (fun r s' => Q (match r with inl a => inl (a, (loc s').2) | inr e => inr e end)
                      (mkState (loc s').1 (world s') (calls s'))) (mkState (loc s, v) (world s) (calls s)) ->
  wp (local_var v m) Q s.
Proof. unfold wp, local_var. by destruct (m _) as [[]?]. Qed.

#[export] Hint Resolve preserves_saw_call preserves_saw_modify : go_inv.

(** *** Computations that keep an invariant of the component and cannot panic *)

Section safe.
Context {C : Set -> Type} {L W : Type} (I : L -> Prop).

Definition safe {A} (m : M C L W A) : Prop := forall s, I (loc s) -> wp m (fun _ s' => I (loc s')) s.

Lemma safe_ret {A} (a : A) : safe (ret a).
Proof. by intros s. Qed.
Lemma safe_fail {A} e : safe (@fail C L W A e).
Proof. by intros s. Qed.
Lemma safe_get : safe get.
Proof. by intros s. Qed.
Lemma safe_modify f : (forall l, I l -> I (f l)) -> safe (modify f).
Proof. intros Hf s Hs. by apply Hf. Qed.
Lemma safe_call `{!Handler C W} {R} (c : C R) : safe (call c).
Proof. intros s Hs. by apply wp_call. Qed.
Lemma safe_bind {A B} (m : M C L W A) (k : A -> M C L W B) :
  safe m -> (forall a, safe (k a)) -> safe (bind m k).
Proof. intros Hm Hk s Hs. apply wp_bind. eapply wp_mono; [by apply Hm |]. intros [a|e] s' H; [by apply Hk | done]. Qed.
(** What is read satisfies the invariant. *)
Lemma safe_bind_get {B} (k : L -> M C L W B) : (forall l, I l -> safe (k l)) -> safe (bind get k).
Proof. intros Hk s Hs. by apply (Hk (loc s)). Qed.
Lemma safe_try {A} (m : M C L W A) : safe m -> safe (try m).
Proof. intros Hm s Hs. apply wp_try. by eapply wp_mono; [by apply Hm |]. Qed.
Lemma safe_wrap {A} f (m : M C L W A) : safe m -> safe (wrap f m).
Proof. intros Hm s Hs. apply wp_wrap. by eapply wp_mono; [by apply Hm |]. Qed.
Lemma safe_ignore {A} (m : M C L W A) : safe m -> safe (ignore m).
Proof. intros Hm. apply safe_bind; [by apply safe_try | intros; apply safe_ret]. Qed.
Lemma safe_when b (m : M C L W unit) : (b = true -> safe m) -> safe (when b m).
Proof. intros Hm. destruct b; [by apply Hm | apply safe_ret]. Qed.
Lemma safe_check (m : M C L W (option error)) : safe m -> safe (check m).
Proof. intros Hm. apply safe_bind; [done |]. intros []; [apply safe_fail | apply safe_ret]. Qed.
Lemma safe_check_val {A} (m : M C L W (A + error)) : safe m -> safe (check_val m).
Proof. intros Hm. apply safe_bind; [done |]. intros []; [apply safe_ret | apply safe_fail]. Qed.
Lemma safe_for_each {A} (l : list A) (body : A -> M C L W unit) :
  (forall x, safe (body x)) -> safe (for_each l body).
Proof.
  intros Hb. induction l as [|x l IH]; [apply safe_ret |].
  apply safe_bind; [apply Hb | by intros _].
Qed.
Lemma safe_for_collect {A B} (l : list A) (body : A -> M C L W (option B)) :
  (forall x, safe (body x)) -> safe (for_collect l body).
Proof.
  intros Hb. induction l as [|x l IH]; [apply safe_ret |].
  apply safe_bind; [apply Hb |]. intros o. apply safe_bind; [exact IH |].
  intros bs. apply safe_ret.
Qed.
Lemma safe_with_defer {A} (m : M C L W A) d : safe m -> safe d -> safe (with_defer m d).
Proof.
  intros Hm Hd s Hs. apply wp_with_defer. eapply wp_mono; [by apply Hm |]. intros r s' H. by apply Hd.
Qed.
End safe.

Definition no_panic {C : Set -> Type} {L W A : Type} (m : M C L W A) : Prop := safe (fun _ => True) m.
Lemma no_panic_wp {C : Set -> Type} {L W A : Type} (m : M C L W A) s : no_panic m -> wp m (fun _ _ => True) s.
Proof. intros Hm. by apply Hm. Qed.

#[export] Hint Resolve safe_ret safe_fail safe_get safe_call : go_inv.

(** ** Tactics *)

(** [safe I m] for a program built from the combinators. *)
Ltac safe_step :=
  first
    [ progress intros
    | match goal with
      | |- safe _ (match ?x with _ => _ end) => destruct x
      | |- safe _ (let '_ := ?x in _) => destruct x
      end
    | apply safe_bind | apply safe_for_each | apply safe_for_collect
    | apply safe_ignore | apply safe_try | apply safe_wrap | apply safe_when
    | apply safe_check | apply safe_check_val | apply safe_with_defer
    | solve [eauto with go_inv] ].
Ltac safe := repeat safe_step.
Ltac no_panic := unfold no_panic in *; safe; try (apply safe_modify; done).

(** [preserves I m] for a program built from the combinators. *)
Ltac preserves :=
  repeat first
    [ progress intros
    | match goal with
      | |- preserves _ (match ?x with _ => _ end) => destruct x
      | |- preserves _ (let '_ := ?x in _) => destruct x
      end
    | apply preserves_bind | apply preserves_for_each | apply preserves_for_collect
    | apply preserves_ignore | apply preserves_try | apply preserves_wrap | apply preserves_when
    | apply preserves_check | apply preserves_check_val | apply preserves_with_defer
    | apply preserves_deref | apply preserves_lift
    | solve [eauto with go_inv] ].

(** One step of a weakest precondition, from the outside in. *)
Ltac wp_step :=
  match goal with
  | |- wp (bind _ _) _ _ => apply wp_bind
  | |- wp (ret _) _ _ => apply wp_ret
  | |- wp (fail _) _ _ => apply wp_fail
  | |- wp get _ _ => apply wp_get
  | |- wp (modify _) _ _ => apply wp_modify
  | |- wp (call _) _ _ => apply wp_call; let r := fresh "r" in let w := fresh "w" in intros r w ?
  | |- wp (try _) _ _ => apply wp_try
  | |- wp (wrap _ _) _ _ => apply wp_wrap
  | |- wp (ignore _) _ _ => apply wp_ignore
  | |- wp (check _) _ _ => apply wp_check
  | |- wp (check_val _) _ _ => apply wp_check_val
  | |- wp (with_defer _ _) _ _ => apply wp_with_defer
  | |- wp (local_var _ _) _ _ => apply wp_local_var
  | |- wp (when _ _) _ _ => apply wp_when; let H := fresh "H" in intros H
  end; cbn [wp_then loc world calls].
Ltac wps := repeat wp_step.

(** A term without variables of the context. *)
Ltac closed_term t := assert_fails (idtac; match t with context [?x] => is_var x end).

(** Decide every comparison of two closed strings in the goal. *)
Ltac decide_keys :=
  repeat match goal with
  | |- context [bool_decide (?a = ?b)] =>
      closed_term a; closed_term b;
      let v := eval vm_compute in (bool_decide (a = b)) in
      match v with
      | true => rewrite (bool_decide_eq_true_2 (a = b)) by reflexivity
      | false => rewrite (bool_decide_eq_false_2 (a = b)) by (vm_compute; discriminate)
      end
  end.
