(* ===== verification/GoStrings.v ===== *)
(** * Go strings: the parts of [strings], [strconv], [encoding/hex] and
    [encoding/base64] the client uses

    A Go string or byte slice is a [string] of bytes. [TrimSpace] and [Fields]
    treat the six ASCII blanks as white space; the source only applies them to
    ASCII text (kernel files, UAPI answers). *)

From Stdlib Require Import ZArith Lia Ascii.
From stdpp Require Import base tactics list strings.
From S2P Require Import Prelude.

Definition newline : ascii := "010"%char.
Definition nl : string := String newline EmptyString.

Definition ascii_Z (c : ascii) : Z := Z.of_N (N_of_ascii c).
Definition Z_ascii (z : Z) : ascii := ascii_of_N (Z.to_N z).

Definition chr (c : ascii) : string := String c EmptyString.

(** [strings.Contains(s, string(c))] for one byte. *)
Fixpoint has_char (c : ascii) (s : string) : bool :=
  match s with
  | EmptyString => false
  | String x s' => Ascii.eqb x c || has_char c s'
  end.

(** [strings.Split] with a one-byte separator. *)
Fixpoint Split (c : ascii) (s : string) : list string :=
  match s with
  | EmptyString => [EmptyString]
  | String x s' =>
      if Ascii.eqb x c then EmptyString :: Split c s'
      else match Split c s' with
           | [] => [chr x]
           | p :: ps => String x p :: ps
           end
  end.

(** [strings.SplitN(s, sep, 2)] with a one-byte separator. *)
Fixpoint SplitN2 (c : ascii) (s : string) : list string :=
  match s with
  | EmptyString => [EmptyString]
  | String x s' =>
      if Ascii.eqb x c then [EmptyString; s']
      else match SplitN2 c s' with
           | [] => [chr x]
           | p :: ps => String x p :: ps
           end
  end.

(** [strings.Join]. *)
Fixpoint Join (l : list string) (sep : string) : string :=
  match l with
  | [] => EmptyString
  | [s] => s
  | s :: l' => s +:+ sep +:+ Join l' sep
  end.

Fixpoint HasPrefix (s p : string) {struct p} : bool :=
  match p, s with
  | EmptyString, _ => true
  | String a p', String b s' => Ascii.eqb a b && HasPrefix s' p'
  | String _ _, EmptyString => false
  end.

Fixpoint drop_prefix (p s : string) {struct p} : string :=
  match p, s with
  | String _ p', String _ s' => drop_prefix p' s'
  | _, _ => s
  end.

(** [strings.TrimPrefix]. *)
Definition TrimPrefix (s p : string) : string :=
  if HasPrefix s p then drop_prefix p s else s.

(** The slices [s[:n]] and [s[n:]] of a string that has [n] bytes. *)
Fixpoint slice_to (n : nat) (s : string) : string :=
  match n, s with S n', String c s' => String c (slice_to n' s') | _, _ => EmptyString end.
Fixpoint slice_from (n : nat) (s : string) : string :=
  match n, s with S n', String _ s' => slice_from n' s' | _, _ => s end.

Fixpoint srev_app (s acc : string) : string :=
  match s with
  | EmptyString => acc
  | String c s' => srev_app s' (String c acc)
  end.
Definition srev (s : string) : string := srev_app s EmptyString.

(** [strings.TrimSuffix]. *)
Definition TrimSuffix (s p : string) : string := srev (TrimPrefix (srev s) (srev p)).

Definition is_space (c : ascii) : bool :=
  let n := ascii_Z c in (n =? 32) || ((9 <=? n) && (n <=? 13)).

Fixpoint trim_left (f : ascii -> bool) (s : string) : string :=
  match s with
  | EmptyString => EmptyString
  | String c s' => if f c then trim_left f s' else s
  end.
(** [strings.TrimFunc]; [strings.TrimSpace]; [strings.Trim] with a set of bytes. *)
Definition TrimFunc (f : ascii -> bool) (s : string) : string :=
  srev (trim_left f (srev (trim_left f s))).
Definition TrimSpace (s : string) : string := TrimFunc is_space s.
Definition Trim (s cutset : string) : string := TrimFunc (fun c => has_char c cutset) s.

(** [strings.Fields]. *)
Fixpoint fields_aux (s cur : string) : list string :=
  match s with
  | EmptyString => match cur with EmptyString => [] | _ => [srev cur] end
  | String c s' =>
      if is_space c
      then match cur with
           | EmptyString => fields_aux s' EmptyString
           | _ => srev cur :: fields_aux s' EmptyString
           end
      else fields_aux s' (String c cur)
  end.
Definition Fields (s : string) : list string := fields_aux s EmptyString.

Fixpoint map_string (f : ascii -> ascii) (s : string) : string :=
  match s with
  | EmptyString => EmptyString
  | String c s' => String (f c) (map_string f s')
  end.
(** [strings.ToLower] on ASCII text; [strings.ReplaceAll] of one byte by another. *)
Definition lower_char (c : ascii) : ascii :=
  let n := ascii_Z c in if (65 <=? n) && (n <=? 90) then Z_ascii (n + 32) else c.
Definition ToLower (s : string) : string := map_string lower_char s.
Definition ReplaceAll (s : string) (old new : ascii) : string :=
  map_string (fun c => if Ascii.eqb c old then new else c) s.

(** ** Numbers *)

Definition digit (d : Z) : ascii := Z_ascii (48 + d).

Fixpoint dec_aux (fuel : nat) (n : Z) : string :=
  match fuel with
  | O => EmptyString
  | S f => if n <? 10 then chr (digit n) else dec_aux f (n / 10) +:+ chr (digit (n mod 10))
  end.
(** [fmt.Sprintf("%d", z)]: as many rounds of division as the number has bits. *)
Definition dec (n : Z) : string := dec_aux (S (Z.to_nat (Z.log2 n))) n.
Definition itoa (z : Z) : string :=
  if z <? 0 then String "-" (dec (- z)) else dec z.

Definition digit_val (c : ascii) : option Z :=
  let n := ascii_Z c in if (48 <=? n) && (n <=? 57) then Some (n - 48) else None.

Fixpoint parse_digits (s : string) (acc : Z) : option Z :=
  match s with
  | EmptyString => Some acc
  | String c s' =>
      match digit_val c with
      | Some d => parse_digits s' (acc * 10 + d)
      | None => None
      end
  end.

(** [strconv.ParseUint(s, 10, 64)] without the range check. *)
Definition parse_nat (s : string) : option Z :=
  match s with EmptyString => None | _ => parse_digits s 0 end.

Definition errSyntax : error := Sentinel "strconv.ErrSyntax".
Definition errRange : error := Sentinel "strconv.ErrRange".

(** [strconv.ParseInt(s, 10, 64)]. *)
Definition ParseInt (s : string) : Z + error :=
  let check (neg : bool) (digits : string) :=
    match parse_nat digits with
    | None => inr errSyntax
    | Some u =>
        if neg
        then if u <=? 2 ^ 63 then inl (- u) else inr errRange
        else if u <? 2 ^ 63 then inl u else inr errRange
    end in
  match s with
  | String "-" s' => check true s'
  | String "+" s' => check false s'
  | _ => check false s
  end.

(** [strconv.Atoi] on a 64-bit platform. *)
Definition Atoi (s : string) : Z + error := ParseInt s.

(** ** Hexadecimal *)

Definition hex_digit (d : Z) : ascii :=
  if d <? 10 then Z_ascii (48 + d) else Z_ascii (87 + d).

(** [hex.EncodeToString]. *)
Fixpoint hex_encode (s : string) : string :=
  match s with
  | EmptyString => EmptyString
  | String c s' =>
      let n := ascii_Z c in
      String (hex_digit (n / 16)) (String (hex_digit (n mod 16)) (hex_encode s'))
  end.

Definition hex_val (c : ascii) : option Z :=
  let n := ascii_Z c in
  if (48 <=? n) && (n <=? 57) then Some (n - 48)
  else if (97 <=? n) && (n <=? 102) then Some (n - 87)
  else if (65 <=? n) && (n <=? 70) then Some (n - 55)
  else None.

(** [hex.DecodeString]: an odd length or a byte that is no hex digit is an error. *)
Fixpoint hex_decode (s : string) : string + error :=
  match s with
  | EmptyString => inl EmptyString
  | String a (String b s') =>
      match hex_val a, hex_val b with
      | Some x, Some y =>
          match hex_decode s' with
          | inl r => inl (String (Z_ascii (16 * x + y)) r)
          | inr e => inr e
          end
      | _, _ => inr (New "encoding/hex: invalid byte")
      end
  | String _ EmptyString => inr (New "encoding/hex: odd length hex string")
  end.

(** ** Base 64, standard alphabet with padding *)

Definition b64_digit (d : Z) : ascii :=
  if d <? 26 then Z_ascii (65 + d)
  else if d <? 52 then Z_ascii (71 + d)
  else if d <? 62 then Z_ascii (d - 4)
  else if d =? 62 then "+"%char else "/"%char.

(** [base64.StdEncoding.EncodeToString]. *)
Fixpoint b64_encode (s : string) : string :=
  match s with
  | EmptyString => EmptyString
  | String a EmptyString =>
      let x := ascii_Z a in
      String (b64_digit (x / 4)) (String (b64_digit (x mod 4 * 16)) "==")
  | String a (String b EmptyString) =>
      let x := ascii_Z a in let y := ascii_Z b in
      String (b64_digit (x / 4)) (String (b64_digit (x mod 4 * 16 + y / 16))
        (String (b64_digit (y mod 16 * 4)) "="))
  | String a (String b (String c s')) =>
      let x := ascii_Z a in let y := ascii_Z b in let z := ascii_Z c in
      String (b64_digit (x / 4)) (String (b64_digit (x mod 4 * 16 + y / 16))
        (String (b64_digit (y mod 16 * 4 + z / 64)) (String (b64_digit (z mod 64))
          (b64_encode s'))))
  end.

Definition b64_val (c : ascii) : option Z :=
  let n := ascii_Z c in
  if (65 <=? n) && (n <=? 90) then Some (n - 65)
  else if (97 <=? n) && (n <=? 122) then Some (n - 71)
  else if (48 <=? n) && (n <=? 57) then Some (n + 4)
  else if n =? 43 then Some 62 else if n =? 47 then Some 63 else None.

(** [base64.StdEncoding.DecodeString] on padded groups of four. *)
Fixpoint b64_decode (s : string) : option string :=
  match s with
  | EmptyString => Some EmptyString
  | String a (String b (String c (String d s'))) =>
      match b64_val a, b64_val b with
      | Some x, Some y =>
          let o1 := Z_ascii (x * 4 + y / 16) in
          if Ascii.eqb c "=" then
            if Ascii.eqb d "=" then
              match s' with EmptyString => Some (String o1 EmptyString) | _ => None end
            else None
          else match b64_val c with
          | None => None
          | Some z =>
              let o2 := Z_ascii (y mod 16 * 16 + z / 4) in
              if Ascii.eqb d "=" then
                match s' with EmptyString => Some (String o1 (String o2 EmptyString)) | _ => None end
              else match b64_val d, b64_decode s' with
                   | Some t, Some r =>
                       Some (String o1 (String o2 (String (Z_ascii (z mod 4 * 64 + t)) r)))
                   | _, _ => None
                   end
          end
      | _, _ => None
      end
  | _ => None
  end.

(** ** Lemmas *)

Create HintDb go_str.

Fixpoint all_chars (P : ascii -> bool) (s : string) : bool :=
  match s with
  | EmptyString => true
  | String c s' => P c && all_chars P s'
  end.

Lemma app_empty_r (s : string) : s +:+ EmptyString = s.
Proof. induction s as [|c s IH]; simpl; [done | by rewrite IH]. Qed.

Lemma app_assoc_s (a b c : string) : (a +:+ b) +:+ c = a +:+ (b +:+ c).
Proof. induction a as [|x a IH]; simpl; [done | by rewrite IH]. Qed.

Lemma has_char_app c a b : has_char c (a +:+ b) = has_char c a || has_char c b.
Proof. induction a as [|x a IH]; simpl; [done |]. by rewrite IH, orb_assoc. Qed.

Lemma all_chars_app P a b : all_chars P (a +:+ b) = all_chars P a && all_chars P b.
Proof. induction a as [|x a IH]; simpl; [done |]. by rewrite IH, andb_assoc. Qed.

Lemma all_chars_impl P Q s :
  (forall c, P c = true -> Q c = true) -> all_chars P s = true -> all_chars Q s = true.
Proof.
  intros H. induction s as [|c s IH]; simpl; [done |].
  rewrite !andb_true_iff. intros [? ?]; split; auto.
Qed.

Lemma all_chars_has_char P c s : all_chars P s = true -> P c = false -> has_char c s = false.
Proof.
  intros Hs Hc. induction s as [|x s IH]; simpl in *; [done |].
  apply andb_true_iff in Hs as [Hx Hs]. rewrite IH by done.
  destruct (Ascii.eqb_spec x c); [congruence | done].
Qed.

Lemma srev_app_spec s acc t : srev_app s acc +:+ t = srev_app s (acc +:+ t).
Proof. revert acc. induction s as [|c s IH]; intros acc; simpl; [done | by rewrite IH]. Qed.

Lemma srev_cons c s : srev (String c s) = srev s +:+ chr c.
Proof. unfold srev. simpl. by rewrite srev_app_spec. Qed.

Lemma srev_app_distr a b : srev (a +:+ b) = srev b +:+ srev a.
Proof.
  induction a as [|c a IH]; simpl.
  - change (srev EmptyString) with EmptyString. by rewrite app_empty_r.
  - by rewrite !srev_cons, IH, app_assoc_s.
Qed.

Lemma srev_involutive s : srev (srev s) = s.
Proof. induction s as [|c s IH]; [done |]. by rewrite srev_cons, srev_app_distr, IH. Qed.

Lemma all_chars_srev P s : all_chars P (srev s) = all_chars P s.
Proof.
  induction s as [|c s IH]; [done |].
  rewrite srev_cons, all_chars_app, IH. simpl. by rewrite andb_true_r, andb_comm.
Qed.

Lemma trim_left_id f s : all_chars (fun c => negb (f c)) s = true -> trim_left f s = s.
Proof.
  destruct s as [|c s]; simpl; [done |]. intros [Hc _]%andb_true_iff.
  by destruct (f c).
Qed.

Lemma TrimFunc_id f s : all_chars (fun c => negb (f c)) s = true -> TrimFunc f s = s.
Proof.
  intros H. unfold TrimFunc. rewrite (trim_left_id f s) by done.
  rewrite trim_left_id by (by rewrite all_chars_srev). apply srev_involutive.
Qed.

Definition no_space (s : string) : bool := all_chars (fun c => negb (is_space c)) s.

Lemma TrimSpace_id s : no_space s = true -> TrimSpace s = s.
Proof. apply TrimFunc_id. Qed.

Lemma no_space_app a b : no_space (a +:+ b) = no_space a && no_space b.
Proof. apply all_chars_app. Qed.

Lemma no_space_cons c s : no_space (String c s) = negb (is_space c) && no_space s.
Proof. done. Qed.

Lemma no_space_newline s : no_space s = true -> has_char newline s = false.
Proof. intros H. by eapply all_chars_has_char. Qed.

Lemma HasPrefix_app p s : HasPrefix (p +:+ s) p = true.
Proof. induction p as [|c p IH]; simpl; [done |]. by rewrite Ascii.eqb_refl. Qed.

Lemma drop_prefix_app p s : drop_prefix p (p +:+ s) = s.
Proof. induction p as [|c p IH]; [by destruct s | exact IH]. Qed.

Lemma TrimPrefix_app p s : TrimPrefix (p +:+ s) p = s.
Proof. unfold TrimPrefix. by rewrite HasPrefix_app, drop_prefix_app. Qed.

Lemma HasPrefix_split s p : HasPrefix s p = true -> s = p +:+ drop_prefix p s.
Proof.
  revert s. induction p as [|c p IH]; intros [|x s]; simpl; try done.
  intros [Hc Hp]%andb_true_iff. apply Ascii.eqb_eq in Hc as ->. f_equal. by apply IH.
Qed.

Lemma TrimSuffix_app s p : TrimSuffix (s +:+ p) p = s.
Proof. unfold TrimSuffix. by rewrite srev_app_distr, TrimPrefix_app, srev_involutive. Qed.

Lemma length_app_s (a b : string) : String.length (a +:+ b) = (String.length a + String.length b)%nat.
Proof. induction a as [|c a IH]; [done | cbn; by rewrite IH]. Qed.

Lemma slice_to_app a b : slice_to (String.length a) (a +:+ b) = a.
Proof. induction a as [|c a IH]; [by destruct b | cbn; by rewrite IH]. Qed.
Lemma slice_from_app a b : slice_from (String.length a) (a +:+ b) = b.
Proof. induction a as [|c a IH]; [by destruct b | cbn; by rewrite IH]. Qed.

Lemma Split_free c s : has_char c s = false -> Split c s = [s].
Proof.
  induction s as [|x s IH]; simpl; [done |].
  intros [Hx Hs]%orb_false_iff. rewrite Hx. by rewrite IH.
Qed.

Lemma Split_nonempty c s : Split c s <> [].
Proof. destruct s; simpl; [done |]. repeat case_match; done. Qed.

Lemma Split_app c a s : has_char c a = false -> Split c (a +:+ String c s) = a :: Split c s.
Proof.
  induction a as [|x a IH]; simpl.
  - intros _. by rewrite Ascii.eqb_refl.
  - intros [Hx Ha]%orb_false_iff. rewrite Hx. by rewrite IH.
Qed.

Lemma Split_pieces_free c s : Forall (fun p => has_char c p = false) (Split c s).
Proof.
  induction s as [|x s IH]; simpl; [by repeat constructor |].
  destruct (Ascii.eqb x c) eqn:E; [by constructor |].
  destruct (Split c s) as [|p ps]; [constructor; [simpl; by rewrite E | done] |].
  inversion IH as [|? ? Hp Hps]; subst. constructor; [simpl; by rewrite E | done].
Qed.

Lemma Join_Split c s : Join (Split c s) (chr c) = s.
Proof.
  induction s as [|x s IH]; simpl; [done |].
  pose proof (Split_nonempty c s) as Hne.
  destruct (Ascii.eqb x c) eqn:E.
  - apply Ascii.eqb_eq in E as ->.
    destruct (Split c s) as [|p ps] eqn:Es; [done |]. simpl in *. by rewrite IH.
  - destruct (Split c s) as [|p ps]; [done |]. destruct ps; simpl in *; by rewrite IH.
Qed.

Lemma Split_Join c l :
  l <> [] -> Forall (fun p => has_char c p = false) l -> Split c (Join l (chr c)) = l.
Proof.
  intros Hne Hl. induction Hl as [|p l Hp Hl IH]; [done |].
  destruct l as [|q l]; [by apply Split_free |].
  change (Join (p :: q :: l) (chr c)) with (p +:+ String c (Join (q :: l) (chr c))).
  rewrite Split_app by done. f_equal. by apply IH.
Qed.

Lemma SplitN2_app c a s : has_char c a = false -> SplitN2 c (a +:+ String c s) = [a; s].
Proof.
  induction a as [|x a IH]; simpl.
  - intros _. by rewrite Ascii.eqb_refl.
  - intros [Hx Ha]%orb_false_iff. rewrite Hx. by rewrite IH.
Qed.

Lemma SplitN2_free c s : has_char c s = false -> SplitN2 c s = [s].
Proof.
  induction s as [|x s IH]; simpl; [done |].
  intros [Hx Hs]%orb_false_iff. rewrite Hx. by rewrite IH.
Qed.

(** Bytes as numbers. *)
Lemma ascii_Z_range c : 0 <= ascii_Z c < 256.
Proof.
  unfold ascii_Z. pose proof (N_ascii_bounded c). lia.
Qed.

Lemma Z_ascii_Z z : 0 <= z < 256 -> ascii_Z (Z_ascii z) = z.
Proof.
  intros Hz. unfold ascii_Z, Z_ascii. rewrite N_ascii_embedding by lia. lia.
Qed.

Lemma ascii_Z_inj a b : ascii_Z a = ascii_Z b -> a = b.
Proof.
  unfold ascii_Z. intros H. rewrite <- (ascii_N_embedding a), <- (ascii_N_embedding b).
  f_equal. lia.
Qed.

Lemma Z_ascii_ascii c : Z_ascii (ascii_Z c) = c.
Proof. apply ascii_Z_inj, Z_ascii_Z, ascii_Z_range. Qed.

(** Decimal numbers. *)
Definition is_digit (c : ascii) : bool := match digit_val c with Some _ => true | None => false end.

Lemma digit_val_digit d : 0 <= d < 10 -> digit_val (digit d) = Some d.
Proof.
  intros Hd. unfold digit_val, digit. rewrite Z_ascii_Z by lia.
  destruct (48 <=? 48 + d) eqn:?, (48 + d <=? 57) eqn:?; simpl; try lia. f_equal; lia.
Qed.

Lemma parse_digits_app a b acc :
  parse_digits (a +:+ b) acc = match parse_digits a acc with
                               | Some n => parse_digits b n
                               | None => None
                               end.
Proof.
  revert acc. induction a as [|c a IH]; intros acc; simpl; [done |].
  by destruct (digit_val c).
Qed.

Lemma dec_aux_spec fuel n :
  0 <= n < 2 ^ Z.of_nat fuel -> (0 < fuel)%nat ->
  parse_digits (dec_aux fuel n) 0 = Some n /\
  all_chars is_digit (dec_aux fuel n) = true /\ dec_aux fuel n <> EmptyString.
Proof.
  revert n. induction fuel as [|f IH]; intros n Hn Hf; [lia |]. simpl.
  destruct (Z.ltb_spec n 10) as [Hlt|Hge].
  - simpl. unfold is_digit. rewrite digit_val_digit by lia. auto.
  - assert (Hdiv : 0 <= n / 10 < 2 ^ Z.of_nat f).
    { rewrite Nat2Z.inj_succ, Z.pow_succ_r in Hn by lia.
      split; [apply Z.div_pos; lia | apply Z.div_lt_upper_bound; lia]. }
    assert (Hmod : 0 <= n mod 10 < 10) by (apply Z.mod_pos_bound; lia).
    destruct (decide (f = 0%nat)) as [->|Hf0].
    { simpl in Hdiv. pose proof (Z.div_str_pos n 10). lia. }
    destruct (IH (n / 10)) as (Hp & Ha & Hne); [done | lia |].
    rewrite parse_digits_app, Hp, all_chars_app, Ha. simpl.
    unfold is_digit. rewrite digit_val_digit by done. repeat split.
    + f_equal. rewrite (Z.div_mod n 10) at 3 by lia. lia.
    + destruct (dec_aux f (n / 10)); done.
Qed.

Lemma dec_spec n :
  0 <= n ->
  parse_digits (dec n) 0 = Some n /\ all_chars is_digit (dec n) = true /\ dec n <> EmptyString.
Proof.
  intros Hn. unfold dec. apply dec_aux_spec; [|lia].
  split; [done |]. rewrite Nat2Z.inj_succ, Z2Nat.id by apply Z.log2_nonneg.
  destruct (decide (n = 0)) as [->|]; [simpl; lia |].
  destruct (Z.log2_spec n) as [_ H]; lia.
Qed.

Lemma parse_nat_dec n : 0 <= n -> parse_nat (dec n) = Some n.
Proof.
  intros Hn. destruct (dec_spec n Hn) as (H & _ & Hne).
  unfold parse_nat. by destruct (dec n).
Qed.

Lemma dec_first_digit n c s : 0 <= n -> dec n = String c s -> is_digit c = true.
Proof.
  intros Hn E. destruct (dec_spec n Hn) as (_ & Ha & _). rewrite E in Ha. simpl in Ha.
  by apply andb_true_iff in Ha as [? _].
Qed.

Lemma ParseInt_itoa z : - 2 ^ 63 <= z < 2 ^ 63 -> ParseInt (itoa z) = inl z.
Proof.
  intros Hz. unfold itoa. destruct (Z.ltb_spec z 0) as [Hneg|Hpos].
  - unfold ParseInt. rewrite parse_nat_dec by lia.
    destruct (Z.leb_spec (- z) (2 ^ 63)); [f_equal; lia | lia].
  - unfold ParseInt. pose proof (parse_nat_dec z Hpos) as Hp.
    assert (Hlt : (z <? 2 ^ 63) = true) by lia.
    destruct (dec z) as [|c s] eqn:E; [done |].
    pose proof (dec_first_digit z c s Hpos E) as Hc.
    destruct (Ascii.eqb_spec c "-") as [->|]; [done |].
    destruct (Ascii.eqb_spec c "+") as [->|]; [done |].
    destruct c as [[] [] [] [] [] [] [] []]; try done; by rewrite Hp, Hlt.
Qed.

Definition is_int_char (c : ascii) : bool := is_digit c || Ascii.eqb c "-".

Lemma itoa_chars z : all_chars is_int_char (itoa z) = true.
Proof.
  assert (Hd : forall n, 0 <= n -> all_chars is_int_char (dec n) = true).
  { intros n Hn. destruct (dec_spec n Hn) as (_ & H & _).
    eapply all_chars_impl; [|done]. unfold is_int_char. by intros c ->. }
  unfold itoa. destruct (Z.ltb_spec z 0); [simpl; apply Hd; lia | by apply Hd].
Qed.

Lemma itoa_inj a b : itoa a = itoa b -> a = b.
Proof.
  unfold itoa. intros H.
  destruct (Z.ltb_spec a 0), (Z.ltb_spec b 0).
  - injection H as H.
    apply (f_equal parse_nat) in H. rewrite !parse_nat_dec in H by lia. injection H. lia.
  - symmetry in H. by apply dec_first_digit in H.
  - by apply dec_first_digit in H.
  - apply (f_equal parse_nat) in H. rewrite !parse_nat_dec in H by lia. by injection H.
Qed.

(** Hexadecimal. *)
Definition is_hex_char (c : ascii) : bool := match hex_val c with Some _ => true | None => false end.

Lemma hex_val_digit d : 0 <= d < 16 -> hex_val (hex_digit d) = Some d.
Proof.
  intros Hd. unfold hex_val, hex_digit. destruct (Z.ltb_spec d 10).
  - rewrite Z_ascii_Z by lia.
    destruct (48 <=? 48 + d) eqn:?, (48 + d <=? 57) eqn:?; simpl; try lia. f_equal; lia.
  - rewrite Z_ascii_Z by lia.
    destruct (48 <=? 87 + d) eqn:?, (87 + d <=? 57) eqn:?; simpl; try lia.
    destruct (97 <=? 87 + d) eqn:?, (87 + d <=? 102) eqn:?; simpl; try lia. f_equal; lia.
Qed.

Lemma byte_halves c : 0 <= ascii_Z c / 16 < 16 /\ 0 <= ascii_Z c mod 16 < 16.
Proof.
  pose proof (ascii_Z_range c). split; [|apply Z.mod_pos_bound; lia].
  split; [apply Z.div_pos; lia | apply Z.div_lt_upper_bound; lia].
Qed.

Lemma hex_decode_encode s : hex_decode (hex_encode s) = inl s.
Proof.
  induction s as [|c s IH]; simpl; [done |].
  pose proof (byte_halves c) as [Hq Hr].
  rewrite !hex_val_digit by done. rewrite IH.
  rewrite <- Z.div_mod by lia. by rewrite Z_ascii_ascii.
Qed.

Lemma hex_encode_chars s : all_chars is_hex_char (hex_encode s) = true.
Proof.
  induction s as [|c s IH]; simpl; [done |].
  pose proof (byte_halves c) as [Hq Hr]. unfold is_hex_char at 1 2.
  by rewrite !hex_val_digit by done.
Qed.

Lemma hex_encode_inj a b : hex_encode a = hex_encode b -> a = b.
Proof. intros H. apply (f_equal hex_decode) in H. rewrite !hex_decode_encode in H. by injection H. Qed.

(** A printable class used to show that numbers and keys hold no separator. *)
Lemma is_digit_not_space c : is_digit c = true -> is_space c = false.
Proof. destruct c as [[] [] [] [] [] [] [] []]; by vm_compute. Qed.
Lemma is_int_char_not_space c : is_int_char c = true -> negb (is_space c) = true.
Proof. destruct c as [[] [] [] [] [] [] [] []]; by vm_compute. Qed.
Lemma is_hex_char_not_space c : is_hex_char c = true -> negb (is_space c) = true.
Proof. destruct c as [[] [] [] [] [] [] [] []]; by vm_compute. Qed.

Lemma itoa_no_space z : no_space (itoa z) = true.
Proof. eapply all_chars_impl; [apply is_int_char_not_space | apply itoa_chars]. Qed.
Lemma hex_encode_no_space s : no_space (hex_encode s) = true.
Proof. eapply all_chars_impl; [apply is_hex_char_not_space | apply hex_encode_chars]. Qed.

#[export] Hint Resolve itoa_no_space hex_encode_no_space no_space_newline itoa_chars
  hex_encode_chars : go_str.
#[export] Hint Rewrite has_char_app all_chars_app no_space_app no_space_cons app_empty_r : go_str.

(** Base 64. *)
Lemma b64_val_digit d :
  0 <= d < 64 -> b64_val (b64_digit d) = Some d /\ Ascii.eqb (b64_digit d) "=" = false.
Proof.
  intros Hd.
  assert (H : forallb (fun d => bool_decide (b64_val (b64_digit d) = Some d)
                && negb (Ascii.eqb (b64_digit d) "=")) (map Z.of_nat (seq 0 64)) = true)
    by by vm_compute.
  rewrite forallb_forall in H. specialize (H d).
  rewrite andb_true_iff, bool_decide_eq_true, negb_true_iff in H. apply H.
  apply in_map_iff. exists (Z.to_nat d). split; [lia | apply in_seq; lia].
Qed.

Lemma string_ind3 (P : string -> Prop) :
  P EmptyString -> (forall a, P (String a EmptyString)) ->
  (forall a b, P (String a (String b EmptyString))) ->
  (forall a b c s, P s -> P (String a (String b (String c s)))) -> forall s, P s.
Proof.
  intros H0 H1 H2 H3. fix IH 1. intros [|a [|b [|c s]]]; [done | apply H1 | apply H2 |].
  apply H3, IH.
Qed.

Lemma b64_decode_encode s : b64_decode (b64_encode s) = Some s.
Proof.
  induction s as [|a|a b|a b c s IH] using string_ind3; [done | | |];
    pose proof (ascii_Z_range a) as Ha; try pose proof (ascii_Z_range b) as Hb;
    try pose proof (ascii_Z_range c) as Hc; cbn [b64_encode b64_decode];
    repeat match goal with |- context [b64_val (b64_digit ?d)] =>
      let H := fresh in let H' := fresh in
      assert (H : b64_val (b64_digit d) = Some d /\ Ascii.eqb (b64_digit d) "=" = false)
        by (apply b64_val_digit; Z.to_euclidean_division_equations; lia);
      destruct H as [H H']; rewrite ?H, ?H'; clear H H' end;
    rewrite ?IH; cbn -[Z.div Z.modulo Z.mul Z.add Z_ascii]; repeat f_equal;
    match goal with |- Z_ascii ?e = ?x => transitivity (Z_ascii (ascii_Z x)); [f_equal | apply Z_ascii_ascii] end;
    Z.to_euclidean_division_equations; lia.
Qed.
