(* ===== verification/Json.v ===== *)
(** * JSON, as [encoding/json] writes and reads it

    [MarshalIndent] and [Unmarshal] over the values the helper and the mini client
    keep in their files. [parse_MarshalIndent]: what is written is read back,
    with the bytes that are no UTF-8 replaced. *)

From Stdlib Require Import ZArith Lia Ascii.
From stdpp Require Import base tactics list strings sets.
From S2P Require Import Prelude GoStrings.

Inductive json :=
  | JNull
  | JBool (b : bool)
  | JNum (lit : string)
  | JStr (s : string)
  | JArr (l : list json)
  | JObj (m : list (string * json)).

(** ** UTF-8 *)

Definition byte_in (lo hi : Z) (c : ascii) : bool := (lo <=? ascii_Z c) && (ascii_Z c <=? hi).
Definition is_cont : ascii -> bool := byte_in 128 191.

(** The second byte of an encoding that starts with [b]. *)
Definition second_ok (b : Z) : ascii -> bool :=
  if b =? 224 then byte_in 160 191
  else if b =? 237 then byte_in 128 159
  else if b =? 240 then byte_in 144 191
  else if b =? 244 then byte_in 128 143
  else is_cont.

(** [utf8.DecodeRuneInString]: the length of the rune's encoding at the head, 0
    when there is none. *)
Definition rune_len (s : string) : nat :=
  match s with
  | EmptyString => 0
  | String c s1 =>
      let b := ascii_Z c in
      if b <? 128 then 1
      else if (194 <=? b) && (b <=? 223) then
        match s1 with
        | String c1 _ => if is_cont c1 then 2 else 0
        | _ => 0
        end
      else if (224 <=? b) && (b <=? 239) then
        match s1 with
        | String c1 (String c2 _) => if second_ok b c1 && is_cont c2 then 3 else 0
        | _ => 0
        end
      else if (240 <=? b) && (b <=? 244) then
        match s1 with
        | String c1 (String c2 (String c3 _)) => if second_ok b c1 && is_cont c2 && is_cont c3 then 4 else 0
        | _ => 0
        end
      else 0
  end.

(** [utf8.EncodeRune] for a rune that is no surrogate half. *)
Definition EncodeRune (r : Z) : string :=
  if r <? 128 then chr (Z_ascii r)
  else if r <? 2048 then String (Z_ascii (192 + r / 64)) (chr (Z_ascii (128 + r mod 64)))
  else if r <? 65536 then
    String (Z_ascii (224 + r / 4096)) (String (Z_ascii (128 + r / 64 mod 64)) (chr (Z_ascii (128 + r mod 64))))
  else
    String (Z_ascii (240 + r / 262144)) (String (Z_ascii (128 + r / 4096 mod 64))
      (String (Z_ascii (128 + r / 64 mod 64)) (chr (Z_ascii (128 + r mod 64))))).

Definition RuneError : Z := 65533.

(** [strings.ToValidUTF8] with the replacement character; [raw] bytes of a rune are
    still to be copied. *)
Fixpoint valid_from (raw : nat) (s : string) : string :=
  match s with
  | EmptyString => EmptyString
  | String c s' =>
      match raw with
      | S n => String c (valid_from n s')
      | O =>
          match rune_len s with
          | O => EncodeRune RuneError +:+ valid_from 0 s'
          | S n => String c (valid_from n s')
          end
      end
  end.
Definition to_valid (s : string) : string := valid_from 0 s.

(** ** Writing *)

Definition quote_char : ascii := "034"%char.
Definition backslash : ascii := "092"%char.

(** [appendString] on an ASCII byte, with [escapeHTML]. *)
Definition escape_ascii (c : ascii) : string :=
  let b := ascii_Z c in
  if Ascii.eqb c quote_char || Ascii.eqb c backslash then String backslash (chr c)
  else if b =? 10 then "\n" else if b =? 13 then "\r" else if b =? 9 then "\t"
  else if (b <? 32) || Ascii.eqb c "<" || Ascii.eqb c ">" || Ascii.eqb c "&" then
    "\u00" +:+ String (hex_digit (b / 16)) (chr (hex_digit (b mod 16)))
  else chr c.

(** U+2028 and U+2029, whose encodings are E2 80 A8 and E2 80 A9. *)
Definition line_separator (s : string) : bool :=
  match s with
  | String a (String b (String c _)) => (ascii_Z a =? 226) && (ascii_Z b =? 128) && ((ascii_Z c =? 168) || (ascii_Z c =? 169))
  | _ => false
  end.

Fixpoint escape_from (raw : nat) (s : string) : string :=
  match s with
  | EmptyString => EmptyString
  | String c s' =>
      match raw with
      | S n => String c (escape_from n s')
      | O =>
          if ascii_Z c <? 128 then escape_ascii c +:+ escape_from 0 s'
          else match rune_len s with
               | O => "\ufffd" +:+ escape_from 0 s'
               | S n =>
                   if line_separator s then
                     match s' with
                     | String _ (String d s3) => "\u202" +:+ String (hex_digit (ascii_Z d - 160)) (escape_from 0 s3)
                     | _ => EmptyString
                     end
                   else String c (escape_from n s')
               end
      end
  end.
Definition quote (s : string) : string := String quote_char (escape_from 0 s +:+ chr quote_char).

Fixpoint indentation (k : nat) : string :=
  match k with O => EmptyString | S k' => "  " +:+ indentation k' end.
(** A new line at depth [k]. *)
Definition nl_at (k : nat) : string := nl +:+ indentation k.

Fixpoint write (k : nat) (v : json) : string :=
  match v with
  | JNull => "null"
  | JBool true => "true"
  | JBool false => "false"
  | JNum lit => lit
  | JStr s => quote s
  | JArr [] => "[]"
  | JArr l =>
      "[" +:+ nl_at (S k) +:+ Join (map (write (S k)) l) ("," +:+ nl_at (S k)) +:+ nl_at k +:+ "]"
  | JObj [] => "{}"
  | JObj m =>
      "{" +:+ nl_at (S k) +:+
      Join (map (fun kv => quote kv.1 +:+ ": " +:+ write (S k) kv.2) m) ("," +:+ nl_at (S k)) +:+
      nl_at k +:+ "}"
  end.

(** [json.MarshalIndent(v, EmptyString, two blanks)]. *)
Definition MarshalIndent (v : json) : string := write 0 v.

(** ** Reading *)

Definition is_json_space (c : ascii) : bool :=
  let b := ascii_Z c in (b =? 32) || (b =? 9) || (b =? 10) || (b =? 13).
Definition skip_ws : string -> string := trim_left is_json_space.

(** [getu4]: four hexadecimal digits. *)
Definition hex4 (a b c d : ascii) : option Z :=
  match hex_val a, hex_val b, hex_val c, hex_val d with
  | Some x, Some y, Some z, Some t => Some (((x * 16 + y) * 16 + z) * 16 + t)
  | _, _, _, _ => None
  end.

Definition simple_escape (c : ascii) : option ascii :=
  if Ascii.eqb c quote_char || Ascii.eqb c backslash || Ascii.eqb c "/" then Some c
  else if Ascii.eqb c "b" then Some (Z_ascii 8)
  else if Ascii.eqb c "f" then Some (Z_ascii 12)
  else if Ascii.eqb c "n" then Some (Z_ascii 10)
  else if Ascii.eqb c "r" then Some (Z_ascii 13)
  else if Ascii.eqb c "t" then Some (Z_ascii 9)
  else None.

Definition cons_str (t : string) (r : option (string * string)) : option (string * string) :=
  match r with Some (s, rest) => Some (t +:+ s, rest) | None => None end.

(** The string after an opening quote, and what follows it ([unquote]); a lone
    surrogate half becomes the replacement character. *)
Fixpoint read_str (raw : nat) (s : string) : option (string * string) :=
  match s with
  | EmptyString => None
  | String c s' =>
      match raw with
      | S n => cons_str (chr c) (read_str n s')
      | O =>
          if Ascii.eqb c quote_char then Some (EmptyString, s')
          else if Ascii.eqb c backslash then
            match s' with
            | String "u" (String h1 (String h2 (String h3 (String h4 s6)))) =>
                match hex4 h1 h2 h3 h4 with
                | None => None
                | Some r =>
                    if (55296 <=? r) && (r <? 57344) then
                      match s6 with
                      | String "092" (String "u" (String g1 (String g2 (String g3 (String g4 s12))))) =>
                          match hex4 g1 g2 g3 g4 with
                          | None => None
                          | Some r2 =>
                              if (r <? 56320) && (56320 <=? r2) && (r2 <? 57344) then
                                cons_str (EncodeRune ((r - 55296) * 1024 + (r2 - 56320) + 65536)) (read_str 0 s12)
                              else cons_str (EncodeRune RuneError) (read_str 0 s6)
                          end
                      | _ => cons_str (EncodeRune RuneError) (read_str 0 s6)
                      end
                    else cons_str (EncodeRune r) (read_str 0 s6)
                end
            | String e s2 =>
                match simple_escape e with
                | Some x => cons_str (chr x) (read_str 0 s2)
                | None => None
                end
            | EmptyString => None
            end
          else if ascii_Z c <? 32 then None
          else match rune_len s with
               | O => cons_str (EncodeRune RuneError) (read_str 0 s')
               | S n => cons_str (chr c) (read_str n s')
               end
      end
  end.

(** What follows the byte [c], when [s] starts with it. *)
Definition expect (c : ascii) (s : string) : option string :=
  match s with String x s' => if Ascii.eqb x c then Some s' else None | EmptyString => None end.

(** The longest prefix of digits. *)
Fixpoint take_digits (s : string) : string * string :=
  match s with
  | String c s' => if is_digit c then (String c (take_digits s').1, (take_digits s').2) else (EmptyString, s)
  | EmptyString => (EmptyString, EmptyString)
  end.

(** A number, as its text: the integer part has no leading zero. *)
Definition read_int_part (s : string) : option (string * string) :=
  match expect "0" s with
  | Some r => Some ("0", r)
  | None =>
      match (take_digits s).1 with EmptyString => None | _ => Some (take_digits s) end
  end.
Definition read_fraction (s : string) : option (string * string) :=
  match expect "." s with
  | Some r =>
      match (take_digits r).1 with
      | EmptyString => None
      | d => Some (String "." d, (take_digits r).2)
      end
  | None => Some (EmptyString, s)
  end.
Definition read_exponent (s : string) : option (string * string) :=
  match s with
  | String c r =>
      if Ascii.eqb c "e" || Ascii.eqb c "E" then
        let '(sign, r1) := match r with
                           | String x r1 => if Ascii.eqb x "+" || Ascii.eqb x "-" then (chr x, r1) else (EmptyString, r)
                           | EmptyString => (EmptyString, r)
                           end in
        match (take_digits r1).1 with
        | EmptyString => None
        | d => Some (String c (sign +:+ d), (take_digits r1).2)
        end
      else Some (EmptyString, s)
  | EmptyString => Some (EmptyString, s)
  end.
Definition read_unsigned (s : string) : option (string * string) :=
  match read_int_part s with
  | None => None
  | Some (i, s1) =>
      match read_fraction s1 with
      | None => None
      | Some (f, s2) =>
          match read_exponent s2 with
          | None => None
          | Some (e, s3) => Some (i +:+ f +:+ e, s3)
          end
      end
  end.
Definition read_number (s : string) : option (string * string) :=
  match expect "-" s with
  | Some r => cons_str "-" (read_unsigned r)
  | None => read_unsigned s
  end.

(** What follows [lit], when [s] starts with it. *)
Definition literal (lit s : string) : option string :=
  if HasPrefix s lit then Some (drop_prefix lit s) else None.

(** A value that is no string, array or object. *)
Definition read_scalar (s : string) : option (json * string) :=
  match literal "null" s, literal "true" s, literal "false" s with
  | Some r, _, _ => Some (JNull, r)
  | None, Some r, _ => Some (JBool true, r)
  | None, None, Some r => Some (JBool false, r)
  | None, None, None => match read_number s with Some (l, r) => Some (JNum l, r) | None => None end
  end.

(** Values nest at most this deep ([maxNestingDepth]). *)
Definition max_depth : Z := 10000.

Fixpoint read_value (fuel : nat) (depth : Z) (s : string) : option (json * string) :=
  match fuel with
  | O => None
  | S f =>
      match skip_ws s with
      | EmptyString => None
      | String c s' =>
          if Ascii.eqb c quote_char then
            match read_str 0 s' with Some (t, r) => Some (JStr t, r) | None => None end
          else if Ascii.eqb c "{" then
            if max_depth <=? depth then None else
            match expect "}" (skip_ws s') with
            | Some r => Some (JObj [], r)
            | None => match read_members f (depth + 1) s' with Some (m, r) => Some (JObj m, r) | None => None end
            end
          else if Ascii.eqb c "[" then
            if max_depth <=? depth then None else
            match expect "]" (skip_ws s') with
            | Some r => Some (JArr [], r)
            | None => match read_elems f (depth + 1) s' with Some (l, r) => Some (JArr l, r) | None => None end
            end
          else read_scalar (String c s')
      end
  end
with read_elems (fuel : nat) (depth : Z) (s : string) : option (list json * string) :=
  match fuel with
  | O => None
  | S f =>
      match read_value f depth s with
      | None => None
      | Some (v, r) =>
          match expect "," (skip_ws r), expect "]" (skip_ws r) with
          | Some r', _ => match read_elems f depth r' with Some (l, r2) => Some (v :: l, r2) | None => None end
          | None, Some r' => Some ([v], r')
          | None, None => None
          end
      end
  end
with read_members (fuel : nat) (depth : Z) (s : string) : option (list (string * json) * string) :=
  match fuel with
  | O => None
  | S f =>
      match expect quote_char (skip_ws s) ≫= read_str 0 with
      | None => None
      | Some (k, r) =>
          match expect ":" (skip_ws r) ≫= read_value f depth with
          | None => None
          | Some (v, r2) =>
              match expect "," (skip_ws r2), expect "}" (skip_ws r2) with
              | Some r3, _ =>
                  match read_members f depth r3 with Some (m, r4) => Some ((k, v) :: m, r4) | None => None end
              | None, Some r3 => Some ([(k, v)], r3)
              | None, None => None
              end
          end
      end
  end.

(** The syntax half of [json.Unmarshal]: one value, and nothing but white space. *)
Definition parse (s : string) : option json :=
  match read_value (2 * String.length s + 2) 0 s with
  | Some (v, r) => match skip_ws r with EmptyString => Some v | _ => None end
  | None => None
  end.

(** ** Storing a value in a Go variable

    The other half of [json.Unmarshal]. [None] is a type mismatch, after which Go
    goes on storing but returns an error; [null] leaves what is there. *)
Definition into_string (v : json) (old : string) : option string :=
  match v with JStr s => Some s | JNull => Some old | _ => None end.
Definition into_int (v : json) (old : Z) : option Z :=
  match v with
  | JNum lit => match ParseInt lit with inl z => Some z | inr _ => None end
  | JNull => Some old
  | _ => None
  end.

(** A struct, by the function that stores one member. *)
Definition into_struct {A} (member : string -> json -> A -> option A) (v : json) (old : A) : option A :=
  match v with
  | JNull => Some old
  | JObj m => foldl (fun a kv => a ≫= member kv.1 kv.2) (Some old) m
  | _ => None
  end.

(** A slice is nil ([None]) or a list of elements; [back] is its backing array,
    whose elements are stored into where they are, the ones beyond the length
    included. The result is the slice and its backing array. *)
Fixpoint into_elems {A} (elem : json -> A -> option A) (zero : A) (l : list json) (back : list A) : option (list A) :=
  match l with
  | [] => Some []
  | v :: l' =>
      a ← elem v (default zero (head back));
      as_ ← into_elems elem zero l' (tail back);
      Some (a :: as_)
  end.
Definition into_slice {A} (elem : json -> A -> option A) (zero : A) (v : json) (back : list A) : option (option (list A) * list A) :=
  match v with
  | JNull => Some (None, [])
  | JArr [] => Some (Some [], [])
  | JArr l => a ← into_elems elem zero l back; Some (Some a, a ++ drop (length l) back)
  | _ => None
  end.

(** Whether a member's name is that of a field: [strings.EqualFold] for an ASCII
    name, where a long s and the Kelvin sign fold to letters. *)
Fixpoint fold_name (s : string) : string :=
  match s with
  | String "197" (String "191" s') => String "s" (fold_name s')
  | String "226" (String "132" (String "170" s')) => String "k" (fold_name s')
  | String c s' => String (lower_char c) (fold_name s')
  | EmptyString => EmptyString
  end.
Definition is_field (name key : string) : bool := bool_decide (fold_name key = ToLower name).

(** ** Reading consumes its input *)

Lemma string_length_ind (P : string -> Prop) :
  (forall s, (forall s', (String.length s' < String.length s)%nat -> P s') -> P s) -> forall s, P s.
Proof.
  intros H s. remember (String.length s) as n eqn:E. revert s E. induction n as [n IH] using lt_wf_ind.
  intros s ->. apply H. intros s' Hs. by apply (IH _ Hs).
Qed.

Lemma trim_left_length f s : (String.length (trim_left f s) <= String.length s)%nat.
Proof. induction s as [|c s IH]; [done | cbn; destruct (f c); cbn; lia]. Qed.

Lemma drop_prefix_length p s : (String.length (drop_prefix p s) <= String.length s)%nat.
Proof. revert s. induction p as [|a p IH]; intros [|c s]; cbn; [lia.. |]. specialize (IH s). lia. Qed.

Lemma cons_str_Some t r s rest :
  cons_str t r = Some (s, rest) -> exists s', r = Some (s', rest) /\ s = t +:+ s'.
Proof. destruct r as [[s' r']|]; [|done]. intros [= <- <-]. eauto. Qed.

Lemma read_str_shorter raw s t r :
  read_str raw s = Some (t, r) -> (String.length r < String.length s)%nat.
Proof.
  revert raw t r. induction s as [s IH] using string_length_ind. intros raw t r.
  destruct s as [|c s]; [done |]. cbn [read_str].
  assert (Hs : forall raw' s' t' t0, (String.length s' < String.length (String c s))%nat ->
    cons_str t0 (read_str raw' s') = Some (t', r) -> (String.length r < String.length (String c s))%nat).
  { intros raw' s' t' t0 Hl (s2 & H & _)%cons_str_Some.
    specialize (IH s' Hl raw' s2 r H). lia. }
  repeat case_match; try done; try (intros [= <- <-]; cbn; lia);
    intros H'; (eapply Hs; [|exact H']); subst; cbn; lia.
Qed.

Lemma expect_length c s r : expect c s = Some r -> String.length s = S (String.length r).
Proof. destruct s as [|x s]; [done |]. cbn. by destruct (Ascii.eqb x c); [intros [= ->] |]. Qed.

Lemma take_digits_length s :
  (String.length (take_digits s).1 + String.length (take_digits s).2 = String.length s)%nat.
Proof. induction s as [|c s IH]; [done |]. cbn. destruct (is_digit c); cbn; lia. Qed.

Lemma read_int_part_shorter s i r : read_int_part s = Some (i, r) -> (String.length r < String.length s)%nat.
Proof.
  unfold read_int_part. destruct (expect "0" s) as [r'|] eqn:E.
  - intros [= <- <-]. apply expect_length in E. lia.
  - pose proof (take_digits_length s) as H. destruct (take_digits s) as [[|c d] r']; cbn in *; [done |].
    intros [= <- <-]. lia.
Qed.

Lemma read_fraction_length s f r : read_fraction s = Some (f, r) -> (String.length r <= String.length s)%nat.
Proof.
  unfold read_fraction. destruct (expect "." s) as [r'|] eqn:E; [|by intros [= <- <-]].
  apply expect_length in E. pose proof (take_digits_length r') as H.
  destruct (take_digits r') as [[|c d] r1]; cbn in *; [done |]. intros [= <- <-]. lia.
Qed.

Lemma read_exponent_length s e r : read_exponent s = Some (e, r) -> (String.length r <= String.length s)%nat.
Proof.
  unfold read_exponent. destruct s as [|c s]; [by intros [= <- <-] |].
  destruct (_ || _); [|by intros [= <- <-]].
  assert (H : forall sign r1, (String.length r1 <= String.length s)%nat ->
    match (take_digits r1).1 with
    | EmptyString => None
    | d => Some (String c (sign +:+ d), (take_digits r1).2)
    end = Some (e, r) -> (String.length r <= String.length (String c s))%nat).
  { intros sign r1 Hl. pose proof (take_digits_length r1). destruct (take_digits r1) as [[|x d] r2]; cbn in *; [done |].
    intros [= <- <-]. lia. }
  destruct s as [|x s]; [by apply H |]. destruct (_ || _); apply H; cbn; lia.
Qed.

Lemma read_unsigned_shorter s l r : read_unsigned s = Some (l, r) -> (String.length r < String.length s)%nat.
Proof.
  unfold read_unsigned. destruct (read_int_part s) as [[i s1]|] eqn:E1; [|done].
  destruct (read_fraction s1) as [[f s2]|] eqn:E2; [|done]. destruct (read_exponent s2) as [[e s3]|] eqn:E3; [|done].
  intros [= _ <-]. apply read_int_part_shorter in E1. apply read_fraction_length in E2.
  apply read_exponent_length in E3. lia.
Qed.

Lemma read_number_shorter s l r : read_number s = Some (l, r) -> (String.length r < String.length s)%nat.
Proof.
  unfold read_number. destruct (expect "-" s) as [s0|] eqn:E; [|apply read_unsigned_shorter].
  apply expect_length in E. intros (s' & H & _)%cons_str_Some. apply read_unsigned_shorter in H. lia.
Qed.

Lemma literal_length lit s r :
  literal lit s = Some r -> String.length s = (String.length lit + String.length r)%nat.
Proof.
  unfold literal. destruct (HasPrefix s lit) eqn:E; [|done]. intros [= <-].
  apply HasPrefix_split in E. by rewrite E at 1; rewrite length_app_s.
Qed.

Lemma read_scalar_shorter s v r : read_scalar s = Some (v, r) -> (String.length r < String.length s)%nat.
Proof.
  unfold read_scalar.
  destruct (literal "null" s) eqn:E1; [intros [= _ <-]; apply literal_length in E1; cbn in E1; lia |].
  destruct (literal "true" s) eqn:E2; [intros [= _ <-]; apply literal_length in E2; cbn in E2; lia |].
  destruct (literal "false" s) eqn:E3; [intros [= _ <-]; apply literal_length in E3; cbn in E3; lia |].
  destruct (read_number s) as [[l r']|] eqn:E; [|done]. intros [= _ <-]. by eapply read_number_shorter.
Qed.

Lemma skip_ws_length s : (String.length (skip_ws s) <= String.length s)%nat.
Proof. apply trim_left_length. Qed.

(** Reading one value, some elements or some members, as [read] does with [f]. *)
Definition shorter {A} (read : string -> option (A * string)) : Prop :=
  forall s a r, read s = Some (a, r) -> (String.length r < String.length s)%nat.

Lemma read_shorter f : forall d,
  shorter (read_value f d) /\ shorter (read_elems f d) /\ shorter (read_members f d).
Proof.
  induction f as [|f IH]; intros d; [done |].
  split; [|split]; intros s a r; cbn [read_value read_elems read_members]; pose proof (skip_ws_length s) as Hw.
  - destruct (skip_ws s) as [|c s'] eqn:Es; [done |]. cbn in Hw. pose proof (skip_ws_length s') as Hw'.
    destruct (IH (d + 1)) as (_ & IHe & IHm).
    destruct (Ascii.eqb c quote_char).
    { destruct (read_str 0 s') as [[t r']|] eqn:E; [|done]. intros [= _ <-]. apply read_str_shorter in E. lia. }
    destruct (Ascii.eqb c "{").
    { destruct (max_depth <=? d); [done |]. destruct (expect "}" _) as [r'|] eqn:E.
      - intros [= _ <-]. apply expect_length in E. lia.
      - destruct (read_members f _ s') as [[m r']|] eqn:E'; [|done]. intros [= _ <-]. apply IHm in E'. lia. }
    destruct (Ascii.eqb c "[").
    { destruct (max_depth <=? d); [done |]. destruct (expect "]" _) as [r'|] eqn:E.
      - intros [= _ <-]. apply expect_length in E. lia.
      - destruct (read_elems f _ s') as [[m r']|] eqn:E'; [|done]. intros [= _ <-]. apply IHe in E'. lia. }
    intros H%read_scalar_shorter. cbn in H. lia.
  - destruct (IH d) as (IHv & IHe & _).
    destruct (read_value f d s) as [[v r1]|] eqn:E; [|done]. apply IHv in E. pose proof (skip_ws_length r1).
    destruct (expect "," _) as [r2|] eqn:E1.
    + apply expect_length in E1. destruct (read_elems f d r2) as [[l r3]|] eqn:E2; [|done]. intros [= _ <-].
      apply IHe in E2. lia.
    + destruct (expect "]" _) as [r2|] eqn:E2; [|done]. intros [= _ <-]. apply expect_length in E2. lia.
  - destruct (IH d) as (IHv & _ & IHm).
    destruct (expect quote_char _) as [s1|] eqn:E0; [|done]. apply expect_length in E0. cbn [mbind option_bind].
    destruct (read_str 0 s1) as [[k r0]|] eqn:E; [|done]. apply read_str_shorter in E. pose proof (skip_ws_length r0).
    destruct (expect ":" _) as [r1|] eqn:E1; [|done]. apply expect_length in E1. cbn [mbind option_bind].
    destruct (read_value f d r1) as [[v r2]|] eqn:E2; [|done]. apply IHv in E2. pose proof (skip_ws_length r2).
    destruct (expect "," _) as [r3|] eqn:E3.
    + apply expect_length in E3. destruct (read_members f d r3) as [[l r4]|] eqn:E4; [|done]. intros [= _ <-].
      apply IHm in E4. lia.
    + destruct (expect "}" _) as [r3|] eqn:E4; [|done]. intros [= _ <-]. apply expect_length in E4. lia.
Qed.

(** Enough fuel: two rounds for each byte. *)
Lemma read_fuel n : forall s d f f', (String.length s <= n)%nat ->
  ((2 * n + 1 <= f)%nat -> (2 * n + 1 <= f')%nat -> read_value f d s = read_value f' d s) /\
  ((2 * n + 2 <= f)%nat -> (2 * n + 2 <= f')%nat ->
     read_elems f d s = read_elems f' d s /\ read_members f d s = read_members f' d s).
Proof.
  induction n as [n IH] using lt_wf_ind. intros s d f f' Hs.
  assert (Hv : (2 * n + 1 <= f)%nat -> (2 * n + 1 <= f')%nat -> forall s0 d0, (String.length s0 < n)%nat ->
    read_elems (pred f) d0 s0 = read_elems (pred f') d0 s0 /\ read_members (pred f) d0 s0 = read_members (pred f') d0 s0).
  { intros H1 H2 s0 d0 Hl. apply (IH (String.length s0)); lia. }
  assert (Hm : (2 * n + 2 <= f)%nat -> (2 * n + 2 <= f')%nat -> forall s0 d0, (String.length s0 < n)%nat ->
    read_value (pred f) d0 s0 = read_value (pred f') d0 s0 /\
    read_elems (pred f) d0 s0 = read_elems (pred f') d0 s0 /\ read_members (pred f) d0 s0 = read_members (pred f') d0 s0).
  { intros H1 H2 s0 d0 Hl. split; [apply (IH (String.length s0)); lia | apply Hv; lia]. }
  assert (Hval : (2 * n + 1 <= f)%nat -> (2 * n + 1 <= f')%nat -> read_value f d s = read_value f' d s).
  { intros H1 H2. specialize (Hv H1 H2). destruct f as [|f], f' as [|f']; [lia.. |]. cbn [pred] in Hv. cbn [read_value].
    pose proof (skip_ws_length s) as Hw. destruct (skip_ws s) as [|c s']; [done |]. cbn in Hw.
    destruct (Hv s' (d + 1)) as [-> ->]; [lia |]. done. }
  split; [done |]. intros H1 H2. specialize (Hm H1 H2). clear Hv.
  destruct f as [|f], f' as [|f']; [lia.. |]. cbn [pred] in Hm.
  assert (Hval' : forall s0, (String.length s0 <= n)%nat -> read_value f d s0 = read_value f' d s0).
  { intros s0 H0. destruct (decide (String.length s0 < n)%nat) as [Hl|Hl]; [by apply Hm |].
    clear Hval. destruct f as [|f], f' as [|f']; [lia.. |]. cbn [read_value].
    pose proof (skip_ws_length s0) as Hw. destruct (skip_ws s0) as [|c s']; [done |]. cbn in Hw.
    destruct (IH (String.length s')%nat ltac:(lia) s' (d + 1) f f' ltac:(lia)) as [_ [-> ->]]; [lia.. |]. done. }
  split; cbn [read_elems read_members].
  - rewrite Hval' by done. destruct (read_value f' d s) as [[v r]|] eqn:E; [|done].
    apply read_shorter in E. pose proof (skip_ws_length r).
    destruct (expect "," _) as [r'|] eqn:E1; [|done]. apply expect_length in E1.
    destruct (Hm r' d) as (_ & -> & _); [lia | done].
  - pose proof (skip_ws_length s). destruct (expect quote_char _) as [s1|] eqn:E0; [|done]. apply expect_length in E0.
    cbn [mbind option_bind]. destruct (read_str 0 s1) as [[k r0]|] eqn:E; [|done]. apply read_str_shorter in E.
    pose proof (skip_ws_length r0). destruct (expect ":" _) as [r1|] eqn:E1; [|done]. apply expect_length in E1.
    cbn [mbind option_bind]. rewrite Hval' by lia. destruct (read_value f' d r1) as [[v r2]|] eqn:E2; [|done].
    apply read_shorter in E2. pose proof (skip_ws_length r2). destruct (expect "," _) as [r3|] eqn:E3; [|done].
    apply expect_length in E3. destruct (Hm r3 d) as (_ & _ & ->); [lia | done].
Qed.

(** [parse] has enough fuel: more changes nothing. *)
Lemma parse_fuel s f :
  (2 * String.length s + 2 <= f)%nat ->
  read_value f 0 s = read_value (2 * String.length s + 2) 0 s.
Proof. intros Hf. apply (read_fuel (String.length s)); lia. Qed.

(** ** Strings are read back *)

Lemma cons_str_cons a b r : cons_str a (cons_str b r) = cons_str (a +:+ b) r.
Proof. destruct r as [[s rest]|]; [|done]. cbn. by rewrite app_assoc_s. Qed.

(** The bytes of a rune after the first are copied by all three functions. *)
Lemma escape_raw u s : escape_from (String.length u) (u +:+ s) = u +:+ escape_from 0 s.
Proof. induction u as [|c u IH]; [done |]. cbn. by rewrite IH. Qed.
Lemma valid_raw u s : valid_from (String.length u) (u +:+ s) = u +:+ valid_from 0 s.
Proof. induction u as [|c u IH]; [done |]. cbn. by rewrite IH. Qed.
Lemma read_raw u s : read_str (String.length u) (u +:+ s) = cons_str u (read_str 0 s).
Proof.
  induction u as [|c u IH]; [cbn; by destruct (read_str 0 s) as [[]|] |]. cbn [String.length String.append read_str].
  rewrite IH, cons_str_cons. done.
Qed.

Lemma rune_tail c s n :
  128 <= ascii_Z c -> rune_len (String c s) = S n ->
  exists u s', s = u +:+ s' /\ String.length u = n /\ forall s2, rune_len (String c (u +:+ s2)) = S n.
Proof.
  intros Hc. cbn [rune_len]. rewrite (proj2 (Z.ltb_ge _ _) Hc).
  destruct (_ && _); [|destruct (_ && _); [|destruct (_ && _); [|done]]].
  - destruct s as [|c1 s1]; [done |]. destruct (is_cont c1) eqn:E; [|done]. intros [= <-].
    exists (chr c1), s1. repeat split. intros s2. unfold chr. cbn [String.append]. by rewrite E.
  - destruct s as [|c1 [|c2 s1]]; [done.. |]. destruct (_ && _) eqn:E; [|done]. intros [= <-].
    exists (String c1 (chr c2)), s1. repeat split. intros s2. unfold chr. cbn [String.append]. by rewrite E.
  - destruct s as [|c1 [|c2 [|c3 s1]]]; [done.. |]. destruct (_ && _) eqn:E; [|done]. intros [= <-].
    exists (String c1 (String c2 (chr c3))), s1. repeat split. intros s2. unfold chr. cbn [String.append]. by rewrite E.
Qed.

Lemma ascii_case (P : ascii -> Prop) : (forall z, 0 <= z < 256 -> P (Z_ascii z)) -> forall c, P c.
Proof. intros H c. rewrite <- (Z_ascii_ascii c). apply H, ascii_Z_range. Qed.

Lemma read_escape_ascii c s :
  ascii_Z c < 128 -> read_str 0 (escape_ascii c +:+ s) = cons_str (chr c) (read_str 0 s).
Proof. intros Hc. destruct c as [[] [] [] [] [] [] [] []]; first [by vm_compute in Hc | reflexivity]. Qed.

Lemma read_high c s n :
  128 <= ascii_Z c -> rune_len (String c s) = S n ->
  read_str 0 (String c s) = cons_str (chr c) (read_str n s).
Proof.
  intros Hc Hn. cbn [read_str]. assert (Hne : forall x, ascii_Z x < 128 -> Ascii.eqb c x = false).
  { intros x Hx. destruct (Ascii.eqb_spec c x); [subst; lia | done]. }
  rewrite !Hne, Hn, (proj2 (Z.ltb_ge _ 32)) by (first [by vm_compute | lia]). done.
Qed.

Lemma line_separator_spec c s :
  line_separator (String c s) = true ->
  c = Z_ascii 226 /\ exists d s', s = String (Z_ascii 128) (String d s') /\ (d = Z_ascii 168 \/ d = Z_ascii 169).
Proof.
  destruct s as [|b [|d s']]; [done.. |]. cbn -[Z.eqb]. intros H.
  apply andb_prop in H as [[Ha Hb]%andb_prop Hd]. split; [by apply ascii_Z_inj, Z.eqb_eq |].
  exists d, s'. apply Z.eqb_eq in Hb. rewrite <- (Z_ascii_ascii b), Hb. split; [done |].
  rewrite <- (Z_ascii_ascii d). apply orb_prop in Hd as [->%Z.eqb_eq| ->%Z.eqb_eq]; auto.
Qed.

(** What [quote] writes is read back, the bytes that are no UTF-8 replaced. *)
Lemma read_escape s rest :
  read_str 0 (escape_from 0 s +:+ String quote_char rest) = Some (to_valid s, rest).
Proof.
  induction s as [s IH] using string_length_ind.
  destruct s as [|c s]; [done |]. unfold to_valid in *. cbn [escape_from valid_from].
  destruct (Z.ltb_spec (ascii_Z c) 128) as [Hc|Hc].
  { assert (Hr : rune_len (String c s) = 1%nat) by (cbn [rune_len]; by rewrite (proj2 (Z.ltb_lt _ _) Hc)).
    rewrite Hr, app_assoc_s, read_escape_ascii, IH by (done || (cbn; lia)). done. }
  destruct (rune_len (String c s)) as [|n] eqn:Hr.
  { rewrite app_assoc_s. change (read_str 0 ("\ufffd" +:+ ?x)) with (cons_str (EncodeRune RuneError) (read_str 0 x)).
    by rewrite IH by (cbn; lia). }
  destruct (line_separator (String c s)) eqn:Hl.
  - apply line_separator_spec in Hl as (-> & d & s' & -> & Hd).
    assert (n = 2%nat) as -> by (destruct Hd as [-> | ->]; by injection Hr).
    specialize (IH s' ltac:(cbn; lia)). cbn [valid_from]. rewrite app_assoc_s.
    destruct Hd as [-> | ->].
    + change (read_str 0 ("\u202" +:+ String (hex_digit (ascii_Z (Z_ascii 168) - 160)) (escape_from 0 s') +:+ String quote_char rest))
        with (cons_str (EncodeRune 8232) (read_str 0 (escape_from 0 s' +:+ String quote_char rest))). by rewrite IH.
    + change (read_str 0 ("\u202" +:+ String (hex_digit (ascii_Z (Z_ascii 169) - 160)) (escape_from 0 s') +:+ String quote_char rest))
        with (cons_str (EncodeRune 8233) (read_str 0 (escape_from 0 s' +:+ String quote_char rest))). by rewrite IH.
  - destruct (rune_tail c s n Hc Hr) as (u & s' & -> & <- & Hu).
    rewrite escape_raw, valid_raw. cbn [String.append]. rewrite app_assoc_s.
    rewrite (read_high c _ (String.length u)), read_raw, IH by (apply Hu || done || (cbn; rewrite length_app_s; lia)). done.
Qed.

(** ** Values are read back *)

Lemma json_nested_ind (P : json -> Prop) :
  P JNull -> (forall b, P (JBool b)) -> (forall lit, P (JNum lit)) -> (forall s, P (JStr s)) ->
  (forall l, Forall P l -> P (JArr l)) -> (forall m, Forall (fun kv => P kv.2) m -> P (JObj m)) -> forall v, P v.
Proof.
  intros Hn Hb Hi Hs Ha Ho. fix IH 1. intros [|b|lit|s|l|m]; [done | done | done | done | |].
  - apply Ha. induction l; constructor; [apply IH | done].
  - apply Ho. induction m; constructor; [apply IH | done].
Qed.

(** What is read back: the strings with the bytes that are no UTF-8 replaced. *)
Fixpoint clean (v : json) : json :=
  match v with
  | JStr s => JStr (to_valid s)
  | JArr l => JArr (map clean l)
  | JObj m => JObj (map (fun kv => (to_valid kv.1, clean kv.2)) m)
  | _ => v
  end.

(** The numbers are integers, and values nest to depth [d]. *)
Fixpoint writable (d : Z) (v : json) : Prop :=
  match v with
  | JNum lit => exists z, lit = itoa z
  | JArr l => d < max_depth /\ fold_right (fun v => and (writable (d + 1) v)) True l
  | JObj m => d < max_depth /\ fold_right (fun kv => and (writable (d + 1) kv.2)) True m
  | _ => True
  end.

(** What may follow a value that was written. *)
Definition ends (s : string) : Prop :=
  match s with
  | EmptyString => True
  | String c _ => c ∈ [",";"]";"}"; newline]%char
  end.

Lemma skip_ws_app ws s : all_chars is_json_space ws = true -> skip_ws (ws +:+ s) = skip_ws s.
Proof. induction ws as [|c ws IH]; [done |]. cbn. intros [-> H]%andb_prop. by apply IH. Qed.

Lemma nl_at_space k : all_chars is_json_space (nl_at k) = true.
Proof. unfold nl_at. rewrite all_chars_app. cbn. induction k as [|k IH]; [done |]. cbn. exact IH. Qed.

Lemma read_value_ws f d ws s : all_chars is_json_space ws = true -> read_value f d (ws +:+ s) = read_value f d s.
Proof. intros H. destruct f; [done |]. cbn [read_value]. by rewrite skip_ws_app. Qed.
Lemma read_elems_ws f d ws s : all_chars is_json_space ws = true -> read_elems f d (ws +:+ s) = read_elems f d s.
Proof. intros H. destruct f; [done |]. cbn [read_elems]. by rewrite read_value_ws. Qed.
Lemma read_members_ws f d ws s : all_chars is_json_space ws = true -> read_members f d (ws +:+ s) = read_members f d s.
Proof. intros H. destruct f; [done |]. cbn [read_members]. by rewrite skip_ws_app. Qed.

(** *** Numbers *)

Lemma take_digits_app a s :
  all_chars is_digit a = true -> match s with String c _ => is_digit c = false | EmptyString => True end ->
  take_digits (a +:+ s) = (a, s).
Proof.
  induction a as [|c a IH]; cbn.
  - intros _. destruct s as [|c s]; [done |]. intros H. cbn. by rewrite H.
  - intros [-> Ha]%andb_prop Hs. by rewrite IH.
Qed.

Lemma dec_aux_head fuel n :
  0 < n < 2 ^ Z.of_nat fuel -> exists c s, dec_aux fuel n = String c s /\ c <> "0"%char.
Proof.
  revert n. induction fuel as [|f IH]; intros n Hn; [cbn in Hn; lia |]. cbn [dec_aux].
  destruct (Z.ltb_spec n 10) as [Hlt|Hge].
  - exists (digit n), EmptyString. split; [done |]. intros H. apply (f_equal ascii_Z) in H.
    unfold digit in H. rewrite Z_ascii_Z in H by lia. change (ascii_Z "0") with 48 in H. lia.
  - destruct (IH (n / 10)) as (c & s & -> & Hc); [|by exists c, (s +:+ chr (digit (n mod 10)))].
    rewrite Nat2Z.inj_succ, Z.pow_succ_r in Hn by lia. split; [apply Z.div_str_pos; lia |].
    apply Z.div_lt_upper_bound; lia.
Qed.

Lemma read_int_part_dec n rest :
  0 <= n -> match rest with String c _ => is_digit c = false | EmptyString => True end ->
  read_int_part (dec n +:+ rest) = Some (dec n, rest).
Proof.
  intros Hn Hr. destruct (Z.eq_dec n 0) as [->|Hz]; [done |].
  destruct (dec_spec n Hn) as (_ & Hd & Hne). unfold read_int_part.
  destruct (dec_aux_head (S (Z.to_nat (Z.log2 n))) n) as (c & s & Ec & Hc).
  { split; [lia |]. rewrite Nat2Z.inj_succ, Z2Nat.id by apply Z.log2_nonneg. apply Z.log2_spec. lia. }
  fold (dec n) in Ec. rewrite take_digits_app by done. rewrite Ec. cbn [String.append expect].
  destruct (Ascii.eqb_spec c "0"); done.
Qed.

Lemma ends_first s : ends s ->
  match s with String c _ => is_digit c = false | EmptyString => True end /\
  read_fraction s = Some (EmptyString, s) /\ read_exponent s = Some (EmptyString, s).
Proof.
  destruct s as [|c s]; [done |]. cbn. rewrite !elem_of_cons, elem_of_nil.
  intros [-> | [-> | [-> | [-> | []]]]]; done.
Qed.

Lemma read_unsigned_dec n rest : 0 <= n -> ends rest -> read_unsigned (dec n +:+ rest) = Some (dec n, rest).
Proof.
  intros Hn (Hd & Hf & He)%ends_first. unfold read_unsigned. rewrite read_int_part_dec, Hf, He by done.
  by rewrite !app_empty_r.
Qed.

Lemma read_scalar_number c s :
  is_int_char c = true ->
  read_scalar (String c s) = match read_number (String c s) with Some (l, r) => Some (JNum l, r) | None => None end.
Proof.
  intros Hc. unfold read_scalar, literal. destruct c as [[] [] [] [] [] [] [] []]; first [by vm_compute in Hc | done].
Qed.

Lemma read_itoa z rest : ends rest -> read_scalar (itoa z +:+ rest) = Some (JNum (itoa z), rest).
Proof.
  intros He. unfold itoa. destruct (Z.ltb_spec z 0) as [Hz|Hz].
  - cbn [String.append]. rewrite read_scalar_number by done. unfold read_number. cbn [expect Ascii.eqb Bool.eqb].
    by rewrite read_unsigned_dec by (done || lia).
  - pose proof (read_unsigned_dec z rest Hz He) as Hn. destruct (dec z) as [|c s] eqn:Ez; [by destruct (dec_spec z Hz) as (_ & _ & []) |].
    assert (Hc : is_digit c = true) by by eapply dec_first_digit.
    cbn [String.append] in *. rewrite read_scalar_number by (unfold is_int_char; by rewrite Hc).
    unfold read_number. cbn [expect]. destruct (Ascii.eqb_spec c "-"); [by subst c |]. by rewrite Hn.
Qed.

(** *** Arrays and objects *)

(** [read] reads the text [s] as [a], given enough fuel. *)
Definition reads {A} (read : nat -> string -> option (A * string)) (s : string) (a : A) (rest : string) : Prop :=
  exists f0, forall f, (f0 <= f)%nat -> read f s = Some (a, rest).

(** The first byte of a value. *)
Definition opening (c : ascii) : bool :=
  negb (is_json_space c) && negb (Ascii.eqb c "]") && negb (Ascii.eqb c "}").

Lemma write_head v k d : writable d v -> exists c s, write k v = String c s /\ opening c = true.
Proof.
  intros Hw. destruct v as [|[]|lit|s|l|m]; cbn [write].
  - by eexists _, _.
  - by eexists _, _.
  - by eexists _, _.
  - destruct Hw as [z ->]. destruct (itoa z) as [|c s] eqn:E.
    + unfold itoa in E. destruct (Z.ltb_spec z 0) as [|Hz]; [done |]. by destruct (dec_spec z Hz) as (_ & _ & []).
    + exists c, s. split; [done |]. pose proof (itoa_chars z) as H. rewrite E in H. apply andb_prop in H as [H _].
      destruct c as [[] [] [] [] [] [] [] []]; first [by vm_compute in H | done].
  - by eexists _, _.
  - destruct l; by eexists _, _.
  - destruct m; by eexists _, _.
Qed.

Lemma skip_ws_opening c s : opening c = true -> skip_ws (String c s) = String c s.
Proof. unfold opening, skip_ws. cbn [trim_left]. by destruct (is_json_space c). Qed.
Lemma expect_opening x c s : opening c = true -> x = "]"%char \/ x = "}"%char -> expect x (String c s) = None.
Proof.
  unfold opening. cbn [expect]. intros [[_ H1]%andb_prop H2]%andb_prop [-> | ->]; [by destruct (Ascii.eqb c "]") | by destruct (Ascii.eqb c "}")].
Qed.

Definition sep (k : nat) : string := "," +:+ nl_at k.

Lemma Join_map_cons {A} (g : A -> string) a l k :
  Join (map g (a :: l)) (sep k) = g a +:+ (match l with [] => EmptyString | _ => sep k +:+ Join (map g l) (sep k) end).
Proof. destruct l; [by cbn; rewrite app_empty_r | done]. Qed.

Lemma expect_sep k s : expect "," (skip_ws (sep k +:+ s)) = Some (nl_at k +:+ s).
Proof. done. Qed.
Lemma expect_close x y k s : is_json_space y = false ->
  expect x (skip_ws (nl_at k +:+ String y s)) = if Ascii.eqb y x then Some s else None.
Proof. intros Hy. rewrite skip_ws_app by apply nl_at_space. unfold skip_ws. cbn [trim_left]. by rewrite Hy. Qed.

(** The elements of an array; [k] is their depth of indentation. *)
Lemma read_elems_write (k k' : nat) d l rest :
  l <> [] ->
  Forall (fun v => forall rest, ends rest -> reads (fun f => read_value f d) (write k v +:+ rest) (clean v) rest) l ->
  reads (fun f => read_elems f d) (Join (map (write k) l) (sep k) +:+ nl_at k' +:+ "]" +:+ rest) (map clean l) rest.
Proof.
  intros Hne Hl. induction Hl as [|v l Hv Hl IH]; [done |].
  rewrite Join_map_cons, app_assoc_s. destruct l as [|v' l].
  - destruct (Hv (nl_at k' +:+ "]" +:+ rest)) as [f0 H0]; [cbn; set_solver |].
    exists (S f0). intros [|f] Hf; [lia |]. cbn [read_elems String.append map]. rewrite H0 by lia.
    cbn [String.append]. by rewrite !expect_close.
  - destruct (Hv (sep k +:+ Join (map (write k) (v' :: l)) (sep k) +:+ nl_at k' +:+ "]" +:+ rest)) as [f0 H0]; [cbn; set_solver |].
    destruct (IH ltac:(done)) as [f1 H1]. exists (S (f0 + f1)). intros [|f] Hf; [lia |]. cbn [read_elems].
    rewrite app_assoc_s, H0 by lia. rewrite expect_sep. rewrite read_elems_ws by apply nl_at_space. cbn [map] in H1 |- *. by rewrite H1 by lia.
Qed.

(** One member, after the blanks before it. *)
Definition write_member (k : nat) (kv : string * json) : string := quote kv.1 +:+ ": " +:+ write k kv.2.

Lemma quote_app s rest : quote s +:+ rest = String quote_char (escape_from 0 s +:+ String quote_char rest).
Proof. unfold quote. cbn [String.append]. by rewrite app_assoc_s. Qed.

Lemma read_member_write (k : nat) d kv rest f :
  read_value f d (write k kv.2 +:+ rest) = Some (clean kv.2, rest) ->
  exists r, expect quote_char (skip_ws (write_member k kv +:+ rest)) ≫= read_str 0 = Some (to_valid kv.1, r) /\
    expect ":" (skip_ws r) ≫= read_value f d = Some (clean kv.2, rest).
Proof.
  intros H. unfold write_member. rewrite app_assoc_s, quote_app. rewrite skip_ws_opening by done.
  exists (": " +:+ write k kv.2 +:+ rest). split; [|exact (eq_trans (read_value_ws f d " " _ eq_refl) H)].
  cbn [expect]. rewrite Ascii.eqb_refl. cbn [mbind option_bind]. by rewrite app_assoc_s, read_escape.
Qed.

Lemma read_members_write (k k' : nat) d m rest :
  m <> [] ->
  Forall (fun kv => forall rest, ends rest -> reads (fun f => read_value f d) (write k kv.2 +:+ rest) (clean kv.2) rest) m ->
  reads (fun f => read_members f d) (Join (map (write_member k) m) (sep k) +:+ nl_at k' +:+ "}" +:+ rest)
    (map (fun kv => (to_valid kv.1, clean kv.2)) m) rest.
Proof.
  intros Hne Hm. induction Hm as [|kv m Hv Hm IH]; [done |].
  rewrite Join_map_cons, app_assoc_s. destruct m as [|kv' m].
  - destruct (Hv (nl_at k' +:+ "}" +:+ rest)) as [f0 H0]; [cbn; set_solver |].
    exists (S f0). intros [|f] Hf; [lia |]. cbn [read_members String.append map].
    destruct (read_member_write k d kv (nl_at k' +:+ String "}" rest) f (H0 f ltac:(lia))) as (r & -> & ->).
    cbn [String.append]. by rewrite !expect_close.
  - destruct (Hv (sep k +:+ Join (map (write_member k) (kv' :: m)) (sep k) +:+ nl_at k' +:+ "}" +:+ rest)) as [f0 H0]; [cbn; set_solver |].
    destruct (IH ltac:(done)) as [f1 H1]. exists (S (f0 + f1)). intros [|f] Hf; [lia |]. cbn [read_members].
    rewrite app_assoc_s. destruct (read_member_write k d kv _ f (H0 f ltac:(lia))) as (r & -> & ->).
    rewrite expect_sep, read_members_ws by apply nl_at_space. cbn [map] in H1 |- *. by rewrite H1 by lia.
Qed.

Lemma read_value_scalar f d c s :
  is_int_char c = true -> read_value (S f) d (String c s) = read_scalar (String c s).
Proof. intros Hc. destruct c as [[] [] [] [] [] [] [] []]; first [by vm_compute in Hc | reflexivity]. Qed.

Lemma read_value_array f d s :
  read_value (S f) d (String "[" s)
  = if max_depth <=? d then None else
    match expect "]" (skip_ws s) with
    | Some r => Some (JArr [], r)
    | None => match read_elems f (d + 1) s with Some (l, r) => Some (JArr l, r) | None => None end
    end.
Proof. reflexivity. Qed.
Lemma read_value_object f d s :
  read_value (S f) d (String "{" s)
  = if max_depth <=? d then None else
    match expect "}" (skip_ws s) with
    | Some r => Some (JObj [], r)
    | None => match read_members f (d + 1) s with Some (m, r) => Some (JObj m, r) | None => None end
    end.
Proof. reflexivity. Qed.

Lemma reads_S {A} (read : nat -> string -> option (A * string)) s a rest :
  (exists f0, forall f, (f0 <= f)%nat -> read (S f) s = Some (a, rest)) -> reads read s a rest.
Proof. intros [f0 H]. exists (S f0). intros [|f] Hf; [lia | apply H; lia]. Qed.

Lemma read_write v k d rest :
  writable d v -> ends rest -> reads (fun f => read_value f d) (write k v +:+ rest) (clean v) rest.
Proof.
  revert k d rest. induction v as [|b|lit|s|l Hl|m Hm] using json_nested_ind; intros k d rest Hw He.
  - apply reads_S. by exists 0%nat.
  - apply reads_S. exists 0%nat. by destruct b.
  - destruct Hw as [z ->]. apply reads_S. exists 0%nat. intros f _. cbn [write clean].
    rewrite <- (read_itoa z rest He). pose proof (itoa_chars z) as Hc. destruct (itoa z) as [|c s] eqn:E.
    + unfold itoa in E. destruct (Z.ltb_spec z 0) as [|Hz]; [done |]. by destruct (dec_spec z Hz) as (_ & _ & []).
    + apply andb_prop in Hc as [Hc _]. by apply read_value_scalar.
  - apply reads_S. exists 0%nat. intros f _. cbn [write clean read_value]. rewrite quote_app, skip_ws_opening by done.
    by rewrite Ascii.eqb_refl, read_escape.
  - destruct Hw as [Hd Hw]. apply Z.leb_gt in Hd. destruct l as [|v l].
    + apply reads_S. exists 0%nat. intros f _. cbn. by rewrite Hd.
    + destruct (read_elems_write (S k) k (d + 1) (v :: l) rest) as [f0 H0]; [done | |].
      { clear -Hl Hw. induction Hl as [|v' l' Hv Hl IH]; constructor; [intros r Hr; apply Hv; [apply Hw | done] | apply IH, Hw]. }
      apply reads_S. exists f0. intros f Hf. destruct (write_head v (S k) (d + 1)) as (c & s & Hc & Ho); [apply Hw |].
      change (write k (JArr (v :: l)) +:+ rest) with
        (String "[" (((nl_at (S k) +:+ Join (map (write (S k)) (v :: l)) (sep (S k)) +:+ nl_at k +:+ "]") +:+ rest))).
      rewrite read_value_array, Hd, !app_assoc_s, skip_ws_app, read_elems_ws, H0 by (apply nl_at_space || done).
      rewrite Join_map_cons, Hc. cbn [String.append]. rewrite skip_ws_opening, expect_opening by auto. done.
  - destruct Hw as [Hd Hw]. apply Z.leb_gt in Hd. destruct m as [|kv m].
    + apply reads_S. exists 0%nat. intros f _. cbn. by rewrite Hd.
    + destruct (read_members_write (S k) k (d + 1) (kv :: m) rest) as [f0 H0]; [done | |].
      { clear -Hm Hw. induction Hm as [|kv' l' Hv Hl IH]; constructor; [intros r Hr; apply Hv; [apply Hw | done] | apply IH, Hw]. }
      apply reads_S. exists f0. intros f Hf.
      change (write k (JObj (kv :: m)) +:+ rest) with
        (String "{" (((nl_at (S k) +:+ Join (map (write_member (S k)) (kv :: m)) (sep (S k)) +:+ nl_at k +:+ "}") +:+ rest))).
      rewrite read_value_object, Hd, !app_assoc_s, skip_ws_app, read_members_ws, H0 by (apply nl_at_space || done).
      rewrite Join_map_cons. unfold write_member at 1. rewrite !app_assoc_s, quote_app, skip_ws_opening, expect_opening by auto. done.
Qed.

(** What [MarshalIndent] writes is the JSON text of the value. *)
Lemma parse_MarshalIndent v : writable 0 v -> parse (MarshalIndent v) = Some (clean v).
Proof.
  intros Hw. unfold parse, MarshalIndent. destruct (read_write v 0 0 EmptyString Hw I) as [f0 H0].
  rewrite app_empty_r in H0. rewrite <- (parse_fuel _ (f0 + (2 * String.length (write 0 v) + 2))) by lia.
  by rewrite H0 by lia.
Qed.
