(* ===== verification/Netip.v ===== *)
(** * Addresses: the parts of [net/netip] and [net] the client uses

    An IPv4 address is a 32-bit number, an IPv6 address a 128-bit number with a
    zone; a [net.IP] or [net.IPMask] is its bytes. Parsing and printing follow
    Go's library, so that the theorems speak about the strings the client
    exchanges with WireGuard, the kernel and the management server. *)

From Stdlib Require Import ZArith Lia Ascii.
From stdpp Require Import base tactics list strings.
From S2P Require Import Prelude GoStrings.

(** ** netip.Addr *)

Inductive Addr :=
  | AddrZero
  | Addr4 (n : Z)
  | Addr6 (n : Z) (zone : string).

#[export] Instance Addr_eq_dec : EqDecision Addr.
Proof. solve_decision. Defined.

#[export] Instance Addr_inhabited : Inhabited Addr := populate AddrZero.

Definition addr_IsValid (a : Addr) : bool :=
  match a with AddrZero => false | _ => true end.
Definition addr_Is4 (a : Addr) : bool := match a with Addr4 _ => true | _ => false end.
Definition addr_Is6 (a : Addr) : bool := match a with Addr6 _ _ => true | _ => false end.
Definition addr_BitLen (a : Addr) : Z :=
  match a with AddrZero => 0 | Addr4 _ => 32 | Addr6 _ _ => 128 end.
Definition addr_Zone (a : Addr) : string :=
  match a with Addr6 _ z => z | _ => EmptyString end.
Definition addr_val (a : Addr) : Z :=
  match a with AddrZero => 0 | Addr4 n => n | Addr6 n _ => n end.
Definition addr_withoutZone (a : Addr) : Addr :=
  match a with Addr6 n _ => Addr6 n EmptyString | _ => a end.
Definition addr_Is4In6 (a : Addr) : bool :=
  match a with Addr6 n _ => Z.shiftr n 32 =? 65535 | _ => false end.
Definition addr_Unmap (a : Addr) : Addr :=
  match a with
  | Addr6 n _ => if addr_Is4In6 a then Addr4 (Z.land n (2 ^ 32 - 1)) else a
  | _ => a
  end.

(** Byte [i] of an IPv4 address, 16-bit group [i] of an IPv6 one. *)
Definition v4 (n i : Z) : Z := Z.land (Z.shiftr n (24 - 8 * i)) 255.
Definition v6u16 (n i : Z) : Z := Z.land (Z.shiftr n (112 - 16 * i)) 65535.

Definition addr_IsLoopback (a : Addr) : bool :=
  match addr_Unmap a with
  | Addr4 n => v4 n 0 =? 127
  | Addr6 n _ => n =? 1
  | AddrZero => false
  end.
Definition addr_IsMulticast (a : Addr) : bool :=
  match addr_Unmap a with
  | Addr4 n => Z.land (v4 n 0) 240 =? 224
  | Addr6 n _ => Z.shiftr n 120 =? 255
  | AddrZero => false
  end.
Definition addr_IsLinkLocalUnicast (a : Addr) : bool :=
  match addr_Unmap a with
  | Addr4 n => (v4 n 0 =? 169) && (v4 n 1 =? 254)
  | Addr6 n _ => Z.land (v6u16 n 0) 65472 =? 65152
  | AddrZero => false
  end.
Definition addr_IsLinkLocalMulticast (a : Addr) : bool :=
  match addr_Unmap a with
  | Addr4 n => (v4 n 0 =? 224) && (v4 n 1 =? 0) && (v4 n 2 =? 0)
  | Addr6 n _ => Z.land (v6u16 n 0) 65295 =? 65282
  | AddrZero => false
  end.
Definition addr_IsInterfaceLocalMulticast (a : Addr) : bool :=
  match a with
  | Addr6 n _ => negb (addr_Is4In6 a) && (Z.land (v6u16 n 0) 65295 =? 65281)
  | _ => false
  end.
Definition addr_IsUnspecified (a : Addr) : bool :=
  match a with
  | Addr4 n => n =? 0
  | Addr6 n z => (n =? 0) && bool_decide (z = EmptyString)
  | AddrZero => false
  end.

(** *** Printing *)

Definition dotted (n : Z) : string :=
  itoa (v4 n 0) +:+ "." +:+ itoa (v4 n 1) +:+ "." +:+ itoa (v4 n 2) +:+ "." +:+ itoa (v4 n 3).

(** A 16-bit group in hexadecimal without leading zeros. *)
Definition hex16 (g : Z) : string :=
  let d i := chr (hex_digit (Z.land (Z.shiftr g (4 * i)) 15)) in
  if 4096 <=? g then d 3 +:+ d 2 +:+ d 1 +:+ d 0
  else if 256 <=? g then d 2 +:+ d 1 +:+ d 0
  else if 16 <=? g then d 1 +:+ d 0
  else d 0.

Definition groups (n : Z) : list Z := map (v6u16 n) [0; 1; 2; 3; 4; 5; 6; 7].

(** How many zero groups the list starts with. *)
Fixpoint zero_run (gs : list Z) : nat :=
  match gs with
  | 0 :: gs' => S (zero_run gs')
  | _ => O
  end.

(** The first longest run of at least two zero groups: (start, end). *)
Fixpoint find_run (i : nat) (gs : list Z) (best : nat * nat) : nat * nat :=
  match gs with
  | [] => best
  | _ :: gs' =>
      let l := zero_run gs in
      let best' := if (2 <=? l)%nat && (best.2 - best.1 <? l)%nat
                   then (i, i + l)%nat else best in
      find_run (S i) gs' best'
  end.

(** The groups from index [i] on, [run] being replaced by two colons. *)
Fixpoint join_groups (i : nat) (gs : list Z) (run : nat * nat) : string :=
  match gs with
  | [] => EmptyString
  | g :: gs' =>
      if (run.1 <? run.2)%nat && (i =? run.1)%nat then "::" +:+ join_groups (S i) gs' run
      else if (run.1 <? i)%nat && (i <? run.2)%nat then join_groups (S i) gs' run
      else (if (0 <? i)%nat && negb ((run.1 <? run.2)%nat && (i =? run.2)%nat)
            then ":" else EmptyString) +:+ hex16 g +:+ join_groups (S i) gs' run
  end.

Definition v6_string (n : Z) : string :=
  let gs := groups n in join_groups 0 gs (find_run 0 gs (0, 0)%nat).

Definition zone_suffix (z : string) : string :=
  match z with EmptyString => EmptyString | _ => "%" +:+ z end.

Definition addr_String (a : Addr) : string :=
  match a with
  | AddrZero => "invalid IP"
  | Addr4 n => dotted n
  | Addr6 n z =>
      (if addr_Is4In6 a then "::ffff:" +:+ dotted (Z.land n (2 ^ 32 - 1)) else v6_string n)
      +:+ zone_suffix z
  end.

(** *** Parsing *)

Definition parse_octet (s : string) : option Z :=
  match s with
  | EmptyString => None
  | String "0" (String _ _) => None
  | _ => match parse_digits s 0 with
         | Some n => if n <=? 255 then Some n else None
         | None => None
         end
  end.

(** [parseIPv4Fields]. *)
Definition parse_v4 (s : string) : option Z :=
  match map parse_octet (Split "." s) with
  | [Some a; Some b; Some c; Some d] => Some (((a * 256 + b) * 256 + c) * 256 + d)
  | _ => None
  end.

(** Up to four hexadecimal digits: (value, digits read, rest). *)
Fixpoint read_hex (s : string) (acc : Z) (n : nat) : Z * nat * string :=
  match s with
  | String c s' =>
      match hex_val c with
      | Some d => read_hex s' (acc * 16 + d) (S n)
      | None => (acc, n, s)
      end
  | EmptyString => (acc, n, s)
  end.

Definition starts_with (c : ascii) (s : string) : bool :=
  match s with String x _ => Ascii.eqb x c | EmptyString => false end.

(** The loop of [parseIPv6]: [gs] are the groups read (latest first), [ell] the
    number of groups before the double colon. *)
Fixpoint parse_groups (fuel : nat) (s : string) (gs : list Z) (ell : option nat)
    : option (list Z * option nat) :=
  match fuel with
  | O => match s with EmptyString => Some (gs, ell) | _ => None end
  | S f =>
      let '(acc, off, rest) := read_hex s 0 0 in
      if (off =? 0)%nat || (4 <? off)%nat then None
      else if starts_with "." rest then
        match ell, (length gs =? 6)%nat with
        | None, false => None
        | _, _ =>
            if (6 <? length gs)%nat then None
            else match parse_v4 s with
                 | Some n => Some (n mod 65536 :: n / 65536 :: gs, ell)
                 | None => None
                 end
        end
      else
        let gs' := acc :: gs in
        match rest with
        | EmptyString => Some (gs', ell)
        | String c rest' =>
            if negb (Ascii.eqb c ":") then None
            else match rest' with
                 | EmptyString => None
                 | String ":" rest'' =>
                     match ell with
                     | Some _ => None
                     | None => match rest'' with
                               | EmptyString => Some (gs', Some (length gs'))
                               | _ => parse_groups f rest'' gs' (Some (length gs'))
                               end
                     end
                 | _ => parse_groups f rest' gs' ell
                 end
        end
  end.

Definition of_groups (gs : list Z) : Z := fold_left (fun n g => n * 65536 + g) gs 0.

Definition expand (gs : list Z) (ell : option nat) : option Z :=
  let missing := (8 - length gs)%nat in
  match ell with
  | None => if (length gs =? 8)%nat then Some (of_groups gs) else None
  | Some k => if (length gs <? 8)%nat
              then Some (of_groups (take k gs ++ replicate missing 0 ++ drop k gs))
              else None
  end.

Definition parse_v6 (s0 : string) : option Addr :=
  let parts := SplitN2 "%" s0 in
  let go (s zone : string) :=
    if HasPrefix s "::" then
      match drop_prefix "::" s with
      | EmptyString => Some (Addr6 0 zone)
      | s' => match parse_groups 8 s' [] (Some O) with
              | Some (gs, ell) => (fun n => Addr6 n zone) <$> expand (rev gs) ell
              | None => None
              end
      end
    else match parse_groups 8 s [] None with
         | Some (gs, ell) => (fun n => Addr6 n zone) <$> expand (rev gs) ell
         | None => None
         end in
  match parts with
  | [s; EmptyString] => None
  | [s; zone] => go s zone
  | _ => go s0 EmptyString
  end.

(** The first of the bytes '.', ':' and '%' decides the syntax. *)
Fixpoint addr_kind (s : string) : option ascii :=
  match s with
  | EmptyString => None
  | String c s' =>
      if Ascii.eqb c "." || Ascii.eqb c ":" || Ascii.eqb c "%" then Some c else addr_kind s'
  end.

Definition parseAddrError (s : string) : error := New ("ParseAddr(" +:+ s +:+ ")").

(** [netip.ParseAddr]. *)
Definition ParseAddr (s : string) : Addr + error :=
  let r := match addr_kind s with
           | Some "."%char => Addr4 <$> parse_v4 s
           | Some ":"%char => parse_v6 s
           | _ => None
           end in
  match r with Some a => inl a | None => inr (parseAddrError s) end.

(** ** netip.Prefix *)

Record Prefix := mkPrefix { prefix_ip : Addr; prefix_Bits : Z }.

#[export] Instance Prefix_eq_dec : EqDecision Prefix.
Proof. solve_decision. Defined.

Definition PrefixZero : Prefix := mkPrefix AddrZero (-1).
Definition prefix_IsValid (p : Prefix) : bool := 0 <=? prefix_Bits p.

(** [netip.PrefixFrom]: bits out of range make the prefix invalid. *)
Definition PrefixFrom (a : Addr) (bits : Z) : Prefix :=
  if addr_IsValid a && (0 <=? bits) && (bits <=? addr_BitLen a)
  then mkPrefix (addr_withoutZone a) bits
  else mkPrefix (addr_withoutZone a) (-1).

(** The top [bits] of a [len]-bit number. *)
Definition mask_top (len bits n : Z) : Z := Z.shiftl (Z.shiftr n (len - bits)) (len - bits).

Definition addr_mask (a : Addr) (bits : Z) : Addr :=
  match a with
  | AddrZero => AddrZero
  | Addr4 n => Addr4 (mask_top 32 bits n)
  | Addr6 n _ => Addr6 (mask_top 128 bits n) EmptyString
  end.

Definition prefix_Masked (p : Prefix) : Prefix :=
  if prefix_IsValid p then mkPrefix (addr_mask (prefix_ip p) (prefix_Bits p)) (prefix_Bits p)
  else PrefixZero.

Definition prefix_Contains (p : Prefix) (a : Addr) : bool :=
  prefix_IsValid p && bool_decide (addr_Zone a = EmptyString) && addr_IsValid a &&
  (addr_BitLen (prefix_ip p) =? addr_BitLen a) &&
  (Z.shiftr (addr_val (prefix_ip p)) (addr_BitLen a - prefix_Bits p) =?
   Z.shiftr (addr_val a) (addr_BitLen a - prefix_Bits p)).

Definition prefix_String (p : Prefix) : string :=
  if prefix_IsValid p then addr_String (prefix_ip p) +:+ "/" +:+ itoa (prefix_Bits p)
  else "invalid Prefix".

(** The parts before and after the last occurrence of a byte. *)
Fixpoint split_last (c : ascii) (s : string) : option (string * string) :=
  match s with
  | EmptyString => None
  | String x s' =>
      match split_last c s' with
      | Some (a, b) => Some (String x a, b)
      | None => if Ascii.eqb x c then Some (EmptyString, s') else None
      end
  end.

Definition parsePrefixError (s : string) : error := New ("netip.ParsePrefix(" +:+ s +:+ ")").

Definition prefix_bits_ok (s : string) : bool :=
  match s with
  | String c (String _ _) => (49 <=? ascii_Z c) && (ascii_Z c <=? 57)
  | _ => true
  end.

(** [netip.ParsePrefix]. *)
Definition ParsePrefix (s : string) : Prefix + error :=
  match split_last "/" s with
  | None => inr (parsePrefixError s)
  | Some (addr, bits) =>
      match ParseAddr addr with
      | inr _ => inr (parsePrefixError s)
      | inl a =>
          if addr_Is6 a && negb (bool_decide (addr_Zone a = EmptyString))
          then inr (parsePrefixError s)
          else if negb (prefix_bits_ok bits) then inr (parsePrefixError s)
          else match Atoi bits with
               | inr _ => inr (parsePrefixError s)
               | inl n => if (n <? 0) || (addr_BitLen a <? n) then inr (parsePrefixError s)
                          else inl (PrefixFrom a n)
               end
      end
  end.

(** ** net.IP, net.IPMask, net.IPNet *)

(** The [k] bytes of a number, most significant first, and back. *)
Fixpoint be_bytes (k : nat) (n : Z) : string :=
  match k with
  | O => EmptyString
  | S k' => String (Z_ascii (Z.land (Z.shiftr n (8 * Z.of_nat k')) 255)) (be_bytes k' n)
  end.
Fixpoint be_val (s : string) (acc : Z) : Z :=
  match s with
  | EmptyString => acc
  | String c s' => be_val s' (acc * 256 + ascii_Z c)
  end.

Definition addr_AsSlice (a : Addr) : string :=
  match a with
  | AddrZero => EmptyString
  | Addr4 n => be_bytes 4 n
  | Addr6 n _ => be_bytes 16 n
  end.

(** [netip.AddrFromSlice]: 4 or 16 bytes. *)
Definition AddrFromSlice (s : string) : option Addr :=
  if (String.length s =? 4)%nat then Some (Addr4 (be_val s 0))
  else if (String.length s =? 16)%nat then Some (Addr6 (be_val s 0) EmptyString)
  else None.

Definition addr_As16 (a : Addr) : string :=
  match a with
  | Addr4 n => be_bytes 16 (65535 * 2 ^ 32 + n)
  | _ => be_bytes 16 (addr_val a)
  end.

(** [IP.To4], as an address: the IPv4 address of 4 bytes or of 16 mapped ones. *)
Definition ip_To4 (ip : string) : option Z :=
  match AddrFromSlice ip with
  | Some a => match addr_Unmap a with Addr4 n => Some n | _ => None end
  | None => None
  end.

Definition ip_String (ip : string) : string :=
  match ip with
  | EmptyString => "<nil>"
  | _ => match AddrFromSlice ip with
         | Some a => addr_String (addr_Unmap a)
         | None => "?" +:+ hex_encode ip
         end
  end.

(** [net.ParseIP]: None for a string that is no address, or has a zone. *)
Definition ParseIP (s : string) : option string :=
  match ParseAddr s with
  | inl a => if bool_decide (addr_Zone a = EmptyString) then Some (addr_As16 a) else None
  | inr _ => None
  end.

(** [net.CIDRMask]; the empty string is the nil mask. *)
Definition CIDRMask (ones bits : Z) : string :=
  if ((bits =? 32) || (bits =? 128)) && (0 <=? ones) && (ones <=? bits)
  then be_bytes (Z.to_nat (bits / 8)) (mask_top bits ones (2 ^ bits - 1))
  else EmptyString.

(** [simpleMaskLength]: the number of leading ones of a canonical mask. *)
Definition simpleMaskLength (m : string) : option Z :=
  let bits := 8 * Z.of_nat (String.length m) in
  let v := be_val m 0 in
  let inv := 2 ^ bits - 1 - v in
  if Z.land inv (inv + 1) =? 0 then Some (bits - (if inv =? 0 then 0 else Z.log2 inv + 1))
  else None.

(** [IPMask.Size]: (0, 0) for a mask that is not canonical. *)
Definition mask_Size (m : string) : Z * Z :=
  match simpleMaskLength m with
  | Some ones => (ones, 8 * Z.of_nat (String.length m))
  | None => (0, 0)
  end.

Record IPNet := mkIPNet { ipnet_IP : string; ipnet_Mask : string }.

#[export] Instance IPNet_eq_dec : EqDecision IPNet.
Proof. solve_decision. Defined.

Definition mask_String (m : string) : string :=
  match m with EmptyString => "<nil>" | _ => hex_encode m end.

(** [networkNumberAndMask]. *)
Definition networkNumberAndMask (n : IPNet) : option (string * string) :=
  let m := ipnet_Mask n in
  match ip_To4 (ipnet_IP n) with
  | Some v =>
      if (String.length m =? 4)%nat then Some (be_bytes 4 v, m)
      else if (String.length m =? 16)%nat then Some (be_bytes 4 v, be_bytes 4 (be_val m 0))
      else None
  | None =>
      if (String.length (ipnet_IP n) =? 16)%nat && (String.length m =? 16)%nat
      then Some (ipnet_IP n, m) else None
  end.

Definition ipnet_String (n : IPNet) : string :=
  match networkNumberAndMask n with
  | None => "<nil>"
  | Some (ip, m) =>
      match simpleMaskLength m with
      | Some l => ip_String ip +:+ "/" +:+ itoa l
      | None => ip_String ip +:+ "/" +:+ mask_String m
      end
  end.

Definition parseCIDRError (s : string) : error := New ("invalid CIDR address: " +:+ s).

(** [net.ParseCIDR]: the address (16 bytes) and the masked network. *)
Definition ParseCIDR (s : string) : (string * IPNet) + error :=
  match SplitN2 "/" s with
  | [addr; mask] =>
      match ParseAddr addr, parse_nat mask with
      | inl a, Some n =>
          if bool_decide (addr_Zone a = EmptyString) && (n <=? addr_BitLen a)
          then let a' := addr_mask a n in
               inl (addr_As16 a,
                    mkIPNet (addr_AsSlice a') (CIDRMask n (addr_BitLen a)))
          else inr (parseCIDRError s)
      | _, _ => inr (parseCIDRError s)
      end
  | _ => inr (parseCIDRError s)
  end.

(** ** host:port *)

Record UDPAddr := mkUDPAddr { udp_IP : string; udp_Port : Z; udp_Zone : string }.

Definition JoinHostPort (host port : string) : string :=
  if has_char ":" host then "[" +:+ host +:+ "]:" +:+ port else host +:+ ":" +:+ port.

Definition udp_String (a : UDPAddr) : string :=
  let ip := match udp_IP a with EmptyString => EmptyString | ip => ip_String ip end in
  let host := match udp_Zone a with EmptyString => ip | z => ip +:+ "%" +:+ z end in
  JoinHostPort host (itoa (udp_Port a)).

Definition addrError (s : string) : error := New ("address " +:+ s).

(** [net.SplitHostPort]. *)
Definition SplitHostPort (hostport : string) : (string * string) + error :=
  match split_last ":" hostport with
  | None => inr (addrError hostport)
  | Some (before, port) =>
      if starts_with "[" hostport then
        match SplitN2 "]" hostport with
        | [opened; rest] =>
            let host := drop_prefix "[" opened in
            if bool_decide (rest = ":" +:+ port)
               && negb (has_char "[" host) && negb (has_char "[" port) && negb (has_char "]" port)
            then inl (host, port)
            else inr (addrError hostport)
        | _ => inr (addrError hostport)
        end
      else if has_char ":" before || has_char "[" hostport || has_char "]" hostport
      then inr (addrError hostport)
      else inl (before, port)
  end.

(** ** Lemmas: printed addresses hold no white space *)

Lemma land_low x k : 0 <= k -> 0 <= Z.land x (2 ^ k - 1) < 2 ^ k.
Proof.
  intros Hk. replace (2 ^ k - 1) with (Z.ones k) by (rewrite Z.ones_equiv; lia).
  rewrite Z.land_ones by done. apply Z.mod_pos_bound. lia.
Qed.

Lemma hex_digit_no_space d : 0 <= d < 16 -> no_space (chr (hex_digit d)) = true.
Proof.
  intros Hd. assert (Hx : is_hex_char (hex_digit d) = true).
  { unfold is_hex_char. by rewrite hex_val_digit. }
  apply is_hex_char_not_space in Hx. unfold no_space, chr. simpl. by rewrite Hx.
Qed.

Lemma hex16_no_space g : no_space (hex16 g) = true.
Proof.
  unfold hex16.
  assert (H : forall i, no_space (chr (hex_digit (Z.land (Z.shiftr g (4 * i)) 15))) = true).
  { intros i. apply hex_digit_no_space. apply (land_low _ 4). lia. }
  repeat case_match; rewrite ?no_space_app, ?H; done.
Qed.

Lemma dotted_no_space n : no_space (dotted n) = true.
Proof. unfold dotted. by rewrite !no_space_app, !itoa_no_space. Qed.

Lemma join_groups_no_space gs : forall i run, no_space (join_groups i gs run) = true.
Proof.
  induction gs as [|g gs IH]; intros i run; simpl; [done |].
  repeat case_match; simpl; rewrite ?no_space_app, ?no_space_cons, ?no_space_app, ?hex16_no_space, ?IH;
    done.
Qed.

Lemma zone_suffix_no_space z : no_space z = true -> no_space (zone_suffix z) = true.
Proof. unfold zone_suffix. destruct z; [done |]. intros H. exact H. Qed.

Lemma addr_String_no_space a :
  addr_IsValid a = true -> no_space (addr_Zone a) = true -> no_space (addr_String a) = true.
Proof.
  destruct a as [|n|n z]; cbn [addr_Zone addr_String]; intros Hv Hz;
    [done | by apply dotted_no_space |].
  rewrite no_space_app, zone_suffix_no_space, andb_true_r by done.
  case_match; [|apply join_groups_no_space].
  change (no_space ("::ffff:" +:+ ?d)) with (no_space d). apply dotted_no_space.
Qed.

Lemma AddrFromSlice_valid s a :
  AddrFromSlice s = Some a -> addr_IsValid a = true /\ addr_Zone a = EmptyString.
Proof.
  unfold AddrFromSlice. intros H.
  destruct (String.length s =? 4)%nat; [by injection H as <- |].
  destruct (String.length s =? 16)%nat; [by injection H as <- | done].
Qed.

Lemma addr_Unmap_zone a : addr_Zone a = EmptyString -> addr_Zone (addr_Unmap a) = EmptyString.
Proof. destruct a; [done | done |]. unfold addr_Unmap. by destruct (addr_Is4In6 _). Qed.
Lemma addr_Unmap_valid a : addr_IsValid (addr_Unmap a) = addr_IsValid a.
Proof. destruct a; [done | done |]. unfold addr_Unmap. by destruct (addr_Is4In6 _). Qed.

Lemma ip_String_no_space ip : no_space (ip_String ip) = true.
Proof.
  unfold ip_String. destruct ip as [|c ip]; [done |].
  destruct (AddrFromSlice (String c ip)) as [a|] eqn:E.
  - apply AddrFromSlice_valid in E as [Hv Hz].
    apply addr_String_no_space; [by rewrite addr_Unmap_valid | by rewrite addr_Unmap_zone].
  - rewrite no_space_app. by rewrite hex_encode_no_space.
Qed.

Lemma ipnet_String_no_space n : no_space (ipnet_String n) = true.
Proof.
  unfold ipnet_String, mask_String. repeat case_match; try done;
    rewrite ?no_space_app, ?ip_String_no_space, ?itoa_no_space, ?hex_encode_no_space; done.
Qed.

Lemma JoinHostPort_no_space h p :
  no_space h = true -> no_space p = true -> no_space (JoinHostPort h p) = true.
Proof.
  intros Hh Hp. unfold JoinHostPort. case_match; rewrite !no_space_app, Hh, Hp; done.
Qed.

Lemma udp_String_no_space e : no_space (udp_Zone e) = true -> no_space (udp_String e) = true.
Proof.
  intros Hz. unfold udp_String. apply JoinHostPort_no_space; [|apply itoa_no_space].
  assert (H : no_space (match udp_IP e with EmptyString => EmptyString | ip => ip_String ip end)
              = true) by (case_match; [done | apply ip_String_no_space]).
  destruct (udp_Zone e) as [|c z]; [done |]. rewrite !no_space_app, H, Hz. done.
Qed.

#[export] Hint Resolve dotted_no_space addr_String_no_space ip_String_no_space
  ipnet_String_no_space udp_String_no_space : go_str.

(** ** Lemmas: printing and parsing IPv4 *)

Definition octet_ok (o : Z) : bool := bool_decide (parse_octet (itoa o) = Some o).

Lemma parse_octet_itoa o : 0 <= o < 256 -> parse_octet (itoa o) = Some o.
Proof.
  intros Ho. assert (H : forallb octet_ok (map Z.of_nat (seq 0 256)) = true) by by vm_compute.
  rewrite forallb_forall in H. specialize (H o). unfold octet_ok in H.
  rewrite bool_decide_eq_true in H. apply H. apply in_map_iff. exists (Z.to_nat o).
  split; [lia | apply in_seq; lia].
Qed.

Lemma itoa_no_dot z : has_char "." (itoa z) = false.
Proof. by eapply all_chars_has_char; [apply itoa_chars|]. Qed.

Lemma v4_range n i : 0 <= v4 n i < 256.
Proof. apply (land_low _ 8). lia. Qed.

Lemma land_255 x : Z.land x 255 = x mod 256.
Proof. change 255 with (Z.ones 8). by rewrite Z.land_ones. Qed.

Lemma v4_compose n :
  0 <= n < 2 ^ 32 -> ((v4 n 0 * 256 + v4 n 1) * 256 + v4 n 2) * 256 + v4 n 3 = n.
Proof.
  intros Hn. unfold v4. rewrite !land_255, !Z.shiftr_div_pow2 by lia.
  change (2 ^ (24 - 8 * 0)) with 16777216. change (2 ^ (24 - 8 * 1)) with 65536.
  change (2 ^ (24 - 8 * 2)) with 256. change (2 ^ (24 - 8 * 3)) with 1. change (2 ^ 32) with 4294967296 in Hn.
  Z.to_euclidean_division_equations. lia.
Qed.

Lemma Split_dotted n :
  Split "." (dotted n) = [itoa (v4 n 0); itoa (v4 n 1); itoa (v4 n 2); itoa (v4 n 3)].
Proof.
  assert (H : forall z s, Split "." (itoa z +:+ "." +:+ s) = itoa z :: Split "." s).
  { intros z s. apply Split_app, itoa_no_dot. }
  unfold dotted. by rewrite !H, Split_free by apply itoa_no_dot.
Qed.

Lemma parse_v4_dotted n : 0 <= n < 2 ^ 32 -> parse_v4 (dotted n) = Some n.
Proof.
  intros Hn. unfold parse_v4. rewrite Split_dotted. cbn [map].
  rewrite !parse_octet_itoa by apply v4_range. f_equal. by apply v4_compose.
Qed.

Lemma addr_kind_digits s t :
  all_chars is_digit s = true -> addr_kind (s +:+ String "."%char t) = Some "."%char.
Proof.
  induction s as [|c s IH]; cbn [String.append addr_kind all_chars]; [done |].
  intros [Hc Hs]%andb_true_iff. rewrite IH by done.
  destruct (Ascii.eqb_spec c "."); [by subst |].
  destruct (Ascii.eqb_spec c ":"); [by subst |].
  by destruct (Ascii.eqb_spec c "%"); [by subst |].
Qed.

Lemma itoa_digits z : 0 <= z -> all_chars is_digit (itoa z) = true.
Proof.
  intros Hz. unfold itoa. destruct (Z.ltb_spec z 0); [lia |]. by destruct (dec_spec z Hz) as (_ & ? & _).
Qed.

Lemma ParseAddr_dotted n : 0 <= n < 2 ^ 32 -> ParseAddr (dotted n) = inl (Addr4 n).
Proof.
  intros Hn. unfold ParseAddr.
  assert (E : addr_kind (dotted n) = Some "."%char).
  { apply addr_kind_digits, itoa_digits, v4_range. }
  by rewrite E, parse_v4_dotted.
Qed.

Lemma be_bytes_val_aux k n acc :
  0 <= n < 2 ^ (8 * Z.of_nat k) -> be_val (be_bytes k n) acc = acc * 2 ^ (8 * Z.of_nat k) + n.
Proof.
  revert n acc. induction k as [|k IH]; intros n acc Hn; cbn [be_bytes be_val].
  - replace (8 * Z.of_nat 0) with 0 in * by lia. change (2 ^ 0) with 1 in *. lia.
  - assert (E : forall m j, be_bytes j m = be_bytes j (m mod 2 ^ (8 * Z.of_nat j))).
    { clear. intros m j. revert m. induction j as [|j IHj]; intros m; [done |]. cbn [be_bytes].
      f_equal.
      - f_equal. rewrite !land_255, !Z.shiftr_div_pow2 by lia.
        replace (8 * Z.of_nat (S j)) with (8 * Z.of_nat j + 8) by lia.
        rewrite Z.pow_add_r by lia. change (2 ^ 8) with 256.
        rewrite Z.rem_mul_r by lia.
        rewrite (Z.mul_comm (2 ^ (8 * Z.of_nat j))), Z.div_add by lia.
        rewrite (Z.div_small (m mod 2 ^ (8 * Z.of_nat j))) by (apply Z.mod_pos_bound; lia).
        rewrite Z.add_0_l. by rewrite Z.mod_mod by lia.
      - rewrite (IHj m), (IHj (m mod 2 ^ (8 * Z.of_nat (S j)))). f_equal.
        replace (8 * Z.of_nat (S j)) with (8 * Z.of_nat j + 8) by lia.
        rewrite Z.pow_add_r by lia. rewrite Z.rem_mul_r by lia.
        rewrite (Z.mul_comm (2 ^ (8 * Z.of_nat j))), Z.mod_add by lia. by rewrite Z.mod_mod by lia. }
    set (P := 2 ^ (8 * Z.of_nat k)). assert (HP : 0 < P) by (unfold P; lia).
    replace (2 ^ (8 * Z.of_nat (S k))) with (P * 256) in *.
    2:{ unfold P. replace (8 * Z.of_nat (S k)) with (8 * Z.of_nat k + 8) by lia.
        by rewrite Z.pow_add_r by lia. }
    rewrite E. fold P. rewrite IH by (apply Z.mod_pos_bound; lia). fold P.
    rewrite Z_ascii_Z by (rewrite land_255; apply Z.mod_pos_bound; lia).
    rewrite land_255, Z.shiftr_div_pow2 by lia. fold P.
    rewrite (Z.mod_small (n / P)) by
      (split; [apply Z.div_pos; lia | apply Z.div_lt_upper_bound; lia]).
    pose proof (Z.div_mod n P). lia.
Qed.

Lemma be_bytes_val k n : 0 <= n < 2 ^ (8 * Z.of_nat k) -> be_val (be_bytes k n) 0 = n.
Proof. intros H. rewrite be_bytes_val_aux by done. lia. Qed.

Lemma be_bytes_length k n : String.length (be_bytes k n) = k.
Proof. induction k as [|k IH]; cbn; [done | by rewrite IH]. Qed.

Lemma AddrFromSlice_AsSlice4 n : 0 <= n < 2 ^ 32 -> AddrFromSlice (be_bytes 4 n) = Some (Addr4 n).
Proof.
  intros Hn. unfold AddrFromSlice. rewrite be_bytes_length. cbn [Nat.eqb].
  by rewrite be_bytes_val.
Qed.

Lemma ip_String4 n : 0 <= n < 2 ^ 32 -> ip_String (be_bytes 4 n) = dotted n.
Proof.
  intros Hn. unfold ip_String. rewrite AddrFromSlice_AsSlice4 by done.
  by destruct (be_bytes 4 n) eqn:E; [apply (f_equal String.length) in E; rewrite be_bytes_length in E |].
Qed.

(** ** Lemmas: IPv4 prefixes are read back as printed *)

Lemma split_last_none c s : has_char c s = false -> split_last c s = None.
Proof.
  induction s as [|x s IH]; cbn [has_char split_last]; [done |].
  intros [Hx Hs]%orb_false_iff. by rewrite IH, Hx.
Qed.

Lemma split_last_app c a b : has_char c b = false -> split_last c (a +:+ String c b) = Some (a, b).
Proof.
  intros Hb. induction a as [|x a IH]; [cbn; by rewrite split_last_none, Ascii.eqb_refl |].
  change (String x a +:+ ?t) with (String x (a +:+ t)). cbn [split_last]. by rewrite IH.
Qed.

Definition bits_ok (b : Z) : bool :=
  prefix_bits_ok (itoa b) && match Atoi (itoa b) with inl x => x =? b | inr _ => false end.

Lemma bits_ok_range b : 0 <= b <= 128 -> bits_ok b = true.
Proof.
  intros Hb. assert (H : forallb bits_ok (map Z.of_nat (seq 0 129)) = true) by by vm_compute.
  rewrite forallb_forall in H. apply (H b). apply in_map_iff. exists (Z.to_nat b).
  split; [lia | apply in_seq; lia].
Qed.

Lemma itoa_no_slash z : has_char "/" (itoa z) = false.
Proof. by eapply all_chars_has_char; [apply itoa_chars|]. Qed.

Lemma ParsePrefix_dotted n b :
  0 <= n < 2 ^ 32 -> 0 <= b <= 32 ->
  ParsePrefix (dotted n +:+ "/" +:+ itoa b) = inl (mkPrefix (Addr4 n) b).
Proof.
  intros Hn Hb. unfold ParsePrefix. change ("/" +:+ itoa b) with (String "/" (itoa b)).
  rewrite split_last_app by apply itoa_no_slash. rewrite ParseAddr_dotted by done. cbn [addr_Is6 andb].
  pose proof (bits_ok_range b) as Hk. unfold bits_ok in Hk.
  rewrite andb_true_iff in Hk. destruct Hk as [-> Hk]; [lia |]. cbn [negb addr_BitLen].
  destruct (Atoi (itoa b)) as [x|]; [| done]. apply Z.eqb_eq in Hk as ->.
  destruct (Z.ltb_spec b 0); [lia |]. destruct (Z.ltb_spec 32 b); [lia |]. cbn [orb].
  unfold PrefixFrom. cbn. destruct (Z.leb_spec 0 b), (Z.leb_spec b 32); cbn; try lia; done.
Qed.
