(* ===== verification/Filepath.v ===== *)
(** * Package [path/filepath], on Unix: the functions the code uses *)

From Stdlib Require Import ZArith Lia Ascii.
From stdpp Require Import base tactics list strings.
From S2P Require Import Prelude GoStrings Netip.

Definition slash : ascii := "/"%char.
Definition dot : ascii := "."%char.

(** [filepath.Clean] on the parts of a path, the kept parts in reverse. *)
Fixpoint clean_parts (rooted : bool) (parts kept : list string) : list string :=
  match parts with
  | [] => kept
  | p :: parts' =>
      if bool_decide (p = "") || bool_decide (p = ".") then clean_parts rooted parts' kept
      else if bool_decide (p = "..") then
        match kept with
        | k :: kept' => if bool_decide (k = "..") then clean_parts rooted parts' (p :: kept)
                        else clean_parts rooted parts' kept'
        | [] => clean_parts rooted parts' (if rooted then [] else [p])
        end
      else clean_parts rooted parts' (p :: kept)
  end.

Definition Clean (path : string) : string :=
  let rooted := HasPrefix path "/" in
  let body := Join (rev (clean_parts rooted (Split slash path) [])) "/" in
  if rooted then "/" +:+ body
  else if bool_decide (body = "") then "." else body.

(** [filepath.Join] of two elements: empty ones are left out. *)
Definition Join2 (a b : string) : string :=
  if bool_decide (a = "") then (if bool_decide (b = "") then "" else Clean b)
  else Clean (a +:+ "/" +:+ b).

Definition trim_right (f : ascii -> bool) (s : string) : string := srev (trim_left f (srev s)).

(** [filepath.Dir]: all but the last element. *)
Definition Dir (path : string) : string :=
  match split_last slash path with
  | Some (d, _) => Clean (d +:+ "/")
  | None => "."
  end.

(** [filepath.Base]: the last element, trailing separators removed. *)
Definition Base (path : string) : string :=
  match path with
  | EmptyString => "."
  | _ =>
      let p := trim_right (Ascii.eqb slash) path in
      match split_last slash p with
      | Some (_, b) => b
      | None => if bool_decide (p = "") then "/" else p
      end
  end.

(** [filepath.Ext]: from the last dot of the last element on. *)
Definition Ext (path : string) : string :=
  let last := match split_last slash path with Some (_, b) => b | None => path end in
  match split_last dot last with
  | Some (_, e) => String dot e
  | None => EmptyString
  end.

(** ** Joining a directory and a name *)

Lemma Split_snoc c a b : has_char c b = false -> Split c (a +:+ String c b) = Split c a ++ [b].
Proof.
  intros Hb. induction a as [|x a IH]; cbn [String.append Split].
  - by rewrite Ascii.eqb_refl, Split_free.
  - rewrite IH. destruct (Ascii.eqb x c); [done |]. pose proof (Split_nonempty c a). by destruct (Split c a).
Qed.

Definition plain_name (p : string) : Prop := has_char slash p = false /\ p <> "" /\ p <> "." /\ p <> "..".

Lemma clean_parts_snoc rooted parts kept p :
  plain_name p -> clean_parts rooted (parts ++ [p]) kept = p :: clean_parts rooted parts kept.
Proof.
  intros (_ & H1 & H2 & H3). revert kept. induction parts as [|q parts IH]; intros kept; cbn [clean_parts app].
  - by rewrite !bool_decide_eq_false_2 by done.
  - destruct (_ || _); [apply IH |]. destruct (bool_decide (q = "..")); [|apply IH].
    destruct kept as [|k kept]; [apply IH |]. destruct (bool_decide (k = "..")); apply IH.
Qed.

Lemma Join_snoc l p sep : exists x, Join (l ++ [p]) sep = x +:+ p.
Proof.
  induction l as [|a l [x IH]]; [by exists "" |]. exists (a +:+ sep +:+ x).
  cbn [app]. destruct (l ++ [p]) eqn:E; [by destruct l |]. cbn [Join]. cbn [Join] in IH. by rewrite IH, !app_assoc_s.
Qed.

(** The result ends with the name. *)
Lemma Join2_suffix dir p : plain_name p -> exists x, Join2 dir p = x +:+ p.
Proof.
  intros Hp. destruct (Hp) as (Hs & Hne & _). unfold Join2. rewrite (bool_decide_eq_false_2 (p = "")) by done.
  assert (Hc : forall path parts, Split slash path = parts ++ [p] -> exists x, Clean path = x +:+ p).
  { intros path parts E. unfold Clean. rewrite E, clean_parts_snoc by done. cbn [rev].
    destruct (Join_snoc (rev (clean_parts (HasPrefix path "/") parts [])) p "/") as [x ->].
    destruct (HasPrefix path "/"); [by exists ("/" +:+ x); rewrite app_assoc_s |].
    case_bool_decide as Hx; [|by exists x]. by destruct x; [|discriminate Hx]; destruct Hne. }
  case_bool_decide; [apply (Hc p []); by rewrite Split_free |].
  apply (Hc _ (Split slash dir)). by apply (Split_snoc slash dir p).
Qed.
