(* ===== verification/Uapi.v ===== *)
(** * WireGuard's configuration text: [go/iface/configurer/usp.go]

    The data of package [wgtypes] the client fills in and reads, the writer of
    the userspace configuration protocol ([toWgUserspaceString]) and its three
    readers ([parseStatus], [parseTransfers] and the scan of
    [RemoveAllowedIP]). A key is a string of 32 bytes. *)

From Stdlib Require Import ZArith Lia Ascii.
From stdpp Require Import base tactics list strings gmap fin_maps.
From S2P Require Import Prelude GoStrings Netip.

(** ** Package wgtypes (third party): its data, and its key functions as an interface *)

Notation Key := string (only parsing).

(** [ParseKey] reads the base64 form of a key that [Key_String] prints;
    [PublicKey] is the Curve25519 public key of a private one. *)
Class WgTypes := {
  ParseKey : string -> Key + error;
  Key_String : Key -> string;
  PublicKey : Key -> Key;
  ParseKey_String : forall k, String.length k = 32%nat -> ParseKey (Key_String k) = inl k;
  ParseKey_length : forall s k, ParseKey s = inl k -> String.length k = 32%nat;
  Key_String_b64 : forall k, Key_String k = b64_encode k
}.

Record PeerConfig := mkPeerConfig {
  pc_PublicKey : Key;
  pc_Remove : bool;
  pc_UpdateOnly : bool;
  pc_PresharedKey : option Key;
  pc_Endpoint : option UDPAddr;
  pc_PersistentKeepaliveInterval : option Z;   (* a time.Duration, in nanoseconds *)
  pc_ReplaceAllowedIPs : bool;
  pc_AllowedIPs : list IPNet
}.

(** The zero [PeerConfig] of a key. *)
Definition peerConfig0 (k : Key) : PeerConfig := mkPeerConfig k false false None None None false [].

Record Config := mkConfig {
  cfg_PrivateKey : option Key;
  cfg_ListenPort : option Z;
  cfg_FirewallMark : option Z;
  cfg_ReplacePeers : bool;
  cfg_Peers : list PeerConfig
}.

Definition config_peers (ps : list PeerConfig) : Config := mkConfig None None None false ps.

(** ** time.Time, and the statistics the configurer reports *)

Inductive Time := TimeZero | TimeUnix (sec : Z).

#[export] Instance Time_eq_dec : EqDecision Time.
Proof. solve_decision. Defined.

Definition second : Z := 1000000000.
(** [int(d.Seconds())]; exact below 2^22 seconds, where the sum of the float
    has room for every nanosecond. *)
Definition duration_seconds (d : Z) : Z := Z.quot d second.

Record WGStats := mkWGStats { wgs_LastHandshake : Time; wgs_TxBytes : Z; wgs_RxBytes : Z }.
Definition wgStats0 : WGStats := mkWGStats TimeZero 0 0.

Record Peer := mkPeer {
  peer_PublicKey : string;
  peer_Endpoint : UDPAddr;
  peer_AllowedIPs : list IPNet;
  peer_TxBytes : Z;
  peer_RxBytes : Z;
  peer_LastHandshake : Time;
  peer_PresharedKey : bool
}.

Definition udpAddr0 : UDPAddr := mkUDPAddr EmptyString 0 EmptyString.
Definition peer0 (pk : string) : Peer := mkPeer pk udpAddr0 [] 0 0 TimeZero false.

Definition peer_set_Endpoint (e : UDPAddr) (p : Peer) : Peer :=
  mkPeer (peer_PublicKey p) e (peer_AllowedIPs p) (peer_TxBytes p) (peer_RxBytes p)
    (peer_LastHandshake p) (peer_PresharedKey p).
Definition peer_add_AllowedIP (n : IPNet) (p : Peer) : Peer :=
  mkPeer (peer_PublicKey p) (peer_Endpoint p) (peer_AllowedIPs p ++ [n]) (peer_TxBytes p)
    (peer_RxBytes p) (peer_LastHandshake p) (peer_PresharedKey p).
Definition peer_set_TxBytes (z : Z) (p : Peer) : Peer :=
  mkPeer (peer_PublicKey p) (peer_Endpoint p) (peer_AllowedIPs p) z (peer_RxBytes p)
    (peer_LastHandshake p) (peer_PresharedKey p).
Definition peer_set_RxBytes (z : Z) (p : Peer) : Peer :=
  mkPeer (peer_PublicKey p) (peer_Endpoint p) (peer_AllowedIPs p) (peer_TxBytes p) z
    (peer_LastHandshake p) (peer_PresharedKey p).
Definition peer_set_LastHandshake (t : Time) (p : Peer) : Peer :=
  mkPeer (peer_PublicKey p) (peer_Endpoint p) (peer_AllowedIPs p) (peer_TxBytes p)
    (peer_RxBytes p) t (peer_PresharedKey p).
Definition peer_set_PresharedKey (b : bool) (p : Peer) : Peer :=
  mkPeer (peer_PublicKey p) (peer_Endpoint p) (peer_AllowedIPs p) (peer_TxBytes p)
    (peer_RxBytes p) (peer_LastHandshake p) b.

Record Stats := mkStats {
  st_DeviceName : string;
  st_PublicKey : string;
  st_ListenPort : Z;
  st_FWMark : Z;
  st_Peers : list Peer
}.

(** ** Constants *)

Definition privateKey : string := "private_key".
Definition ipcKeyLastHandshakeTimeSec : string := "last_handshake_time_sec".
Definition ipcKeyTxBytes : string := "tx_bytes".
Definition ipcKeyRxBytes : string := "rx_bytes".
Definition allowedIP : string := "allowed_ip".
Definition endpoint : string := "endpoint".
Definition fwmark : string := "fwmark".
Definition listenPort : string := "listen_port".
Definition publicKey : string := "public_key".
Definition presharedKey : string := "preshared_key".

Definition ErrAllowedIPNotFound : error := Sentinel "ErrAllowedIPNotFound".

(** ** The writer *)

(** [sb.WriteString(fmt.Sprintf("key=%s\n", v))]. *)
Definition line (key v : string) : string := key +:+ "=" +:+ v +:+ nl.

Definition opt_line {A} (o : option A) (f : A -> string) : string :=
  match o with Some a => f a | None => EmptyString end.

Definition concat_strings (l : list string) : string := foldr String.append EmptyString l.

(** One round of the loop over [wgCfg.Peers]. *)
Definition peer_text (p : PeerConfig) : string :=
  line publicKey (hex_encode (pc_PublicKey p)) +:+
  opt_line (pc_PresharedKey p) (fun k => line presharedKey (hex_encode k)) +:+
  (if pc_Remove p then "remove=true" else EmptyString) +:+
  (if pc_ReplaceAllowedIPs p then "replace_allowed_ips=true" +:+ nl else EmptyString) +:+
  concat_strings (map (fun aip => line allowedIP (ipnet_String aip)) (pc_AllowedIPs p)) +:+
  opt_line (pc_Endpoint p) (fun e => line endpoint (udp_String e)) +:+
  opt_line (pc_PersistentKeepaliveInterval p)
    (fun d => line "persistent_keepalive_interval" (itoa (duration_seconds d))).

Definition toWgUserspaceString (c : Config) : string :=
  opt_line (cfg_PrivateKey c) (fun k => line privateKey (hex_encode k)) +:+
  opt_line (cfg_ListenPort c) (fun p => line listenPort (itoa p)) +:+
  (if cfg_ReplacePeers c then "replace_peers=true" +:+ nl else EmptyString) +:+
  opt_line (cfg_FirewallMark c) (fun m => line fwmark (itoa m)) +:+
  concat_strings (map peer_text (cfg_Peers c)).

(** ** The readers *)

Definition toLastHandshake (stringVar : string) : Time + error :=
  match ParseInt stringVar with
  | inr e => inr (Wrap "parse handshake sec" e)
  | inl sec => if sec =? 0 then inl TimeZero else inl (TimeUnix sec)
  end.

Definition toBytes (s : string) : Z + error := ParseInt s.

Definition hexToWireguardKey (hexKey : string) : Key + error :=
  match hex_decode hexKey with
  | inr e => inr (Wrap "failed to decode hex key" e)
  | inl keyBytes =>
      if (String.length keyBytes =? 32)%nat then inl keyBytes
      else inr (New "invalid key length: expected 32 bytes")
  end.

(** *** parseTransfers *)

Record transfers := mkTransfers {
  tr_stats : gmap string WGStats;
  tr_current : option (string * WGStats)   (* currentKey and currentStats once hasPeer *)
}.

Definition tr_update (t : transfers) (key : string) (s : WGStats) : transfers :=
  mkTransfers (<[key := s]> (tr_stats t)) (Some (key, s)).

Definition parseTransfers_line (t : transfers) (line0 : string) : transfers + error :=
  let line := TrimSpace line0 in
  if HasPrefix line "public_key=" then
    match hex_decode (TrimPrefix line "public_key=") with
    | inr e => inr (Wrap "decode peerID" e)
    | inl h => inl (tr_update t (b64_encode h) wgStats0)
    end
  else
    match tr_current t with
    | None => inl t
    | Some (key, cur) =>
        match SplitN2 "=" line with
        | [k; v] =>
            if bool_decide (k = ipcKeyLastHandshakeTimeSec) then
              match toLastHandshake v with
              | inr e => inr e
              | inl hs => inl (tr_update t key (mkWGStats hs (wgs_TxBytes cur) (wgs_RxBytes cur)))
              end
            else if bool_decide (k = ipcKeyRxBytes) then
              match toBytes v with
              | inr e => inr (Wrap "parse rx_bytes" e)
              | inl rx => inl (tr_update t key (mkWGStats (wgs_LastHandshake cur) (wgs_TxBytes cur) rx))
              end
            else if bool_decide (k = ipcKeyTxBytes) then
              match toBytes v with
              | inr e => inr (Wrap "parse tx_bytes" e)
              | inl tx => inl (tr_update t key (mkWGStats (wgs_LastHandshake cur) tx (wgs_RxBytes cur)))
              end
            else inl t
        | _ => inl t
        end
    end.

Fixpoint parseTransfers_lines (lines : list string) (t : transfers) : transfers + error :=
  match lines with
  | [] => inl t
  | l :: ls =>
      match parseTransfers_line t l with
      | inr e => inr e
      | inl t' => parseTransfers_lines ls t'
      end
  end.

Definition parseTransfers (ipc : string) : gmap string WGStats + error :=
  match parseTransfers_lines (Split newline ipc) (mkTransfers ∅ None) with
  | inl t => inl (tr_stats t)
  | inr e => inr e
  end.

(** *** parseStatus *)

Section status.
Context {wg : WgTypes}.

Record status := mkStatus { ps_stats : Stats; ps_current : option Peer }.

Definition st_set_PublicKey (k : string) (s : Stats) : Stats :=
  mkStats (st_DeviceName s) k (st_ListenPort s) (st_FWMark s) (st_Peers s).
Definition st_set_ListenPort (z : Z) (s : Stats) : Stats :=
  mkStats (st_DeviceName s) (st_PublicKey s) z (st_FWMark s) (st_Peers s).
Definition st_set_FWMark (z : Z) (s : Stats) : Stats :=
  mkStats (st_DeviceName s) (st_PublicKey s) (st_ListenPort s) z (st_Peers s).
Definition st_add_Peer (p : Peer) (s : Stats) : Stats :=
  mkStats (st_DeviceName s) (st_PublicKey s) (st_ListenPort s) (st_FWMark s) (st_Peers s ++ [p]).

Definition on_stats (f : Stats -> Stats) (s : status) : status :=
  mkStatus (f (ps_stats s)) (ps_current s).
(** A field of [*currentPeer]; the line is skipped while there is none. *)
Definition on_peer (f : Peer -> Peer) (s : status) : status :=
  mkStatus (ps_stats s) (f <$> ps_current s).
(** [stats.Peers = append(stats.Peers, *currentPeer)]. *)
Definition save_peer (s : status) : status :=
  match ps_current s with
  | Some p => mkStatus (st_add_Peer p (ps_stats s)) (ps_current s)
  | None => s
  end.

Definition zero_psk : string := "0000000000000000000000000000000000000000000000000000000000000000".

Definition parseStatus_endpoint (val : string) (s : status) : status :=
  match ps_current s with
  | None => s
  | Some _ =>
      match SplitHostPort (Trim val "[]") with
      | inr _ => s
      | inl (host, portStr) =>
          match Atoi portStr with
          | inr _ => s
          | inl port =>
              on_peer (peer_set_Endpoint
                (mkUDPAddr (default EmptyString (ParseIP host)) port EmptyString)) s
          end
      end
  end.

(** The [switch] of the loop: one [case] per key. *)
Definition parseStatus_field (s : status) (key val : string) : status :=
  if bool_decide (key = privateKey) then
    match hexToWireguardKey val with
    | inr _ => s
    | inl k => on_stats (st_set_PublicKey (Key_String (PublicKey k))) s
    end
  else if bool_decide (key = publicKey) then
    match hexToWireguardKey val with
    | inr _ => save_peer s
    | inl k => mkStatus (ps_stats (save_peer s)) (Some (peer0 (Key_String k)))
    end
  else if bool_decide (key = listenPort) then
    match Atoi val with inl port => on_stats (st_set_ListenPort port) s | inr _ => s end
  else if bool_decide (key = fwmark) then
    match Atoi val with inl m => on_stats (st_set_FWMark m) s | inr _ => s end
  else if bool_decide (key = endpoint) then parseStatus_endpoint val s
  else if bool_decide (key = allowedIP) then
    match ParseCIDR val with
    | inl (_, ipnet) => on_peer (peer_add_AllowedIP ipnet) s
    | inr _ => s
    end
  else if bool_decide (key = ipcKeyTxBytes) then
    match toBytes val with inl z => on_peer (peer_set_TxBytes z) s | inr _ => s end
  else if bool_decide (key = ipcKeyRxBytes) then
    match toBytes val with inl z => on_peer (peer_set_RxBytes z) s | inr _ => s end
  else if bool_decide (key = ipcKeyLastHandshakeTimeSec) then
    match toLastHandshake val with
    | inl ts => on_peer (peer_set_LastHandshake ts) s
    | inr _ => s
    end
  else if bool_decide (key = presharedKey) then
    if bool_decide (val <> EmptyString) && bool_decide (val <> zero_psk)
    then on_peer (peer_set_PresharedKey true) s
    else s
  else s.

Definition parseStatus_line (s : status) (line : string) : status :=
  match SplitN2 "=" line with
  | [key; val] => parseStatus_field s key val
  | _ => s
  end.

Definition parseStatus (deviceName ipcStr : string) : Stats :=
  let s0 := mkStatus (mkStats deviceName EmptyString 0 0 []) None in
  ps_stats (save_peer (foldl parseStatus_line s0 (Split newline (TrimSpace ipcStr)))).

End status.

(** *** The scan of [RemoveAllowedIP] *)

Record scan := mkScan { sc_foundPeer : bool; sc_removed : bool; sc_allowed : list IPNet }.

Definition scan_line (hexKey ip : string) (s : scan) (line0 : string) : scan + error :=
  let line := TrimSpace line0 in
  let found0 := if HasPrefix line "public_key=" && sc_foundPeer s then false else sc_foundPeer s in
  let found := if bool_decide (line = "public_key=" +:+ hexKey) then true else found0 in
  if found && bool_decide (line = "allowed_ip=" +:+ ip) then
    inl (mkScan found true (sc_allowed s))
  else if found && HasPrefix line "allowed_ip=" then
    match ParseCIDR (TrimPrefix line "allowed_ip=") with
    | inr e => inr e
    | inl (_, n) => inl (mkScan found (sc_removed s) (sc_allowed s ++ [n]))
    end
  else inl (mkScan found (sc_removed s) (sc_allowed s)).

Fixpoint scan_lines (hexKey ip : string) (lines : list string) (s : scan) : scan + error :=
  match lines with
  | [] => inl s
  | l :: ls =>
      match scan_line hexKey ip s l with
      | inr e => inr e
      | inl s' => scan_lines hexKey ip ls s'
      end
  end.

(** ** The wire format, as the readers and writers above see it

    A configuration text is a sequence of [key=value] lines. [fields_of] reads
    them back; [render] writes them. *)

Notation field := (string * string)%type (only parsing).

Definition field_line (f : field) : string := f.1 +:+ "=" +:+ f.2.
Definition render (fs : list field) : string :=
  concat_strings (map (fun f => line f.1 f.2) fs).

Definition field_of (l : string) : option field :=
  match SplitN2 "=" l with [k; v] => Some (k, v) | _ => None end.
Definition fields_of (s : string) : list field := omap field_of (Split newline s).

(** A key holds no [=] and no white space, a value no line break. *)
Definition key_ok (k : string) : bool := negb (has_char "=" k) && no_space k.
Definition field_ok (f : field) : bool := key_ok f.1 && negb (has_char newline f.2).
Definition field_tight (f : field) : bool := key_ok f.1 && no_space f.2.

(** What a configuration text asks of the device. *)
Record WirePeer := mkWirePeer {
  wp_key : string; wp_psk : option string; wp_remove : bool; wp_update_only : bool; wp_replace : bool;
  wp_allowed : list string; wp_endpoint : option string; wp_keepalive : option string
}.
Record Wire := mkWire {
  w_private : option string; w_port : option string; w_replace_peers : bool;
  w_fwmark : option string; w_peers : list WirePeer   (* the last one first *)
}.

Definition wire0 : Wire := mkWire None None false None [].
Definition wirePeer0 (k : string) : WirePeer := mkWirePeer k None false false false [] None None.

(** A field that names a peer's attribute changes the last peer. *)
Definition wire_peer (k v : string) (p : WirePeer) : option WirePeer :=
  let '(mkWirePeer key psk rm uo rep al ep ka) := p in
  if bool_decide (k = "preshared_key") then Some (mkWirePeer key (Some v) rm uo rep al ep ka)
  else if bool_decide (k = "remove") then Some (mkWirePeer key psk true uo rep al ep ka)
  else if bool_decide (k = "update_only") then Some (mkWirePeer key psk rm true rep al ep ka)
  else if bool_decide (k = "replace_allowed_ips") then Some (mkWirePeer key psk rm uo true al ep ka)
  else if bool_decide (k = "allowed_ip") then Some (mkWirePeer key psk rm uo rep (al ++ [v]) ep ka)
  else if bool_decide (k = "endpoint") then Some (mkWirePeer key psk rm uo rep al (Some v) ka)
  else if bool_decide (k = "persistent_keepalive_interval")
  then Some (mkWirePeer key psk rm uo rep al ep (Some v))
  else None.

Definition wire_field (w : Wire) (f : field) : option Wire :=
  let '(mkWire pk port rep mark ps) := w in
  let '(k, v) := f in
  if bool_decide (k = "private_key") then Some (mkWire (Some v) port rep mark ps)
  else if bool_decide (k = "listen_port") then Some (mkWire pk (Some v) rep mark ps)
  else if bool_decide (k = "replace_peers") then Some (mkWire pk port true mark ps)
  else if bool_decide (k = "fwmark") then Some (mkWire pk port rep (Some v) ps)
  else if bool_decide (k = "public_key") then Some (mkWire pk port rep mark (wirePeer0 v :: ps))
  else match ps with
       | [] => None
       | p :: ps' => (fun p' => mkWire pk port rep mark (p' :: ps')) <$> wire_peer k v p
       end.

Definition wire_fields (fs : list field) (w : Wire) : option Wire :=
  foldl (fun o f => o ≫= fun w => wire_field w f) (Some w) fs.

(** The device's reading of a configuration text. *)
Definition read_config (s : string) : option Wire := wire_fields (fields_of s) wire0.

(** What the configuration asks for. *)
Definition wire_of_peer (p : PeerConfig) : WirePeer :=
  mkWirePeer (hex_encode (pc_PublicKey p)) (hex_encode <$> pc_PresharedKey p)
    (pc_Remove p) (pc_UpdateOnly p) (pc_ReplaceAllowedIPs p) (map ipnet_String (pc_AllowedIPs p))
    (udp_String <$> pc_Endpoint p)
    ((fun d => itoa (duration_seconds d)) <$> pc_PersistentKeepaliveInterval p).
Definition wire_of (c : Config) : Wire :=
  mkWire (hex_encode <$> cfg_PrivateKey c) (itoa <$> cfg_ListenPort c) (cfg_ReplacePeers c)
    (itoa <$> cfg_FirewallMark c) (rev (map wire_of_peer (cfg_Peers c))).

(** The configuration without its [UpdateOnly] flags, which the writer never writes. *)
Definition no_UpdateOnly (p : PeerConfig) : PeerConfig :=
  mkPeerConfig (pc_PublicKey p) (pc_Remove p) false (pc_PresharedKey p) (pc_Endpoint p)
    (pc_PersistentKeepaliveInterval p) (pc_ReplaceAllowedIPs p) (pc_AllowedIPs p).
Definition written (c : Config) : Config :=
  mkConfig (cfg_PrivateKey c) (cfg_ListenPort c) (cfg_FirewallMark c) (cfg_ReplacePeers c)
    (map no_UpdateOnly (cfg_Peers c)).

(** The peers of a configuration can be told apart on the wire: [remove=true],
    which the writer does not end with a line break, is the last thing written. *)
Definition bare (p : PeerConfig) : bool :=
  negb (pc_ReplaceAllowedIPs p) && bool_decide (pc_AllowedIPs p = [])
  && bool_decide (pc_PersistentKeepaliveInterval p = None)
  && match pc_Endpoint p with None => true | _ => false end.
Fixpoint wire_safe (ps : list PeerConfig) : bool :=
  match ps with
  | [] => true
  | p :: ps' =>
      (negb (pc_Remove p) || (bare p && match ps' with [] => true | _ => false end))
      && wire_safe ps'
  end.
Definition zone_ok (p : PeerConfig) : bool :=
  match pc_Endpoint p with Some e => no_space (udp_Zone e) | None => true end.

(** *** Lemmas on lines *)

#[local] Arguments line : simpl never.
#[local] Arguments peer_text : simpl never.
#[local] Arguments field_of : simpl never.
#[local] Arguments hex_encode : simpl never.
#[local] Arguments itoa : simpl never.

Lemma render_app a b : render (a ++ b) = render a +:+ render b.
Proof.
  unfold render, concat_strings. induction a as [|f a IH]; simpl; [done |].
  by rewrite IH, app_assoc_s.
Qed.

Lemma concat_strings_app a b : concat_strings (a ++ b) = concat_strings a +:+ concat_strings b.
Proof. induction a as [|s a IH]; simpl; [done |]. by rewrite IH, app_assoc_s. Qed.

Lemma line_field_line k v : line k v = field_line (k, v) +:+ nl.
Proof. unfold line, field_line. simpl. by rewrite !app_assoc_s. Qed.

Lemma key_ok_parts k : key_ok k = true -> has_char "=" k = false /\ no_space k = true.
Proof. unfold key_ok. intros [H1 H2]%andb_true_iff. by apply negb_true_iff in H1. Qed.

Lemma field_tight_ok f : field_tight f = true -> field_ok f = true.
Proof.
  unfold field_tight, field_ok. intros [-> H2]%andb_true_iff. simpl.
  by rewrite no_space_newline.
Qed.

Lemma field_ok_intro k v :
  key_ok k = true -> no_space v = true -> field_ok (k, v) = true.
Proof. intros Hk Hv. apply field_tight_ok. unfold field_tight. cbn [fst snd]. by rewrite Hk, Hv. Qed.

Lemma field_of_line f : key_ok f.1 = true -> field_of (field_line f) = Some f.
Proof.
  intros [H _]%key_ok_parts. unfold field_of, field_line.
  change ("=" +:+ f.2) with (String "="%char f.2). rewrite SplitN2_app by done.
  by destruct f.
Qed.

Lemma field_line_newline f : field_ok f = true -> has_char newline (field_line f) = false.
Proof.
  unfold field_ok, field_line. intros [[_ H]%key_ok_parts Hv%negb_true_iff]%andb_true_iff.
  rewrite !has_char_app, Hv, (no_space_newline _ H). done.
Qed.

Lemma field_line_tight f : field_tight f = true -> no_space (field_line f) = true.
Proof.
  unfold field_tight, field_line. intros [[_ H]%key_ok_parts Hv]%andb_true_iff.
  by rewrite !no_space_app, H, Hv.
Qed.

Lemma Split_render fs t :
  Forall (fun f => field_ok f = true) fs ->
  Split newline (render fs +:+ t) = map field_line fs ++ Split newline t.
Proof.
  induction 1 as [|f fs Hf _ IH]; [done |].
  change (render (f :: fs)) with (line f.1 f.2 +:+ render fs).
  rewrite app_assoc_s, line_field_line, app_assoc_s.
  change (nl +:+ (render fs +:+ t)) with (String newline (render fs +:+ t)).
  replace (f.1, f.2) with f by by destruct f.
  rewrite Split_app by by apply field_line_newline. by rewrite IH.
Qed.

Lemma fields_of_render fs t :
  Forall (fun f => field_ok f = true) fs -> fields_of (render fs +:+ t) = fs ++ fields_of t.
Proof.
  intros H. unfold fields_of. rewrite Split_render by done. rewrite omap_app. f_equal.
  induction H as [|f fs Hf _ IH]; [done |]. cbn -[field_of].
  apply andb_true_iff in Hf as [Hk _]. rewrite field_of_line by done.
  f_equal. exact IH.
Qed.

Lemma wire_fields_app a b w : wire_fields (a ++ b) w = wire_fields a w ≫= wire_fields b.
Proof.
  unfold wire_fields. rewrite foldl_app.
  destruct (foldl _ (Some w) a) as [w'|]; [done | simpl].
  induction b as [|f b IH]; simpl; done.
Qed.

(** *** The writer's fields *)

Definition opt_field {A} (key : string) (f : A -> string) (o : option A) : list field :=
  match o with Some a => [(key, f a)] | None => [] end.
Definition flag_field (b : bool) (key : string) : list field :=
  if b then [(key, "true")] else [].

Definition peer_fields (p : PeerConfig) : list field :=
  ((publicKey, hex_encode (pc_PublicKey p)) :: opt_field presharedKey hex_encode (pc_PresharedKey p))
  ++ flag_field (pc_Remove p) "remove"
  ++ flag_field (pc_ReplaceAllowedIPs p) "replace_allowed_ips"
  ++ map (fun aip => (allowedIP, ipnet_String aip)) (pc_AllowedIPs p)
  ++ opt_field endpoint udp_String (pc_Endpoint p)
  ++ opt_field "persistent_keepalive_interval" (fun d => itoa (duration_seconds d))
       (pc_PersistentKeepaliveInterval p).
Definition config_fields (c : Config) : list field :=
  opt_field privateKey hex_encode (cfg_PrivateKey c)
  ++ opt_field listenPort itoa (cfg_ListenPort c)
  ++ flag_field (cfg_ReplacePeers c) "replace_peers"
  ++ opt_field fwmark itoa (cfg_FirewallMark c).

#[local] Arguments peer_fields : simpl never.

Lemma opt_line_render {A} key (f : A -> string) o :
  opt_line o (fun a => line key (f a)) = render (opt_field key f o).
Proof. destruct o as [a|]; [symmetry; apply app_empty_r | done]. Qed.

Lemma allowed_render l :
  concat_strings (map (fun aip => line allowedIP (ipnet_String aip)) l)
  = render (map (fun aip => (allowedIP, ipnet_String aip)) l).
Proof. unfold render. by rewrite map_map. Qed.

Lemma peer_text_render p : pc_Remove p = false -> peer_text p = render (peer_fields p).
Proof.
  intros Hr. unfold peer_text, peer_fields. rewrite Hr, !render_app, !opt_line_render, allowed_render.
  change (render ((publicKey, ?v) :: ?l)) with (line publicKey v +:+ render l).
  rewrite app_assoc_s. by case_match.
Qed.

Lemma peer_text_remove p :
  pc_Remove p = true -> bare p = true ->
  peer_text p = render ((publicKey, hex_encode (pc_PublicKey p))
                        :: opt_field presharedKey hex_encode (pc_PresharedKey p)) +:+ "remove=true".
Proof.
  intros Hr Hb. unfold bare in Hb. unfold peer_text. rewrite Hr.
  destruct (pc_Endpoint p); [by rewrite andb_false_r in Hb |].
  rewrite andb_true_r in Hb. apply andb_true_iff in Hb as [Hb Hk%bool_decide_eq_true].
  apply andb_true_iff in Hb as [Hb Ha%bool_decide_eq_true]. apply negb_true_iff in Hb.
  rewrite Hb, Ha, Hk, opt_line_render.
  change (render ((publicKey, ?v) :: ?l)) with (line publicKey v +:+ render l).
  by rewrite app_assoc_s.
Qed.

Lemma Forall_opt_field {A} key (f : A -> string) o :
  key_ok key = true -> (forall a, o = Some a -> no_space (f a) = true) ->
  Forall (fun g => field_ok g = true) (opt_field key f o).
Proof.
  intros Hk Hv. destruct o as [a|]; simpl; [|by constructor].
  constructor; [|done]. apply field_ok_intro; auto.
Qed.

Lemma Forall_flag_field b key :
  key_ok key = true -> Forall (fun g => field_ok g = true) (flag_field b key).
Proof.
  intros Hk. destruct b; simpl; constructor; [|done].
  unfold field_ok. cbn [fst snd]. by rewrite Hk.
Qed.

Lemma peer_fields_ok p :
  zone_ok p = true -> Forall (fun g => field_ok g = true) (peer_fields p).
Proof.
  intros Hz. unfold peer_fields. rewrite !Forall_app. repeat split.
  - constructor; [|by apply Forall_opt_field; auto with go_str].
    apply field_ok_intro; [done | auto with go_str].
  - by apply Forall_flag_field.
  - by apply Forall_flag_field.
  - apply Forall_fmap, Forall_true. intros n.
    apply field_ok_intro; [done | auto with go_str].
  - apply Forall_opt_field; [done |]. intros e He. apply udp_String_no_space.
    unfold zone_ok in Hz. by rewrite He in Hz.
  - apply Forall_opt_field; [done | intros d _; apply itoa_no_space].
Qed.

Lemma config_fields_ok c : Forall (fun g => field_ok g = true) (config_fields c).
Proof.
  unfold config_fields. rewrite !Forall_app.
  repeat split; (apply Forall_opt_field || apply Forall_flag_field); done || auto with go_str.
Qed.

Lemma fields_of_peers ps :
  wire_safe ps = true -> Forall (fun p => zone_ok p = true) ps ->
  fields_of (concat_strings (map peer_text ps)) = concat (map peer_fields ps).
Proof.
  intros Hs Hz. induction Hz as [|p ps Hp Hz IH]; [done |].
  cbn [map concat_strings foldr concat wire_safe] in *.
  apply andb_true_iff in Hs as [Hs Hs']. pose proof (peer_fields_ok p Hp) as Hok.
  destruct (pc_Remove p) eqn:Hr; simpl in Hs.
  - apply andb_true_iff in Hs as [Hb Hps]. destruct ps; [|done]. clear IH.
    cbn [map concat_strings foldr concat]. rewrite app_empty_r, app_nil_r.
    rewrite peer_text_remove by done.
    unfold peer_fields in Hok |- *. rewrite Forall_app in Hok. destruct Hok as [Hok _].
    rewrite fields_of_render by done. f_equal.
    unfold bare in Hb. rewrite Hr.
    destruct (pc_Endpoint p); [by rewrite andb_false_r in Hb |].
    rewrite andb_true_r in Hb. apply andb_true_iff in Hb as [Hb Hk%bool_decide_eq_true].
    apply andb_true_iff in Hb as [Hb Ha%bool_decide_eq_true]. apply negb_true_iff in Hb.
    by rewrite Hb, Ha, Hk.
  - rewrite peer_text_render, fields_of_render by done. f_equal. by apply IH.
Qed.

Lemma fields_of_config c :
  wire_safe (cfg_Peers c) = true -> Forall (fun p => zone_ok p = true) (cfg_Peers c) ->
  fields_of (toWgUserspaceString c) = config_fields c ++ concat (map peer_fields (cfg_Peers c)).
Proof.
  intros Hs Hz. rewrite <- (fields_of_peers (cfg_Peers c)) by done.
  rewrite <- fields_of_render by apply config_fields_ok. f_equal.
  unfold toWgUserspaceString, config_fields. rewrite !opt_line_render, !render_app, !app_assoc_s.
  by repeat case_match.
Qed.

(** *** The device reads them back *)

Lemma wire_fields_allowed l pk port rep mark k psk rm uo r al ep ka ps :
  wire_fields (map (fun aip => (allowedIP, ipnet_String aip)) l)
    (mkWire pk port rep mark (mkWirePeer k psk rm uo r al ep ka :: ps))
  = Some (mkWire pk port rep mark (mkWirePeer k psk rm uo r (al ++ map ipnet_String l) ep ka :: ps)).
Proof.
  revert al. induction l as [|n l IH]; intros al; cbn [map]; [by rewrite app_nil_r |].
  etransitivity; [apply (IH (al ++ [ipnet_String n])) |].
  by rewrite <- (assoc_L (++)).
Qed.

Lemma wire_step a b w w' :
  wire_fields a w = Some w' -> wire_fields (a ++ b) w = wire_fields b w'.
Proof. intros H. by rewrite wire_fields_app, H. Qed.

Lemma wire_fields_peer p w :
  wire_fields (peer_fields p) w
  = Some (mkWire (w_private w) (w_port w) (w_replace_peers w) (w_fwmark w)
            (wire_of_peer (no_UpdateOnly p) :: w_peers w)).
Proof.
  destruct w as [pk port rep mark ps]. destruct p as [k rm uo psk ep ka r al].
  unfold peer_fields, wire_of_peer.
  cbn [no_UpdateOnly pc_PublicKey pc_UpdateOnly pc_Remove pc_PresharedKey pc_Endpoint pc_PersistentKeepaliveInterval
    pc_ReplaceAllowedIPs pc_AllowedIPs w_private w_port w_replace_peers w_fwmark w_peers].
  set (wp rm' r' al' ep' := mkWire pk port rep mark
         (mkWirePeer (hex_encode k) (hex_encode <$> psk) rm' false r' al' ep' None :: ps)).
  rewrite (wire_step _ _ _ (wp false false [] None)) by by destruct psk.
  rewrite (wire_step _ _ _ (wp rm false [] None)) by by destruct rm.
  rewrite (wire_step _ _ _ (wp rm r [] None)) by by destruct r.
  rewrite (wire_step _ _ _ (wp rm r (map ipnet_String al) None)) by apply wire_fields_allowed.
  rewrite (wire_step _ _ _ (wp rm r (map ipnet_String al) (udp_String <$> ep)))
    by by destruct ep.
  by destruct ka.
Qed.

Lemma wire_fields_peers ps w :
  wire_fields (concat (map peer_fields ps)) w
  = Some (mkWire (w_private w) (w_port w) (w_replace_peers w) (w_fwmark w)
            (rev (map wire_of_peer (map no_UpdateOnly ps)) ++ w_peers w)).
Proof.
  revert w. induction ps as [|p ps IH]; intros w; [by destruct w |].
  cbn [map concat rev]. rewrite wire_fields_app, wire_fields_peer. cbn [mbind option_bind].
  rewrite IH. cbn [w_private w_port w_replace_peers w_fwmark w_peers].
  by rewrite <- (assoc_L (++)).
Qed.

Lemma wire_fields_config c :
  wire_fields (config_fields c) wire0
  = Some (mkWire (hex_encode <$> cfg_PrivateKey c) (itoa <$> cfg_ListenPort c)
            (cfg_ReplacePeers c) (itoa <$> cfg_FirewallMark c) []).
Proof. destruct c as [[] [] [] [] ?]; done. Qed.

Lemma read_config_written c :
  wire_safe (cfg_Peers c) = true -> Forall (fun p => zone_ok p = true) (cfg_Peers c) ->
  read_config (toWgUserspaceString c) = Some (wire_of (written c)).
Proof.
  intros Hs Hz. unfold read_config. rewrite fields_of_config by done.
  rewrite wire_fields_app, wire_fields_config. cbn [mbind option_bind].
  rewrite wire_fields_peers. unfold wire_of. cbn. by rewrite app_nil_r.
Qed.

(** C9: the text the client writes for the device says what the configuration asks
    for, but for [UpdateOnly]: read back as WireGuard's protocol documents it, it gives
    the private key, the port, the mark, and every peer in order with its keys, its
    allowed IPs, its endpoint and its keepalive, and never [update_only], which the
    writer does not write ([written]). It holds for the configurations every caller
    makes, where a peer to remove is the last one and carries nothing else ([wire_safe]:
    [remove=true] is written without its line break) and no endpoint's zone holds white
    space ([zone_ok]). *)
Theorem toWgUserspaceString_read_back c :
  wire_safe (cfg_Peers c) = true -> Forall (fun p => zone_ok p = true) (cfg_Peers c) ->
  read_config (toWgUserspaceString c) = Some (wire_of (written c)).
Proof. apply read_config_written. Qed.

(** ** Reading a device's dump

    The text [IpcGet] answers: the interface's fields, then each peer's, in the
    order of WireGuard's configuration protocol. *)
Record DumpPeer := mkDumpPeer {
  dp_key : Key; dp_psk : option Key; dp_endpoint : option string;
  dp_sec : Z; dp_nsec : Z; dp_tx : Z; dp_rx : Z; dp_keepalive : Z;
  dp_allowed : list string
}.
Record Dump := mkDump {
  d_private : option Key; d_port : option Z; d_fwmark : option Z; d_peers : list DumpPeer
}.

Definition dump_peer_fields (p : DumpPeer) : list field :=
  [("public_key", hex_encode (dp_key p));
   ("preshared_key", match dp_psk p with Some k => hex_encode k | None => "0000000000000000000000000000000000000000000000000000000000000000" end);
   ("protocol_version", "1")]
  ++ opt_field "endpoint" (fun e => e) (dp_endpoint p)
  ++ [("last_handshake_time_sec", itoa (dp_sec p)); ("last_handshake_time_nsec", itoa (dp_nsec p));
      ("tx_bytes", itoa (dp_tx p)); ("rx_bytes", itoa (dp_rx p));
      ("persistent_keepalive_interval", itoa (dp_keepalive p))]
  ++ map (fun a => ("allowed_ip", a)) (dp_allowed p).
Definition dump_fields (d : Dump) : list field :=
  opt_field "private_key" hex_encode (d_private d)
  ++ opt_field "listen_port" itoa (d_port d)
  ++ opt_field "fwmark" itoa (d_fwmark d)
  ++ concat (map dump_peer_fields (d_peers d)).

Definition int64 (z : Z) : Prop := - 2 ^ 63 <= z < 2 ^ 63.
Record dump_peer_ok (p : DumpPeer) : Prop := {
  dpo_key : String.length (dp_key p) = 32%nat;
  dpo_psk : forall k, dp_psk p = Some k -> String.length k = 32%nat;
  dpo_endpoint : forall e, dp_endpoint p = Some e -> no_space e = true;
  dpo_sec : int64 (dp_sec p);
  dpo_tx : int64 (dp_tx p);
  dpo_rx : int64 (dp_rx p);
  dpo_allowed : Forall (fun a => no_space a = true) (dp_allowed p)
}.

Definition time_of (sec : Z) : Time := if sec =? 0 then TimeZero else TimeUnix sec.
Definition dump_stats (p : DumpPeer) : WGStats := mkWGStats (time_of (dp_sec p)) (dp_tx p) (dp_rx p).

Lemma Forall_singleton_field k v :
  key_ok k = true -> no_space v = true -> Forall (fun f => field_tight f = true) [(k, v)].
Proof. intros Hk Hv. constructor; [|done]. unfold field_tight. cbn [fst snd]. by rewrite Hk, Hv. Qed.

Lemma zero_psk_no_space : no_space zero_psk = true.
Proof. done. Qed.

Lemma dump_peer_fields_tight p :
  dump_peer_ok p -> Forall (fun f => field_tight f = true) (dump_peer_fields p).
Proof.
  intros Hp. unfold dump_peer_fields. rewrite !Forall_app.
  assert (Hs : forall k v, key_ok k = true -> no_space v = true -> field_tight (k, v) = true).
  { intros k v Hk Hv. unfold field_tight. cbn [fst snd]. by rewrite Hk, Hv. }
  repeat split.
  - repeat constructor; apply Hs; try done; auto with go_str.
    destruct (dp_psk p); auto with go_str.
  - destruct (dp_endpoint p) as [e|] eqn:E; constructor; [|done].
    apply Hs; [done | by apply (dpo_endpoint _ Hp)].
  - repeat constructor; apply Hs; try done; auto with go_str.
  - apply Forall_fmap. eapply Forall_impl; [apply (dpo_allowed _ Hp)|].
    intros a Ha. by apply Hs.
Qed.

Lemma dump_fields_tight d :
  Forall dump_peer_ok (d_peers d) -> Forall (fun f => field_tight f = true) (dump_fields d).
Proof.
  intros Hd. unfold dump_fields. rewrite !Forall_app.
  repeat split;
    [destruct (d_private d) | destruct (d_port d) | destruct (d_fwmark d) |];
    try (constructor; fail); try (apply Forall_singleton_field; [done | auto with go_str]).
  apply Forall_concat, Forall_fmap. eapply Forall_impl; [done|].
  intros p Hp. by apply dump_peer_fields_tight.
Qed.

(** *** The loop bodies, on fields instead of lines *)

Lemma HasPrefix_key k v p :
  has_char "=" k = false -> has_char "=" p = false ->
  HasPrefix (field_line (k, v)) (p +:+ "=") = bool_decide (k = p).
Proof.
  unfold field_line. cbn [fst snd]. revert k.
  induction p as [|x p IH]; intros [|y k]; cbn [String.append HasPrefix has_char].
  - done.
  - intros [Hy _]%orb_false_iff _. apply Ascii.eqb_neq in Hy.
    rewrite bool_decide_eq_false_2 by done.
    apply andb_false_iff. left. apply Ascii.eqb_neq. congruence.
  - intros _ [Hx _]%orb_false_iff. rewrite Hx. by rewrite bool_decide_eq_false_2.
  - intros [_ Hk]%orb_false_iff [_ Hp]%orb_false_iff.
    specialize (IH k Hk Hp). cbn [String.append] in IH. rewrite IH.
    destruct (Ascii.eqb_spec x y) as [->|Hne]; simpl.
    + apply bool_decide_ext. split; [by intros -> | by intros [= ->]].
    + symmetry. apply bool_decide_eq_false_2. congruence.
Qed.

Lemma TrimPrefix_key k v : TrimPrefix (field_line (k, v)) (k +:+ "=") = v.
Proof.
  unfold field_line. cbn [fst snd]. rewrite <- app_assoc_s. apply TrimPrefix_app.
Qed.

Lemma field_line_inj k v k' v' :
  has_char "=" k = false -> has_char "=" k' = false ->
  field_line (k, v) = field_line (k', v') -> k = k' /\ v = v'.
Proof.
  intros Hk Hk' H. apply (f_equal (SplitN2 "=")) in H.
  unfold field_line in H. cbn [fst snd] in H.
  change ("=" +:+ v) with (String "="%char v) in H.
  change ("=" +:+ v') with (String "="%char v') in H.
  rewrite !SplitN2_app in H by done. by injection H.
Qed.

(** The body of [parseTransfers]'s loop on a field. *)
Definition transfers_field (t : transfers) (f : field) : transfers + error :=
  let '(k, v) := f in
  if bool_decide (k = publicKey) then
    match hex_decode v with
    | inr e => inr (Wrap "decode peerID" e)
    | inl h => inl (tr_update t (b64_encode h) wgStats0)
    end
  else match tr_current t with
       | None => inl t
       | Some (key, cur) =>
           if bool_decide (k = ipcKeyLastHandshakeTimeSec) then
             match toLastHandshake v with
             | inr e => inr e
             | inl hs => inl (tr_update t key (mkWGStats hs (wgs_TxBytes cur) (wgs_RxBytes cur)))
             end
           else if bool_decide (k = ipcKeyRxBytes) then
             match toBytes v with
             | inr e => inr (Wrap "parse rx_bytes" e)
             | inl rx => inl (tr_update t key (mkWGStats (wgs_LastHandshake cur) (wgs_TxBytes cur) rx))
             end
           else if bool_decide (k = ipcKeyTxBytes) then
             match toBytes v with
             | inr e => inr (Wrap "parse tx_bytes" e)
             | inl tx => inl (tr_update t key (mkWGStats (wgs_LastHandshake cur) tx (wgs_RxBytes cur)))
             end
           else inl t
       end.

Lemma field_tight_key k v : field_tight (k, v) = true -> has_char "=" k = false.
Proof. unfold field_tight. cbn [fst snd]. by intros [[H _]%key_ok_parts _]%andb_true_iff. Qed.

Lemma parseTransfers_field t f :
  field_tight f = true -> parseTransfers_line t (field_line f) = transfers_field t f.
Proof.
  destruct f as [k v]. intros Hf. pose proof (field_tight_key _ _ Hf) as Hk.
  unfold parseTransfers_line, transfers_field.
  rewrite TrimSpace_id by by apply field_line_tight.
  change "public_key=" with (publicKey +:+ "="). rewrite HasPrefix_key by done.
  case_bool_decide as E; [by rewrite E, TrimPrefix_key |].
  destruct (tr_current t) as [[key cur]|]; [|done].
  pose proof (field_of_line (k, v)) as Hl. unfold field_of in Hl.
  destruct (SplitN2 "=" (field_line (k, v))) as [|k' [|v' [|]]] eqn:E';
    try (unfold field_line in E'; cbn [fst snd] in E';
         change ("=" +:+ v) with (String "="%char v) in E';
         rewrite SplitN2_app in E' by done; discriminate).
  unfold field_line in E'. cbn [fst snd] in E'.
  change ("=" +:+ v) with (String "="%char v) in E'. rewrite SplitN2_app in E' by done.
  by injection E' as <- <-.
Qed.

Fixpoint transfers_fields (fs : list field) (t : transfers) : transfers + error :=
  match fs with
  | [] => inl t
  | f :: fs' => match transfers_field t f with inl t' => transfers_fields fs' t' | inr e => inr e end
  end.

Lemma transfers_fields_app a b t :
  transfers_fields (a ++ b) t
  = match transfers_fields a t with inl t' => transfers_fields b t' | inr e => inr e end.
Proof.
  revert t. induction a as [|f a IH]; intros t; cbn [app transfers_fields]; [done |].
  destruct (transfers_field t f); [apply IH | done].
Qed.

Lemma parseTransfers_render fs :
  Forall (fun f => field_tight f = true) fs ->
  parseTransfers (render fs)
  = match transfers_fields fs (mkTransfers ∅ None) with inl t => inl (tr_stats t) | inr e => inr e end.
Proof.
  intros Hfs. unfold parseTransfers. rewrite <- (app_empty_r (render fs)), Split_render
    by (eapply Forall_impl; [done | apply field_tight_ok]).
  generalize (mkTransfers ∅ None). induction Hfs as [|f fs Hf _ IH]; intros t.
  - cbn. unfold parseTransfers_line. cbn. by destruct (tr_current t) as [[]|].
  - cbn [map app parseTransfers_lines transfers_fields]. rewrite parseTransfers_field by done.
    destruct (transfers_field t f); [apply IH | done].
Qed.

Lemma toBytes_itoa z : int64 z -> toBytes (itoa z) = inl z.
Proof. apply ParseInt_itoa. Qed.
Lemma toLastHandshake_itoa z : int64 z -> toLastHandshake (itoa z) = inl (time_of z).
Proof. intros H. unfold toLastHandshake, time_of. rewrite ParseInt_itoa by done. by case_match. Qed.
Lemma hexToWireguardKey_encode k :
  String.length k = 32%nat -> hexToWireguardKey (hex_encode k) = inl k.
Proof. intros H. unfold hexToWireguardKey. by rewrite hex_decode_encode, H. Qed.

Lemma transfers_allowed l t :
  is_Some (tr_current t) -> transfers_fields (map (fun a => (allowedIP, a)) l) t = inl t.
Proof.
  intros [[key cur] Hc]. induction l as [|a l IH]; [done |].
  cbn [map transfers_fields]. unfold transfers_field at 1. rewrite Hc. cbn. exact IH.
Qed.

Lemma transfers_step a b t t' :
  transfers_fields a t = inl t' -> transfers_fields (a ++ b) t = transfers_fields b t'.
Proof. intros H. by rewrite transfers_fields_app, H. Qed.

Lemma tr_update_update t k s s' : tr_update (tr_update t k s) k s' = tr_update t k s'.
Proof. unfold tr_update. cbn [tr_stats]. by rewrite insert_insert_eq. Qed.

Lemma transfers_field_current t key cur k v :
  bool_decide (k = publicKey) = false ->
  transfers_field (tr_update t key cur) (k, v)
  = if bool_decide (k = ipcKeyLastHandshakeTimeSec) then
      match toLastHandshake v with
      | inr e => inr e
      | inl hs => inl (tr_update t key (mkWGStats hs (wgs_TxBytes cur) (wgs_RxBytes cur)))
      end
    else if bool_decide (k = ipcKeyRxBytes) then
      match toBytes v with
      | inr e => inr (Wrap "parse rx_bytes" e)
      | inl rx => inl (tr_update t key (mkWGStats (wgs_LastHandshake cur) (wgs_TxBytes cur) rx))
      end
    else if bool_decide (k = ipcKeyTxBytes) then
      match toBytes v with
      | inr e => inr (Wrap "parse tx_bytes" e)
      | inl tx => inl (tr_update t key (mkWGStats (wgs_LastHandshake cur) tx (wgs_RxBytes cur)))
      end
    else inl (tr_update t key cur).
Proof.
  intros Hk. unfold transfers_field. rewrite Hk. cbn [tr_current tr_update].
  repeat case_match; try done; f_equal; apply tr_update_update.
Qed.

Lemma transfers_counters p t key :
  dump_peer_ok p ->
  transfers_fields
    [(ipcKeyLastHandshakeTimeSec, itoa (dp_sec p)); ("last_handshake_time_nsec", itoa (dp_nsec p));
     (ipcKeyTxBytes, itoa (dp_tx p)); (ipcKeyRxBytes, itoa (dp_rx p));
     ("persistent_keepalive_interval", itoa (dp_keepalive p))] (tr_update t key wgStats0)
  = inl (tr_update t key (dump_stats p)).
Proof.
  intros [_ _ _ Hs Ht Hr _].
  do 5 (cbn [transfers_fields]; rewrite transfers_field_current by done; decide_keys;
        rewrite ?toLastHandshake_itoa, ?toBytes_itoa by done).
  done.
Qed.

Lemma transfers_peer p t :
  dump_peer_ok p ->
  transfers_fields (dump_peer_fields p) t
  = inl (tr_update t (b64_encode (dp_key p)) (dump_stats p)).
Proof.
  intros Hp. unfold dump_peer_fields. set (key := b64_encode (dp_key p)).
  rewrite (transfers_step _ _ _ (tr_update t key wgStats0)).
  2:{ cbn -[hex_encode hex_decode tr_update]. by rewrite hex_decode_encode. }
  rewrite (transfers_step _ _ _ (tr_update t key wgStats0)) by by destruct (dp_endpoint p).
  rewrite (transfers_step _ _ _ (tr_update t key (dump_stats p))) by by apply transfers_counters.
  by apply transfers_allowed.
Qed.

Lemma transfers_header {A} key (f : A -> string) o t :
  key <> publicKey -> tr_current t = None ->
  transfers_fields (opt_field key f o) t = inl t.
Proof.
  intros Hk Hc. destruct o; [|done]. cbn. by rewrite bool_decide_eq_false_2, Hc.
Qed.

Definition dump_transfers (ps : list DumpPeer) (m : gmap string WGStats) : gmap string WGStats :=
  foldl (fun m p => <[b64_encode (dp_key p) := dump_stats p]> m) m ps.

Lemma transfers_peers ps t :
  Forall dump_peer_ok ps ->
  exists t', transfers_fields (concat (map dump_peer_fields ps)) t = inl t' /\
    tr_stats t' = dump_transfers ps (tr_stats t).
Proof.
  intros Hps. revert t. induction Hps as [|p ps Hp _ IH]; intros t; [by eexists |].
  cbn [map concat]. rewrite transfers_fields_app.
  rewrite transfers_peer by done.
  destruct (IH (tr_update t (b64_encode (dp_key p)) (dump_stats p))) as (t2 & -> & E2).
  by eexists.
Qed.

(** C15: [GetStats] of the userspace device reads, for every peer of the
    dump, the handshake time and both byte counters, under the base64 form of the
    peer's key (the last one wins if a key is repeated), whatever else the dump
    says about the peer. *)
Theorem parseTransfers_dump d :
  Forall dump_peer_ok (d_peers d) ->
  parseTransfers (render (dump_fields d)) = inl (dump_transfers (d_peers d) ∅).
Proof.
  intros Hd. rewrite parseTransfers_render by by apply dump_fields_tight.
  unfold dump_fields.
  do 3 rewrite (transfers_step _ _ _ (mkTransfers ∅ None)) by by apply transfers_header.
  by destruct (transfers_peers (d_peers d) (mkTransfers ∅ None) Hd) as (t & -> & ->).
Qed.

(** *** parseStatus on a dump *)

Definition head_ok (s : string) : bool :=
  match s with String c _ => negb (is_space c) | EmptyString => false end.

Lemma head_ok_app a b : head_ok a = true -> head_ok (a +:+ b) = true.
Proof. by destruct a. Qed.

Lemma head_ok_tight s : no_space s = true -> s <> EmptyString -> head_ok s = true.
Proof. destruct s; [done |]. rewrite no_space_cons. by intros [H _]%andb_true_iff. Qed.

Lemma srev_tight s : no_space s = true -> no_space (srev s) = true.
Proof. unfold no_space. by rewrite all_chars_srev. Qed.

Lemma srev_nonempty s : s <> EmptyString -> srev s <> EmptyString.
Proof. intros H E. apply H. by rewrite <- (srev_involutive s), E. Qed.

Lemma trim_left_head s : head_ok s = true -> trim_left is_space s = s.
Proof. destruct s as [|c s]; [done |]. cbn [head_ok trim_left]. by intros ->%negb_true_iff. Qed.

Lemma TrimSpace_newline s :
  head_ok s = true -> head_ok (srev s) = true -> TrimSpace (s +:+ nl) = s.
Proof.
  intros Hh Hl. unfold TrimSpace, TrimFunc. rewrite (trim_left_head (s +:+ nl)) by by apply head_ok_app.
  rewrite srev_app_distr. change (srev nl) with nl.
  change (trim_left is_space (nl +:+ srev s)) with (trim_left is_space (srev s)).
  rewrite trim_left_head by done. apply srev_involutive.
Qed.

Lemma Join_cons2 a b l sep : Join (a :: b :: l) sep = a +:+ sep +:+ Join (b :: l) sep.
Proof. done. Qed.

Lemma Join_ends ls :
  ls <> [] -> Forall (fun l => no_space l = true /\ l <> EmptyString) ls ->
  head_ok (Join ls nl) = true /\ head_ok (srev (Join ls nl)) = true.
Proof.
  intros Hne H. induction H as [|l ls [Hl Hle] H IH]; [done |]. clear Hne.
  assert (Hh : head_ok l = true) by by apply head_ok_tight.
  destruct ls as [|l' ls].
  - split; [done |]. apply head_ok_tight; [by apply srev_tight | by apply srev_nonempty].
  - rewrite Join_cons2. destruct IH as [_ IH]; [done |].
    split; [by apply head_ok_app |]. rewrite !srev_app_distr, app_assoc_s. by apply head_ok_app.
Qed.

Lemma render_Join fs : fs <> [] -> render fs = Join (map field_line fs) nl +:+ nl.
Proof.
  intros Hne. induction fs as [|f fs IH]; [done |]. clear Hne.
  change (render (f :: fs)) with (line f.1 f.2 +:+ render fs).
  rewrite line_field_line. replace (f.1, f.2) with f by by destruct f.
  destruct fs as [|f' fs]; [by rewrite app_empty_r |].
  cbn [map]. rewrite Join_cons2, IH, !app_assoc_s by done. done.
Qed.

Lemma field_line_nonempty f : field_line f <> EmptyString.
Proof. unfold field_line. by destruct f.1. Qed.

Lemma parseStatus_lines_render `{!WgTypes} fs s :
  Forall (fun f => field_tight f = true) fs ->
  foldl parseStatus_line s (Split newline (TrimSpace (render fs)))
  = foldl (fun s f => parseStatus_field s f.1 f.2) s fs.
Proof.
  intros Hfs. destruct (decide (fs = [])) as [->|Hne]; [done |].
  assert (Ht : Forall (fun l => no_space l = true /\ l <> EmptyString) (map field_line fs)).
  { apply Forall_fmap. eapply Forall_impl; [done |]. intros f Hf.
    split; [by apply field_line_tight | apply field_line_nonempty]. }
  rewrite render_Join by done.
  destruct (Join_ends (map field_line fs)) as [Hh Hl]; [by destruct fs | done |].
  rewrite TrimSpace_newline by done. change nl with (chr newline).
  rewrite Split_Join; [| by destruct fs |].
  2:{ eapply Forall_impl; [done |]. intros l [Hl' _]. by apply no_space_newline. }
  clear Hne Ht Hh Hl. revert s. induction Hfs as [|f fs Hf _ IH]; intros s; [done |].
  cbn [map foldl]. rewrite IH. f_equal. unfold parseStatus_line, field_line.
  destruct f as [k v]. cbn [fst snd]. change ("=" +:+ v) with (String "="%char v).
  by rewrite SplitN2_app by (by eapply field_tight_key).
Qed.

Section dump_status.
Context {wg : WgTypes}.

Definition status_fields (fs : list field) (s : status) : status :=
  foldl (fun s f => parseStatus_field s f.1 f.2) s fs.

Definition zeroKey : Key := Nat.iter 32 (String "000"%char) EmptyString.

(** What [parseStatus] makes of the lines of a peer. *)
Definition dump_endpoint (o : option string) : UDPAddr :=
  match o with
  | None => udpAddr0
  | Some e =>
      match SplitHostPort (Trim e "[]") with
      | inl (host, port) =>
          match Atoi port with
          | inl z => mkUDPAddr (default EmptyString (ParseIP host)) z EmptyString
          | inr _ => udpAddr0
          end
      | inr _ => udpAddr0
      end
  end.
Definition parsed_cidr (a : string) : option IPNet :=
  match ParseCIDR a with inl (_, n) => Some n | inr _ => None end.
Definition dump_peer (p : DumpPeer) : Peer :=
  mkPeer (Key_String (dp_key p)) (dump_endpoint (dp_endpoint p))
    (omap parsed_cidr (dp_allowed p)) (dp_tx p) (dp_rx p) (time_of (dp_sec p))
    (match dp_psk p with Some k => bool_decide (k <> zeroKey) | None => false end).
Definition dump_status (dev : string) (d : Dump) : Stats :=
  mkStats dev
    (match d_private d with Some k => Key_String (PublicKey k) | None => EmptyString end)
    (default 0 (d_port d)) (default 0 (d_fwmark d)) (map dump_peer (d_peers d)).

Lemma status_step a b s s' :
  status_fields a s = s' -> status_fields (a ++ b) s = status_fields b s'.
Proof. intros <-. unfold status_fields. by rewrite foldl_app. Qed.

Lemma status_allowed l st p :
  status_fields (map (fun a => (allowedIP, a)) l) (mkStatus st (Some p))
  = mkStatus st (Some (mkPeer (peer_PublicKey p) (peer_Endpoint p)
      (peer_AllowedIPs p ++ omap parsed_cidr l) (peer_TxBytes p) (peer_RxBytes p)
      (peer_LastHandshake p) (peer_PresharedKey p))).
Proof.
  revert p. induction l as [|a l IH]; intros p.
  - cbn. rewrite app_nil_r. by destruct p.
  - cbn [map]. change (status_fields (?f :: ?fs) ?s)
      with (status_fields fs (parseStatus_field s f.1 f.2)).
    cbn [fst snd]. unfold parseStatus_field. decide_keys. cbn [omap list_omap].
    unfold parsed_cidr at 1. destruct (ParseCIDR a) as [[ip n]|e]; [|apply IH].
    unfold on_peer. cbn [fmap option_fmap option_map ps_stats ps_current]. rewrite IH. cbn.
    by rewrite <- (assoc_L (++)).
Qed.

Lemma hex_psk_zero k : String.length k = 32%nat ->
  bool_decide (hex_encode k <> EmptyString) && bool_decide (hex_encode k <> zero_psk)
  = bool_decide (k <> zeroKey).
Proof.
  intros Hk. rewrite bool_decide_eq_true_2 by by destruct k. cbn [andb].
  assert (E : zero_psk = hex_encode zeroKey) by by vm_compute. rewrite E.
  apply bool_decide_ext. split; intros H H'; apply H; [by rewrite H' | by apply hex_encode_inj].
Qed.

Lemma status_cons k v fs s :
  status_fields ((k, v) :: fs) s = status_fields fs (parseStatus_field s k v).
Proof. done. Qed.

(** One field of a dump, in the state of a started peer. *)
Ltac status_field_step :=
  rewrite status_cons; unfold parseStatus_field at 1; decide_keys;
  rewrite ?toBytes_itoa, ?toLastHandshake_itoa by done;
  unfold on_peer; cbn [fmap option_fmap option_map ps_stats ps_current].

Lemma status_counters st q p :
  int64 (dp_sec p) -> int64 (dp_tx p) -> int64 (dp_rx p) ->
  status_fields
    [(ipcKeyLastHandshakeTimeSec, itoa (dp_sec p)); ("last_handshake_time_nsec", itoa (dp_nsec p));
     (ipcKeyTxBytes, itoa (dp_tx p)); (ipcKeyRxBytes, itoa (dp_rx p));
     ("persistent_keepalive_interval", itoa (dp_keepalive p))] (mkStatus st (Some q))
  = mkStatus st (Some (mkPeer (peer_PublicKey q) (peer_Endpoint q) (peer_AllowedIPs q)
      (dp_tx p) (dp_rx p) (time_of (dp_sec p)) (peer_PresharedKey q))).
Proof.
  intros Hs Ht Hr. do 5 status_field_step. done.
Qed.

Lemma status_start p s :
  dump_peer_ok p ->
  status_fields
    [(publicKey, hex_encode (dp_key p));
     (presharedKey, match dp_psk p with Some k => hex_encode k | None => zero_psk end);
     ("protocol_version", "1")] s
  = mkStatus (ps_stats (save_peer s)) (Some (peer_set_PresharedKey
      (match dp_psk p with Some k => bool_decide (k <> zeroKey) | None => false end)
      (peer0 (Key_String (dp_key p))))).
Proof.
  intros Hp. status_field_step.
  rewrite hexToWireguardKey_encode by apply (dpo_key _ Hp).
  do 2 status_field_step.
  destruct (dp_psk p) as [k|] eqn:E; [|done].
  rewrite hex_psk_zero by by apply (dpo_psk _ Hp). by case_bool_decide.
Qed.

Lemma status_endpoint st q o :
  peer_Endpoint q = udpAddr0 ->
  status_fields (opt_field endpoint (fun e => e) o) (mkStatus st (Some q))
  = mkStatus st (Some (peer_set_Endpoint (dump_endpoint o) q)).
Proof.
  intros Hq. destruct o as [e|].
  - cbn [opt_field]. status_field_step.
    unfold parseStatus_endpoint. cbn [ps_current dump_endpoint].
    assert (E : mkStatus st (Some q) = mkStatus st (Some (peer_set_Endpoint udpAddr0 q))).
    { do 2 f_equal. destruct q; cbn in Hq; by subst. }
    destruct (SplitHostPort (Trim e "[]")) as [[h pt]|]; [|done]. by destruct (Atoi pt).
  - cbn. do 2 f_equal. destruct q; cbn in Hq; by subst.
Qed.

Lemma status_peer p s :
  dump_peer_ok p ->
  status_fields (dump_peer_fields p) s
  = mkStatus (ps_stats (save_peer s)) (Some (dump_peer p)).
Proof.
  intros Hp. unfold dump_peer_fields.
  rewrite (status_step _ _ _ _ (status_start p s Hp)).
  erewrite status_step by by apply status_endpoint.
  destruct Hp as [_ _ _ Hs Ht Hr _].
  rewrite (status_step _ _ _ _ (status_counters _ _ p Hs Ht Hr)).
  by rewrite status_allowed.
Qed.

Lemma status_peers ps s :
  Forall dump_peer_ok ps ->
  ps_stats (save_peer (status_fields (concat (map dump_peer_fields ps)) s))
  = foldl (fun st p => st_add_Peer (dump_peer p) st) (ps_stats (save_peer s)) ps.
Proof.
  intros Hps. revert s. induction Hps as [|p ps Hp _ IH]; intros s; [done |].
  cbn [map concat foldl]. rewrite (status_step _ _ _ _ (status_peer p s Hp)). by rewrite IH.
Qed.

Lemma st_add_Peers ps st :
  foldl (fun st p => st_add_Peer (dump_peer p) st) st ps
  = mkStats (st_DeviceName st) (st_PublicKey st) (st_ListenPort st) (st_FWMark st)
      (st_Peers st ++ map dump_peer ps).
Proof.
  revert st. induction ps as [|p ps IH]; intros st; cbn [foldl map].
  - rewrite app_nil_r. by destruct st.
  - rewrite IH. cbn. by rewrite <- (assoc_L (++)).
Qed.

Lemma parseStatus_fields dev d :
  Forall dump_peer_ok (d_peers d) ->
  (forall k, d_private d = Some k -> String.length k = 32%nat) ->
  (forall z, d_port d = Some z -> int64 z) -> (forall z, d_fwmark d = Some z -> int64 z) ->
  parseStatus dev (render (dump_fields d)) = dump_status dev d.
Proof.
  intros Hd Hk Hport Hmark. unfold parseStatus.
  rewrite parseStatus_lines_render by by apply dump_fields_tight.
  change (foldl _ ?s ?fs) with (status_fields fs s). unfold dump_fields, dump_status.
  set (st pk port mark := mkStatus (mkStats dev pk port mark []) None).
  set (pk := match d_private d with Some k => Key_String (PublicKey k) | None => EmptyString end).
  change (mkStatus _ None) with (st EmptyString 0 0) at 1.
  rewrite (status_step _ _ _ (st pk 0 0)).
  2:{ unfold pk. destruct (d_private d) as [k|]; [|done].
      cbn [opt_field]. unfold st. status_field_step.
      by rewrite hexToWireguardKey_encode by by apply Hk. }
  rewrite (status_step _ _ _ (st pk (default 0 (d_port d)) 0)).
  2:{ destruct (d_port d) as [z|]; [|done].
      cbn [opt_field]. unfold st. status_field_step. unfold Atoi.
      by rewrite ParseInt_itoa by by apply Hport. }
  rewrite (status_step _ _ _ (st pk (default 0 (d_port d)) (default 0 (d_fwmark d)))).
  2:{ destruct (d_fwmark d) as [z|]; [|done].
      cbn [opt_field]. unfold st. status_field_step. unfold Atoi.
      by rewrite ParseInt_itoa by by apply Hmark. }
  rewrite status_peers by done. by rewrite st_add_Peers.
Qed.

(** What a device dumps of a peer, and what is to be reported of it. The endpoint is
    printed as [address:port], an IPv6 address, with its zone, in brackets. *)
Definition endpoint_String (a : Addr) (port : Z) : string :=
  (if addr_Is4 a then addr_String a else "[" +:+ addr_String a +:+ "]") +:+ ":" +:+ itoa port.

Record reports (p : DumpPeer) (q : Peer) : Prop := {
  rp_key : peer_PublicKey q = Key_String (dp_key p);
  rp_counters : peer_TxBytes q = dp_tx p /\ peer_RxBytes q = dp_rx p;
  rp_handshake : peer_LastHandshake q = if dp_sec p =? 0 then TimeZero else TimeUnix (dp_sec p);
  rp_psk : peer_PresharedKey q = true <-> exists k, dp_psk p = Some k /\ k <> zeroKey;
  rp_none : dp_endpoint p = None -> peer_Endpoint q = udpAddr0;
  rp_v4 : forall n port, 0 <= n < 2 ^ 32 -> 0 <= port < 2 ^ 16 ->
    dp_endpoint p = Some (endpoint_String (Addr4 n) port) ->
    peer_Endpoint q = mkUDPAddr (addr_As16 (Addr4 n)) port EmptyString;
  rp_v6 : forall n z port, dp_endpoint p = Some (endpoint_String (Addr6 n z) port) ->
    peer_Endpoint q = udpAddr0;
  rp_allowed : map ipnet_String (peer_AllowedIPs q) = dp_allowed p
}.

Definition cidr_printed (a : string) : Prop := exists ip n, ParseCIDR a = inl (ip, n) /\ ipnet_String n = a.

Lemma cidr_printed_dec a :
  match ParseCIDR a with inl (_, n) => bool_decide (ipnet_String n = a) | inr _ => false end = true -> cidr_printed a.
Proof. destruct (ParseCIDR a) as [[ip n]|] eqn:E; [|done]. intros H%bool_decide_eq_true. by exists ip, n. Qed.

Lemma parsed_printed l : Forall cidr_printed l -> map ipnet_String (omap parsed_cidr l) = l.
Proof.
  intros H. induction H as [|a l (ip & n & Hp & Hn) _ IH]; [done |]. cbn [omap list_omap].
  unfold parsed_cidr at 1. rewrite Hp. cbn [map]. by rewrite Hn, IH.
Qed.

Definition bracket (c : ascii) : bool := has_char c "[]".
Definition unbracketed (s : string) : bool := all_chars (fun c => negb (bracket c)) s.

Lemma is_int_char_bracket c : is_int_char c = true -> negb (bracket c) = true.
Proof.
  by destruct c as [[] [] [] [] [] [] [] []].
Qed.
Lemma itoa_unbracketed z : unbracketed (itoa z) = true.
Proof. eapply all_chars_impl; [apply is_int_char_bracket | apply itoa_chars]. Qed.
Lemma dotted_unbracketed n : unbracketed (dotted n) = true.
Proof. unfold unbracketed, dotted. rewrite !all_chars_app. change (all_chars _ (itoa ?z)) with (unbracketed (itoa z)). by rewrite !itoa_unbracketed. Qed.


Lemma starts_with_has c s : has_char c s = false -> starts_with c s = false.
Proof. destruct s as [|x s]; [done |]. cbn [has_char starts_with]. by intros [-> _]%orb_false_iff. Qed.

Lemma dotted_no_colon n : has_char ":" (dotted n) = false.
Proof.
  unfold dotted. rewrite !has_char_app. cbn [has_char].
  assert (H : forall z, has_char ":" (itoa z) = false) by (intros z; by eapply all_chars_has_char; [apply itoa_chars |]).
  by rewrite !H.
Qed.

Lemma endpoint_v4 n port :
  0 <= n < 2 ^ 32 -> 0 <= port < 2 ^ 16 ->
  dump_endpoint (Some (endpoint_String (Addr4 n) port)) = mkUDPAddr (addr_As16 (Addr4 n)) port EmptyString.
Proof.
  intros Hn Hp. unfold dump_endpoint, endpoint_String. cbn [addr_Is4 addr_String].
  assert (Hu : unbracketed (dotted n +:+ ":" +:+ itoa port) = true).
  { unfold unbracketed. rewrite !all_chars_app. change (all_chars _ (itoa ?z)) with (unbracketed (itoa z)).
    change (all_chars _ (dotted ?z)) with (unbracketed (dotted z)). by rewrite dotted_unbracketed, itoa_unbracketed. }
  assert (Hb : forall c, bracket c = true -> has_char c (dotted n +:+ ":" +:+ itoa port) = false).
  { intros c Hc. eapply all_chars_has_char; [exact Hu |]. cbn beta. by rewrite Hc. }
  unfold Trim. rewrite TrimFunc_id by exact Hu. unfold SplitHostPort.
  rewrite (starts_with_has "["), !Hb by (try apply Hb; done).
  change (":" +:+ itoa port) with (String ":" (itoa port)).
  rewrite split_last_app by by eapply all_chars_has_char; [apply itoa_chars |].
  rewrite dotted_no_colon. cbn [orb]. unfold Atoi. rewrite ParseInt_itoa by lia.
  unfold ParseIP. by rewrite ParseAddr_dotted.
Qed.

Lemma itoa_nonempty z : itoa z <> EmptyString.
Proof.
  intros H. unfold itoa in H. destruct (Z.ltb_spec z 0); [done |]. destruct (dec_spec z ltac:(lia)) as (_ & _ & Hn). done.
Qed.

(** An IPv6 address starts with no bracket. *)
Definition plain_head (s : string) : Prop := exists c s', s = String c s' /\ bracket c = false.

Lemma plain_head_app a b : plain_head a -> plain_head (a +:+ b).
Proof. intros (c & s & -> & H). by exists c, (s +:+ b). Qed.
Lemma unbracketed_head s : unbracketed s = true -> s <> EmptyString -> plain_head s.
Proof.
  destruct s as [|c s]; [done |]. unfold unbracketed. cbn [all_chars]. intros [H _]%andb_true_iff _.
  apply negb_true_iff in H. by exists c, s.
Qed.
Lemma hex16_head g : plain_head (hex16 g).
Proof.
  assert (H : forall i s, plain_head (chr (hex_digit (Z.land (Z.shiftr g (4 * i)) 15)) +:+ s)).
  { intros i s. eexists _, s. split; [reflexivity |].
    pose proof (land_low (Z.shiftr g (4 * i)) 4 ltac:(lia)) as Hr. change (2 ^ 4) with 16 in Hr.
    change (16 - 1) with 15 in Hr. revert Hr. generalize (Z.land (Z.shiftr g (4 * i)) 15). intros d Hd.
    assert (Hall : forallb (fun d => negb (bracket (hex_digit d))) (map Z.of_nat (seq 0 16)) = true) by by vm_compute.
    rewrite forallb_forall in Hall. apply negb_true_iff, Hall, in_map_iff. exists (Z.to_nat d).
    split; [lia | apply in_seq; lia]. }
  unfold hex16. repeat case_match; [apply H | apply H | apply H | rewrite <- (app_empty_r (chr _)); apply H].
Qed.
Lemma join_groups_head g gs run : plain_head (join_groups 0 (g :: gs) run).
Proof.
  destruct run as [a b]. cbn [join_groups fst snd].
  destruct (a <? b)%nat, a as [|a]; cbn [Nat.eqb andb Nat.ltb Nat.leb negb];
    first [by eexists _, _ | cbn [String.append]; apply plain_head_app, hex16_head].
Qed.
Lemma addr6_head n z : plain_head (addr_String (Addr6 n z)).
Proof.
  cbn [addr_String]. apply plain_head_app.
  destruct (addr_Is4In6 _); [by exists ":"%char, (":ffff:" +:+ dotted (Z.land n (2 ^ 32 - 1))) |].
  apply join_groups_head.
Qed.

Lemma trim_plain s : plain_head s -> trim_left bracket s = s.
Proof. intros (c & s' & -> & H). cbn [trim_left]. by rewrite H. Qed.

(** The code trims the first bracket of an IPv6 endpoint before it splits it, which then fails. *)
Lemma endpoint_v6 n z port : dump_endpoint (Some (endpoint_String (Addr6 n z) port)) = udpAddr0.
Proof.
  unfold dump_endpoint, endpoint_String. cbn [addr_Is4]. pose proof (addr6_head n z) as Hh.
  generalize dependent (addr_String (Addr6 n z)). intros h Hh.
  assert (E : Trim (("[" +:+ h +:+ "]") +:+ ":" +:+ itoa port) "[]" = h +:+ "]:" +:+ itoa port).
  { unfold Trim, TrimFunc. change (fun c => has_char c "[]") with bracket.
    rewrite !app_assoc_s. change (trim_left bracket ("[" +:+ ?s)) with (trim_left bracket s).
    change ("]" +:+ ":" +:+ ?s) with ("]:" +:+ s).
    rewrite (trim_plain (h +:+ _)) by by apply plain_head_app. rewrite trim_plain; [apply srev_involutive |].
    rewrite !srev_app_distr, app_assoc_s. apply plain_head_app, unbracketed_head.
    - unfold unbracketed. rewrite all_chars_srev. apply itoa_unbracketed.
    - apply srev_nonempty, itoa_nonempty. }
  rewrite E. unfold SplitHostPort. destruct Hh as (c & h' & -> & Hc).
  assert (Hs : starts_with "[" (String c h' +:+ "]:" +:+ itoa port) = false).
  { cbn. unfold bracket in Hc. cbn [has_char] in Hc. by apply orb_false_iff in Hc as [Hc _]. }
  assert (Hb : has_char "]" (String c h' +:+ "]:" +:+ itoa port) = true).
  { rewrite !has_char_app. cbn [has_char]. by rewrite !orb_true_r. }
  destruct (split_last _ _) as [[before pt]|]; [|done]. rewrite Hs, Hb. by rewrite !orb_true_r.
Qed.

Lemma dump_peer_reports p : Forall cidr_printed (dp_allowed p) -> reports p (dump_peer p).
Proof.
  intros Ha. split; cbn [dump_peer peer_PublicKey peer_TxBytes peer_RxBytes peer_LastHandshake peer_PresharedKey
    peer_Endpoint peer_AllowedIPs]; [done | done | done | | by intros -> | | | by apply parsed_printed].
  - destruct (dp_psk p) as [k|]; [rewrite bool_decide_eq_true |]; naive_solver.
  - intros n port Hn Hp ->. by apply endpoint_v4.
  - intros n z port ->. apply endpoint_v6.
Qed.

(** C16: what [FullStats] of the userspace device reports of a device's dump: the
    device's public key, its port and mark, and every peer in order ([reports]) with
    its key, its counters, its handshake time, whether it has a preshared key (the
    all-zero key means none), its allowed IPs, and its endpoint when that is IPv4. An
    IPv6 endpoint is not reported at all, as the code trims its bracket before
    splitting it. The allowed IPs are those of a device: prefixes that
    [net.ParseCIDR] reads and prints alike. *)
Theorem parseStatus_dump dev d :
  Forall dump_peer_ok (d_peers d) -> Forall (fun p => Forall cidr_printed (dp_allowed p)) (d_peers d) ->
  (forall k, d_private d = Some k -> String.length k = 32%nat) ->
  (forall z, d_port d = Some z -> int64 z) -> (forall z, d_fwmark d = Some z -> int64 z) ->
  let st := parseStatus dev (render (dump_fields d)) in
  st_DeviceName st = dev /\
  st_PublicKey st = match d_private d with Some k => Key_String (PublicKey k) | None => EmptyString end /\
  st_ListenPort st = default 0 (d_port d) /\ st_FWMark st = default 0 (d_fwmark d) /\
  Forall2 reports (d_peers d) (st_Peers st).
Proof.
  intros Hd Ha Hk Hport Hmark st. unfold st. rewrite parseStatus_fields by done. cbn. do 4 (split; [done |]).
  induction Ha as [|p ps Hp _ IH]; cbn [map]; constructor; [by apply dump_peer_reports | apply IH].
  by apply Forall_cons in Hd as [_ Hd].
Qed.

End dump_status.

(** *** The scan of [RemoveAllowedIP] on a dump *)

Definition scan_field (hexKey ip : string) (s : scan) (f : field) : scan + error :=
  let '(k, v) := f in
  let found := if bool_decide (k = publicKey) then bool_decide (v = hexKey) else sc_foundPeer s in
  if found && bool_decide (k = allowedIP) then
    if bool_decide (v = ip) then inl (mkScan found true (sc_allowed s))
    else match ParseCIDR v with
         | inr e => inr e
         | inl (_, n) => inl (mkScan found (sc_removed s) (sc_allowed s ++ [n]))
         end
  else inl (mkScan found (sc_removed s) (sc_allowed s)).

Lemma field_line_eq k v p t :
  has_char "=" k = false -> has_char "=" p = false ->
  bool_decide (field_line (k, v) = p +:+ "=" +:+ t) = bool_decide (k = p) && bool_decide (v = t).
Proof.
  intros Hk Hp. change (p +:+ "=" +:+ t) with (field_line (p, t)).
  rewrite <- bool_decide_and. apply bool_decide_ext. split.
  - intros H. by apply field_line_inj in H.
  - by intros [-> ->].
Qed.

Lemma scan_line_field hexKey ip s f :
  field_tight f = true -> scan_line hexKey ip s (field_line f) = scan_field hexKey ip s f.
Proof.
  destruct f as [k v]. intros Hf. pose proof (field_tight_key _ _ Hf) as Hk.
  unfold scan_line, scan_field. rewrite TrimSpace_id by by apply field_line_tight.
  change ("public_key=" +:+ hexKey) with (publicKey +:+ "=" +:+ hexKey).
  change ("allowed_ip=" +:+ ip) with (allowedIP +:+ "=" +:+ ip).
  change "public_key=" with (publicKey +:+ "="). change "allowed_ip=" with (allowedIP +:+ "=").
  rewrite !HasPrefix_key, !field_line_eq by done.
  destruct (decide (k = publicKey)) as [->|Hkp].
  - decide_keys. rewrite !andb_true_l, !andb_false_l, !andb_false_r.
    by case_bool_decide; destruct (sc_foundPeer s).
  - rewrite (bool_decide_eq_false_2 (k = publicKey)) by done. rewrite !andb_false_l.
    destruct (decide (k = allowedIP)) as [->|Hka].
    + rewrite TrimPrefix_key. decide_keys. rewrite !andb_true_l, !andb_true_r.
      by destruct (sc_foundPeer s), (bool_decide (v = ip)).
    + rewrite (bool_decide_eq_false_2 (k = allowedIP)) by done.
      by rewrite !andb_false_l, !andb_false_r.
Qed.

Fixpoint scan_fields (hexKey ip : string) (fs : list field) (s : scan) : scan + error :=
  match fs with
  | [] => inl s
  | f :: fs' =>
      match scan_field hexKey ip s f with
      | inr e => inr e
      | inl s' => scan_fields hexKey ip fs' s'
      end
  end.

Lemma scan_step hexKey ip a b s s' :
  scan_fields hexKey ip a s = inl s' ->
  scan_fields hexKey ip (a ++ b) s = scan_fields hexKey ip b s'.
Proof.
  revert s. induction a as [|f a IH]; intros s; cbn [app scan_fields]; [by intros [= ->] |].
  destruct (scan_field hexKey ip s f); [apply IH | done].
Qed.

Lemma scan_lines_render hexKey ip fs s :
  Forall (fun f => field_tight f = true) fs ->
  scan_lines hexKey ip (Split newline (render fs)) s = scan_fields hexKey ip fs s.
Proof.
  intros Hfs. rewrite <- (app_empty_r (render fs)), Split_render
    by (eapply Forall_impl; [done | apply field_tight_ok]).
  revert s. induction Hfs as [|f fs Hf _ IH]; intros s.
  - cbn. unfold scan_line. cbn [TrimSpace TrimFunc trim_left srev srev_app HasPrefix andb].
    rewrite !bool_decide_eq_false_2 by done. rewrite andb_false_r. cbn. by destruct s.
  - cbn [map app scan_lines scan_fields]. rewrite scan_line_field by done.
    destruct (scan_field hexKey ip s f); [apply IH | done].
Qed.

Lemma scan_skip hexKey ip fs s :
  Forall (fun f => f.1 <> publicKey /\ f.1 <> allowedIP) fs -> scan_fields hexKey ip fs s = inl s.
Proof.
  intros H. induction H as [|[k v] fs [Hk Ha] _ IH]; [done |].
  cbn [scan_fields scan_field fst] in *. rewrite !bool_decide_eq_false_2 by done.
  rewrite andb_false_r. destruct s. exact IH.
Qed.

Lemma scan_allowed_off hexKey ip l s :
  sc_foundPeer s = false ->
  scan_fields hexKey ip (map (fun a => (allowedIP, a)) l) s = inl s.
Proof.
  intros Hs. induction l as [|a l IH]; [done |].
  cbn [map scan_fields scan_field]. decide_keys. rewrite Hs. cbn [andb].
  destruct s; cbn in *; subst. exact IH.
Qed.

Lemma scan_allowed_on hexKey ip l rm acc :
  Forall (fun a => is_Some (parsed_cidr a)) l ->
  scan_fields hexKey ip (map (fun a => (allowedIP, a)) l) (mkScan true rm acc)
  = inl (mkScan true (rm || bool_decide (ip ∈ l))
           (acc ++ omap parsed_cidr (filter (fun a => a <> ip) l))).
Proof.
  intros H. revert rm acc. induction H as [|a l [n Hn] _ IH]; intros rm acc.
  - cbn. by rewrite orb_false_r, app_nil_r.
  - cbn [map scan_fields scan_field sc_foundPeer sc_removed sc_allowed]. decide_keys. cbn [andb].
    rewrite filter_cons. unfold parsed_cidr in Hn.
    destruct (decide (a = ip)) as [->|Hne].
    + rewrite bool_decide_eq_true_2 by done. rewrite decide_False by tauto. rewrite IH.
      rewrite (bool_decide_eq_true_2 (ip ∈ ip :: l)) by set_solver. by rewrite orb_true_r.
    + rewrite bool_decide_eq_false_2 by done. rewrite decide_True by done.
      destruct (ParseCIDR a) as [[i n']|] eqn:E; [|done]. injection Hn as ->. rewrite IH.
      cbn [omap list_omap]. unfold parsed_cidr at 2. rewrite E, <- (assoc_L (++)).
      do 2 f_equal. f_equal. apply bool_decide_ext. set_solver.
Qed.

Lemma scan_peer hexKey ip p s :
  Forall (fun a => is_Some (parsed_cidr a)) (dp_allowed p) ->
  scan_fields hexKey ip (dump_peer_fields p) s
  = inl (if bool_decide (hex_encode (dp_key p) = hexKey)
         then mkScan true (sc_removed s || bool_decide (ip ∈ dp_allowed p))
                (sc_allowed s ++ omap parsed_cidr (filter (fun a => a <> ip) (dp_allowed p)))
         else mkScan false (sc_removed s) (sc_allowed s)).
Proof.
  intros Ha. unfold dump_peer_fields.
  set (found := bool_decide (hex_encode (dp_key p) = hexKey)).
  rewrite (scan_step _ _ _ _ _ (mkScan found (sc_removed s) (sc_allowed s))).
  2:{ cbn [scan_fields scan_field sc_foundPeer sc_removed sc_allowed]. decide_keys.
      rewrite andb_false_r. cbn [scan_fields scan_field sc_foundPeer sc_removed sc_allowed].
      decide_keys. by rewrite !andb_false_r. }
  rewrite (scan_step _ _ _ _ _ (mkScan found (sc_removed s) (sc_allowed s))).
  2:{ apply scan_skip. destruct (dp_endpoint p); repeat constructor; by vm_compute. }
  rewrite (scan_step _ _ _ _ _ (mkScan found (sc_removed s) (sc_allowed s))).
  2:{ apply scan_skip. repeat constructor; by vm_compute. }
  destruct found; [by apply scan_allowed_on | by apply scan_allowed_off].
Qed.

(** The allowed IPs of the peer with a key, over all its entries of the dump. *)
Definition dump_allowed (k : Key) (ps : list DumpPeer) : list string :=
  concat (map dp_allowed (filter (fun p => dp_key p = k) ps)).

Lemma scan_peers k ip ps s :
  Forall (fun p => Forall (fun a => is_Some (parsed_cidr a)) (dp_allowed p)) ps ->
  exists found, scan_fields (hex_encode k) ip (concat (map dump_peer_fields ps)) s
  = inl (mkScan found (sc_removed s || bool_decide (ip ∈ dump_allowed k ps))
      (sc_allowed s ++ omap parsed_cidr (filter (fun a => a <> ip) (dump_allowed k ps)))).
Proof.
  intros H. revert s. induction H as [|p ps Hp _ IH]; intros s.
  - exists (sc_foundPeer s). cbn. rewrite orb_false_r, app_nil_r. by destruct s.
  - cbn [map concat]. rewrite (scan_step _ _ _ _ _ _ (scan_peer _ _ _ s Hp)).
    unfold dump_allowed in *. rewrite filter_cons.
    destruct (decide (dp_key p = k)) as [<-|Hne].
    + rewrite bool_decide_eq_true_2 by done. cbn [map concat].
      match goal with |- context [scan_fields _ _ _ ?s'] => destruct (IH s') as [found ->] end.
      exists found. cbn [sc_removed sc_allowed].
      rewrite filter_app, omap_app, <- (assoc_L (++)). do 2 f_equal.
      rewrite <- orb_assoc. f_equal. rewrite <- bool_decide_or. apply bool_decide_ext. set_solver.
    + rewrite bool_decide_eq_false_2 by (intros E; by apply hex_encode_inj in E).
      match goal with |- context [scan_fields _ _ _ ?s'] => destruct (IH s') as [found ->] end.
      by exists found.
Qed.

Lemma scan_dump k ip d :
  Forall dump_peer_ok (d_peers d) ->
  Forall (fun p => Forall (fun a => is_Some (parsed_cidr a)) (dp_allowed p)) (d_peers d) ->
  exists found, scan_lines (hex_encode k) ip (Split newline (render (dump_fields d)))
                  (mkScan false false [])
  = inl (mkScan found (bool_decide (ip ∈ dump_allowed k (d_peers d)))
      (omap parsed_cidr (filter (fun a => a <> ip) (dump_allowed k (d_peers d))))).
Proof.
  intros Hd Ha. rewrite scan_lines_render by by apply dump_fields_tight. unfold dump_fields.
  rewrite (scan_step _ _ _ _ _ (mkScan false false []))
    by (apply scan_skip; destruct (d_private d); repeat constructor; by vm_compute).
  rewrite (scan_step _ _ _ _ _ (mkScan false false []))
    by (apply scan_skip; destruct (d_port d); repeat constructor; by vm_compute).
  rewrite (scan_step _ _ _ _ _ (mkScan false false []))
    by (apply scan_skip; destruct (d_fwmark d); repeat constructor; by vm_compute).
  apply (scan_peers k ip (d_peers d) (mkScan false false []) Ha).
Qed.

(** ** A concrete key type, and a peer, to run the theorems on

    Keys are read and printed in base64; a public key is its private key. *)
Module Keys.

#[export] Instance wgtypes : WgTypes.
Proof.
  refine {| ParseKey s := match b64_decode s with
                          | Some k => if (String.length k =? 32)%nat then inl k
                                      else inr (New "wgtypes: incorrect key size")
                          | None => inr (New "wgtypes: failed to parse base64-encoded key")
                          end;
            Key_String := b64_encode; PublicKey k := k |}.
  - intros k Hk. by rewrite b64_decode_encode, Hk.
  - intros s k. destruct (b64_decode s) as [k'|]; [|done].
    destruct (Nat.eqb_spec (String.length k') 32); [by intros [= <-] | done].
  - done.
Defined.

(** The 32 bytes of value [c], as a key. *)
Definition key (c : ascii) : Key := Nat.iter 32 (String c) EmptyString.


Definition sample_peer : DumpPeer :=
  mkDumpPeer (key "A") (Some (key "P")) (Some "192.0.2.1:51820") 1700000000 0 10 20 25
    ["10.0.0.0/24"; "100.64.0.2/32"].
Definition sample_dump : Dump := mkDump (Some (key "S")) (Some 51820) None [sample_peer].

Lemma sample_peer_ok : dump_peer_ok sample_peer.
Proof.
  split; try (by vm_compute); [| |by repeat constructor].
  - intros k H. injection H as <-. by vm_compute.
  - intros k H. injection H as <-. by vm_compute.
Qed.

(** The same with a second peer, at an IPv6 endpoint. *)
Definition sample_peer6 : DumpPeer :=
  mkDumpPeer (key "B") None (Some "[2001:db8::1]:51820") 0 0 0 0 0 ["fd00::/64"].
Definition sample_dump6 : Dump := mkDump (Some (key "S")) (Some 51820) None [sample_peer; sample_peer6].

Lemma sample_peer6_ok : dump_peer_ok sample_peer6.
Proof.
  split; try (by vm_compute); [|by repeat constructor].
  intros k H. injection H as <-. by vm_compute.
Qed.

End Keys.

Lemma toWgUserspaceString_read_back_witness :
  let c := mkConfig (Some (Keys.key "S")) (Some 51820) (Some 0) true
             [mkPeerConfig (Keys.key "A") false true None (Some (mkUDPAddr (be_bytes 4 3221225985) 51820 ""))
                (Some (25 * second)) true [mkIPNet (be_bytes 4 167772160) (CIDRMask 24 32)];
              mkPeerConfig (Keys.key "B") true false None None None false []] in
  read_config (toWgUserspaceString c) = Some (wire_of (written c)).
Proof.
  intros c. apply (toWgUserspaceString_read_back c); [by vm_compute | by repeat constructor].
Defined.

Lemma parseTransfers_dump_witness :
  parseTransfers (render (dump_fields Keys.sample_dump))
  = inl (dump_transfers [Keys.sample_peer] ∅).
Proof.
  apply (parseTransfers_dump Keys.sample_dump). constructor; [apply Keys.sample_peer_ok | constructor].
Defined.

Import Keys.

Lemma sample_printed : Forall (fun p => Forall cidr_printed (dp_allowed p)) (d_peers sample_dump6).
Proof. repeat constructor; apply cidr_printed_dec; by vm_compute. Qed.

Lemma parseStatus_dump_witness :
  let st := parseStatus "wt0" (render (dump_fields sample_dump6)) in
  map peer_Endpoint (st_Peers st) = [mkUDPAddr (addr_As16 (Addr4 3221225985)) 51820 EmptyString; udpAddr0] /\
  Forall2 reports (d_peers sample_dump6) (st_Peers st).
Proof.
  split; [by vm_compute |].
  apply (parseStatus_dump "wt0" sample_dump6).
  - repeat constructor; apply sample_peer_ok || apply sample_peer6_ok.
  - apply sample_printed.
  - intros k H. injection H as <-. by vm_compute.
  - intros z H. injection H as <-. by vm_compute.
  - intros z H. discriminate H.
Defined.
