(* ===== verification/Crypto.v ===== *)
(** * Sealed messages: [helper/crypto.go] and [go/miniclient/encryption]

    Two implementations of the same format: a random nonce, then the NaCl box of the
    message. [DecryptFromServer_EncryptForServer] and
    [mini_DecryptMessage_EncryptMessage]: what one side seals the other opens;
    [helper_mini_agree]: the two packages read and write the same bytes. *)

From Stdlib Require Import ZArith Lia Ascii.
From stdpp Require Import base tactics list strings.
From S2P Require Import Prelude GoStrings Uapi.

(** [box.Seal] and [box.Open] of the NaCl package, without the prefix [out], and
    [curve25519.X25519] of a key and the base point. *)
Class NaclBox := {
  Seal : string -> string -> string -> string -> string;   (* message, nonce, their public key, our private key *)
  Open : string -> string -> string -> string -> option string;
  X25519_base : string -> string + error;
  X25519_base_32 : forall k p, X25519_base k = inl p -> String.length k = 32%nat /\ String.length p = 32%nat;
  Open_Seal : forall m n ka kb pa pb,
    String.length n = 24%nat -> X25519_base ka = inl pa -> X25519_base kb = inl pb ->
    Open (Seal m n pb ka) n pa kb = Some m
}.

Definition KeySize : nat := 32.
Definition NonceSize : nat := 24.

(** [base64.StdEncoding.DecodeString], which skips line ends. *)
Fixpoint without_line_ends (s : string) : string :=
  match s with
  | EmptyString => EmptyString
  | String c s' => if (ascii_Z c =? 10) || (ascii_Z c =? 13) then without_line_ends s' else String c (without_line_ends s')
  end.
Definition DecodeString (s : string) : string + error :=
  match b64_decode (without_line_ends s) with
  | Some r => inl r
  | None => inr (New "illegal base64 data")
  end.

(** The protobuf encoding of a message type. *)
Class Proto (A : Type) := {
  Marshal : A -> string + error;
  Unmarshal : string -> A + error;
  Unmarshal_Marshal : forall a b, Marshal a = inl b -> Unmarshal b = inl a
}.

(** ** The helper: keys are strings in base64 *)

Module HelperBox.
Section crypto.
Context {nb : NaclBox}.

Definition DecodeWGKey (keyStr : string) : string + error :=
  match DecodeString keyStr with
  | inr err => inr (Wrap "decode base64" err)
  | inl key => if negb (String.length key =? KeySize)%nat then inr (New "invalid key size") else inl key
  end.

Definition EncodeWGKey (key : string) : string := b64_encode key.

Definition toArray32 (key : string) : string + error :=
  if negb (String.length key =? 32)%nat then inr (New "key must be 32 bytes") else inl key.

(** [rnd] is what [rand.Read] answers for the nonce. *)
Definition EncryptMessage (rnd : string + error) (plaintext ourPrivKey peerPubKey : string) : string + error :=
  match rnd with
  | inr err => inr (Wrap "generate nonce" err)
  | inl nonce =>
      match toArray32 ourPrivKey with
      | inr err => inr (Wrap "convert private key" err)
      | inl privKey =>
          match toArray32 peerPubKey with
          | inr err => inr (Wrap "convert public key" err)
          | inl pubKey => inl (nonce +:+ Seal plaintext nonce pubKey privKey)
          end
      end
  end.

Definition DecryptMessage (encrypted ourPrivKey peerPubKey : string) : string + error :=
  if (String.length encrypted <? NonceSize)%nat then inr (New "encrypted message too short")
  else
    let nonce := slice_to NonceSize encrypted in
    match toArray32 ourPrivKey with
    | inr err => inr (Wrap "convert private key" err)
    | inl privKey =>
        match toArray32 peerPubKey with
        | inr err => inr (Wrap "convert public key" err)
        | inl pubKey =>
            match Open (slice_from NonceSize encrypted) nonce pubKey privKey with
            | None => inr (New "decrypt: authentication failed")
            | Some plaintext => inl plaintext
            end
        end
    end.

(** The two keys decoded, as both functions for the server begin. *)
Definition with_keys {A} (ourPrivKeyStr serverPubKeyStr : string) (k : string -> string -> A + error) : A + error :=
  match DecodeWGKey ourPrivKeyStr with
  | inr err => inr (Wrap "decode our private key" err)
  | inl ourPrivKey =>
      match DecodeWGKey serverPubKeyStr with
      | inr err => inr (Wrap "decode server public key" err)
      | inl serverPubKey => k ourPrivKey serverPubKey
      end
  end.

Definition wrap_err {A} (msg : string) (r : A + error) : A + error :=
  match r with inl a => inl a | inr err => inr (Wrap msg err) end.

Definition EncryptForServer (rnd : string + error) (plaintext ourPrivKeyStr serverPubKeyStr : string) : string + error :=
  with_keys ourPrivKeyStr serverPubKeyStr (fun ourPrivKey serverPubKey =>
    wrap_err "encrypt" (EncryptMessage rnd plaintext ourPrivKey serverPubKey)).

Definition DecryptFromServer (encrypted ourPrivKeyStr serverPubKeyStr : string) : string + error :=
  with_keys ourPrivKeyStr serverPubKeyStr (fun ourPrivKey serverPubKey =>
    wrap_err "decrypt" (DecryptMessage encrypted ourPrivKey serverPubKey)).

Definition DerivePublicKey (privKeyStr : string) : string + error :=
  match DecodeWGKey privKeyStr with
  | inr err => inr (Wrap "decode private key" err)
  | inl privKey =>
      match X25519_base privKey with
      | inr err => inr (Wrap "derive public key" err)
      | inl pubKey => inl (EncodeWGKey pubKey)
      end
  end.

End crypto.
End HelperBox.

(** ** The mini client: keys are [wgtypes.Key]s *)

Module MiniBox.
Section crypto.
Context {nb : NaclBox}.

Definition nonceSize : nat := 24.

(** [rnd] is what [genNonce] gets from [rand.Read]. *)
Definition Encrypt (rnd : string + error) (msg : string) (peerPublicKey privateKey : Key) : string + error :=
  match rnd with
  | inr err => inr err
  | inl nonce => inl (nonce +:+ Seal msg nonce peerPublicKey privateKey)
  end.

(** A nonce is generated here too, and then overwritten by the message's. *)
Definition Decrypt (rnd : string + error) (encryptedMsg : string) (peerPublicKey privateKey : Key) : string + error :=
  match rnd with
  | inr err => inr err
  | inl _ =>
      if (String.length encryptedMsg <? nonceSize)%nat then inr (New "invalid encrypted message length")
      else match Open (slice_from nonceSize encryptedMsg) (slice_to nonceSize encryptedMsg) peerPublicKey privateKey with
           | None => inr (New "failed to decrypt message from peer")
           | Some opened => inl opened
           end
  end.

(** [message.go]: a protobuf message is marshalled first. *)
Definition EncryptMessage `{!Proto A} (rnd : string + error) (remotePubKey ourPrivateKey : Key) (message : A) : string + error :=
  match Marshal message with
  | inr err => inr err
  | inl byteResp => Encrypt rnd byteResp remotePubKey ourPrivateKey
  end.

Definition DecryptMessage `{!Proto A} (rnd : string + error) (remotePubKey ourPrivateKey : Key) (encryptedMessage : string) : A + error :=
  match Decrypt rnd encryptedMessage remotePubKey ourPrivateKey with
  | inr err => inr err
  | inl decrypted => Unmarshal decrypted
  end.

End crypto.
End MiniBox.

(** ** What one side seals, the other opens *)

Section proofs.
Context {nb : NaclBox}.

Lemma without_line_ends_id s :
  all_chars (fun c => negb ((ascii_Z c =? 10) || (ascii_Z c =? 13))) s = true -> without_line_ends s = s.
Proof.
  induction s as [|c s IH]; [done |]. cbn. intros [H Hs]%andb_prop. apply negb_true_iff in H. by rewrite H, IH.
Qed.

Definition is_b64_char (c : ascii) : bool := bool_decide (is_Some (b64_val c)) || Ascii.eqb c "=".

Lemma b64_digit_char d : 0 <= d < 64 -> is_b64_char (b64_digit d) = true.
Proof. intros Hd. unfold is_b64_char. destruct (b64_val_digit d Hd) as [-> _]. done. Qed.

Lemma b64_encode_chars s : all_chars is_b64_char (b64_encode s) = true.
Proof.
  induction s as [|a|a b|a b c s IH] using string_ind3; cbn [b64_encode all_chars];
    repeat match goal with c : ascii |- _ => pose proof (ascii_Z_range c); generalize dependent (ascii_Z c); clear c; intros end;
    rewrite ?b64_digit_char by (Z.to_euclidean_division_equations; lia); done.
Qed.

Lemma DecodeString_encode s : DecodeString (b64_encode s) = inl s.
Proof.
  unfold DecodeString. rewrite without_line_ends_id; [by rewrite b64_decode_encode |].
  eapply all_chars_impl; [|apply b64_encode_chars]. intros c. destruct c as [[] [] [] [] [] [] [] []]; by vm_compute.
Qed.

Lemma DecodeWGKey_Encode k : String.length k = 32%nat -> HelperBox.DecodeWGKey (HelperBox.EncodeWGKey k) = inl k.
Proof. intros Hk. unfold HelperBox.DecodeWGKey, HelperBox.EncodeWGKey. rewrite DecodeString_encode, Hk. done. Qed.

Lemma toArray32_ok k : String.length k = 32%nat -> HelperBox.toArray32 k = inl k.
Proof. intros Hk. unfold HelperBox.toArray32. by rewrite Hk. Qed.

Lemma DerivePublicKey_Some priv pub :
  HelperBox.DerivePublicKey priv = inl pub -> exists k p,
    HelperBox.DecodeWGKey priv = inl k /\ X25519_base k = inl p /\ HelperBox.DecodeWGKey pub = inl p /\
    String.length k = 32%nat /\ String.length p = 32%nat.
Proof.
  unfold HelperBox.DerivePublicKey. destruct (HelperBox.DecodeWGKey priv) as [k|e] eqn:Ek; [|done].
  destruct (X25519_base k) as [p|e] eqn:Ep; [|done]. intros [= <-]. destruct (X25519_base_32 k p Ep) as [Hk Hp].
  exists k, p. by rewrite DecodeWGKey_Encode.
Qed.

Lemma helper_seal_open n m ka kb pa pb :
  String.length n = 24%nat -> String.length ka = 32%nat -> String.length kb = 32%nat ->
  X25519_base ka = inl pa -> X25519_base kb = inl pb ->
  HelperBox.EncryptMessage (inl n) m ka pb = inl (n +:+ Seal m n pb ka) /\
  HelperBox.DecryptMessage (n +:+ Seal m n pb ka) kb pa = inl m.
Proof.
  intros Hn Hka Hkb Ha Hb. destruct (X25519_base_32 _ _ Ha) as [_ Hpa], (X25519_base_32 _ _ Hb) as [_ Hpb].
  unfold HelperBox.EncryptMessage, HelperBox.DecryptMessage. rewrite !toArray32_ok by done. split; [done |].
  rewrite length_app_s, Hn. change (24 + ?x <? NonceSize)%nat with false. cbv iota.
  replace NonceSize with (String.length n). by rewrite slice_to_app, slice_from_app, (Open_Seal m n ka kb).
Qed.

(** C34: what the holder of one private key seals with [EncryptForServer] for the public
    key of another is opened by the other's [DecryptFromServer] as the message, for
    keys written in base64 and public keys derived by [DerivePublicKey]. *)
Theorem DecryptFromServer_EncryptForServer n m privA privB pubA pubB :
  String.length n = NonceSize ->
  HelperBox.DerivePublicKey privA = inl pubA -> HelperBox.DerivePublicKey privB = inl pubB ->
  exists c, HelperBox.EncryptForServer (inl n) m privA pubB = inl c /\
    HelperBox.DecryptFromServer c privB pubA = inl m.
Proof.
  intros Hn (ka & pa & Eka & Ha & Epa & Hka & _)%DerivePublicKey_Some (kb & pb & Ekb & Hb & Epb & Hkb & _)%DerivePublicKey_Some.
  destruct (helper_seal_open n m ka kb pa pb) as [He Hd]; [done.. |].
  exists (n +:+ Seal m n pb ka). unfold HelperBox.EncryptForServer, HelperBox.DecryptFromServer, HelperBox.with_keys.
  by rewrite Eka, Ekb, Epa, Epb, He, Hd.
Qed.

(** The two packages agree: on 32-byte keys they seal to the same bytes, and each
    opens exactly what the other opens, as the same message. *)
Theorem helper_mini_agree rnd n m priv pub :
  String.length priv = 32%nat -> String.length pub = 32%nat ->
  (forall c, HelperBox.EncryptMessage rnd m priv pub = inl c <-> MiniBox.Encrypt rnd m pub priv = inl c) /\
  (forall p, HelperBox.DecryptMessage m priv pub = inl p <-> MiniBox.Decrypt (inl n) m pub priv = inl p).
Proof.
  intros Hpriv Hpub.
  unfold HelperBox.EncryptMessage, MiniBox.Encrypt, HelperBox.DecryptMessage, MiniBox.Decrypt, MiniBox.nonceSize, NonceSize.
  rewrite !toArray32_ok by done. split; [by destruct rnd |]. intros p.
  destruct (_ <? _)%nat; [done |]. by destruct (Open _ _ _ _).
Qed.

(** The mini client opens the protobuf message that was sealed for its key. *)
Theorem mini_DecryptMessage_EncryptMessage `{!Proto A} n n' ka kb pa pb (a : A) b :
  String.length n = 24%nat -> X25519_base ka = inl pa -> X25519_base kb = inl pb ->
  Marshal a = inl b ->
  exists c, MiniBox.EncryptMessage (inl n) pb ka a = inl c /\
    MiniBox.DecryptMessage (inl n') pa kb c = inl a.
Proof.
  intros Hn Ha Hb Hm. unfold MiniBox.EncryptMessage, MiniBox.DecryptMessage, MiniBox.Encrypt, MiniBox.Decrypt.
  rewrite Hm. eexists. split; [done |]. rewrite length_app_s, Hn. change (24 + ?x <? MiniBox.nonceSize)%nat with false.
  cbv iota. replace MiniBox.nonceSize with (String.length n). rewrite slice_to_app, slice_from_app, (Open_Seal b n ka kb) by done.
  by apply Unmarshal_Marshal.
Qed.

End proofs.

(** ** A box to run the theorems on *)

Module SampleBox.

(** A toy box: the two public keys in front of the message. *)
#[export] Instance box : NaclBox.
Proof.
  refine {| Seal m n pb ka := ka +:+ pb +:+ m;
            Open c n pa kb := if HasPrefix c (pa +:+ kb) then Some (drop_prefix (pa +:+ kb) c) else None;
            X25519_base k := if (String.length k =? 32)%nat then inl k else inr (New "bad scalar length") |}.
  - intros k p. destruct (Nat.eqb_spec (String.length k) 32); [by intros [= <-] | done].
  - intros m n ka kb pa pb _ Ha Hb. destruct (_ =? _)%nat; [|done]. destruct (_ =? _)%nat; [|done].
    injection Ha as <-. injection Hb as <-. by rewrite <- app_assoc_s, HasPrefix_app, drop_prefix_app.
Defined.

End SampleBox.

Import Keys SampleBox.

Definition nonce : string := "0123456789abcdef01234567".
Definition key_A : string := HelperBox.EncodeWGKey (key "A").
Definition key_B : string := HelperBox.EncodeWGKey (key "B").

Lemma DecryptFromServer_EncryptForServer_witness :
  exists c, HelperBox.EncryptForServer (inl nonce) "hello" key_A key_B = inl c /\
    HelperBox.DecryptFromServer c key_B key_A = inl "hello".
Proof. by apply (DecryptFromServer_EncryptForServer nonce "hello" key_A key_B key_A key_B); vm_compute. Defined.

Lemma helper_mini_agree_witness :
  HelperBox.EncryptMessage (inl nonce) "hello" (key "A") (key "B") = MiniBox.Encrypt (inl nonce) "hello" (key "B") (key "A") /\
  (forall c, HelperBox.EncryptMessage (inl nonce) "hello" (key "A") (key "B") = inl c <-> MiniBox.Encrypt (inl nonce) "hello" (key "B") (key "A") = inl c) /\
  (forall p, HelperBox.DecryptMessage "hello" (key "A") (key "B") = inl p <-> MiniBox.Decrypt (inl nonce) "hello" (key "B") (key "A") = inl p).
Proof. split; [by vm_compute |]. by apply helper_mini_agree. Defined.
