(* ===== verification/Configurer.v ===== *)
(** * The two WireGuard configurers: [go/iface/configurer]

    [Kernel] is [KernelConfigurer] (kernel_unix.go), which drives the kernel
    module through wgctrl; [Usp] is [WGUSPConfigurer] (usp.go), which drives the
    userspace device through its configuration text (file [Uapi]). Both implement
    the interface [WGConfigurer] of the device package: [cfgC] lists its methods,
    and each implementation is an instance that runs them. *)

From Stdlib Require Import ZArith Lia Ascii.
From stdpp Require Import base tactics list strings gmap fin_maps.
From S2P Require Import Prelude GoStrings Netip Uapi.

(** Package [nbnet] (not in the repository): whether advanced routing is on, and
    the mark of the client's own traffic. *)
Class NbNet := { AdvancedRouting : bool; ControlPlaneMark : Z }.

(** [runtime.GOOS]: the files modelled are those of a Linux build. *)
Definition GOOS : string := "linux".

Definition ErrPeerNotFound : error := Sentinel "ErrPeerNotFound".

(** wgtypes.Peer and wgtypes.Device. *)
Record WgPeer := mkWgPeer {
  wgp_PublicKey : Key; wgp_PresharedKey : Key; wgp_Endpoint : option UDPAddr;
  wgp_LastHandshakeTime : Time; wgp_ReceiveBytes : Z; wgp_TransmitBytes : Z;
  wgp_AllowedIPs : list IPNet
}.
Record WgDevice := mkWgDevice {
  wgd_Name : string; wgd_PublicKey : Key; wgd_ListenPort : Z; wgd_FirewallMark : Z;
  wgd_Peers : list WgPeer
}.

(** The interface's methods. *)
Inductive cfgC : Set -> Type :=
  | ConfigureInterface (privateKey : string) (port : Z) : cfgC (option error)
  | UpdatePeer (peerKey : string) (allowedIps : list Prefix) (keepAlive : Z)
      (endpoint : option UDPAddr) (preSharedKey : option Key) : cfgC (option error)
  | RemoveEndpointAddress (peerKey : string) : cfgC (option error)
  | RemovePeer (peerKey : string) : cfgC (option error)
  | AddAllowedIP (peerKey : string) (allowedIP : Prefix) : cfgC (option error)
  | RemoveAllowedIP (peerKey : string) (allowedIP : Prefix) : cfgC (option error)
  | GetStats : cfgC (gmap string WGStats + error)
  | FullStats : cfgC (Stats + error)
  | LastActivities : cfgC (gmap string Z)
  | CloseConfigurer : cfgC unit.

Definition prefix_IPNet (p : Prefix) : IPNet :=
  mkIPNet (addr_AsSlice (prefix_ip p)) (CIDRMask (prefix_Bits p) (addr_BitLen (prefix_ip p))).

Definition prefixesToIPNets (prefixes : list Prefix) : list IPNet := map prefix_IPNet prefixes.

Section configurers.
Context {wg : WgTypes} {nb : NbNet}.

Definition getFwmark : Z :=
  if AdvancedRouting && bool_decide (GOOS = "linux") then ControlPlaneMark else 0.

(** The configurations each operation sends. *)
Definition interfaceConfig (key : Key) (port : Z) : Config :=
  mkConfig (Some key) (Some port) (Some getFwmark) true [].
Definition updatePeerConfig (key : Key) (allowedIps : list Prefix) (keepAlive : Z)
    (endpoint : option UDPAddr) (psk : option Key) : PeerConfig :=
  mkPeerConfig key false false psk endpoint (Some keepAlive) false (prefixesToIPNets allowedIps).
Definition removePeerConfig (key : Key) : PeerConfig := mkPeerConfig key true false None None None false [].
Definition readdPeerConfig (key : Key) (ips : list IPNet) : PeerConfig :=
  mkPeerConfig key false false None None None true ips.
Definition addAllowedIPConfig (key : Key) (ip : Prefix) : PeerConfig :=
  mkPeerConfig key false true None None None false [prefix_IPNet ip].
Definition replaceAllowedIPsConfig (key : Key) (ips : list IPNet) : PeerConfig :=
  mkPeerConfig key false true None None None true ips.

Definition parse_key {C L W} (s : string) : M C L W Key :=
  match ParseKey s with inl k => ret k | inr e => fail e end.

Definition to_error {A} (r : outcome A) : option error :=
  match r with Ok _ => None | Err e => Some e | Panic p => Some (New p) end.
Definition to_result {A} (r : outcome A) : A + error :=
  match r with Ok a => inl a | Err e => inr e | Panic p => inr (New p) end.

End configurers.

(** ** kernel_unix.go *)

Module Kernel.

(** Package wgctrl: opening the client, reading a device, configuring it. *)
Inductive wgctrlC : Set -> Type :=
  | New : wgctrlC (option error)
  | Close : wgctrlC (option error)
  | Device (name : string) : wgctrlC (WgDevice + error)
  | ConfigureDevice (name : string) (c : Config) : wgctrlC (option error).

Section kernel.
Context {wg : WgTypes} {nb : NbNet} {W : Type} `{!Handler wgctrlC W}.

(** [KernelConfigurer] is its device's name. *)
Definition K := M wgctrlC string W.

Definition close_client : K unit := ignore (check (call Close)).

Definition configure (config : Config) : K unit :=
  let* deviceName := get in
  check (call New) ;;;
  with_defer
    (check_val (call (Device deviceName)) ;;;
     check (call (ConfigureDevice deviceName config)))
    close_client.

Fixpoint find_peer (peerPubKey : string) (ps : list WgPeer) : option WgPeer :=
  match ps with
  | [] => None
  | p :: ps' => if bool_decide (Key_String (wgp_PublicKey p) = peerPubKey) then Some p
                else find_peer peerPubKey ps'
  end.

Definition getPeer (ifaceName peerPubKey : string) : K WgPeer :=
  wrap (Wrap "wgctl") (check (call New)) ;;;
  with_defer
    (let* wgDevice := wrap (Wrap ("get device " +:+ ifaceName)) (check_val (call (Device ifaceName))) in
     match find_peer peerPubKey (wgd_Peers wgDevice) with
     | Some p => ret p
     | None => fail ErrPeerNotFound
     end)
    close_client.

Definition configureInterface (privateKey : string) (port : Z) : K unit :=
  let* key := parse_key privateKey in
  wrap (Wrap "received error while configuring interface")
    (configure (interfaceConfig key port)).

Definition updatePeer (peerKey : string) (allowedIps : list Prefix) (keepAlive : Z)
    (endpoint : option UDPAddr) (preSharedKey : option Key) : K unit :=
  let* key := parse_key peerKey in
  wrap (Wrap "received error while updating peer on interface")
    (configure (config_peers [updatePeerConfig key allowedIps keepAlive endpoint preSharedKey])).

Definition removeEndpointAddress (peerKey : string) : K unit :=
  let* key := parse_key peerKey in
  let* deviceName := get in
  let* existingPeer := wrap (Wrap "get peer") (getPeer deviceName peerKey) in
  wrap (Wrap ("error removing peer " +:+ peerKey))
    (configure (config_peers [removePeerConfig key])) ;;;
  wrap (Wrap ("error re-adding peer " +:+ peerKey))
    (configure (config_peers [readdPeerConfig key (wgp_AllowedIPs existingPeer)])).

Definition removePeer (peerKey : string) : K unit :=
  let* key := parse_key peerKey in
  wrap (Wrap ("received error while removing peer " +:+ peerKey))
    (configure (config_peers [removePeerConfig key])).

Definition addAllowedIP (peerKey : string) (allowedIP : Prefix) : K unit :=
  let* key := parse_key peerKey in
  wrap (Wrap "received error while adding allowed Ip to peer on interface")
    (configure (config_peers [addAllowedIPConfig key allowedIP])).

(** The loop that cuts the first allowed IP printed like the one to remove. *)
Fixpoint cut_ip (ip : IPNet) (l : list IPNet) : list IPNet :=
  match l with
  | [] => []
  | n :: l' => if bool_decide (ipnet_String n = ipnet_String ip) then l' else n :: cut_ip ip l'
  end.

Definition removeAllowedIP (peerKey : string) (allowedIP : Prefix) : K unit :=
  let ipNet := prefix_IPNet allowedIP in
  let* key := wrap (Wrap "parse peer key") (parse_key peerKey) in
  let* deviceName := get in
  let* existingPeer := wrap (Wrap "get peer") (getPeer deviceName peerKey) in
  let newAllowedIPs := cut_ip ipNet (wgp_AllowedIPs existingPeer) in
  wrap (Wrap ("remove allowed IP " +:+ prefix_String allowedIP))
    (configure (config_peers [replaceAllowedIPsConfig key newAllowedIPs])).

(** [with_device k]: open the client, read the device, close it at the end. *)
Definition with_device {A} (k : WgDevice -> A) : K A :=
  let* deviceName := get in
  wrap (Wrap "wgctl") (check (call New)) ;;;
  with_defer
    (let* d := wrap (Wrap ("get device " +:+ deviceName)) (check_val (call (Device deviceName))) in
     ret (k d))
    close_client.

Definition stats_peer (p : WgPeer) : Peer :=
  mkPeer (Key_String (wgp_PublicKey p)) (default udpAddr0 (wgp_Endpoint p)) (wgp_AllowedIPs p)
    (wgp_TransmitBytes p) (wgp_ReceiveBytes p) (wgp_LastHandshakeTime p)
    (bool_decide (wgp_PresharedKey p <> zeroKey)).

Definition fullStats : K Stats :=
  with_device (fun d =>
    mkStats (wgd_Name d) (Key_String (wgd_PublicKey d)) (wgd_ListenPort d) (wgd_FirewallMark d)
      (map stats_peer (wgd_Peers d))).

Definition getStats : K (gmap string WGStats) :=
  with_device (fun d =>
    foldl (fun stats p =>
             <[Key_String (wgp_PublicKey p) :=
                 mkWGStats (wgp_LastHandshakeTime p) (wgp_TransmitBytes p) (wgp_ReceiveBytes p)]> stats)
      ∅ (wgd_Peers d)).

Definition lastActivities : K (gmap string Z) := ret ∅.
Definition close : K unit := ret tt.

(** The implementation of the interface. *)
#[export] Instance configurer : Handler cfgC (state wgctrlC string W) := fun R c s =>
  match c in cfgC R return R * state wgctrlC string W with
  | ConfigureInterface k p => let '(r, s') := configureInterface k p s in (to_error r, s')
  | UpdatePeer k ips ka e psk => let '(r, s') := updatePeer k ips ka e psk s in (to_error r, s')
  | RemoveEndpointAddress k => let '(r, s') := removeEndpointAddress k s in (to_error r, s')
  | RemovePeer k => let '(r, s') := removePeer k s in (to_error r, s')
  | AddAllowedIP k ip => let '(r, s') := addAllowedIP k ip s in (to_error r, s')
  | RemoveAllowedIP k ip => let '(r, s') := removeAllowedIP k ip s in (to_error r, s')
  | GetStats => let '(r, s') := getStats s in (to_result r, s')
  | FullStats => let '(r, s') := fullStats s in (to_result r, s')
  | LastActivities => (∅, s)
  | CloseConfigurer => (tt, s)
  end.

End kernel.
End Kernel.

(** ** usp.go *)

Module Usp.

(** The userspace device (wireguard-go), the recorder of peer activity, and the
    UAPI socket with its file. *)
Inductive uspC : Set -> Type :=
  | IpcSet (text : string) : uspC (option error)
  | IpcGet : uspC (string + error)
  | UpsertAddress (peerKey : string) (addr : Addr) (port : Z) : uspC unit
  | RemoveActivity (peerKey : string) : uspC unit
  | GetLastActivities : uspC (gmap string Z)
  | UAPIOpen (deviceName : string) : uspC (Z + error)
  | UAPIListen (deviceName : string) (sock : Z) : uspC (Z + error)
  | ListenerClose (listener : Z) : uspC (option error)
  | Stat (path : string) : uspC (option error)
  | RemoveFile (path : string) : uspC (option error).

Record WGUSPConfigurer := mkUsp { deviceName : string; uapiListener : option Z }.

Section usp.
Context {wg : WgTypes} {nb : NbNet} {W : Type} `{!Handler uspC W}.

Definition U := M uspC WGUSPConfigurer W.

Definition ipc_set (config : Config) : U unit := check (call (IpcSet (toWgUserspaceString config))).

(** uapi.go *)
Definition openUAPI (name : string) : U Z :=
  let* uapiSock := check_val (call (UAPIOpen name)) in
  check_val (call (UAPIListen name uapiSock)).

(** The accept loop it starts hands each connection to the device; it has no
    other effect on the configurer. *)
Definition startUAPI : U unit :=
  let* c := get in
  let* r := try (openUAPI (deviceName c)) in
  match r with
  | inl l => modify (fun c => mkUsp (deviceName c) (Some l))
  | inr _ => ret tt
  end.

Definition NewUSPConfigurer : U unit := startUAPI.

Definition configureInterface (privateKey : string) (port : Z) : U unit :=
  let* key := parse_key privateKey in
  ipc_set (interfaceConfig key port).

Definition updatePeer (peerKey : string) (allowedIps : list Prefix) (keepAlive : Z)
    (endpoint : option UDPAddr) (preSharedKey : option Key) : U unit :=
  let* key := parse_key peerKey in
  ipc_set (config_peers [updatePeerConfig key allowedIps keepAlive endpoint preSharedKey]) ;;;
  match endpoint with
  | None => ret tt
  | Some e =>
      match ParseAddr (ip_String (udp_IP e)) with
      | inr err => fail (Wrap "failed to parse endpoint address" err)
      | inl addr => call (UpsertAddress peerKey addr (wrapu 16 (udp_Port e)))
      end
  end.

Fixpoint find_stats (peerKey : string) (ps : list Peer) : option (list IPNet) :=
  match ps with
  | [] => None
  | p :: ps' => if bool_decide (peer_PublicKey p = peerKey) then Some (peer_AllowedIPs p)
                else find_stats peerKey ps'
  end.

Definition removeEndpointAddress (peerKey : string) : U unit :=
  let* key := wrap (Wrap "parse peer key") (parse_key peerKey) in
  let* ipcStr := wrap (Wrap "get IPC config") (check_val (call IpcGet)) in
  let* c := get in
  let stats := parseStatus (deviceName c) ipcStr in
  match find_stats peerKey (st_Peers stats) with
  | None => fail (New ("peer " +:+ peerKey +:+ " not found"))
  | Some allowedIPs =>
      wrap (Opaque "failed to remove peer") (ipc_set (config_peers [removePeerConfig key])) ;;;
      wrap (Wrap "remove endpoint address")
        (ipc_set (config_peers [readdPeerConfig key allowedIPs]))
  end.

(** The activity record is dropped whatever the device answers. *)
Definition removePeer (peerKey : string) : U unit :=
  let* key := parse_key peerKey in
  let* ipcErr := try (ipc_set (config_peers [removePeerConfig key])) in
  call (RemoveActivity peerKey) ;;;
  match ipcErr with inl _ => ret tt | inr e => fail e end.

Definition addAllowedIP (peerKey : string) (allowedIP : Prefix) : U unit :=
  let* key := parse_key peerKey in
  ipc_set (config_peers [addAllowedIPConfig key allowedIP]).

Definition removeAllowedIP (peerKey : string) (allowedIP : Prefix) : U unit :=
  let* ipc := check_val (call IpcGet) in
  let* key := parse_key peerKey in
  match scan_lines (hex_encode key) (prefix_String allowedIP) (Split newline ipc)
          (mkScan false false []) with
  | inr e => fail e
  | inl sc =>
      if negb (sc_removed sc) then fail ErrAllowedIPNotFound
      else ipc_set (config_peers [replaceAllowedIPsConfig key (sc_allowed sc)])
  end.

Definition fullStats : U Stats :=
  let* ipcStr := wrap (Wrap "IpcGet failed") (check_val (call IpcGet)) in
  let* c := get in
  ret (parseStatus (deviceName c) ipcStr).

Definition lastActivities : U (gmap string Z) := call GetLastActivities.

Definition getStats : U (gmap string WGStats) :=
  let* ipc := wrap (Wrap "ipc get") (check_val (call IpcGet)) in
  match parseTransfers ipc with inl m => ret m | inr e => fail e end.

Definition close : U unit :=
  let* c := get in
  match uapiListener c with
  | Some l => ignore (check (call (ListenerClose l)))
  | None => ret tt
  end ;;;
  when (bool_decide (GOOS = "linux"))
    (let sockPath := "/var/run/wireguard/" +:+ deviceName c +:+ ".sock" in
     let* statErr := call (Stat sockPath) in
     match statErr with
     | None => ignore (check (call (RemoveFile sockPath)))
     | Some _ => ret tt
     end).

#[export] Instance configurer : Handler cfgC (state uspC WGUSPConfigurer W) := fun R c s =>
  match c in cfgC R return R * state uspC WGUSPConfigurer W with
  | ConfigureInterface k p => let '(r, s') := configureInterface k p s in (to_error r, s')
  | UpdatePeer k ips ka e psk => let '(r, s') := updatePeer k ips ka e psk s in (to_error r, s')
  | RemoveEndpointAddress k => let '(r, s') := removeEndpointAddress k s in (to_error r, s')
  | RemovePeer k => let '(r, s') := removePeer k s in (to_error r, s')
  | AddAllowedIP k ip => let '(r, s') := addAllowedIP k ip s in (to_error r, s')
  | RemoveAllowedIP k ip => let '(r, s') := removeAllowedIP k ip s in (to_error r, s')
  | GetStats => let '(r, s') := getStats s in (to_result r, s')
  | FullStats => let '(r, s') := fullStats s in (to_result r, s')
  | LastActivities => let '(r, s') := lastActivities s in
      (match r with Ok m => m | _ => ∅ end, s')
  | CloseConfigurer => let '(_, s') := close s in (tt, s')
  end.

End usp.
End Usp.
