(* ===== verification/WgDevice.v ===== *)
(** * The abstract WireGuard device

    [device] is the abstract WireGuard device: for each peer (by the hexadecimal
    form of its key) its preshared key, its endpoint and the set of its allowed
    IPs. [apply_wire] is the effect of a configuration text on it, as WireGuard's
    configuration protocol documents it; [UapiDevice] states that a handler of
    [Usp.uspC] is such a device. [Sim] is a concrete one, to run the model. *)

From Stdlib Require Import ZArith Lia Ascii.
From stdpp Require Import base tactics list strings gmap fin_maps gmap fin_sets sets.
From S2P Require Import Prelude GoStrings Netip Uapi Configurer.

Record DevPeer := mkDevPeer {
  dv_psk : option string; dv_endpoint : option string; dv_allowed : gset string
}.
Notation device := (gmap string DevPeer).

(** An allowed IP as the device prints it: the address is masked. *)
Definition canon (a : string) : string :=
  match ParseCIDR a with inl (_, n) => ipnet_String n | inr _ => a end.

Definition psk_set (v : string) : option string := if bool_decide (v = zero_psk) then None else Some v.

Definition update_peer (wp : WirePeer) (p : DevPeer) : DevPeer :=
  mkDevPeer (match wp_psk wp with Some v => psk_set v | None => dv_psk p end)
    (match wp_endpoint wp with Some e => Some e | None => dv_endpoint p end)
    ((if wp_replace wp then ∅ else dv_allowed p) ∪ list_to_set (map canon (wp_allowed wp))).

(** An allowed IP belongs to one peer: adding it takes it from the others. *)
Definition strip (ips : gset string) (p : DevPeer) : DevPeer :=
  mkDevPeer (dv_psk p) (dv_endpoint p) (dv_allowed p ∖ ips).

Definition newPeer : DevPeer := mkDevPeer None None ∅.

Definition apply_peer (wp : WirePeer) (d : device) : device :=
  if wp_remove wp then delete (wp_key wp) d
  else if wp_update_only wp && bool_decide (d !! wp_key wp = None) then d
  else <[wp_key wp := update_peer wp (default newPeer (d !! wp_key wp))]>
         (strip (list_to_set (map canon (wp_allowed wp))) <$> d).

Definition apply_wire (w : Wire) (d : device) : device :=
  foldr apply_peer (if w_replace_peers w then ∅ else d) (w_peers w).

Definition view_peer (p : DumpPeer) : DevPeer :=
  mkDevPeer (match dp_psk p with Some k => psk_set (hex_encode k) | None => None end)
    (dp_endpoint p) (list_to_set (dp_allowed p)).
Definition view (d : Dump) : device :=
  list_to_map (map (fun p => (hex_encode (dp_key p), view_peer p)) (d_peers d)).

(** A dump is well formed: each peer once, each allowed IP in canonical form. *)
Record dump_wf (d : Dump) : Prop := {
  dw_ok : Forall dump_peer_ok (d_peers d);
  dw_nodup : NoDup (map dp_key (d_peers d));
  dw_parsed : Forall (fun p => Forall (fun a => is_Some (parsed_cidr a)) (dp_allowed p)) (d_peers d);
  dw_canon : Forall (fun p => Forall (fun a => canon a = a) (dp_allowed p)) (d_peers d);
  dw_private : forall k, d_private d = Some k -> String.length k = 32%nat;
  dw_port : forall z, d_port d = Some z -> int64 z;
  dw_fwmark : forall z, d_fwmark d = Some z -> int64 z
}.

(** The documented behaviour of the device: [IpcGet] prints its state, an accepted
    [IpcSet] has the effect of its text (a peer with the device's own key [self] is
    ignored), and nothing else touches the peers. *)
Class UapiDevice (W : Type) `{!Handler Usp.uspC W} := {
  dev : W -> device;
  self : W -> string;
  ipc_get : forall w s w', handle Usp.IpcGet w = (inl s, w') ->
    exists d, s = render (dump_fields d) /\ dump_wf d /\ view d = dev w;
  ipc_get_same : forall w, dev (handle Usp.IpcGet w).2 = dev w /\ self (handle Usp.IpcGet w).2 = self w;
  ipc_set : forall text w w' wire, handle (Usp.IpcSet text) w = (None, w') ->
    read_config text = Some wire -> Forall (fun p => wp_key p <> self w) (w_peers wire) ->
    dev w' = apply_wire wire (dev w) /\ self w' = self w
}.

(** Allowed IPs are not shared between peers. *)
Definition disjoint_allowed (d : device) : Prop :=
  forall k1 k2 p1 p2, d !! k1 = Some p1 -> d !! k2 = Some p2 -> k1 <> k2 ->
    dv_allowed p1 ## dv_allowed p2.

(** ** Lemmas on the abstract device *)

Lemma strip_disjoint ips p : dv_allowed p ## ips -> strip ips p = p.
Proof. intros H. destruct p; unfold strip; cbn in *. f_equal. set_solver. Qed.

Lemma strip_others ips (d : device) k v :
  (forall k' p, d !! k' = Some p -> k' <> k -> dv_allowed p ## ips) ->
  <[k := v]> (strip ips <$> d) = <[k := v]> d.
Proof.
  intros H. apply map_eq. intros k'. destruct (decide (k = k')) as [->|Hne].
  - by rewrite !lookup_insert_eq.
  - rewrite !lookup_insert_ne, lookup_fmap by done.
    destruct (d !! k') as [p|] eqn:E; [|done]. cbn. f_equal. apply strip_disjoint. eauto.
Qed.

Lemma view_lookup d p :
  NoDup (map dp_key (d_peers d)) -> p ∈ d_peers d ->
  view d !! hex_encode (dp_key p) = Some (view_peer p).
Proof.
  intros Hnd Hp. apply elem_of_list_to_map.
  - rewrite <- list_fmap_compose.
    replace (fmap (fst ∘ _) (d_peers d)) with (hex_encode <$> (dp_key <$> d_peers d))
      by by rewrite <- list_fmap_compose.
    apply NoDup_fmap_2; [|done]. intros a b. apply hex_encode_inj.
  - apply list_elem_of_fmap. by exists p.
Qed.

Lemma view_Some d k v :
  view d !! k = Some v -> exists p, p ∈ d_peers d /\ k = hex_encode (dp_key p) /\ v = view_peer p.
Proof.
  intros H. apply elem_of_list_to_map_2 in H. apply list_elem_of_fmap in H as (p & E & Hp).
  injection E as -> ->. by exists p.
Qed.

Lemma dump_allowed_unique d p :
  NoDup (map dp_key (d_peers d)) -> p ∈ d_peers d ->
  dump_allowed (dp_key p) (d_peers d) = dp_allowed p.
Proof.
  unfold dump_allowed. intros Hnd Hp. induction (d_peers d) as [|q ps IH]; [by apply not_elem_of_nil in Hp |].
  cbn [map] in Hnd. apply NoDup_cons in Hnd as [Hq Hnd]. rewrite filter_cons.
  apply elem_of_cons in Hp as [<-|Hp].
  - rewrite decide_True by done. cbn [map concat].
    replace (filter _ ps) with (@nil DumpPeer); [by rewrite app_nil_r |].
    symmetry. apply filter_all_out. intros r Hr E. apply Hq.
    apply list_elem_of_fmap. by exists r.
  - rewrite decide_False; [by apply IH |]. intros E. apply Hq. apply list_elem_of_fmap. eauto.
Qed.

Lemma dump_allowed_absent k ps :
  (forall p, p ∈ ps -> dp_key p <> k) -> dump_allowed k ps = [].
Proof.
  intros H. unfold dump_allowed. by rewrite filter_all_out.
Qed.

Lemma map_canon l :
  Forall (fun a => is_Some (parsed_cidr a)) l -> Forall (fun a => canon a = a) l ->
  map canon (map ipnet_String (omap parsed_cidr l)) = l.
Proof.
  intros Hp. induction Hp as [|a l [n Hn] _ IH]; intros Hc; [done |].
  apply Forall_cons in Hc as [Ha Hc]. cbn [omap list_omap]. rewrite Hn. cbn [map].
  rewrite IH by done. f_equal. unfold parsed_cidr in Hn. unfold canon in Ha |- * at 1.
  destruct (ParseCIDR a) as [[i m]|] eqn:E; [|done]. injection Hn as ->.
  rewrite Ha. by rewrite E.
Qed.

Lemma dump_peer_in d k v :
  view d !! k = Some v -> NoDup (map dp_key (d_peers d)) ->
  exists p, p ∈ d_peers d /\ k = hex_encode (dp_key p) /\ v = view_peer p /\
    dump_allowed (dp_key p) (d_peers d) = dp_allowed p.
Proof.
  intros H Hnd. apply view_Some in H as (p & Hp & -> & ->).
  exists p. auto using dump_allowed_unique.
Qed.

Lemma dump_allowed_view d k ip :
  NoDup (map dp_key (d_peers d)) -> ip ∈ dump_allowed k (d_peers d) ->
  exists p, view d !! hex_encode k = Some (view_peer p) /\ dp_key p = k /\ p ∈ d_peers d /\
    dump_allowed k (d_peers d) = dp_allowed p.
Proof.
  intros Hnd Hip.
  destruct (decide (Exists (fun p => dp_key p = k) (d_peers d))) as [H|H].
  - apply Exists_exists in H as (p & Hp & <-). exists p.
    auto using view_lookup, dump_allowed_unique.
  - rewrite dump_allowed_absent in Hip; [by apply not_elem_of_nil in Hip |].
    intros p Hp E. apply H, Exists_exists. eauto.
Qed.

(** ** A simulated device

    The device holds the dump it would print; it refuses a text it cannot represent. *)

Module Sim.

#[export] Instance nbnet : NbNet := {| AdvancedRouting := true; ControlPlaneMark := 112640 |}.

Definition int64b (z : Z) : bool := (- 2 ^ 63 <=? z) && (z <? 2 ^ 63).
Definition opt_all {A} (f : A -> bool) (o : option A) : bool :=
  match o with Some a => f a | None => true end.

Definition peer_okb (p : DumpPeer) : bool :=
  (String.length (dp_key p) =? 32)%nat
  && opt_all (fun k => (String.length k =? 32)%nat) (dp_psk p)
  && opt_all no_space (dp_endpoint p)
  && int64b (dp_sec p) && int64b (dp_tx p) && int64b (dp_rx p)
  && forallb no_space (dp_allowed p)
  && forallb (fun a => bool_decide (is_Some (parsed_cidr a))) (dp_allowed p)
  && forallb (fun a => bool_decide (canon a = a)) (dp_allowed p).

Definition dump_wfb (d : Dump) : bool :=
  forallb peer_okb (d_peers d)
  && bool_decide (NoDup (map dp_key (d_peers d)))
  && opt_all (fun k => (String.length k =? 32)%nat) (d_private d)
  && opt_all int64b (d_port d) && opt_all int64b (d_fwmark d).

Lemma opt_all_spec {A} (f : A -> bool) (P : A -> Prop) o :
  (forall a, f a = true -> P a) -> opt_all f o = true -> forall a, o = Some a -> P a.
Proof. intros HP H a ->. by apply HP. Qed.

Lemma int64b_spec z : int64b z = true -> int64 z.
Proof. unfold int64b, int64. lia. Qed.

Lemma forallb_Forall_spec {A} (f : A -> bool) (P : A -> Prop) l :
  (forall a, f a = true -> P a) -> forallb f l = true -> Forall P l.
Proof. intros HP. rewrite forallb_forall, Forall_forall. intros H x Hx. apply HP, H. by apply list_elem_of_In. Qed.

Lemma peer_okb_spec p :
  peer_okb p = true ->
  dump_peer_ok p /\ Forall (fun a => is_Some (parsed_cidr a)) (dp_allowed p) /\
  Forall (fun a => canon a = a) (dp_allowed p).
Proof.
  unfold peer_okb. rewrite !andb_true_iff.
  intros [[[[[[[[Hk Hp] He] Hs] Ht] Hr] Ha] Hpar] Hcan]. split; [split|split].
  - by apply Nat.eqb_eq.
  - eapply opt_all_spec; [|exact Hp]. intros k. apply Nat.eqb_eq.
  - by apply (opt_all_spec no_space).
  - by apply int64b_spec.
  - by apply int64b_spec.
  - by apply int64b_spec.
  - by apply (forallb_Forall_spec no_space).
  - eapply forallb_Forall_spec; [|exact Hpar]. intros a. apply bool_decide_eq_true_1.
  - eapply forallb_Forall_spec; [|exact Hcan]. intros a. apply bool_decide_eq_true_1.
Qed.

Lemma dump_wfb_spec d : dump_wfb d = true -> dump_wf d.
Proof.
  unfold dump_wfb. rewrite !andb_true_iff, bool_decide_eq_true. intros [[[[Hp Hn] Hk] Ho] Hf].
  assert (H : Forall (fun p => dump_peer_ok p /\ Forall (fun a => is_Some (parsed_cidr a)) (dp_allowed p)
              /\ Forall (fun a => canon a = a) (dp_allowed p)) (d_peers d))
    by (eapply forallb_Forall_spec; [apply peer_okb_spec | done]).
  split; [by eapply Forall_impl; [done|]; intros ? (?&?&?) | done
         | by eapply Forall_impl; [done|]; intros ? (?&?&?)
         | by eapply Forall_impl; [done|]; intros ? (?&?&?) | | |].
  - eapply opt_all_spec; [|exact Hk]. intros k. apply Nat.eqb_eq.
  - eapply opt_all_spec; [|exact Ho]. apply int64b_spec.
  - eapply opt_all_spec; [|exact Hf]. apply int64b_spec.
Qed.

#[export] Instance DevPeer_eq_dec : EqDecision DevPeer.
Proof. solve_decision. Defined.

(** The dump of an abstract device. *)
Definition dump_of (d : device) : list DumpPeer :=
  omap (fun '(k, p) =>
          match hex_decode k, hex_decode (default EmptyString (dv_psk p)) with
          | inl key, inl psk =>
              Some (mkDumpPeer key (match dv_psk p with Some _ => Some psk | None => None end)
                      (dv_endpoint p) 0 0 0 0 0 (elements (dv_allowed p)))
          | _, _ => None
          end) (map_to_list d).

Definition refused : error := New "IPC error".

Definition step {R} (c : Usp.uspC R) (w : Dump) : R * Dump :=
  match c in Usp.uspC R return R * Dump with
  | Usp.IpcGet => if dump_wfb w then (inl (render (dump_fields w)), w) else (inr refused, w)
  | Usp.IpcSet text =>
      match read_config text with
      | None => (Some refused, w)
      | Some wire =>
          let d' := apply_wire wire (view w) in
          let w' := mkDump (d_private w) (d_port w) (d_fwmark w) (dump_of d') in
          if decide (view w' = d') then (None, w') else (Some refused, w)
      end
  | Usp.UpsertAddress _ _ _ => (tt, w)
  | Usp.RemoveActivity _ => (tt, w)
  | Usp.GetLastActivities => (∅, w)
  | Usp.UAPIOpen _ => (inl 3, w)
  | Usp.UAPIListen _ s => (inl s, w)
  | Usp.ListenerClose _ => (None, w)
  | Usp.Stat _ => (Some (New "no such file"), w)
  | Usp.RemoveFile _ => (None, w)
  end.

#[export] Instance handler : Handler Usp.uspC Dump := @step.

#[export] Instance uapi_device : UapiDevice Dump.
Proof.
  refine {| dev := view; self w := match d_private w with Some k => hex_encode k | None => EmptyString end |}.
  - intros w s w' H. unfold handle, handler, step in H.
    destruct (dump_wfb w) eqn:E; [|done]. injection H as <- <-.
    exists w. auto using dump_wfb_spec.
  - intros w. unfold handle, handler, step. by destruct (dump_wfb w).
  - intros text w w' wire H Hr _. unfold handle, handler, step in H. rewrite Hr in H.
    destruct (decide _) as [Hd|]; [|done]. injection H as <-. split; [exact Hd | done].
Defined.

End Sim.
