(* ===== verification/ConfigurerSpec.v ===== *)
(** * The userspace configurer refines the abstract device

    What the operations of [WGUSPConfigurer] (usp.go) do to the device of file
    [WgDevice], for any handler that behaves as that device. *)

From Stdlib Require Import ZArith Lia Ascii.
From stdpp Require Import base tactics list strings gmap fin_maps fin_sets sets.
From S2P Require Import Prelude GoStrings Netip Uapi Configurer WgDevice.

(** ** The userspace configurer refines the abstract device *)

Section usp.
Context {wg : WgTypes} {nb : NbNet} {W : Type} `{!Handler Usp.uspC W} `{!UapiDevice W}.
Notation St := (state Usp.uspC Usp.WGUSPConfigurer W).
Implicit Types s : St.

Lemma ipc_set_run s c s' :
  wire_safe (cfg_Peers c) = true -> Forall (fun p => zone_ok p = true) (cfg_Peers c) ->
  Forall (fun p => hex_encode (pc_PublicKey p) <> self (world s)) (cfg_Peers c) ->
  Usp.ipc_set c s = (Ok tt, s') ->
  dev (world s') = apply_wire (wire_of (written c)) (dev (world s)) /\ self (world s') = self (world s).
Proof.
  intros Hs Hz Hself. unfold Usp.ipc_set, check, bind, call.
  destruct (handle (Usp.IpcSet (toWgUserspaceString c)) (world s)) as [[e|] w'] eqn:E; [done |].
  intros H. injection H as <-. cbn [world].
  eapply ipc_set; [done | by apply read_config_written |].
  cbn [wire_of written w_peers cfg_Peers]. apply Forall_rev. rewrite map_map. apply Forall_fmap. eapply Forall_impl; [done |].
  by intros p Hp.
Qed.

Lemma apply_replace k ips (d : device) p :
  d !! hex_encode k = Some p ->
  apply_wire (wire_of (written (config_peers [replaceAllowedIPsConfig k ips]))) d
  = <[hex_encode k := mkDevPeer (dv_psk p) (dv_endpoint p)
        (list_to_set (map canon (map ipnet_String ips)))]>
      (strip (list_to_set (map canon (map ipnet_String ips))) <$> d).
Proof.
  intros Hp. unfold apply_wire. cbn -[canon]. rewrite Hp. cbn -[canon]. f_equal.
  unfold update_peer. cbn -[canon]. f_equal. set_solver.
Qed.

(** [RemoveAllowedIP] takes exactly that address from exactly that peer: every
    other address of the peer and every other peer stays as it was. *)
Lemma removeAllowedIP_ok s s' peerKey ip k :
  ParseKey peerKey = inl k -> hex_encode k <> self (world s) ->
  disjoint_allowed (dev (world s)) ->
  Usp.removeAllowedIP peerKey ip s = (Ok tt, s') ->
  exists p, dev (world s) !! hex_encode k = Some p /\ prefix_String ip ∈ dv_allowed p /\
    dev (world s') = <[hex_encode k := mkDevPeer (dv_psk p) (dv_endpoint p)
                         (dv_allowed p ∖ {[prefix_String ip]})]> (dev (world s)).
Proof.
  intros Hk Hself Hdis. unfold Usp.removeAllowedIP, check_val, bind at 1 2, call.
  destruct (ipc_get_same (world s)) as [Hd Hsf].
  destruct (handle Usp.IpcGet (world s)) as [[text|e] w1] eqn:E; [|done].
  cbn [fst snd] in Hd, Hsf. cbn [ret].
  destruct (ipc_get _ _ _ E) as (d & -> & Hwf & Hv).
  unfold bind, parse_key. rewrite Hk. cbn [ret].
  destruct (scan_dump k (prefix_String ip) d (dw_ok _ Hwf) (dw_parsed _ Hwf)) as [found ->].
  cbn [sc_removed sc_allowed].
  case_bool_decide as Hip; cbn [negb]; [|done].
  destruct (dump_allowed_view d k _ (dw_nodup _ Hwf) Hip) as (p & Hvp & Hpk & Hp & Hal).
  rewrite Hal in Hip |- *. rewrite Hv in Hvp. intros Hrun.
  apply ipc_set_run in Hrun as [Hrun _]; [| done | by repeat constructor |].
  2:{ repeat constructor. cbn. by rewrite Hsf. }
  cbn [world] in Hrun. rewrite Hd in Hrun.
  exists (view_peer p). split; [done |]. split; [by apply elem_of_list_to_set |].
  rewrite Hrun, (apply_replace _ _ _ _ Hvp).
  pose proof (dw_parsed _ Hwf) as Hpar. pose proof (dw_canon _ Hwf) as Hcan.
  rewrite Forall_forall in Hpar, Hcan. specialize (Hpar p Hp). specialize (Hcan p Hp).
  rewrite map_canon by by apply Forall_filter_sub.
  assert (Hset : (list_to_set (filter (fun a => a <> prefix_String ip) (dp_allowed p)) : gset string)
                 = dv_allowed (view_peer p) ∖ {[prefix_String ip]}).
  { apply set_eq. intros x. cbn. rewrite elem_of_list_to_set, list_elem_of_filter, elem_of_difference,
      elem_of_list_to_set, elem_of_singleton. tauto. }
  rewrite Hset. apply strip_others. intros k' q Hq Hne.
  pose proof (Hdis _ _ _ _ Hq Hvp Hne). set_solver.
Qed.

(** An address the peer does not have is reported, and nothing is sent. *)
Lemma removeAllowedIP_absent s peerKey ip k w1 text :
  ParseKey peerKey = inl k -> handle Usp.IpcGet (world s) = (inl text, w1) ->
  (forall p, dev (world s) !! hex_encode k = Some p -> prefix_String ip ∉ dv_allowed p) ->
  Usp.removeAllowedIP peerKey ip s
  = (Err ErrAllowedIPNotFound, mkState (loc s) w1 (Event Usp.IpcGet (inl text) :: calls s)) /\
  dev w1 = dev (world s).
Proof.
  intros Hk E Hno. pose proof (ipc_get_same (world s)) as [Hd _]. rewrite E in Hd. split; [|done].
  destruct (ipc_get _ _ _ E) as (d & -> & Hwf & Hv).
  unfold Usp.removeAllowedIP, check_val, bind at 1 2, call. rewrite E. cbn [ret].
  unfold bind, parse_key. rewrite Hk. cbn [ret].
  destruct (scan_dump k (prefix_String ip) d (dw_ok _ Hwf) (dw_parsed _ Hwf)) as [found ->].
  cbn [sc_removed]. case_bool_decide as Hip; [|done]. exfalso.
  destruct (dump_allowed_view d k _ (dw_nodup _ Hwf) Hip) as (p & Hvp & _ & _ & Hal).
  rewrite Hv in Hvp. apply (Hno _ Hvp). cbn. apply elem_of_list_to_set. by rewrite <- Hal.
Qed.

Lemma Key_String_inj k1 k2 :
  String.length k1 = 32%nat -> String.length k2 = 32%nat -> Key_String k1 = Key_String k2 -> k1 = k2.
Proof.
  intros H1 H2 E. apply ParseKey_String in H1, H2. rewrite E, H2 in H1. by injection H1.
Qed.

Lemma find_stats_dump peerKey k ps ips :
  Forall dump_peer_ok ps -> ParseKey peerKey = inl k ->
  Usp.find_stats peerKey (map dump_peer ps) = Some ips ->
  exists p, p ∈ ps /\ dp_key p = k /\ ips = omap parsed_cidr (dp_allowed p).
Proof.
  intros Hok Hk. induction Hok as [|p ps Hp _ IH]; cbn [map Usp.find_stats]; [done |].
  cbn [dump_peer peer_PublicKey peer_AllowedIPs]. case_bool_decide as E.
  - intros [= <-]. exists p. split; [left |]. split; [|done].
    rewrite <- E, ParseKey_String in Hk by apply (dpo_key _ Hp). by injection Hk.
  - intros H. destruct (IH H) as (q & Hq & ? & ?). exists q. split; [by right | done].
Qed.

Lemma apply_remove_add k ips (d : device) :
  apply_wire (wire_of (written (config_peers [readdPeerConfig k ips])))
    (apply_wire (wire_of (written (config_peers [removePeerConfig k]))) d)
  = <[hex_encode k := mkDevPeer None None (list_to_set (map canon (map ipnet_String ips)))]>
      (strip (list_to_set (map canon (map ipnet_String ips))) <$> delete (hex_encode k) d).
Proof.
  unfold apply_wire. cbn -[canon]. rewrite lookup_delete_eq. cbn -[canon]. f_equal.
  unfold update_peer. cbn -[canon]. f_equal. set_solver.
Qed.

Lemma removeEndpointAddress_ok s s' peerKey k :
  ParseKey peerKey = inl k -> hex_encode k <> self (world s) ->
  disjoint_allowed (dev (world s)) ->
  Usp.removeEndpointAddress peerKey s = (Ok tt, s') ->
  exists p, dev (world s) !! hex_encode k = Some p /\
    dev (world s') = <[hex_encode k := mkDevPeer None None (dv_allowed p)]> (dev (world s)).
Proof.
  intros Hk Hself Hdis. unfold Usp.removeEndpointAddress, parse_key. rewrite Hk.
  intros H. apply bind_inv_ok in H as (k' & s0 & H0 & H). injection H0 as <- <-.
  apply bind_inv_ok in H as (text & s1 & H1 & H).
  unfold wrap, check_val, bind, call in H1.
  destruct (ipc_get_same (world s)) as [Hd Hsf].
  destruct (handle Usp.IpcGet (world s)) as [[text'|e] w1] eqn:E; [|done].
  cbn [fst snd ret] in *. injection H1 as <- <-.
  destruct (ipc_get _ _ _ E) as (d & -> & Hwf & Hv).
  apply bind_inv_ok in H as (c & s2 & H2 & H). injection H2 as <- <-. cbn [loc world calls] in H.
  rewrite parseStatus_fields in H by apply Hwf. cbn [dump_status st_Peers] in H.
  destruct (Usp.find_stats peerKey _) as [ips|] eqn:Ef; [|done].
  destruct (find_stats_dump _ _ _ _ (dw_ok _ Hwf) Hk Ef) as (p & Hp & Hpk & ->).
  apply bind_inv_ok in H as ([] & s3 & H3 & H).
  assert (Hw : forall f (m : M Usp.uspC Usp.WGUSPConfigurer W unit) sa sb,
    wrap f m sa = (Ok tt, sb) -> m sa = (Ok tt, sb)).
  { intros f m sa sb Hm. unfold wrap in Hm. by destruct (m sa) as [[[]| |] ?]. }
  apply Hw in H3, H. apply ipc_set_run in H3 as [H3 Hs3]; [| done | by repeat constructor |].
  2:{ repeat constructor. cbn. by rewrite Hsf. }
  apply ipc_set_run in H as [H Hs4]; [| done | by repeat constructor |].
  2:{ repeat constructor. cbn [world] in Hs3. cbn. by rewrite Hs3, Hsf. }
  cbn [world] in H3. rewrite H3, Hd, apply_remove_add in H.
  exists (view_peer p). pose proof (view_lookup _ _ (dw_nodup _ Hwf) Hp) as Hvp.
  rewrite Hv, Hpk in Hvp. split; [done |].
  pose proof (dw_parsed _ Hwf) as Hpar. pose proof (dw_canon _ Hwf) as Hcan.
  rewrite Forall_forall in Hpar, Hcan. rewrite map_canon in H by auto.
  rewrite H. rewrite strip_others; [by rewrite insert_delete_eq |].
  intros k' q Hq Hne. rewrite lookup_delete_Some in Hq. destruct Hq as [_ Hq].
  apply (Hdis _ _ _ _ Hq Hvp Hne).
Qed.
End usp.

(** ** The refinement theorems *)

Section refinement.
Context {wg : WgTypes} {nb : NbNet} {W : Type} `{!Handler Usp.uspC W} `{!UapiDevice W}.

(** C17: [RemoveAllowedIP] of the userspace configurer takes exactly that address
    from exactly that peer: when it succeeds, the peer had the address, keeps its
    other addresses, its preshared key and its endpoint, and every other peer is
    as it was; when the peer does not have the address, it fails with
    [ErrAllowedIPNotFound] and the device does not change. *)
Theorem usp_RemoveAllowedIP_refines (s : state Usp.uspC Usp.WGUSPConfigurer W) peerKey ip k :
  ParseKey peerKey = inl k -> hex_encode k <> self (world s) -> disjoint_allowed (dev (world s)) ->
  (forall s', Usp.removeAllowedIP peerKey ip s = (Ok tt, s') ->
    exists p, dev (world s) !! hex_encode k = Some p /\ prefix_String ip ∈ dv_allowed p /\
      dev (world s') = <[hex_encode k := mkDevPeer (dv_psk p) (dv_endpoint p)
                           (dv_allowed p ∖ {[prefix_String ip]})]> (dev (world s))) /\
  (forall text w1, handle Usp.IpcGet (world s) = (inl text, w1) ->
    (forall p, dev (world s) !! hex_encode k = Some p -> prefix_String ip ∉ dv_allowed p) ->
    Usp.removeAllowedIP peerKey ip s
    = (Err ErrAllowedIPNotFound, mkState (loc s) w1 (Event Usp.IpcGet (inl text) :: calls s)) /\
    dev w1 = dev (world s)).
Proof.
  intros Hk Hself Hdis. split.
  - intros s'. by apply removeAllowedIP_ok.
  - intros text w1. by apply removeAllowedIP_absent.
Qed.

(** [RemoveEndpointAddress] of the userspace configurer takes the peer's
    endpoint away and keeps its allowed IPs and every other peer; re-adding the peer
    from its allowed IPs alone also loses its preshared key. *)
Theorem usp_RemoveEndpointAddress_refines (s s' : state Usp.uspC Usp.WGUSPConfigurer W) peerKey k :
  ParseKey peerKey = inl k -> hex_encode k <> self (world s) -> disjoint_allowed (dev (world s)) ->
  Usp.removeEndpointAddress peerKey s = (Ok tt, s') ->
  exists p, dev (world s) !! hex_encode k = Some p /\
    dev (world s') = <[hex_encode k := mkDevPeer None None (dv_allowed p)]> (dev (world s)).
Proof. apply removeEndpointAddress_ok. Qed.
End refinement.

Import Keys Sim.

(** A device with one peer, to run the theorems on. *)
Definition sim_state : state Usp.uspC Usp.WGUSPConfigurer Dump :=
  mkState (Usp.mkUsp "wt0" None) (Keys.sample_dump) [].

Lemma sim_disjoint : disjoint_allowed (dev (world sim_state)).
Proof.
  intros k1 k2 p1 p2 H1 H2 Hne. apply view_Some in H1 as (q1 & Hq1 & -> & _), H2 as (q2 & Hq2 & -> & _).
  cbn in Hq1, Hq2. apply list_elem_of_singleton in Hq1, Hq2. by subst.
Qed.

Lemma sim_self : hex_encode (Keys.key "A") <> self (world sim_state).
Proof. by vm_compute. Qed.

Lemma usp_RemoveAllowedIP_refines_witness :
  let ip := mkPrefix (Addr4 (100 * 2 ^ 24 + 64 * 2 ^ 16 + 2)) 32 in
  let s' := (Usp.removeAllowedIP (Key_String (Keys.key "A")) ip sim_state).2 in
  (Usp.removeAllowedIP (Key_String (Keys.key "A")) ip sim_state).1 = Ok tt /\
  exists p, dev (world sim_state) !! hex_encode (Keys.key "A") = Some p /\
    prefix_String ip ∈ dv_allowed p /\
    dev (world s') = <[hex_encode (Keys.key "A") := mkDevPeer (dv_psk p) (dv_endpoint p)
                         (dv_allowed p ∖ {[prefix_String ip]})]> (dev (world sim_state)).
Proof.
  intros ip s'. assert (E : (Usp.removeAllowedIP (Key_String (Keys.key "A")) ip sim_state).1 = Ok tt)
    by by vm_compute.
  split; [exact E |].
  apply (usp_RemoveAllowedIP_refines sim_state (Key_String (Keys.key "A")) ip (Keys.key "A"));
    [by vm_compute | apply sim_self | apply sim_disjoint |].
  unfold s'. destruct (Usp.removeAllowedIP _ ip sim_state) as [r s1]. cbn in E. by subst.
Defined.

Lemma usp_RemoveEndpointAddress_refines_witness :
  let s' := (Usp.removeEndpointAddress (Key_String (Keys.key "A")) sim_state).2 in
  (Usp.removeEndpointAddress (Key_String (Keys.key "A")) sim_state).1 = Ok tt /\
  exists p, dev (world sim_state) !! hex_encode (Keys.key "A") = Some p /\
    dev (world s') = <[hex_encode (Keys.key "A") := mkDevPeer None None (dv_allowed p)]>
                       (dev (world sim_state)).
Proof.
  intros s'. assert (E : (Usp.removeEndpointAddress (Key_String (Keys.key "A")) sim_state).1 = Ok tt)
    by by vm_compute.
  split; [exact E |].
  apply (usp_RemoveEndpointAddress_refines sim_state s' (Key_String (Keys.key "A")) (Keys.key "A"));
    [by vm_compute | apply sim_self | apply sim_disjoint |].
  unfold s'. destruct (Usp.removeEndpointAddress _ sim_state) as [r s1]. cbn in E. by subst.
Defined.
