(* ===== verification/Routes.v ===== *)
(** * Routes: the data of package [route] (third party) the client uses

    [RouteLib] is what the client relies on of that package's methods: the HA
    identifier of a route, the network identifier inside it, and the resource
    identifier. [NbVars] holds the settings the client reads from packages that
    are not in the repository ([vars], [netstack], [nbnet]). *)

From Stdlib Require Import ZArith Lia Ascii.
From stdpp Require Import base tactics list strings gmap.
From S2P Require Import Prelude GoStrings Netip.

Notation RouteID := string (only parsing).
Notation NetID := string (only parsing).
Notation HAUniqueID := string (only parsing).

Record Route := mkRoute {
  r_ID : RouteID; r_Network : Prefix; r_Domains : list string; r_NetID : NetID;
  r_NetworkType : Z; r_Peer : string; r_Metric : Z; r_Masquerade : bool;
  r_KeepRoute : bool; r_SkipAutoApply : bool
}.

#[export] Instance Route_eq_dec : EqDecision Route.
Proof. solve_decision. Defined.

Notation HAMap := (gmap string (list Route)).

Class RouteLib := {
  GetHAUniqueID : Route -> HAUniqueID;
  HA_NetID : HAUniqueID -> NetID;
  GetResourceID : Route -> string;
  IsDynamic : Route -> bool;
  HA_NetID_Get : forall r, HA_NetID (GetHAUniqueID r) = r_NetID r
}.

Class NbVars := {
  CustomRoutingDisabled : bool;
  NetstackEnabled : bool;
  MinRangeBits : Z;
  ExitNodeCIDR : string;
  Defaultv4 : Prefix;
  Defaultv6 : Prefix
}.

(** An instance to run the theorems on: the HA identifier joins the network
    identifier and the network, as the library documents. *)
Module SampleRoutes.

Definition bar : Ascii.ascii := "|"%char.

Definition before_bar (s : string) : string :=
  match SplitN2 bar s with p :: _ => p | [] => EmptyString end.

(** Escapes the separator in a network identifier, so that it can be read back. *)
Fixpoint esc (s : string) : string :=
  match s with
  | EmptyString => EmptyString
  | String c s' =>
      if Ascii.eqb c bar then "!1" +:+ esc s'
      else if Ascii.eqb c "!" then "!2" +:+ esc s' else String c (esc s')
  end.
Fixpoint unesc (s : string) : string :=
  match s with
  | EmptyString => EmptyString
  | String "!" (String "1" s') => String bar (unesc s')
  | String "!" (String "2" s') => String "!" (unesc s')
  | String c s' => String c (unesc s')
  end.

Lemma unesc_esc s : unesc (esc s) = s.
Proof.
  induction s as [|c s IH]; [done |]. cbn [esc].
  destruct (Ascii.eqb_spec c bar) as [->|Hb]; [cbn; by rewrite IH |].
  destruct (Ascii.eqb_spec c "!") as [->|Hx]; [cbn; by rewrite IH |].
  destruct c as [[] [] [] [] [] [] [] []]; cbn; try (by rewrite IH); by destruct Hx.
Qed.

Lemma esc_no_bar s : has_char bar (esc s) = false.
Proof.
  induction s as [|c s IH]; [done |]. cbn [esc].
  destruct (Ascii.eqb c bar) eqn:E; [cbn; exact IH |].
  destruct (Ascii.eqb c "!"); [cbn; exact IH |]. cbn [has_char]. by rewrite E, IH.
Qed.

#[export] Instance routelib : RouteLib.
Proof.
  refine {| GetHAUniqueID r := esc (r_NetID r) +:+ "|" +:+ prefix_String (r_Network r);
            HA_NetID h := unesc (before_bar h);
            GetResourceID r := r_ID r;
            IsDynamic r := bool_decide (r_Domains r <> []) |}.
  intros r. unfold before_bar. change ("|" +:+ ?x) with (String bar x).
  rewrite SplitN2_app by apply esc_no_bar. apply unesc_esc.
Defined.

#[export] Instance nbvars : NbVars := {|
  CustomRoutingDisabled := false; NetstackEnabled := false; MinRangeBits := 7;
  ExitNodeCIDR := "0.0.0.0/0";
  Defaultv4 := mkPrefix (Addr4 0) 0; Defaultv6 := mkPrefix (Addr6 0 EmptyString) 0 |}.

#[export] Instance map_order_list : MapOrder.
Proof. refine {| map_order A m := map_to_list m |}. done. Defined.

#[export] Instance multierror : MultiError.
Proof.
  refine {| FormatErrorOrNil es := match es with [] => None | _ => Some (Multi es) end |}.
  by intros [].
Defined.

End SampleRoutes.
