(* ===== verification/RouteManager.v ===== *)
(** * The route manager: [go/internal/routemanager/manager.go]

    [DefaultManager] turns the routes of the management service into route
    handlers (in [activeRoutes]) and peer-selection watchers (in
    [clientNetworks]). Each exported method runs under the manager's mutex, so a
    method is one step. The handlers, watchers, reference counters, the route
    selector and the server router are code outside the repository: calls of
    [rmC]. The operating system's routing is file [SysOps]. *)

From Stdlib Require Import ZArith Lia.
From stdpp Require Import base tactics list strings gmap fin_maps fin_map_dom fin_sets.
From S2P Require Import Prelude GoStrings Netip Uapi Configurer Routes.

Notation RHandler := Z (only parsing).
Notation Watcher := Z (only parsing).

(** common.HandlerParams, client.WatcherConfig and client.RoutesUpdate, with the
    fields that vary. *)
Record HandlerParams := mkHandlerParams {
  hp_Route : Route; hp_UseNewDNSRoute : bool; hp_Firewall : bool;
  hp_FakeIPManager : bool; hp_ForwarderPort : Z
}.
Record WatcherConfig := mkWatcherConfig { wc_Route : Route; wc_Handler : RHandler }.
Record RoutesUpdate := mkRoutesUpdate { ru_UpdateSerial : Z; ru_Routes : list Route }.

Inductive rmC : Set -> Type :=
  (* routeselector *)
  | NewRouteSelector : rmC Z
  | FilterSelectedExitNodes (sel : Z) (m : HAMap) : rmC HAMap
  | HasUserSelectionForRoute (sel : Z) (id : NetID) : rmC bool
  | IsSelected (sel : Z) (id : NetID) : rmC bool
  | DeselectRoutes (sel : Z) (routes all : list NetID) : rmC (option error)
  | SelectRoutes (sel : Z) (routes : list NetID) (append : bool) (all : list NetID) : rmC (option error)
  (* client *)
  | HandlerFromRoute (p : HandlerParams) : rmC RHandler
  | AddRoute (h : RHandler) : rmC (option error)
  | RemoveRoute (h : RHandler) : rmC (option error)
  | NewWatcher (c : WatcherConfig) : rmC Watcher
  | StartWatcher (w : Watcher) : rmC unit
  | StopWatcher (w : Watcher) : rmC unit
  | SendUpdate (w : Watcher) (u : RoutesUpdate) : rmC unit
  (* notifier *)
  | OnNewRoutes (m : HAMap) : rmC unit
  | SetListener (l : Z) : rmC unit
  | GetInitialRouteRanges : rmC (list string)
  | SetInitialClientRoutes (initial comparison : list Route) : rmC unit
  (* server *)
  | NewRouter (firewall : Z) : rmC (Z + error)
  | ServerUpdateRoutes (r : Z) (m : gmap string Route) (useNewDNSRoute : bool) : rmC (option error)
  | ServerCleanUp (r : Z) : rmC unit
  (* refcounter, with the callbacks below *)
  | FlushRoutes : rmC (option error)
  | FlushAllowedIPs : rmC (option error)
  (* the WireGuard interface and the operating system's routes *)
  | WgAddAllowedIP (peerKey : string) (p : Prefix) : rmC (option error)
  | WgRemoveAllowedIP (peerKey : string) (p : Prefix) : rmC (option error)
  | SysAddVPNRoute (p : Prefix) : rmC (option error)
  | SysRemoveVPNRoute (p : Prefix) : rmC (option error)
  | SysSetupRouting (ips : list string) (advanced : bool) : rmC (option error)
  | SysCleanupRouting (withState : bool) (advanced : bool) : rmC (option error)
  (* status recorder, relay manager, state manager, name resolution *)
  | ManagementURL : rmC string
  | SignalURL : rmC string
  | RelayServerURLs : rmC (list string)
  | RegisterState : rmC unit
  | LoadState : rmC (option error)
  | GetState : rmC (option (option Z))
  | UpdateState (sel : Z) : rmC (option error)
  | URLHostname (rawurl : string) : rmC (string + error)
  | LookupIP (host : string) : rmC (list string + error)
  | NewFakeIPManager : rmC Prefix
  | NewUUID : rmC string.

(** How a reference counter was built: with the no-op callbacks or the real ones. *)
Inductive RefCounter := RefNoop | RefSystem.

Record ManagerConfig := mkManagerConfig {
  mc_PublicKey : string; mc_RelayManager : bool; mc_InitialRoutes : list Route;
  mc_DNSFeatureFlag : bool; mc_DisableClientRoutes : bool; mc_DisableServerRoutes : bool
}.

Record DefaultManager := mkDM {
  ctxDone : bool;
  clientNetworks : gmap string Watcher;
  routeSelector : option Z;
  serverRouter : option Z;
  relayMgr : bool;
  pubKey : string;
  routeRefCounter : option RefCounter;
  allowedIPsRefCounter : option RefCounter;
  clientRoutes : option HAMap;
  firewall : option Z;
  useNewDNSRoute : bool;
  disableClientRoutes : bool;
  disableServerRoutes : bool;
  activeRoutes : gmap string RHandler;
  fakeIPManager : bool;
  dnsForwarderPort : Z
}.

(** *** Field updates *)
Definition set_ctxDone (b : bool) (m : DefaultManager) : DefaultManager :=
  mkDM b (clientNetworks m) (routeSelector m) (serverRouter m) (relayMgr m) (pubKey m)
    (routeRefCounter m) (allowedIPsRefCounter m) (clientRoutes m) (firewall m) (useNewDNSRoute m)
    (disableClientRoutes m) (disableServerRoutes m) (activeRoutes m) (fakeIPManager m) (dnsForwarderPort m).
Definition set_clientNetworks (x : gmap string Watcher) (m : DefaultManager) : DefaultManager :=
  mkDM (ctxDone m) x (routeSelector m) (serverRouter m) (relayMgr m) (pubKey m)
    (routeRefCounter m) (allowedIPsRefCounter m) (clientRoutes m) (firewall m) (useNewDNSRoute m)
    (disableClientRoutes m) (disableServerRoutes m) (activeRoutes m) (fakeIPManager m) (dnsForwarderPort m).
Definition set_routeSelector (x : option Z) (m : DefaultManager) : DefaultManager :=
  mkDM (ctxDone m) (clientNetworks m) x (serverRouter m) (relayMgr m) (pubKey m)
    (routeRefCounter m) (allowedIPsRefCounter m) (clientRoutes m) (firewall m) (useNewDNSRoute m)
    (disableClientRoutes m) (disableServerRoutes m) (activeRoutes m) (fakeIPManager m) (dnsForwarderPort m).
Definition set_serverRouter (x : option Z) (m : DefaultManager) : DefaultManager :=
  mkDM (ctxDone m) (clientNetworks m) (routeSelector m) x (relayMgr m) (pubKey m)
    (routeRefCounter m) (allowedIPsRefCounter m) (clientRoutes m) (firewall m) (useNewDNSRoute m)
    (disableClientRoutes m) (disableServerRoutes m) (activeRoutes m) (fakeIPManager m) (dnsForwarderPort m).
Definition set_refCounters (r a : RefCounter) (m : DefaultManager) : DefaultManager :=
  mkDM (ctxDone m) (clientNetworks m) (routeSelector m) (serverRouter m) (relayMgr m) (pubKey m)
    (Some r) (Some a) (clientRoutes m) (firewall m) (useNewDNSRoute m)
    (disableClientRoutes m) (disableServerRoutes m) (activeRoutes m) (fakeIPManager m) (dnsForwarderPort m).
Definition set_clientRoutes (x : option HAMap) (m : DefaultManager) : DefaultManager :=
  mkDM (ctxDone m) (clientNetworks m) (routeSelector m) (serverRouter m) (relayMgr m) (pubKey m)
    (routeRefCounter m) (allowedIPsRefCounter m) x (firewall m) (useNewDNSRoute m)
    (disableClientRoutes m) (disableServerRoutes m) (activeRoutes m) (fakeIPManager m) (dnsForwarderPort m).
Definition set_firewall (x : option Z) (m : DefaultManager) : DefaultManager :=
  mkDM (ctxDone m) (clientNetworks m) (routeSelector m) (serverRouter m) (relayMgr m) (pubKey m)
    (routeRefCounter m) (allowedIPsRefCounter m) (clientRoutes m) x (useNewDNSRoute m)
    (disableClientRoutes m) (disableServerRoutes m) (activeRoutes m) (fakeIPManager m) (dnsForwarderPort m).
Definition set_useNewDNSRoute (x : bool) (m : DefaultManager) : DefaultManager :=
  mkDM (ctxDone m) (clientNetworks m) (routeSelector m) (serverRouter m) (relayMgr m) (pubKey m)
    (routeRefCounter m) (allowedIPsRefCounter m) (clientRoutes m) (firewall m) x
    (disableClientRoutes m) (disableServerRoutes m) (activeRoutes m) (fakeIPManager m) (dnsForwarderPort m).
Definition set_activeRoutes (x : gmap string RHandler) (m : DefaultManager) : DefaultManager :=
  mkDM (ctxDone m) (clientNetworks m) (routeSelector m) (serverRouter m) (relayMgr m) (pubKey m)
    (routeRefCounter m) (allowedIPsRefCounter m) (clientRoutes m) (firewall m) (useNewDNSRoute m)
    (disableClientRoutes m) (disableServerRoutes m) x (fakeIPManager m) (dnsForwarderPort m).
Definition set_fakeIPManager (x : bool) (m : DefaultManager) : DefaultManager :=
  mkDM (ctxDone m) (clientNetworks m) (routeSelector m) (serverRouter m) (relayMgr m) (pubKey m)
    (routeRefCounter m) (allowedIPsRefCounter m) (clientRoutes m) (firewall m) (useNewDNSRoute m)
    (disableClientRoutes m) (disableServerRoutes m) (activeRoutes m) x (dnsForwarderPort m).
Definition set_dnsForwarderPort (x : Z) (m : DefaultManager) : DefaultManager :=
  mkDM (ctxDone m) (clientNetworks m) (routeSelector m) (serverRouter m) (relayMgr m) (pubKey m)
    (routeRefCounter m) (allowedIPsRefCounter m) (clientRoutes m) (firewall m) (useNewDNSRoute m)
    (disableClientRoutes m) (disableServerRoutes m) (activeRoutes m) (fakeIPManager m) x.

Section manager.
Context {wg : WgTypes} {nb : NbNet} {rl : RouteLib} {nv : NbVars} {mo : MapOrder} {me : MultiError}.
Context {W : Type} `{!Handler rmC W}.

Definition R := M rmC DefaultManager W.

(** ** Classification of routes *)

Definition isRouteSupported (route : Route) : bool :=
  if NetstackEnabled || negb CustomRoutingDisabled || IsDynamic route then true
  else negb (prefix_Bits (r_Network route) <=? MinRangeBits).

(** The first loop of [ClassifyRoutes]: the networks the peer itself serves. *)
Definition own_step (pubKey : string) (acc : gset string * gmap string Route) (newRoute : Route)
    : gset string * gmap string Route :=
  if bool_decide (r_Peer newRoute = pubKey)
  then ({[GetHAUniqueID newRoute]} ∪ acc.1, <[r_ID newRoute := newRoute]> acc.2)
  else acc.

(** The second loop: everything else, by HA identifier. *)
Definition client_step (own : gset string) (m : HAMap) (newRoute : Route) : HAMap :=
  let haID := GetHAUniqueID newRoute in
  if bool_decide (haID ∈ own) then m
  else if negb (isRouteSupported newRoute) then m
  else <[haID := default [] (m !! haID) ++ [newRoute]]> m.

Definition classify (pubKey : string) (newRoutes : list Route) : gmap string Route * HAMap :=
  let '(own, server) := foldl (own_step pubKey) (∅, ∅) newRoutes in
  (server, foldl (client_step own) ∅ newRoutes).

Definition ClassifyRoutes (newRoutes : list Route) : R (gmap string Route * HAMap) :=
  let* m := get in
  ret (classify (pubKey m) newRoutes).

Definition initialClientRoutes (initialRoutes : list Route) : R (list Route) :=
  let* r := ClassifyRoutes initialRoutes in
  ret (concat (map snd (map_order r.2))).

(** ** Construction *)

Definition setupAndroidRoutes (config : ManagerConfig) : R unit :=
  let* cr := initialClientRoutes (mc_InitialRoutes config) in
  if mc_DNSFeatureFlag config then
    let* block := call NewFakeIPManager in
    modify (set_fakeIPManager true) ;;;
    let* id := call NewUUID in
    let* m := get in
    let fakeIPRoute := mkRoute id block [] id 1 (pubKey m) 0 false false false in
    call (SetInitialClientRoutes (cr ++ [fakeIPRoute]) cr)
  else call (SetInitialClientRoutes cr cr).

Definition setupRefCounters (useNoop : bool) : R unit :=
  modify (set_refCounters (if useNoop then RefNoop else RefSystem) RefSystem).

(** The callbacks the counters run for the first and the last user of a prefix. *)
Definition routeRef_add (c : RefCounter) (prefix : Prefix) : R unit :=
  match c with
  | RefNoop => fail (Sentinel "refcounter.ErrIgnore")
  | RefSystem => check (call (SysAddVPNRoute prefix))
  end.
Definition routeRef_remove (c : RefCounter) (prefix : Prefix) : R unit :=
  match c with
  | RefNoop => ret tt
  | RefSystem => check (call (SysRemoveVPNRoute prefix))
  end.
Definition allowedIPsRef_add (prefix : Prefix) (peerKey : string) : R string :=
  check (call (WgAddAllowedIP peerKey prefix)) ;;; ret peerKey.
Definition allowedIPsRef_remove (prefix : Prefix) (peerKey : string) : R unit :=
  let* r := try (check (call (WgRemoveAllowedIP peerKey prefix))) in
  match r with
  | inl _ => ret tt
  | inr err =>
      if negb (errors_Is err ErrPeerNotFound) && negb (errors_Is err ErrAllowedIPNotFound)
      then fail err else ret tt
  end.

Definition newManager0 (config : ManagerConfig) (forwarderClientPort : Z) : DefaultManager :=
  mkDM false ∅ None None (mc_RelayManager config) (mc_PublicKey config) None None None None false
    (mc_DisableClientRoutes config) (mc_DisableServerRoutes config) ∅ false forwarderClientPort.

Definition NewManager (config : ManagerConfig) (forwarderClientPort : Z) : R unit :=
  modify (fun _ => newManager0 config forwarderClientPort) ;;;
  setupRefCounters (NetstackEnabled || mc_DisableClientRoutes config) ;;;
  if mc_DisableClientRoutes config then ret tt
  else when (bool_decide (GOOS = "android")) (setupAndroidRoutes config).

(** ** Init *)

Definition initSelector : R Z :=
  call RegisterState ;;;
  let* err := call LoadState in
  match err with
  | Some _ => call NewRouteSelector
  | None =>
      let* st := call GetState in
      match st with
      | Some (Some selector) => ret selector
      | _ => call NewRouteSelector
      end
  end.

(** The addresses of the URLs that parse and resolve, in order. *)
Fixpoint resolveURLsToIPs (urls : list string) : R (list string) :=
  match urls with
  | [] => ret []
  | rawurl :: urls' =>
      let* u := call (URLHostname rawurl) in
      let* ips := match u with
                  | inr _ => ret []
                  | inl host =>
                      let* r := call (LookupIP host) in
                      ret (match r with inl l => l | inr _ => [] end)
                  end in
      let* rest := resolveURLsToIPs urls' in
      ret (ips ++ rest)
  end.

Definition Init : R unit :=
  let* sel := initSelector in
  modify (set_routeSelector (Some sel)) ;;;
  let* m := get in
  if CustomRoutingDisabled || disableClientRoutes m then ret tt
  else
    ignore (check (call (SysCleanupRouting false AdvancedRouting))) ;;;
    let* mgmtURL := call ManagementURL in
    let* signalURL := call SignalURL in
    let* relayURLs := (if relayMgr m then call RelayServerURLs else ret []) in
    let* ips := resolveURLsToIPs ([mgmtURL; signalURL] ++ relayURLs) in
    wrap (Wrap "setup routing") (check (call (SysSetupRouting ips AdvancedRouting))).

Definition SetFirewall (fw : option Z) : R unit :=
  modify (set_firewall fw) ;;;
  let* m := get in
  match disableServerRoutes m, fw with
  | true, _ | _, None => ret tt
  | false, Some f =>
      let* r := call (NewRouter f) in
      match r with
      | inl router => modify (set_serverRouter (Some router))
      | inr err => modify (set_serverRouter None) ;;; fail err
      end
  end.

Definition SetDNSForwarderPort (port : Z) : R unit := modify (set_dnsForwarderPort (wrapu 32 port)).

Definition Stop : R unit :=
  modify (set_ctxDone true) ;;;
  let* m := get in
  match serverRouter m with Some r => call (ServerCleanUp r) | None => ret tt end ;;;
  match routeRefCounter m with
  | Some _ => ignore (check (call FlushRoutes)) | None => ret tt end ;;;
  match allowedIPsRefCounter m with
  | Some _ => ignore (check (call FlushAllowedIPs)) | None => ret tt end ;;;
  when (negb CustomRoutingDisabled && negb (disableClientRoutes m))
    (ignore (check (call (SysCleanupRouting true AdvancedRouting)))) ;;;
  modify (set_clientRoutes None).

(** ** Updates *)

(** The first route of every network that has one. *)
Definition firstRoutes (newRoutes : HAMap) : gmap string Route := omap head newRoutes.

Definition handlerParams (m : DefaultManager) (route : Route) : HandlerParams :=
  mkHandlerParams route (useNewDNSRoute m) (match firewall m with Some _ => true | None => false end)
    (fakeIPManager m) (dnsForwarderPort m).

Definition remove_active (e : string * RHandler) : R (option error) :=
  let* r := call (RemoveRoute e.2) in
  modify (fun m => set_activeRoutes (delete e.1 (activeRoutes m)) m) ;;;
  ret (Wrap "remove route" <$> (r : option error)).

Definition add_active (e : string * Route) : R (option error) :=
  let* m := get in
  let* handler := call (HandlerFromRoute (handlerParams m e.2)) in
  let* r := call (AddRoute handler) in
  match r with
  | Some err => ret (Some (Wrap "add route" err))
  | None => modify (fun m => set_activeRoutes (<[e.1 := handler]> (activeRoutes m)) m) ;;; ret None
  end.

(** [return nberrors.FormatErrorOrNil(merr)]. *)
Definition format_errors (merr : list error) : R unit :=
  match FormatErrorOrNil merr with None => ret tt | Some e => fail e end.

Definition updateSystemRoutes (newRoutes : HAMap) : R unit :=
  let* m := get in
  let first := firstRoutes newRoutes in
  let toAdd := filter (fun e => activeRoutes m !! e.1 = None) first in
  let toRemove := filter (fun e => first !! e.1 = None) (activeRoutes m) in
  let* merr1 := for_collect (map_order toRemove) remove_active in
  let* merr2 := for_collect (map_order toAdd) add_active in
  format_errors (merr1 ++ merr2).

Definition stopObsoleteClients (networks : HAMap) : R unit :=
  let* m := get in
  for_each (map_order (clientNetworks m)) (fun e : string * Watcher =>
    match networks !! e.1 with
    | Some _ => ret tt
    | None =>
        call (StopWatcher e.2) ;;;
        modify (fun m => set_clientNetworks (delete e.1 (clientNetworks m)) m)
    end).

(** A new watcher for a network, started; [routes[0]] panics on an empty list. *)
Definition start_watcher (id : string) (routes : list Route) (handler : RHandler) : R Watcher :=
  match routes with
  | [] => panic "index out of range [0] with length 0"
  | r :: _ =>
      let* w := call (NewWatcher (mkWatcherConfig r handler)) in
      modify (fun m => set_clientNetworks (<[id := w]> (clientNetworks m)) m) ;;;
      call (StartWatcher w) ;;;
      ret w
  end.

Definition update_network (updateSerial : Z) (e : string * list Route) : R unit :=
  let* m := get in
  match clientNetworks m !! e.1 with
  | Some w => call (SendUpdate w (mkRoutesUpdate updateSerial e.2))
  | None =>
      match activeRoutes m !! e.1 with
      | None => ret tt
      | Some handler =>
          let* w := start_watcher e.1 e.2 handler in
          call (SendUpdate w (mkRoutesUpdate updateSerial e.2))
      end
  end.

Definition updateClientNetworks (updateSerial : Z) (networks : HAMap) : R unit :=
  stopObsoleteClients networks ;;;
  for_each (map_order networks) (update_network updateSerial).

(** A method of a nil selector dereferences it. *)
Definition selector : R Z :=
  let* m := get in
  match routeSelector m with
  | Some sel => ret sel
  | None => panic "invalid memory address or nil pointer dereference"
  end.

(** ** Exit nodes *)

Record exitNodeInfo := mkExitNodeInfo {
  allIDs : list NetID; selectedByManagement : list NetID;
  userSelected : list NetID; userDeselected : list NetID
}.

Definition isExitNodeRoute (routes : list Route) : bool :=
  match routes with
  | [] => false
  | r :: _ => bool_decide (prefix_String (r_Network r) = ExitNodeCIDR)
  end.

Definition categorizeUserSelection (netID : NetID) (info : exitNodeInfo) : R exitNodeInfo :=
  let* sel := selector in
  let* b := call (IsSelected sel netID) in
  ret (match b with
       | true => mkExitNodeInfo (allIDs info) (selectedByManagement info)
                   (userSelected info ++ [netID]) (userDeselected info)
       | false => mkExitNodeInfo (allIDs info) (selectedByManagement info)
                    (userSelected info) (userDeselected info ++ [netID])
       end).

Definition checkManagementSelection (routes : list Route) (netID : NetID) (info : exitNodeInfo)
    : exitNodeInfo :=
  if existsb (fun r => negb (r_SkipAutoApply r)) routes
  then mkExitNodeInfo (allIDs info) (selectedByManagement info ++ [netID])
         (userSelected info) (userDeselected info)
  else info.

Definition collect_exit_node (e : string * list Route) (info : exitNodeInfo) : R exitNodeInfo :=
  if negb (isExitNodeRoute e.2) then ret info
  else
    let netID := HA_NetID e.1 in
    let info' := mkExitNodeInfo (allIDs info ++ [netID]) (selectedByManagement info)
                   (userSelected info) (userDeselected info) in
    let* sel := selector in
    let* user := call (HasUserSelectionForRoute sel netID) in
    match user with
    | true => categorizeUserSelection netID info'
    | false => ret (checkManagementSelection e.2 netID info')
    end.

Fixpoint collect_exit_nodes (l : list (string * list Route)) (info : exitNodeInfo) : R exitNodeInfo :=
  match l with
  | [] => ret info
  | e :: l' => let* info' := collect_exit_node e info in collect_exit_nodes l' info'
  end.

Definition collectExitNodeInfo (clientRoutes : HAMap) : R exitNodeInfo :=
  collect_exit_nodes (map_order clientRoutes) (mkExitNodeInfo [] [] [] []).

Fixpoint getRoutesToDeselect (allIDs : list NetID) : R (list NetID) :=
  match allIDs with
  | [] => ret []
  | netID :: ids =>
      let* sel := selector in
      let* user := call (HasUserSelectionForRoute sel netID) in
      let* rest := getRoutesToDeselect ids in
      ret (match user with true => rest | false => netID :: rest end)
  end.

Definition deselectExitNodes (routesToDeselect : list NetID) : R unit :=
  match routesToDeselect with
  | [] => ret tt
  | _ => let* sel := selector in
         ignore (check (call (DeselectRoutes sel routesToDeselect routesToDeselect)))
  end.

Definition selectExitNodesByManagement (selected allIDs : list NetID) : R unit :=
  match selected with
  | [] => ret tt
  | _ => let* sel := selector in ignore (check (call (SelectRoutes sel selected true allIDs)))
  end.

Definition updateExitNodeSelections (info : exitNodeInfo) : R unit :=
  let* routesToDeselect := getRoutesToDeselect (allIDs info) in
  deselectExitNodes routesToDeselect ;;;
  selectExitNodesByManagement (selectedByManagement info) (allIDs info).

Definition updateRouteSelectorFromManagement (clientRoutes : HAMap) : R unit :=
  let* info := collectExitNodeInfo clientRoutes in
  match allIDs info with
  | [] => ret tt
  | _ => updateExitNodeSelections info
  end.

(** ** The exported updates *)

(** The part of [UpdateRoutes] under [if !m.disableClientRoutes]. *)
Definition update_client_routes (updateSerial : Z) (clientRoutes : HAMap) : R (list error) :=
  updateRouteSelectorFromManagement clientRoutes ;;;
  let* sel := selector in
  let* filtered := call (FilterSelectedExitNodes sel clientRoutes) in
  let* r := try (updateSystemRoutes filtered) in
  updateClientNetworks updateSerial filtered ;;;
  call (OnNewRoutes filtered) ;;;
  ret (match r with inl _ => [] | inr e => [Wrap "update system routes" e] end).

Definition UpdateRoutes (updateSerial : Z) (serverRoutes : gmap string Route) (newClientRoutes : HAMap)
    (useNewDNSRoute : bool) : R unit :=
  let* m := get in
  if ctxDone m then ret tt
  else
    modify (set_useNewDNSRoute useNewDNSRoute) ;;;
    let* merr := (if negb (disableClientRoutes m)
                  then update_client_routes updateSerial newClientRoutes else ret []) in
    modify (set_clientRoutes (Some newClientRoutes)) ;;;
    let* m' := get in
    match serverRouter m' with
    | None => format_errors merr
    | Some r =>
        let* e := call (ServerUpdateRoutes r serverRoutes useNewDNSRoute) in
        format_errors (merr ++ match e with
                               | Some e => [Wrap "update server routes" e] | None => [] end)
    end.

Definition SetRouteChangeListener (l : Z) : R unit := call (SetListener l).
Definition InitialRouteRange : R (list string) := call GetInitialRouteRanges.
Definition GetRouteSelector : R (option Z) := let* m := get in ret (routeSelector m).
Definition GetClientRoutes : R (option HAMap) := let* m := get in ret (clientRoutes m).

(** Two networks with the same [NetID] share one entry: the last of the range wins. *)
Definition by_NetID (m : HAMap) : gmap string (list Route) :=
  foldl (fun acc e => <[HA_NetID e.1 := e.2]> acc) ∅ (map_order m).
Definition GetClientRoutesWithNetID : R (gmap string (list Route)) :=
  let* m := get in ret (by_NetID (default ∅ (clientRoutes m))).

Definition select_network (e : string * list Route) : R unit :=
  let* m := get in
  match clientNetworks m !! e.1 with
  | Some _ => ret tt
  | None =>
      match activeRoutes m !! e.1 with
      | None => ret tt
      | Some handler =>
          let* w := start_watcher e.1 e.2 handler in
          call (SendUpdate w (mkRoutesUpdate 0 e.2))
      end
  end.

Definition TriggerSelection (networks0 : HAMap) : R unit :=
  let* sel := selector in
  let* networks := call (FilterSelectedExitNodes sel networks0) in
  call (OnNewRoutes networks) ;;;
  ignore (updateSystemRoutes networks) ;;;
  stopObsoleteClients networks ;;;
  for_each (map_order networks) select_network ;;;
  ignore (check (call (UpdateState sel))).

End manager.

(** ** Theorems: classification *)

Section classify.
Context {rl : RouteLib} {nv : NbVars}.

Lemma own_step_fold pk rs own server :
  foldl (own_step pk) (own, server) rs
  = (own ∪ list_to_set (map GetHAUniqueID (filter (fun r => r_Peer r = pk) rs)),
     foldl (fun m r => <[r_ID r := r]> m) server (filter (fun r => r_Peer r = pk) rs)).
Proof.
  revert own server. induction rs as [|r rs IH]; intros own server.
  - cbn. f_equal. set_solver.
  - cbn [foldl]. unfold own_step at 2. rewrite filter_cons.
    destruct (decide (r_Peer r = pk)) as [E|E].
    + rewrite bool_decide_eq_true_2 by done. rewrite IH. cbn [fst snd foldl map list_to_set].
      f_equal. set_solver.
    + rewrite bool_decide_eq_false_2 by done. apply IH.
Qed.

(** What the client map must hold for a network. *)
Definition ha_routes (ha : HAUniqueID) (rs : list Route) : list Route :=
  filter (fun r => GetHAUniqueID r = ha /\ isRouteSupported r = true) rs.

Lemma client_step_fold own rs m ha :
  foldl (client_step own) m rs !! ha
  = if decide (ha ∈ own) then m !! ha
    else match ha_routes ha rs with
         | [] => m !! ha
         | l => Some (default [] (m !! ha) ++ l)
         end.
Proof.
  revert m. induction rs as [|r rs IH]; intros m; cbn [foldl].
  - by destruct (decide _).
  - rewrite IH. unfold client_step, ha_routes. rewrite filter_cons.
    destruct (decide (ha ∈ own)) as [Hown|Hown].
    + case_bool_decide as Hr; [done |]. destruct (isRouteSupported r); cbn [negb]; [|done].
      rewrite lookup_insert_ne by congruence. done.
    + destruct (decide (GetHAUniqueID r = ha /\ isRouteSupported r = true)) as [[<- Hs]|Hn].
      * rewrite bool_decide_eq_false_2 by done. rewrite Hs. cbn [negb].
        rewrite lookup_insert_eq. cbn [default].
        destruct (filter _ rs); [done |]. f_equal. cbn. by rewrite <- (assoc_L (++)).
      * case_bool_decide as Hr; [done |]. destruct (isRouteSupported r) eqn:Hs; cbn [negb]; [|done].
        rewrite lookup_insert_ne by (intros E; apply Hn; auto). done.
Qed.

Lemma foldl_insert_last (rs : list Route) (m : gmap string Route) id :
  foldl (fun m r => <[r_ID r := r]> m) m rs !! id
  = match last (filter (fun r => r_ID r = id) rs) with Some r => Some r | None => m !! id end.
Proof.
  revert m. induction rs as [|r rs IH]; intros m; cbn [foldl]; [done |].
  rewrite IH, filter_cons. destruct (decide (r_ID r = id)) as [<-|Hne].
  - rewrite lookup_insert_eq, last_cons. by destruct (last (filter _ rs)).
  - by rewrite lookup_insert_ne.
Qed.

(** C22: [ClassifyRoutes] splits the received routes into the server routes (by
    identifier, the routes whose peer is this one, the last one of an identifier)
    and the client routes (by HA identifier, in the order received): a network the
    peer serves itself is in no client entry, every other supported route is in
    exactly its entry, and an entry is never empty. *)
Theorem ClassifyRoutes_spec pk rs :
  (forall id, (classify pk rs).1 !! id
     = last (filter (fun r => r_ID r = id) (filter (fun r => r_Peer r = pk) rs))) /\
  (forall ha, (classify pk rs).2 !! ha
     = if decide (Exists (fun r => r_Peer r = pk /\ GetHAUniqueID r = ha) rs) then None
       else match ha_routes ha rs with [] => None | l => Some l end).
Proof.
  unfold classify. rewrite own_step_fold. cbn [fst snd]. split.
  - intros id. rewrite foldl_insert_last, lookup_empty. by destruct (last _).
  - intros ha. rewrite client_step_fold, lookup_empty, (left_id_L ∅ (∪)). cbn [default].
    apply decide_ext. rewrite elem_of_list_to_set, list_elem_of_fmap, Exists_exists.
    setoid_rewrite list_elem_of_filter. firstorder.
Qed.
End classify.

(** ** Theorems: handlers and watchers *)

Section updates.
Context {wg : WgTypes} {nb : NbNet} {rl : RouteLib} {nv : NbVars} {mo : MapOrder} {me : MultiError}.
Context {W : Type} `{!Handler rmC W}.
Notation St := (state rmC DefaultManager W).
Implicit Types s : St.

(** The fields no route update touches. *)
Definition same_but_routes (m m' : DefaultManager) : Prop :=
  set_clientNetworks ∅ (set_activeRoutes ∅ m') = set_clientNetworks ∅ (set_activeRoutes ∅ m).

Lemma same_active m a : same_but_routes m (set_activeRoutes a m).
Proof. done. Qed.

Lemma map_order_keys {A} (m : gmap string A) id : id ∈ (map_order m).*1 <-> is_Some (m !! id).
Proof.
  rewrite (map_order_perm m). rewrite list_elem_of_fmap. split.
  - intros ([k a] & -> & H%elem_of_map_to_list). by eexists.
  - intros [a H]. exists (id, a). split; [done | by apply elem_of_map_to_list].
Qed.

Lemma map_order_elem {A} (m : gmap string A) e : e ∈ map_order m <-> m !! e.1 = Some e.2.
Proof. rewrite (map_order_perm m). destruct e. apply elem_of_map_to_list. Qed.

Lemma remove_all l s (Q : list error + error -> St -> Prop) :
  (forall errs s', clientNetworks (loc s') = clientNetworks (loc s) ->
     same_but_routes (loc s) (loc s') ->
     activeRoutes (loc s') = foldl (fun a e => delete e.1 a) (activeRoutes (loc s)) l ->
     Q (inl errs) s') ->
  wp (for_collect l remove_active) Q s.
Proof.
  revert s Q. induction l as [|e l IH]; intros s Q HQ; cbn [for_collect].
  - apply wp_ret. by apply HQ.
  - unfold remove_active at 1. wps. apply IH. intros errs s' Hc Hsame Ha. cbn in *.
    wps. by apply HQ.
Qed.

Lemma add_all l s (Q : list error + error -> St -> Prop) :
  (forall errs s', clientNetworks (loc s') = clientNetworks (loc s) ->
     same_but_routes (loc s) (loc s') ->
     (forall id, id ∉ l.*1 -> activeRoutes (loc s') !! id = activeRoutes (loc s) !! id) ->
     (errs = [] -> forall id, id ∈ l.*1 -> is_Some (activeRoutes (loc s') !! id)) ->
     Q (inl errs) s') ->
  wp (for_collect l add_active) Q s.
Proof.
  revert s Q. induction l as [|e l IH]; intros s Q HQ; cbn [for_collect].
  - apply wp_ret. apply HQ; [done | done | done |]. intros _ id Hid. by apply not_elem_of_nil in Hid.
  - unfold add_active at 1. wps. destruct r0 as [err|]; wps; apply IH; intros errs s' Hc Hsame Hout Hin;
      cbn in *; wps; apply HQ; try done.
    + intros id [_ Hid]%not_elem_of_cons. by rewrite Hout.
    + intros id [Hne Hid]%not_elem_of_cons. by rewrite Hout, lookup_insert_ne.
    + intros -> id Hid. destruct (decide (id ∈ l.*1)) as [Hl|Hl]; [by apply Hin |].
      rewrite Hout by done. cbn in Hid. apply elem_of_cons in Hid as [->|Hid]; [|done].
      rewrite lookup_insert_eq. by eexists.
Qed.

Lemma foldl_delete_lookup {A B} (l : list (string * A)) (m : gmap string B) id :
  foldl (fun a e => delete e.1 a) m l !! id = if decide (id ∈ l.*1) then None else m !! id.
Proof.
  revert m. induction l as [|e l IH]; intros m; cbn [foldl].
  - rewrite decide_False; [done | apply not_elem_of_nil].
  - rewrite IH. destruct (decide (id ∈ l.*1)) as [H|H].
    + rewrite decide_True; [done |]. by right.
    + destruct (decide (id = e.1)) as [->|Hne].
      * rewrite lookup_delete_eq. rewrite decide_True; [done | by left].
      * rewrite lookup_delete_ne by done. rewrite decide_False; [done |].
        cbn. by intros [?|?]%elem_of_cons.
Qed.

Lemma firstRoutes_lookup nr id r :
  firstRoutes nr !! id = Some r <-> exists l, nr !! id = Some (r :: l).
Proof.
  unfold firstRoutes. rewrite lookup_omap. destruct (nr !! id) as [[|r' l]|]; cbn.
  - split; [done | by intros [? ?]].
  - split; [intros [= ->]; by eexists | by intros [l' [= -> _]]].
  - split; [done | by intros [? ?]].
Qed.

(** The contract of [updateSystemRoutes]. *)
Definition system_routes_updated (nr : HAMap) (m m' : DefaultManager) (complete : bool) : Prop :=
  clientNetworks m' = clientNetworks m /\ same_but_routes m m' /\
  (forall id, firstRoutes nr !! id = None -> activeRoutes m' !! id = None) /\
  (forall id, is_Some (firstRoutes nr !! id) -> is_Some (activeRoutes m !! id) ->
     activeRoutes m' !! id = activeRoutes m !! id) /\
  (complete = true -> forall id, is_Some (firstRoutes nr !! id) -> is_Some (activeRoutes m' !! id)).

Lemma updateSystemRoutes_wp nr s (Q : unit + error -> St -> Prop) :
  (forall r s', system_routes_updated nr (loc s) (loc s') (match r with inl _ => true | inr _ => false end) -> Q r s') ->
  wp (updateSystemRoutes nr) Q s.
Proof.
  intros HQ. unfold updateSystemRoutes. wps.
  set (first := firstRoutes nr). set (act := activeRoutes (loc s)).
  apply remove_all. intros errs1 s1 Hc1 Hs1 Ha1. cbn [wp_then]. wps.
  apply add_all. intros errs2 s2 Hc2 Hs2 Hout Hin. cbn [wp_then].
  assert (Hact1 : forall id, activeRoutes (loc s1) !! id
                  = if decide (first !! id = None) then None else act !! id).
  { intros id. rewrite Ha1, foldl_delete_lookup.
    destruct (decide (id ∈ (map_order (filter (fun e : string * RHandler => first !! e.1 = None) act)).*1)) as [H|H];
      rewrite map_order_keys in H.
    - destruct H as [h [_ H]%map_lookup_filter_Some]. cbn in H. by rewrite decide_True.
    - destruct (decide (first !! id = None)) as [Hf|Hf]; [|done].
      destruct (act !! id) as [h|] eqn:E; [|done]. destruct H. exists h.
      by apply map_lookup_filter_Some. }
  assert (Hkey : forall id, id ∈ (map_order (filter (fun e : string * Route => act !! e.1 = None) first)).*1
                 <-> is_Some (first !! id) /\ act !! id = None).
  { intros id. rewrite map_order_keys. split.
    - intros [r [Hf Ha]%map_lookup_filter_Some]. split; [by eexists | done].
    - intros [[r Hf] Ha]. exists r. by apply map_lookup_filter_Some. }
  assert (HU : forall b, (b = true -> errs1 ++ errs2 = []) ->
             system_routes_updated nr (loc s) (loc s2) b).
  { intros b Hb. split; [by rewrite Hc2 |].
    split; [unfold same_but_routes in *; by rewrite Hs2 |]. fold first act. split; [|split].
    - intros id Hf. rewrite Hout, Hact1, decide_True by done || (rewrite Hkey; intros [[? E] _]; congruence).
      done.
    - intros id [r Hf] [h Ha]. rewrite Hout, Hact1, decide_False; [done | congruence |].
      rewrite Hkey. intros [_ E]. congruence.
    - intros Hb' id [r Hf]. apply Hb in Hb'. apply app_nil in Hb' as [_ ->].
      destruct (act !! id) as [h|] eqn:E.
      + rewrite Hout, Hact1, decide_False; [by rewrite E | congruence |].
        rewrite Hkey. intros [_ E']. congruence.
      + apply Hin; [done |]. apply Hkey. split; [by eexists | done]. }
  unfold format_errors. destruct (FormatErrorOrNil (errs1 ++ errs2)) as [e|] eqn:E; wps; apply HQ, HU;
    [done |]. intros _. by apply FormatErrorOrNil_nil.
Qed.

(** *** Watchers *)

Lemma map_order_nodup {A} (m : gmap string A) : NoDup (map_order m).*1.
Proof. rewrite (map_order_perm m). apply NoDup_fst_map_to_list. Qed.

Lemma stopObsoleteClients_wp nets s (Q : unit + error -> St -> Prop) :
  (forall s', loc s' = set_clientNetworks
       (filter (fun e : string * Watcher => is_Some (nets !! e.1)) (clientNetworks (loc s))) (loc s) ->
     Q (inl tt) s') ->
  wp (stopObsoleteClients nets) Q s.
Proof.
  intros HQ. unfold stopObsoleteClients. wps.
  set (base := clientNetworks (loc s)).
  apply (wp_for_each (fun l s' => NoDup l.*1 /\
    loc s' = set_clientNetworks (clientNetworks (loc s')) (loc s) /\
    forall id, clientNetworks (loc s') !! id
      = if decide (id ∈ l.*1 \/ is_Some (nets !! id)) then base !! id else None)).
  - split; [apply map_order_nodup |]. split; [by destruct (loc s) |]. intros id.
    destruct (decide _) as [H|H]; [done |].
    destruct (base !! id) eqn:E; [|done]. destruct H. left. apply map_order_keys. by eexists.
  - intros [k w] l s' (Hnd & Hloc & Hcn). cbn [fst snd] in *.
    apply NoDup_cons in Hnd as [Hk Hnd]. destruct (nets !! k) as [r|] eqn:En; wps.
    + split; [done |]. split; [done |]. intros id. rewrite Hcn.
      apply decide_ext. cbn. rewrite elem_of_cons. split; [intros [[->|]|]; eauto | tauto].
    + split; [done |]. split; [by rewrite Hloc |]. intros id. cbn.
      destruct (decide (id = k)) as [->|Hne].
      * rewrite lookup_delete_eq, decide_False; [done |]. rewrite En. by intros [?|[? ?]].
      * rewrite lookup_delete_ne by done. rewrite Hcn. apply decide_ext. cbn.
        rewrite elem_of_cons. tauto.
  - intros s' (_ & Hloc & Hcn). apply HQ. rewrite Hloc. f_equal. apply map_eq. intros id.
    apply option_eq. intros w. rewrite Hcn, map_lookup_filter_Some. cbn [fst].
    destruct (decide _) as [[H|H]|H]; [by apply not_elem_of_nil in H | tauto |].
    split; [done |]. intros [_ Hn]. destruct H. by right.
Qed.

(** Every active handler has a watcher, and every watcher a network. *)
Definition watchers_ok (nets : HAMap) (m : DefaultManager) : Prop :=
  (forall id, is_Some (activeRoutes m !! id) -> is_Some (clientNetworks m !! id)) /\
  (forall id, is_Some (clientNetworks m !! id) -> is_Some (nets !! id)) /\
  (forall id, is_Some (activeRoutes m !! id) -> exists r l, nets !! id = Some (r :: l)).

Definition handlers_ok (nets : HAMap) (m : DefaultManager) : Prop :=
  forall id, is_Some (activeRoutes m !! id) -> exists r l, nets !! id = Some (r :: l).

Lemma system_routes_handlers nets m m' b :
  system_routes_updated nets m m' b -> handlers_ok nets m'.
Proof.
  intros (_ & _ & Hno & _) id Ha. destruct (firstRoutes nets !! id) as [r|] eqn:E.
  - apply firstRoutes_lookup in E as [l E]. eauto.
  - rewrite Hno in Ha by done. by destruct Ha.
Qed.

(** The loop over the networks, whichever update it sends. *)
Lemma networks_loop_wp (body : string * list Route -> R unit) nets s (Q : unit + error -> St -> Prop) :
  (forall e s (Q : unit + error -> St -> Prop),
     (is_Some (activeRoutes (loc s) !! e.1) -> e.2 <> []) ->
     (forall s', (loc s' = loc s /\ (is_Some (activeRoutes (loc s) !! e.1) -> is_Some (clientNetworks (loc s) !! e.1)))
         \/ (exists w, loc s' = set_clientNetworks (<[e.1 := w]> (clientNetworks (loc s))) (loc s)) ->
        Q (inl tt) s') -> wp (body e) Q s) ->
  handlers_ok nets (loc s) ->
  (forall id, is_Some (clientNetworks (loc s) !! id) -> is_Some (nets !! id)) ->
  (forall s', same_but_routes (loc s) (loc s') -> watchers_ok nets (loc s') -> Q (inl tt) s') ->
  wp (for_each (map_order nets) body) Q s.
Proof.
  intros Hbody Hh Hcn HQ.
  apply (wp_for_each (fun l s' => (forall e, e ∈ l -> nets !! e.1 = Some e.2) /\
    same_but_routes (loc s) (loc s') /\ activeRoutes (loc s') = activeRoutes (loc s) /\
    (forall id, is_Some (clientNetworks (loc s') !! id) -> is_Some (nets !! id)) /\
    (forall id, id ∉ l.*1 -> is_Some (activeRoutes (loc s) !! id) -> is_Some (nets !! id) ->
       is_Some (clientNetworks (loc s') !! id)))).
  - split; [by intros e ?%map_order_elem |]. split; [done |]. split; [done |]. split; [done |].
    intros id Hid _ Hn. destruct Hid. by apply map_order_keys.
  - intros e l s' (He & Hs & Ha & Hc & Hd).
    assert (Hne : nets !! e.1 = Some e.2) by (apply He; by left).
    apply Hbody.
    + rewrite Ha. intros Hact. destruct (Hh _ Hact) as (r & l' & E). rewrite Hne in E.
      by injection E as ->.
    + intros s'' [[Heq Hin]|[w Heq]]; rewrite Heq.
      * repeat (split; [done || (intros; apply He; by right) |]).
        intros id Hid Hact Hn. destruct (decide (id = e.1)) as [->|Hne'];
          [apply Hin; by rewrite Ha |].
        apply Hd; [|done|done]. cbn. by intros [?|?]%elem_of_cons.
      * split; [intros; apply He; by right |]. split; [done |]. split; [done |]. cbn. split.
        -- intros id. destruct (decide (id = e.1)) as [->|Hne'];
             [by eexists | rewrite lookup_insert_ne by done; apply Hc].
        -- intros id Hid Hact Hn. destruct (decide (id = e.1)) as [->|Hne'];
             [rewrite lookup_insert_eq; by eexists |].
           rewrite lookup_insert_ne by done. apply Hd; [|done|done].
           cbn. by intros [?|?]%elem_of_cons.
  - intros s' (_ & Hs & Ha & Hc & Hd). apply HQ; [done |]. split; [|split; [done |]].
    + rewrite Ha. intros id Hact. apply Hd; [apply not_elem_of_nil | done |].
      destruct (Hh _ Hact) as (r & l & ->). by eexists.
    + by rewrite Ha.
Qed.

Lemma start_watcher_wp id r l h s (Q : Watcher + error -> St -> Prop) :
  (forall w s', loc s' = set_clientNetworks (<[id := w]> (clientNetworks (loc s))) (loc s) -> Q (inl w) s') ->
  wp (start_watcher id (r :: l) h) Q s.
Proof. intros HQ. unfold start_watcher. wps. by apply HQ. Qed.

Lemma update_network_wp serial e s (Q : unit + error -> St -> Prop) :
  (is_Some (activeRoutes (loc s) !! e.1) -> e.2 <> []) ->
  (forall s', (loc s' = loc s /\ (is_Some (activeRoutes (loc s) !! e.1) -> is_Some (clientNetworks (loc s) !! e.1)))
      \/ (exists w, loc s' = set_clientNetworks (<[e.1 := w]> (clientNetworks (loc s))) (loc s)) ->
     Q (inl tt) s') ->
  wp (update_network serial e) Q s.
Proof.
  intros Hne HQ. unfold update_network. wps.
  destruct (clientNetworks (loc s) !! e.1) as [w|] eqn:Ec; wps.
  - destruct r. apply HQ. left. split; [done |]. intros _. by eexists.
  - destruct (activeRoutes (loc s) !! e.1) as [h|] eqn:Ea; wps.
    + destruct e as [id [|r l]]; cbn [fst snd] in *; [by destruct Hne; [eexists|] |].
      apply start_watcher_wp. intros w s' Hs'. cbn [wp_then]. wps. destruct r0. apply HQ. right. by exists w.
    + apply HQ. left. split; [done |]. by intros [? ?].
Qed.

Lemma select_network_wp e s (Q : unit + error -> St -> Prop) :
  (is_Some (activeRoutes (loc s) !! e.1) -> e.2 <> []) ->
  (forall s', (loc s' = loc s /\ (is_Some (activeRoutes (loc s) !! e.1) -> is_Some (clientNetworks (loc s) !! e.1)))
      \/ (exists w, loc s' = set_clientNetworks (<[e.1 := w]> (clientNetworks (loc s))) (loc s)) ->
     Q (inl tt) s') ->
  wp (select_network e) Q s.
Proof.
  intros Hne HQ. unfold select_network. wps.
  destruct (clientNetworks (loc s) !! e.1) as [w|] eqn:Ec; wps.
  - apply HQ. left. split; [done |]. intros _. by eexists.
  - destruct (activeRoutes (loc s) !! e.1) as [h|] eqn:Ea; wps.
    + destruct e as [id [|r l]]; cbn [fst snd] in *; [by destruct Hne; [eexists|] |].
      apply start_watcher_wp. intros w s' Hs'. cbn [wp_then]. wps. destruct r0. apply HQ. right. by exists w.
    + apply HQ. left. split; [done |]. by intros [? ?].
Qed.

(** *** The exported updates *)

Lemma selector_wp sel s (Q : Z + error -> St -> Prop) :
  routeSelector (loc s) = Some sel -> Q (inl sel) s -> wp selector Q s.
Proof. intros Hs HQ. unfold selector. wps. rewrite Hs. by wps. Qed.

(** The exit-node pass only talks to the selector. *)
Lemma collect_exit_nodes_wp sel l info s (Q : exitNodeInfo + error -> St -> Prop) :
  routeSelector (loc s) = Some sel ->
  (forall info' s', loc s' = loc s -> Q (inl info') s') ->
  wp (collect_exit_nodes l info) Q s.
Proof.
  revert info s. induction l as [|e l IH]; intros info s Hs HQ; cbn [collect_exit_nodes]; wps; [by apply HQ |].
  unfold collect_exit_node. destruct (negb _); wps; [by apply IH |].
  apply (selector_wp sel); [done |]. cbn [wp_then]. wps. destruct r; wps.
  - unfold categorizeUserSelection. wps. apply (selector_wp sel); [done |]. cbn [wp_then]. wps.
    by apply IH.
  - by apply IH.
Qed.

Lemma getRoutesToDeselect_wp sel ids s (Q : list NetID + error -> St -> Prop) :
  routeSelector (loc s) = Some sel ->
  (forall l s', loc s' = loc s -> Q (inl l) s') -> wp (getRoutesToDeselect ids) Q s.
Proof.
  revert s Q. induction ids as [|id ids IH]; intros s Q Hs HQ; cbn [getRoutesToDeselect]; wps; [by apply HQ |].
  apply (selector_wp sel); [done |]. cbn [wp_then]. wps. apply IH; [done |].
  intros l s' Hs'. cbn [wp_then]. wps. by apply HQ.
Qed.

Lemma deselectExitNodes_wp sel ids s (Q : unit + error -> St -> Prop) :
  routeSelector (loc s) = Some sel ->
  (forall s', loc s' = loc s -> Q (inl tt) s') -> wp (deselectExitNodes ids) Q s.
Proof.
  intros Hs HQ. unfold deselectExitNodes. destruct ids; wps; [by apply HQ |].
  apply (selector_wp sel); [done |]. cbn [wp_then]. wps. destruct r; by apply HQ.
Qed.

Lemma selectExitNodes_wp sel ids all s (Q : unit + error -> St -> Prop) :
  routeSelector (loc s) = Some sel ->
  (forall s', loc s' = loc s -> Q (inl tt) s') -> wp (selectExitNodesByManagement ids all) Q s.
Proof.
  intros Hs HQ. unfold selectExitNodesByManagement. destruct ids; wps; [by apply HQ |].
  apply (selector_wp sel); [done |]. cbn [wp_then]. wps. destruct r; by apply HQ.
Qed.

Lemma updateRouteSelector_wp sel nr s (Q : unit + error -> St -> Prop) :
  routeSelector (loc s) = Some sel ->
  (forall s', loc s' = loc s -> Q (inl tt) s') ->
  wp (updateRouteSelectorFromManagement nr) Q s.
Proof.
  intros Hs HQ. unfold updateRouteSelectorFromManagement, collectExitNodeInfo. wps.
  apply (collect_exit_nodes_wp sel); [done |]. intros info s1 H1. cbn [wp_then].
  destruct (allIDs info); [wps; by apply HQ |].
  unfold updateExitNodeSelections. wps. apply (getRoutesToDeselect_wp sel); [by rewrite H1 |].
  intros ids s2 H2. cbn [wp_then]. wps. apply (deselectExitNodes_wp sel); [by rewrite H2, H1 |].
  intros s3 H3. cbn [wp_then]. apply (selectExitNodes_wp sel); [by rewrite H3, H2, H1 |].
  intros s4 H4. apply HQ. by rewrite H4, H3, H2, H1.
Qed.

(** Handlers, then watchers, for the networks of the selector's answer. *)
Lemma route_update_wp (loop : string * list Route -> R unit) nets s (Q : unit + error -> St -> Prop) :
  (forall e s (Q : unit + error -> St -> Prop),
     (is_Some (activeRoutes (loc s) !! e.1) -> e.2 <> []) ->
     (forall s', (loc s' = loc s /\ (is_Some (activeRoutes (loc s) !! e.1) -> is_Some (clientNetworks (loc s) !! e.1)))
         \/ (exists w, loc s' = set_clientNetworks (<[e.1 := w]> (clientNetworks (loc s))) (loc s)) ->
        Q (inl tt) s') -> wp (loop e) Q s) ->
  handlers_ok nets (loc s) ->
  (forall s', same_but_routes (loc s) (loc s') -> watchers_ok nets (loc s') -> Q (inl tt) s') ->
  wp (stopObsoleteClients nets ;;; for_each (map_order nets) loop) Q s.
Proof.
  intros Hloop Hh HQ. wps. apply stopObsoleteClients_wp. intros s1 H1. cbn [wp_then].
  apply networks_loop_wp; [done | by rewrite H1 | |].
  - rewrite H1. intros id [w H]. cbn in H. apply map_lookup_filter_Some in H as [_ H]. exact H.
  - intros s' Hs Hw. apply HQ; [by rewrite H1 in Hs | done].
Qed.

(** The watchers serve the networks the selector let through. *)
Definition serves_filtered (nr : HAMap) (s : St) : Prop :=
  exists sel nets, saw (Event (FilterSelectedExitNodes sel nr) nets) s /\ watchers_ok nets (loc s).

Lemma update_client_routes_wp sel serial nr s (Q : list error + error -> St -> Prop) :
  routeSelector (loc s) = Some sel ->
  (forall errs s', serves_filtered nr s' -> Q (inl errs) s') ->
  wp (update_client_routes serial nr) Q s.
Proof.
  intros Hs HQ. unfold update_client_routes. wps.
  apply (updateRouteSelector_wp sel); [done |]. intros s1 H1. cbn [wp_then]. wps.
  apply (selector_wp sel); [by rewrite H1 |]. cbn [wp_then]. wps.
  rename r into nets. set (ev := Event (FilterSelectedExitNodes sel nr) nets).
  eapply wp_mono; [apply (wp_preserves (saw ev)); [| by left |] |].
  - unfold updateSystemRoutes, remove_active, add_active, format_errors. preserves.
  - apply (updateSystemRoutes_wp _ _ (fun _ s' => handlers_ok nets (loc s'))).
    intros r s' Hu. eapply system_routes_handlers, Hu.
  - intros r s2 [Hh Hev]. cbn [wp_then]. wps. unfold updateClientNetworks.
    eapply wp_mono; [apply (wp_preserves (saw ev)); [| done |] |].
    + unfold stopObsoleteClients, update_network, start_watcher. preserves.
    + apply (route_update_wp _ _ _ (fun r s' => r = inl tt /\ watchers_ok nets (loc s')));
        [apply update_network_wp | done | done].
    + intros r' s3 [[-> Hw] Hev3]. cbn [wp_then]. wps. apply HQ. exists sel, nets.
      split; [by right | done].
Qed.

(** C23: once [Init] has set the selector, neither [UpdateRoutes] (client routes
    enabled, manager not stopped) nor [TriggerSelection] can panic, whatever the
    handlers and watchers answer, and after either of them every active route
    handler has a watcher, every watcher belongs to a network the exit-node
    selection let through, and a network without routes has no handler. *)
Theorem route_updates_watch_every_handler s sel :
  routeSelector (loc s) = Some sel ->
  (forall serial server nr dns, ctxDone (loc s) = false -> disableClientRoutes (loc s) = false ->
     wp (UpdateRoutes serial server nr dns) (fun _ s' => serves_filtered nr s') s) /\
  (forall nr, wp (TriggerSelection nr) (fun _ s' => serves_filtered nr s') s).
Proof.
  intros Hs. split.
  - intros serial server nr dns Hc Hd. unfold UpdateRoutes. wps. rewrite Hc, Hd. cbn [negb]. wps.
    apply (update_client_routes_wp sel); [done |]. intros errs s1 (sel' & nets & Hev & Hw).
    cbn [wp_then]. wps. unfold format_errors.
    destruct (serverRouter _); wps; case_match; wps; exists sel', nets; split; try done; by right.
  - intros nr. unfold TriggerSelection. wps. apply (selector_wp sel); [done |]. cbn [wp_then]. wps.
    rename r into nets. set (ev := Event (FilterSelectedExitNodes sel nr) nets).
    eapply wp_mono; [apply (wp_preserves (saw ev)); [| by right; left |] |].
    + unfold updateSystemRoutes, remove_active, add_active, format_errors. preserves.
    + apply (updateSystemRoutes_wp _ _ (fun _ s' => handlers_ok nets (loc s'))).
      intros r' s' Hu. eapply system_routes_handlers, Hu.
    + intros r' s2 [Hh Hev]. cbn [wp_then]. apply wp_assoc, wp_bind.
      eapply wp_mono; [apply (wp_preserves (saw ev)); [| exact Hev |] |].
      * unfold stopObsoleteClients, select_network, start_watcher. preserves.
      * apply (route_update_wp _ _ _ (fun r s' => r = inl tt /\ watchers_ok nets (loc s')));
          [apply select_network_wp | done | done].
      * intros r'' s3 [[-> Hw] Hev3]. cbn [wp_then]. wps. destruct r; exists sel, nets; (split; [by right | done]).
Qed.

(** *** The handlers, call by call *)

Inductive act :=
  | Built (p : HandlerParams) (h : RHandler)
  | Added (h : RHandler) (answer : option error)
  | Gone (h : RHandler) (answer : option error)
  | Else.
Definition act_of (ev : event rmC) : option act :=
  match ev with
  | @Event _ R c a =>
      match c in rmC R' return R' -> option act with
      | HandlerFromRoute p => fun h => Some (Built p h)
      | AddRoute h => fun a => Some (Added h a)
      | RemoveRoute h => fun a => Some (Gone h a)
      | _ => fun _ => Some Else
      end a
  end.

(** A handler that is removed, and one that is made for a route, with the answers. *)
Notation removal := (string * RHandler * option error)%type (only parsing).
Notation addition := (string * Route * RHandler * option error)%type (only parsing).
Definition removal_acts (x : removal) : list act := let '(_, h, a) := x in [Gone h a].
Definition addition_acts (m : DefaultManager) (x : addition) : list act :=
  let '(_, r, h, a) := x in [Built (handlerParams m r) h; Added h a].
Definition note_added (m : gmap string RHandler) (x : addition) : gmap string RHandler :=
  let '(id, _, h, a) := x in match a with None => <[id := h]> m | Some _ => m end.

Lemma remove_all_acts l s (Q : list error + error -> St -> Prop) :
  (forall errs (gone : list removal) s' evs,
     loc s' = set_activeRoutes (foldl (fun a e => delete e.1 a) (activeRoutes (loc s)) l) (loc s) ->
     calls s' = evs ++ calls s -> logged act_of evs = concat (map removal_acts gone) -> map fst gone = l ->
     (errs = [] <-> Forall (fun x => x.2 = None) gone) -> Q (inl errs) s') ->
  wp (for_collect l remove_active) Q s.
Proof.
  revert s Q. induction l as [|e l IH]; intros s Q HQ; cbn [for_collect].
  - apply wp_ret. apply (HQ [] [] s []); try done. by destruct (loc s).
  - unfold remove_active at 1. wps. apply IH. intros errs gone s' evs L C T Hg He. cbn in L, C. wps.
    apply (HQ _ ((e, r) :: gone) s' (evs ++ [Event (RemoveRoute e.2) r])).
    + done.
    + by rewrite C, <- (assoc_L (++)).
    + rewrite logged_app, T. by destruct e.
    + cbn. by rewrite Hg.
    + rewrite Forall_cons. destruct r; cbn; [by split; [|intros []] |]. rewrite He. by split; [|intros []].
Qed.

Lemma add_all_acts l s (Q : list error + error -> St -> Prop) :
  (forall errs (made : list addition) s' evs,
     loc s' = set_activeRoutes (foldl note_added (activeRoutes (loc s)) made) (loc s) ->
     calls s' = evs ++ calls s -> logged act_of evs = concat (map (addition_acts (loc s)) made) ->
     map (fun x => x.1.1) made = l -> (errs = [] <-> Forall (fun x => x.2 = None) made) -> Q (inl errs) s') ->
  wp (for_collect l add_active) Q s.
Proof.
  revert s Q. induction l as [|e l IH]; intros s Q HQ; cbn [for_collect].
  - apply wp_ret. apply (HQ [] [] s []); try done. by destruct (loc s).
  - unfold add_active at 1. wps.
    assert (Hend : forall errs (made : list addition) s' evs a,
      loc s' = set_activeRoutes (foldl note_added (note_added (activeRoutes (loc s)) (e, r, a)) made) (loc s) ->
      calls s' = evs ++ Event (AddRoute r) a :: Event (HandlerFromRoute (handlerParams (loc s) e.2)) r :: calls s ->
      logged act_of evs = concat (map (addition_acts (loc s)) made) ->
      map (fun x => x.1.1) made = l -> (errs = [] <-> Forall (fun x => x.2 = None) made) ->
      Q (inl (match Wrap "add route" <$> a with Some b => b :: errs | None => errs end)) s').
    { intros errs made s' evs a L C T Hg He.
      apply (HQ _ ((e, r, a) :: made) s'
        (evs ++ [Event (AddRoute r) a; Event (HandlerFromRoute (handlerParams (loc s) e.2)) r])).
      - done.
      - by rewrite C, <- (assoc_L (++)).
      - rewrite logged_app, T. by destruct e.
      - cbn. by rewrite Hg.
      - rewrite Forall_cons. destruct a; cbn; [by split; [|intros []] |]. rewrite He. by split; [|intros []]. }
    destruct r0 as [err|]; wps; apply IH; intros errs made s' evs L C T Hg He; cbn [loc calls] in L, C, T; wps.
    + by apply (Hend errs made s' evs (Some err)); destruct e.
    + apply (Hend errs made s' evs None); by destruct e.
Qed.

Lemma foldl_note_added l (m : gmap string RHandler) id h :
  NoDup (map (fun x : addition => x.1.1.1) l) -> (forall x, x ∈ l -> m !! x.1.1.1 = None) ->
  foldl note_added m l !! id = Some h <-> m !! id = Some h \/ exists r, (id, r, h, None) ∈ l.
Proof.
  revert m. induction l as [|[[[k r] g] a] l IH]; intros m Hnd Hm; cbn [foldl map] in *.
  - split; [by left | intros [?|[? H]]; [done | by apply not_elem_of_nil in H]].
  - apply NoDup_cons in Hnd as [Hk Hnd]. cbn in Hk. pose proof (Hm _ (list_elem_of_here _ _)) as Hmk. cbn in Hmk.
    rewrite IH; [| done |].
    2:{ intros x Hx. specialize (Hm x (list_elem_of_further _ _ _ Hx)). destruct a; cbn; [done |].
        rewrite lookup_insert_ne; [done |]. intros ->. apply Hk. apply list_elem_of_fmap. by exists x. }
    setoid_rewrite elem_of_cons. destruct a as [err|]; cbn [note_added].
    + split; [intros [?|[r' ?]]; eauto | intros [?|[r' [[=]|?]]]; eauto].
    + rewrite lookup_insert_Some. split.
      * intros [[[-> ->]|[_ ?]]|[r' ?]]; eauto.
      * intros [?|[r' [[= -> -> ->]|?]]]; [|by left; left | by eauto].
        left. right. split; [congruence | done].
Qed.

Lemma updateSystemRoutes_acts nr s :
  let first := firstRoutes nr in
  let old := activeRoutes (loc s) in
  wp (updateSystemRoutes nr)
    (fun r s' => exists (gone : list removal) (made : list addition) evs,
      calls s' = evs ++ calls s /\
      logged act_of evs = concat (map removal_acts gone) ++ concat (map (addition_acts (loc s)) made) /\
      map fst gone ≡ₚ map_to_list (filter (fun e => first !! e.1 = None) old) /\
      map (fun x => x.1.1) made ≡ₚ map_to_list (filter (fun e => old !! e.1 = None) first) /\
      loc s' = set_activeRoutes (activeRoutes (loc s')) (loc s) /\
      (forall id h, activeRoutes (loc s') !! id = Some h <->
         (old !! id = Some h /\ is_Some (first !! id)) \/ exists route, (id, route, h, None) ∈ made) /\
      (r = inl tt <-> Forall (fun x => x.2 = None) gone /\ Forall (fun x => x.2 = None) made)) s.
Proof.
  intros first old. unfold updateSystemRoutes. wps. fold first old.
  apply remove_all_acts. intros errs1 gone s1 e1 L1 C1 T1 G1 E1. cbn [wp_then]. wps.
  apply add_all_acts. intros errs2 made s2 e2 L2 C2 T2 G2 E2. cbn [wp_then].
  assert (Hfin : wp (format_errors (errs1 ++ errs2)) (fun r s' => s' = s2 /\ (r = inl tt <-> errs1 ++ errs2 = [])) s2).
  { unfold format_errors. destruct (FormatErrorOrNil (errs1 ++ errs2)) as [e|] eqn:E; wps; (split; [done |]).
    - split; [done |]. intros H%FormatErrorOrNil_nil. congruence.
    - by rewrite <- FormatErrorOrNil_nil. }
  eapply wp_mono; [exact Hfin |]. intros r s' [-> Hr]. exists gone, made, (e2 ++ e1).
  assert (Hact1 : activeRoutes (loc s1) = filter (fun e => is_Some (first !! e.1)) old).
  { rewrite L1. cbn. apply map_eq. intros id. rewrite foldl_delete_lookup. apply option_eq. intros h.
    rewrite map_lookup_filter_Some. cbn. destruct (decide _) as [H|H]; rewrite map_order_keys in H.
    - destruct H as [h' [_ H]%map_lookup_filter_Some]. cbn in H. split; [done |]. rewrite H. by intros [_ [? ?]].
    - split; [|by intros [? _]]. intros Ho. split; [done |]. destruct (first !! id) eqn:E; [by eexists |].
      destruct H. exists h. by apply map_lookup_filter_Some. }
  assert (Hids : map (fun x : addition => x.1.1.1) made = (map_order (filter (fun e : string * Route => old !! e.1 = None) first)).*1).
  { rewrite <- G2. by rewrite <- list_fmap_compose. }
  split; [by rewrite C2, C1, (assoc_L (++)) |]. split.
  { rewrite logged_app, T1, T2. rewrite L1. done. }
  split; [by rewrite G1, map_order_perm |]. split; [by rewrite G2, map_order_perm |].
  split; [by rewrite L2, L1 |]. split.
  - intros id h. rewrite L2. cbn. rewrite foldl_note_added.
    + rewrite Hact1, map_lookup_filter_Some. done.
    + rewrite Hids. apply map_order_nodup.
    + intros x Hx. assert (Hi : x.1.1.1 ∈ map (fun x : addition => x.1.1.1) made) by (apply list_elem_of_fmap; by exists x).
      rewrite Hids, map_order_keys in Hi. destruct Hi as [r' [_ Hi]%map_lookup_filter_Some]. cbn in Hi.
      rewrite Hact1. apply eq_None_not_Some. intros [h2 [Ho _]%map_lookup_filter_Some]. congruence.
  - rewrite Hr, <- E1, <- E2. split; [apply app_nil | by intros [-> ->]].
Qed.
(** The network has routes, [route] the first. *)
Definition served (nr : HAMap) (id : string) (route : Route) : Prop :=
  exists routes, nr !! id = Some (route :: routes).

(** The parameters name the route and carry the manager's settings. *)
Record built_for (m : DefaultManager) (route : Route) (p : HandlerParams) : Prop := {
  bf_route : hp_Route p = route;
  bf_dns : hp_UseNewDNSRoute p = useNewDNSRoute m;
  bf_firewall : hp_Firewall p = true <-> is_Some (firewall m);
  bf_fake : hp_FakeIPManager p = fakeIPManager m;
  bf_port : hp_ForwarderPort p = dnsForwarderPort m
}.

(** A handler that is made: its network, what it is built from, and [AddRoute]'s answer. *)
Record making := mkMaking {
  mk_id : string; mk_route : Route; mk_params : HandlerParams; mk_handler : RHandler; mk_answer : option error
}.
Definition making_acts (x : making) : list act :=
  [Built (mk_params x) (mk_handler x); Added (mk_handler x) (mk_answer x)].

Definition making_of (m : DefaultManager) (x : addition) : making :=
  let '(id, r, h, a) := x in mkMaking id r (handlerParams m r) h a.

Lemma built_for_params m r : built_for m r (handlerParams m r).
Proof. split; try done. cbn. by destruct (firewall m). Qed.
Lemma firstRoutes_served nr id : firstRoutes nr !! id = None <-> ~ exists route, served nr id route.
Proof.
  unfold served. setoid_rewrite <- firstRoutes_lookup. destruct (firstRoutes nr !! id) as [r|]; split; try done.
  - intros H. destruct H. by eexists.
  - by intros _ [? ?].
Qed.

(** C24: [updateSystemRoutes] brings the handlers in line with the received routes, and
    does nothing else. It calls [RemoveRoute] of exactly the handlers whose network is
    gone or has no routes. For exactly the networks with routes that had no handler it
    builds one from the network's first route and the manager's settings, and calls its
    [AddRoute]. A handler is kept
    when its network stays, and a new one when adding it did not fail; these are
    all the handlers there are then. An error is returned exactly when one of these calls
    answered one. It never panics. *)
Theorem updateSystemRoutes_spec nr s :
  let old := activeRoutes (loc s) in
  wp (updateSystemRoutes nr)
    (fun r s' => exists (gone : list removal) (made : list making) evs,
      calls s' = evs ++ calls s /\
      logged act_of evs = concat (map removal_acts gone) ++ concat (map making_acts made) /\
      NoDup (map (fun x => x.1.1) gone) /\
      (forall id h, (id, h) ∈ map fst gone <-> old !! id = Some h /\ ~ exists route, served nr id route) /\
      NoDup (map mk_id made) /\
      (forall id route, (id, route) ∈ map (fun x => (mk_id x, mk_route x)) made <-> old !! id = None /\ served nr id route) /\
      Forall (fun x => built_for (loc s) (mk_route x) (mk_params x)) made /\
      loc s' = set_activeRoutes (activeRoutes (loc s')) (loc s) /\
      (forall id h, activeRoutes (loc s') !! id = Some h <->
         (old !! id = Some h /\ exists route, served nr id route) \/
         exists x, x ∈ made /\ mk_id x = id /\ mk_handler x = h /\ mk_answer x = None) /\
      (r = inl tt <-> Forall (fun x => x.2 = None) gone /\ Forall (fun x => mk_answer x = None) made)) s.
Proof.
  intros old. eapply wp_mono; [apply updateSystemRoutes_acts |]. cbn beta. fold old.
  intros r s' (gone & made & evs & C & T & G & M & L & A & E). exists gone, (map (making_of (loc s)) made), evs.
  assert (Hids : map mk_id (map (making_of (loc s)) made) = map fst (map (fun x : addition => x.1.1) made)).
  { rewrite !map_map. apply map_ext. by intros [[[? ?] ?] ?]. }
  assert (Hpair : map (fun x => (mk_id x, mk_route x)) (map (making_of (loc s)) made) = map (fun x : addition => x.1.1) made).
  { rewrite map_map. apply map_ext. by intros [[[? ?] ?] ?]. }
  split; [done |]. split.
  { rewrite T, map_map. do 2 f_equal. apply map_ext. by intros [[[? ?] ?] ?]. }
  split. { rewrite <- (map_map fst fst), G. apply NoDup_fst_map_to_list. }
  split. { intros id h. rewrite G, elem_of_map_to_list, map_lookup_filter_Some. cbn. by rewrite firstRoutes_served. }
  split. { rewrite Hids, M. apply NoDup_fst_map_to_list. }
  split. { intros id route. rewrite Hpair, M, elem_of_map_to_list, map_lookup_filter_Some. cbn. rewrite firstRoutes_lookup. unfold served. tauto. }
  split. { apply Forall_map, Forall_forall. intros [[[? ?] ?] ?] _. apply built_for_params. }
  split; [done |]. split.
  - intros id h. rewrite A. f_equiv.
    + unfold is_Some. by setoid_rewrite firstRoutes_lookup.
    + split.
      * intros [route H]. exists (making_of (loc s) (id, route, h, None)). split; [by apply list_elem_of_fmap_2 | done].
      * intros (x & ([[[i r0] h0] a] & -> & Hx)%list_elem_of_fmap & <- & <- & Ha). cbn in *. subst a. by exists r0.
  - rewrite E. f_equiv. rewrite Forall_map. apply Forall_proper; [|done]. by intros [[[? ?] ?] ?].
Qed.
End updates.

(** ** A manager to run: every call of the environment succeeds *)
Module SampleManager.

Import Keys SampleRoutes.

#[export] Instance sample_net : NbNet := {| AdvancedRouting := true; ControlPlaneMark := 112640 |}.

(** The world counts the handles it has given out. *)
#[export] Instance sample_handler : Handler rmC Z := fun R c n =>
  match c in rmC R return R * Z with
  | NewRouteSelector => (n, n + 1)
  | FilterSelectedExitNodes _ m => (m, n)
  | HasUserSelectionForRoute _ _ | IsSelected _ _ => (false, n)
  | DeselectRoutes _ _ _ | SelectRoutes _ _ _ _ => (None, n)
  | HandlerFromRoute _ => (n, n + 1)
  | AddRoute _ | RemoveRoute _ => (None, n)
  | NewWatcher _ => (n, n + 1)
  | StartWatcher _ | StopWatcher _ | SendUpdate _ _ | OnNewRoutes _ | SetListener _
  | SetInitialClientRoutes _ _ | ServerCleanUp _ | RegisterState => (tt, n)
  | GetInitialRouteRanges | RelayServerURLs => ([], n)
  | NewRouter _ => (inl n, n + 1)
  | ServerUpdateRoutes _ _ _ | FlushRoutes | FlushAllowedIPs | WgAddAllowedIP _ _
  | WgRemoveAllowedIP _ _ | SysAddVPNRoute _ | SysRemoveVPNRoute _ | SysSetupRouting _ _
  | SysCleanupRouting _ _ | LoadState | UpdateState _ => (None, n)
  | ManagementURL | SignalURL => ("https://example.com", n)
  | GetState => (None, n)
  | URLHostname u => (inl u, n)
  | LookupIP _ => (inl [], n)
  | NewFakeIPManager => (PrefixZero, n)
  | NewUUID => ("id", n)
  end.

Definition route (id net peer : string) (p : Prefix) : Route :=
  mkRoute id p [] net 1 peer 100 true false false.
Definition net10 : Prefix := mkPrefix (Addr4 (10 * 2 ^ 24)) 8.
Definition sample_routes : list Route :=
  [route "1" "a" "me" net10; route "2" "a" "peer1" net10;
   route "3" "b" "peer1" (mkPrefix (Addr4 (192 * 2 ^ 24 + 168 * 2 ^ 16)) 16);
   route "4" "b" "peer2" (mkPrefix (Addr4 (192 * 2 ^ 24 + 168 * 2 ^ 16)) 16)].

Definition initialised : state rmC DefaultManager Z :=
  ((NewManager (mkManagerConfig "me" false [] false false false) 22054 ;;; Init)
     (mkState (newManager0 (mkManagerConfig "me" false [] false false false) 22054) 1 [])).2.

End SampleManager.

Import Keys SampleRoutes SampleManager.

Lemma route_updates_watch_every_handler_witness :
  let nr := (classify "me" sample_routes).2 in
  routeSelector (loc initialised) = Some 1 /\ map_order nr <> [] /\
  wp (UpdateRoutes 1 (classify "me" sample_routes).1 nr false)
    (fun _ s' => serves_filtered nr s') initialised /\
  wp (TriggerSelection nr) (fun _ s' => serves_filtered nr s') initialised.
Proof.
  intros nr. split; [by vm_compute |]. split; [by vm_compute |].
  destruct (route_updates_watch_every_handler initialised 1) as [Hu Ht]; [by vm_compute |].
  split; [apply Hu; by vm_compute | apply Ht].
Defined.
