(* ===== verification/SysOps.v ===== *)
(** * The operating system's routing: [go/internal/routemanager/systemops]

    [systemops.go] and [systemops_linux.go]: the rules and the routing table the
    client sets up with advanced routing, the VPN routes it adds and removes, and
    the functions that read routes and rules back for debugging. The netlink
    library, sysctl, the files and the legacy (reference-counted) routing are code
    outside the repository: calls of [sysC]. *)

From Stdlib Require Import ZArith Lia Ascii.
From stdpp Require Import base tactics list strings gmap fin_maps fin_sets sets.
From S2P Require Import Prelude GoStrings Netip Uapi Configurer Routes.

(** ** Constants of the kernel interface ([syscall], [unix], [netlink]) *)

Definition RT_TABLE_DEFAULT : Z := 253.
Definition RT_TABLE_MAIN : Z := 254.
Definition RT_TABLE_LOCAL : Z := 255.
Definition FAMILY_V4 : Z := 2.
Definition FAMILY_V6 : Z := 10.
Definition RTN_UNREACHABLE : Z := 7.
Definition SCOPE_UNIVERSE : Z := 0.
Definition ENOENT : Z := 2.
Definition ESRCH : Z := 3.
Definition EEXIST : Z := 17.
Definition EOPNOTSUPP : Z := 95.
Definition EAFNOSUPPORT : Z := 97.

Definition NetbirdVPNTableID : Z := 7120.
Definition NetbirdVPNTableName : string := "netbird".
Definition rtTablesPath : string := "/etc/iproute2/rt_tables".
Definition ipv4ForwardingPath : string := "net.ipv4.ip_forward".
Definition ErrTableIDExists : error := Sentinel "ErrTableIDExists".
Definition ErrNotExist : error := Sentinel "os.ErrNotExist".
Definition ErrRouteNotAllowed : error := Sentinel "vars.ErrRouteNotAllowed".
Definition ErrRoutingIsSeparate : error := Sentinel "ErrRoutingIsSeparate".

(** ** netlink's data *)

Record NlRoute := mkNlRoute {
  nr_LinkIndex : Z; nr_Scope : Z; nr_Dst : option IPNet; nr_Src : option string;
  nr_Gw : option string; nr_Protocol : Z; nr_Priority : Z; nr_Family : Z; nr_Table : Z; nr_Type : Z
}.
#[export] Instance NlRoute_eq_dec : EqDecision NlRoute.
Proof. solve_decision. Defined.

Record NlRule := mkNlRule {
  nl_Priority : Z; nl_Family : Z; nl_Table : Z; nl_Mark : Z; nl_Mask : option Z; nl_TunID : Z;
  nl_Goto : Z; nl_Src : option IPNet; nl_Dst : option IPNet; nl_Flow : Z; nl_IifName : string;
  nl_OifName : string; nl_SuppressIfgroup : Z; nl_SuppressPrefixlen : Z; nl_Invert : bool; nl_Type : Z
}.
#[export] Instance NlRule_eq_dec : EqDecision NlRule.
Proof. solve_decision. Defined.

(** [netlink.NewRule()]: the library's default rule. *)
Class NetlinkLib := { NewRule : NlRule }.

Record Interface := mkInterface { if_Index : Z; if_Name : string }.
#[export] Instance Interface_eq_dec : EqDecision Interface.
Proof. solve_decision. Defined.

Inductive sysC : Set -> Type :=
  | WgNetwork : sysC Prefix
  | RouteAdd (r : NlRoute) : sysC (option error)
  | RouteDel (r : NlRoute) : sysC (option error)
  | RouteListFiltered (family table : Z) : sysC (list NlRoute + error)
  | RuleAdd (r : NlRule) : sysC (option error)
  | RuleDel (r : NlRule) : sysC (option error)
  | RuleList (family : Z) : sysC (list NlRule + error)
  | LinkByName (name : string) : sysC (Z + error)
  | LinkByIndex (i : Z) : sysC (Interface + error)
  | SysctlSetup : sysC (gmap string Z * option error)
  | SysctlCleanup (original : gmap string Z) : sysC (option error)
  | SysctlSet (path : string) (v : Z) (onlyIfOne : bool) : sysC (option error)
  | OpenFile (path : string) : sysC (option error)
  | OpenAppend (path : string) : sysC (option error)
  | SeekStart : sysC (option error)
  | ScanLines : sysC (list string * option error)
  | WriteString (s : string) : sysC (option error)
  | CloseFile : sysC (option error)
  (* legacy routing, in files for other systems *)
  | SetupRefCounter (initAddresses : list string) : sysC (option error)
  | CleanupRefCounter : sysC (option error)
  | GenericAddVPNRoute (p : Prefix) (intf : option Interface) : sysC (option error)
  | GenericRemoveVPNRoute (p : Prefix) (intf : option Interface) : sysC (option error).

(** ** systemops.go *)

Record Nexthop := mkNexthop { nh_IP : Addr; nh_Intf : option Interface }.

Definition Nexthop_Equal (n other : Nexthop) : bool :=
  bool_decide (nh_IP n = nh_IP other) &&
  match nh_Intf n, nh_Intf other with
  | None, None => true
  | Some a, Some b => if_Index a =? if_Index b
  | _, _ => false
  end.

Definition Nexthop_String (n : Nexthop) : string :=
  match nh_Intf n with
  | None => addr_String (nh_IP n)
  | Some i =>
      (if addr_IsValid (nh_IP n) then addr_String (nh_IP n) else "no-ip")
      +:+ " @ " +:+ itoa (if_Index i) +:+ " (" +:+ if_Name i +:+ ")"
  end.

(** The package's variables [originalSysctl] and [sysctlFailed]. *)
Record SysOps := mkSysOps { originalSysctl : option (gmap string Z); sysctlFailed : bool }.

(** The [switch] of [validateRoute]. *)
Definition route_allowed (network prefix : Prefix) : bool :=
  let addr := prefix_ip prefix in
  negb (negb (addr_IsValid addr) || addr_IsLoopback addr || addr_IsLinkLocalUnicast addr
        || addr_IsLinkLocalMulticast addr || addr_IsInterfaceLocalMulticast addr
        || addr_IsMulticast addr
        || (addr_IsUnspecified addr && negb (prefix_Bits prefix =? 0))
        || prefix_Contains network addr).

Record ruleParams := mkRuleParams {
  rp_priority : Z; rp_fwmark : Z; rp_tableID : Z; rp_family : Z; rp_invert : bool;
  rp_suppressPrefix : Z; rp_description : string
}.

Definition isOpErr (err : error) : bool :=
  errors_Is err (Errno EAFNOSUPPORT) || errors_Is err (Errno EOPNOTSUPP).

Definition getAddressFamily (prefix : Prefix) : Z :=
  if addr_Is4 (prefix_ip prefix) then FAMILY_V4 else FAMILY_V6.

(** *** Names of netlink constants *)

Definition routeProtocolToString (protocol : Z) : string :=
  match protocol with
  | 0 => "unspec" | 1 => "redirect" | 2 => "kernel" | 3 => "boot" | 4 => "static"
  | 16 => "dhcp" | 9 => "ra" | 11 => "zebra" | 12 => "bird" | 13 => "dnrouted"
  | 14 => "xorp" | 15 => "ntk"
  | _ => itoa protocol
  end.

Definition routeScopeToString (scope : Z) : string :=
  match scope with
  | 0 => "global" | 200 => "site" | 253 => "link" | 254 => "host" | 255 => "nowhere"
  | _ => itoa scope
  end.

Definition routeTypeToString (routeType : Z) : string :=
  match routeType with
  | 0 => "unspec" | 1 => "unicast" | 2 => "local" | 3 => "broadcast" | 4 => "anycast"
  | 5 => "multicast" | 6 => "blackhole" | 7 => "unreachable" | 8 => "prohibit" | 9 => "throw"
  | 10 => "nat" | 11 => "xresolve"
  | _ => itoa routeType
  end.

Definition routeTableToString (tableID : Z) : string :=
  if tableID =? RT_TABLE_MAIN then "main"
  else if tableID =? RT_TABLE_LOCAL then "local"
  else if tableID =? NetbirdVPNTableID then "netbird"
  else itoa tableID.

Definition ruleTableToString (table : Z) : string :=
  if table =? RT_TABLE_MAIN then "main"
  else if table =? RT_TABLE_LOCAL then "local"
  else if table =? RT_TABLE_DEFAULT then "default"
  else if table =? NetbirdVPNTableID then "netbird"
  else itoa table.

Definition ruleActionToString (action : Z) : string :=
  match action with
  | 0 => "unspec" | 1 => "lookup" | 2 => "goto" | 3 => "nop"
  | 6 => "blackhole" | 7 => "unreachable" | 8 => "prohibit"
  | _ => itoa action
  end.

(** *** Reading prefixes back *)

(** [netip.PrefixFrom(addr.Unmap(), ones)] of a [net.IPNet], when it is valid. *)
Definition ipnet_prefix (n : IPNet) : option Prefix :=
  match AddrFromSlice (ipnet_IP n) with
  | None => None
  | Some addr =>
      let prefix := PrefixFrom (addr_Unmap addr) (mask_Size (ipnet_Mask n)).1 in
      if prefix_IsValid prefix then Some prefix else None
  end.

(** The zero [netip.Prefix]. *)
Definition prefix0 : Prefix := mkPrefix AddrZero 0.

Definition parseRulePrefix (ipNet : IPNet) : Prefix := default prefix0 (ipnet_prefix ipNet).

(** The loop of [getRoutes]: an address that is no address ends it. *)
Fixpoint route_prefixes (routes : list NlRoute) : list Prefix + error :=
  match routes with
  | [] => inl []
  | r :: rs =>
      match nr_Dst r with
      | None => route_prefixes rs
      | Some dst =>
          match AddrFromSlice (ipnet_IP dst) with
          | None => inr (New "parse route destination IP")
          | Some _ =>
              match route_prefixes rs with
              | inr e => inr e
              | inl ps => inl (match ipnet_prefix dst with Some p => p :: ps | None => ps end)
              end
          end
      end
  end.

Record IPRule := mkIPRule {
  ir_Priority : Z; ir_From : Prefix; ir_To : Prefix; ir_IIF : string; ir_OIF : string;
  ir_Table : string; ir_Action : string; ir_Mark : Z; ir_Mask : Z; ir_TunID : Z; ir_Goto : Z;
  ir_Flow : Z; ir_SuppressPlen : Z; ir_SuppressIFL : Z; ir_Invert : bool
}.

Definition buildIPRule (rule : NlRule) : IPRule :=
  mkIPRule (nl_Priority rule)
    (match nl_Src rule with Some n => parseRulePrefix n | None => prefix0 end)
    (match nl_Dst rule with Some n => parseRulePrefix n | None => prefix0 end)
    (nl_IifName rule) (nl_OifName rule) (ruleTableToString (nl_Table rule))
    (ruleActionToString (nl_Type rule)) (nl_Mark rule) (default 0 (nl_Mask rule))
    (wrapu 32 (nl_TunID rule)) (wrapu 32 (nl_Goto rule)) (wrapu 32 (nl_Flow rule))
    (nl_SuppressPrefixlen rule) (nl_SuppressIfgroup rule) (nl_Invert rule).

Record DetailedRoute := mkDetailedRoute {
  dr_Dst : Prefix; dr_Gw : Addr; dr_Interface : option Interface; dr_Metric : Z;
  dr_InterfaceMetric : Z; dr_InterfaceIndex : Z; dr_Protocol : string; dr_Scope : string;
  dr_Type : string; dr_Table : string; dr_Flags : string
}.

Definition processRouteDestination (route : NlRoute) (family : Z) : option Prefix :=
  match nr_Dst route with
  | Some dst => ipnet_prefix dst
  | None => Some (if family =? FAMILY_V4 then mkPrefix (Addr4 0) 0
                  else mkPrefix (Addr6 0 EmptyString) 0)
  end.

Definition processRouteGateway (route : NlRoute) : Addr :=
  match nr_Gw route with
  | Some gw => match AddrFromSlice gw with Some a => addr_Unmap a | None => AddrZero end
  | None => AddrZero
  end.

(** *** /etc/iproute2/rt_tables *)

(** [fmt.Sscanf(line, "%d %s\n", ...)]: two blank-separated words, the first a
    number, and nothing after them. *)
Definition scan_entry (line : string) : option (Z * string) :=
  match Fields line with
  | [a; b] => match Atoi a with inl n => Some (n, b) | inr _ => None end
  | _ => None
  end.

Fixpoint find_entry (id : Z) (lines : list string) : option (bool * option error) :=
  match lines with
  | [] => None
  | l :: ls =>
      match scan_entry l with
      | Some (existingID, existingName) =>
          if existingID =? id
          then if negb (bool_decide (existingName = NetbirdVPNTableName))
               then Some (true, Some ErrTableIDExists) else Some (true, None)
          else find_entry id ls
      | None => find_entry id ls
      end
  end.

Definition netbird_entry : string := nl +:+ itoa NetbirdVPNTableID +:+ String "009" NetbirdVPNTableName +:+ nl.

Section sysops.
Context {nb : NbNet} {nv : NbVars} {me : MultiError} {lib : NetlinkLib}.
Context {W : Type} `{!Handler sysC W}.

Definition SO := M sysC SysOps W.

(** A netlink call whose tolerated errors count as success. *)
Definition tolerate (ok : error -> bool) (m : SO unit) : SO unit :=
  let* r := try m in
  match r with
  | inl _ => ret tt
  | inr err => if ok err then ret tt else fail err
  end.

Definition format_errors (errs : list error) : SO unit :=
  match FormatErrorOrNil errs with None => ret tt | Some e => fail e end.

(** An error appended to the multierror instead of returned. *)
Definition collect (f : error -> error) (m : SO unit) : SO (list error) :=
  let* r := try m in ret (match r with inl _ => [] | inr e => [f e] end).

Definition getSetupRules : list ruleParams :=
  [mkRuleParams 105 0 RT_TABLE_MAIN FAMILY_V4 false 0 "rule with suppress prefixlen v4";
   mkRuleParams 105 0 RT_TABLE_MAIN FAMILY_V6 false 0 "rule with suppress prefixlen v6";
   mkRuleParams 110 ControlPlaneMark NetbirdVPNTableID FAMILY_V4 true (-1) "rule v4 netbird";
   mkRuleParams 110 ControlPlaneMark NetbirdVPNTableID FAMILY_V6 true (-1) "rule v6 netbird"].

(** The netlink rule of the parameters: [NewRule] with six fields set. *)
Definition make_rule (p : ruleParams) : NlRule :=
  mkNlRule (rp_priority p) (rp_family p) (rp_tableID p) (rp_fwmark p) (nl_Mask NewRule)
    (nl_TunID NewRule) (nl_Goto NewRule) (nl_Src NewRule) (nl_Dst NewRule) (nl_Flow NewRule)
    (nl_IifName NewRule) (nl_OifName NewRule) (nl_SuppressIfgroup NewRule) (rp_suppressPrefix p)
    (rp_invert p) (nl_Type NewRule).

Definition addRule (params : ruleParams) : SO unit :=
  wrap (Wrap "add routing rule")
    (tolerate (fun e => errors_Is e (Errno EEXIST) || isOpErr e)
       (check (call (RuleAdd (make_rule params))))).

Definition removeRule (params : ruleParams) : SO unit :=
  wrap (Wrap "remove routing rule")
    (tolerate (fun e => errors_Is e (Errno ENOENT) || isOpErr e)
       (check (call (RuleDel (make_rule params))))).

(** *** Routes *)

Definition addNextHop (nexthop : Nexthop) (route : NlRoute) : SO NlRoute :=
  let idx := match nh_Intf nexthop with Some i => if_Index i | None => nr_LinkIndex route end in
  let route1 := mkNlRoute idx (nr_Scope route) (nr_Dst route) (nr_Src route) (nr_Gw route)
                  (nr_Protocol route) (nr_Priority route) (nr_Family route) (nr_Table route) (nr_Type route) in
  if addr_IsValid (nh_IP nexthop) then
    let set_gw i := mkNlRoute i (nr_Scope route) (nr_Dst route) (nr_Src route)
                      (Some (addr_AsSlice (nh_IP nexthop))) (nr_Protocol route) (nr_Priority route)
                      (nr_Family route) (nr_Table route) (nr_Type route) in
    if negb (bool_decide (addr_Zone (nh_IP nexthop) = EmptyString)) &&
       match nh_Intf nexthop with None => true | Some _ => false end
    then
      let* i := wrap (Wrap "get link by name for zone")
                  (check_val (call (LinkByName (addr_Zone (nh_IP nexthop))))) in
      ret (set_gw i)
    else ret (set_gw idx)
  else ret route1.

Definition parse_dst {A} (prefix : Prefix) (k : IPNet -> SO A) : SO A :=
  match ParseCIDR (prefix_String prefix) with
  | inr err => fail (Wrap ("failed to parse prefix " +:+ prefix_String prefix) err)
  | inl (_, ipNet) => k ipNet
  end.

Definition table_route (prefix : Prefix) (tableID : Z) (ipNet : IPNet) : NlRoute :=
  mkNlRoute 0 SCOPE_UNIVERSE (Some ipNet) None None 0 0 (getAddressFamily prefix) tableID 0.
Definition unreachable_route (prefix : Prefix) (tableID : Z) (ipNet : IPNet) : NlRoute :=
  mkNlRoute 0 0 (Some ipNet) None None 0 0 (getAddressFamily prefix) tableID RTN_UNREACHABLE.

Definition addRoute (prefix : Prefix) (nexthop : Nexthop) (tableID : Z) : SO unit :=
  parse_dst prefix (fun ipNet =>
    let* route := wrap (Wrap "add gateway and device")
                    (addNextHop nexthop (table_route prefix tableID ipNet)) in
    wrap (Wrap "netlink add route") (tolerate isOpErr (check (call (RouteAdd route))))).

Definition addUnreachableRoute (prefix : Prefix) (tableID : Z) : SO unit :=
  parse_dst prefix (fun ipNet =>
    wrap (Wrap "netlink add unreachable route")
      (tolerate isOpErr (check (call (RouteAdd (unreachable_route prefix tableID ipNet)))))).

Definition removeUnreachableRoute (prefix : Prefix) (tableID : Z) : SO unit :=
  parse_dst prefix (fun ipNet =>
    wrap (Wrap "netlink remove unreachable route")
      (tolerate (fun e => errors_Is e (Errno ESRCH) || errors_Is e (Errno ENOENT) || isOpErr e)
         (check (call (RouteDel (unreachable_route prefix tableID ipNet)))))).

Definition removeRoute (prefix : Prefix) (nexthop : Nexthop) (tableID : Z) : SO unit :=
  parse_dst prefix (fun ipNet =>
    let* route := wrap (Wrap "add gateway and device")
                    (addNextHop nexthop (table_route prefix tableID ipNet)) in
    wrap (Wrap "netlink remove route")
      (tolerate (fun e => errors_Is e (Errno ESRCH) || isOpErr e) (check (call (RouteDel route))))).

Definition addToRouteTable (prefix : Prefix) (nexthop : Nexthop) : SO unit :=
  addRoute prefix nexthop RT_TABLE_MAIN.
Definition removeFromRouteTable (prefix : Prefix) (nexthop : Nexthop) : SO unit :=
  removeRoute prefix nexthop RT_TABLE_MAIN.

(** An unreachable default route is listed without its destination. *)
Definition flush_target (family : Z) (route : NlRoute) : NlRoute :=
  match nr_Gw route, nr_Src route, nr_Dst route with
  | None, None, None =>
      let dst := if family =? FAMILY_V4 then mkIPNet (addr_As16 (Addr4 0)) (CIDRMask 0 32)
                 else mkIPNet (be_bytes 16 0) (CIDRMask 0 128) in
      mkNlRoute (nr_LinkIndex route) (nr_Scope route) (Some dst) None None (nr_Protocol route)
        (nr_Priority route) (nr_Family route) (nr_Table route) (nr_Type route)
  | _, _, _ => route
  end.

Definition flush_route (family : Z) (route : NlRoute) : SO (option error) :=
  let* r := try (tolerate isOpErr (check (call (RouteDel (flush_target family route))))) in
  ret (match r with inl _ => None | inr e => Some (Wrap "failed to delete route" e) end).

Definition flushRoutes (tableID family : Z) : SO unit :=
  let* routes := wrap (Wrap ("list routes from table " +:+ itoa tableID))
                   (check_val (call (RouteListFiltered family tableID))) in
  let* errs := for_collect routes (flush_route family) in
  format_errors errs.

Definition EnableIPForwarding : SO unit := check (call (SysctlSet ipv4ForwardingPath 1 false)).

(** *** The routing table's name *)

Definition entryExists (id : Z) : SO bool :=
  wrap (Wrap "seek rt_tables") (check (call SeekStart)) ;;;
  let* r := call ScanLines in
  match find_entry id r.1 with
  | Some (_, Some err) => fail err
  | Some (b, None) => ret b
  | None => match r.2 with
            | Some err => fail (Wrap "scan rt_tables" err)
            | None => ret false
            end
  end.

Definition close_file : SO unit := ignore (check (call CloseFile)).

Definition addRoutingTableName : SO unit :=
  let* opened := try (check (call (OpenFile rtTablesPath))) in
  match opened with
  | inr err => if errors_Is err ErrNotExist then ret tt else fail (Wrap "open rt_tables" err)
  | inl _ =>
      with_defer
        (let* exists' := wrap (Wrap "verify entry") (entryExists NetbirdVPNTableID) in
         match exists' with
         | true => ret tt
         | false =>
           close_file ;;;
           wrap (Wrap "open rt_tables for appending") (check (call (OpenAppend rtTablesPath))) ;;;
           wrap (Wrap "append entry to rt_tables") (check (call (WriteString netbird_entry)))
         end)
        close_file
  end.

(** *** Setup and cleanup *)

Definition CleanupRouting (advancedRouting : bool) : SO unit :=
  if negb advancedRouting then check (call CleanupRefCounter)
  else
    let* e1 := collect (Wrap "flush routes v4") (flushRoutes NetbirdVPNTableID FAMILY_V4) in
    let* e2 := collect (Wrap "flush routes v6") (flushRoutes NetbirdVPNTableID FAMILY_V6) in
    let* e3 := for_collect getSetupRules (fun rule =>
                 let* r := try (removeRule rule) in
                 ret (match r with inl _ => None | inr e => Some (Wrap (rp_description rule) e) end)) in
    let* s := get in
    let* e4 := collect (Wrap "cleanup sysctl")
                 (check (call (SysctlCleanup (default ∅ (originalSysctl s))))) in
    modify (fun _ => mkSysOps None false) ;;;
    format_errors (e1 ++ e2 ++ e3 ++ e4).

(** [defer func() { if err != nil { CleanupRouting } }()]: the error is kept. *)
Definition cleanup_on_error (m : SO unit) (cleanup : SO unit) : SO unit :=
  let* r := try m in
  match r with
  | inl _ => ret tt
  | inr err => ignore cleanup ;;; fail err
  end.

(** A failure to name the table or to set the sysctls is only logged. *)
Definition SetupRouting (initAddresses : list string) (advancedRouting : bool) : SO unit :=
  if negb advancedRouting then check (call (SetupRefCounter initAddresses))
  else
    cleanup_on_error
      (for_each getSetupRules (fun rule => wrap (Wrap (rp_description rule)) (addRule rule)) ;;;
       ignore addRoutingTableName ;;;
       let* r := call SysctlSetup in
       modify (fun s => mkSysOps (Some r.1)
                 (match r.2 with Some _ => true | None => sysctlFailed s end)))
      (CleanupRouting advancedRouting).

Definition validateRoute (prefix : Prefix) : SO unit :=
  let* network := call WgNetwork in
  match route_allowed network prefix with true => ret tt | false => fail ErrRouteNotAllowed end.

Definition AddVPNRoute (prefix : Prefix) (intf : option Interface) : SO unit :=
  validateRoute prefix ;;;
  if negb AdvancedRouting then check (call (GenericAddVPNRoute prefix intf))
  else
    when (bool_decide (prefix = Defaultv4))
      (wrap (Wrap "add blackhole") (addUnreachableRoute Defaultv6 NetbirdVPNTableID)) ;;;
    wrap (Wrap "add route") (addRoute prefix (mkNexthop AddrZero intf) NetbirdVPNTableID).

Definition RemoveVPNRoute (prefix : Prefix) (intf : option Interface) : SO unit :=
  validateRoute prefix ;;;
  if negb AdvancedRouting then check (call (GenericRemoveVPNRoute prefix intf))
  else
    when (bool_decide (prefix = Defaultv4))
      (wrap (Wrap "remove unreachable route") (removeUnreachableRoute Defaultv6 NetbirdVPNTableID)) ;;;
    wrap (Wrap "remove route") (removeRoute prefix (mkNexthop AddrZero intf) NetbirdVPNTableID).

(** *** Reading the tables *)

Definition getRoutes (tableID family : Z) : SO (list Prefix) :=
  let* routes := wrap (Opaque ("list routes from table " +:+ itoa tableID))
                   (check_val (call (RouteListFiltered family tableID))) in
  match route_prefixes routes with inl ps => ret ps | inr e => fail e end.

Definition GetRoutesFromTable : SO (list Prefix) :=
  let* v4Routes := wrap (Wrap "get v4 routes") (getRoutes RT_TABLE_MAIN FAMILY_V4) in
  let* v6Routes := wrap (Wrap "get v6 routes") (getRoutes RT_TABLE_MAIN FAMILY_V6) in
  ret (v4Routes ++ v6Routes).

Definition hasSeparateRouting : SO (list Prefix) :=
  if negb AdvancedRouting then GetRoutesFromTable else fail ErrRoutingIsSeparate.

Definition processRouteInterface (route : NlRoute) : SO (option Interface) :=
  if 0 <? nr_LinkIndex route then
    let* link := call (LinkByIndex (nr_LinkIndex route)) in
    ret (Some (match link with
               | inl i => i
               | inr _ => mkInterface (nr_LinkIndex route) ("index-" +:+ itoa (nr_LinkIndex route))
               end))
  else ret None.

Definition buildDetailedRoute (tableID family : Z) (route : NlRoute) : SO (option DetailedRoute) :=
  match processRouteDestination route family with
  | None => ret None
  | Some dst =>
      let* intf := processRouteInterface route in
      ret (Some (mkDetailedRoute dst (processRouteGateway route) intf (nr_Priority route) (-1)
                   (nr_LinkIndex route) (routeProtocolToString (nr_Protocol route))
                   (routeScopeToString (nr_Scope route)) (routeTypeToString (nr_Type route))
                   (routeTableToString tableID) "-"))
  end.

Definition getDetailedRoutes (tableID family : Z) : SO (list DetailedRoute) :=
  let* routes := wrap (Opaque ("list routes from table " +:+ itoa tableID))
                   (check_val (call (RouteListFiltered family tableID))) in
  for_collect routes (buildDetailedRoute tableID family).

Definition getRoutesForFamily (tableID family : Z) : SO (list DetailedRoute) :=
  let* r := try (getDetailedRoutes tableID family) in
  ret (match r with inl l => l | inr _ => [] end).

Definition collectRoutesFromTable (tableID : Z) : SO (list DetailedRoute) :=
  let* v4 := getRoutesForFamily tableID FAMILY_V4 in
  let* v6 := getRoutesForFamily tableID FAMILY_V6 in
  ret (v4 ++ v6).

Fixpoint collectRoutesFromTables (tables : list Z) : SO (list DetailedRoute) :=
  match tables with
  | [] => ret []
  | t :: ts =>
      let* routes := collectRoutesFromTable t in
      let* rest := collectRoutesFromTables ts in
      ret (routes ++ rest)
  end.

(** The table numbers of the listed routes, and the standard tables that are not
    among them. The numbers come out of a Go map, in any order. *)
Definition standardTables : list Z := [RT_TABLE_MAIN; RT_TABLE_LOCAL; NetbirdVPNTableID].

Definition table_ids (routes : list NlRoute) : gset Z :=
  list_to_set (filter (fun t => 0 < t) (map nr_Table routes)).

Definition with_standard (found : gset Z) (order : gset Z -> list Z) : list Z :=
  order found ++ filter (fun t => t ∉ found) standardTables.

Definition getAllRoutingTables (order : gset Z -> list Z) : SO (list Z) :=
  let* v4 := call (RouteListFiltered FAMILY_V4 0) in
  let* v6 := call (RouteListFiltered FAMILY_V6 0) in
  let ids r := match r with inl routes => table_ids routes | inr _ => ∅ end in
  ret (with_standard (ids v4 ∪ ids v6) order).

Definition discoverRoutingTables (order : gset Z -> list Z) : SO (list Z) :=
  let* r := try (getAllRoutingTables order) in
  ret (match r with inl tables => tables | inr _ => standardTables end).

Definition GetDetailedRoutesFromTable (order : gset Z -> list Z) : SO (list DetailedRoute) :=
  let* tables := discoverRoutingTables order in
  collectRoutesFromTables tables.

Definition getIPRules (family : Z) : SO (list IPRule) :=
  let* rules := wrap (Wrap ("list rules for family " +:+ itoa family))
                  (check_val (call (RuleList family))) in
  ret (map buildIPRule rules).

Definition GetIPRules : SO (list IPRule) :=
  let* v4Rules := wrap (Wrap "get v4 rules") (getIPRules FAMILY_V4) in
  let* v6Rules := wrap (Wrap "get v6 rules") (getIPRules FAMILY_V6) in
  ret (v4Rules ++ v6Rules).

End sysops.

(** ** Theorems: the rules *)

(** The errors that say an address family is not supported: EAFNOSUPPORT (97) and
    EOPNOTSUPP (95) of Linux. *)
Definition unsupported (e : error) : Prop := errors_Is e (Errno 97) = true \/ errors_Is e (Errno 95) = true.
Lemma isOpErr_unsupported e : isOpErr e = true <-> unsupported e.
Proof. apply orb_true_iff. Qed.

(** The kernel's rules and routes, as netlink documents its calls: a refused call
    changes nothing, a second addition is refused with EEXIST, a deletion of
    something absent with ENOENT or ESRCH, and a family that is not supported has
    neither rules nor routes. *)
Class RoutingKernel (W : Type) `{!Handler sysC W} := {
  rules : W -> NlRule -> Prop;
  routes : W -> NlRoute -> Prop;
  rule_add : forall r w e w', handle (RuleAdd r) w = (e, w') ->
    match e with
    | None => forall r', rules w' r' <-> rules w r' \/ r' = r
    | Some e => (forall r', rules w' r' <-> rules w r') /\
                (errors_Is e (Errno EEXIST) = true -> rules w r)
    end;
  rule_del : forall r w e w', handle (RuleDel r) w = (e, w') ->
    match e with
    | None => forall r', rules w' r' <-> rules w r' /\ r' <> r
    | Some e => (forall r', rules w' r' <-> rules w r') /\
                (errors_Is e (Errno ENOENT) = true \/ unsupported e -> ~ rules w r)
    end;
  rule_frame : forall {R} (c : sysC R) w,
    match c with RuleAdd _ | RuleDel _ => True
    | _ => forall r, rules (handle c w).2 r <-> rules w r end;
  route_add : forall r w e w', handle (RouteAdd r) w = (e, w') ->
    match e with
    | None => ~ routes w r /\ forall r', routes w' r' <-> routes w r' \/ r' = r
    | Some e => (forall r', routes w' r' <-> routes w r') /\ (unsupported e -> ~ routes w r)
    end;
  route_del : forall r w e w', handle (RouteDel r) w = (e, w') ->
    match e with
    | None => forall r', routes w' r' <-> routes w r' /\ r' <> r
    | Some e => (forall r', routes w' r' <-> routes w r') /\
                (errors_Is e (Errno ESRCH) = true \/ errors_Is e (Errno ENOENT) = true
                 \/ unsupported e -> ~ routes w r)
    end;
  route_frame : forall {R} (c : sysC R) w,
    match c with RouteAdd _ | RouteDel _ => True
    | _ => forall r, routes (handle c w).2 r <-> routes w r end
}.

Section kernel.
Context {nb : NbNet} {nv : NbVars} {me : MultiError} {lib : NetlinkLib}.
Context {W : Type} `{!Handler sysC W} `{!RoutingKernel W}.
Notation St := (state sysC SysOps W).
Implicit Types s : St.

(** The rules of a state are those of another, or fewer, or more. *)
Definition same_rules (w w' : W) : Prop := forall r, rules w' r <-> rules w r.

Lemma wp_tolerate (ok : error -> bool) (m : SO unit) s (Q : unit + error -> St -> Prop) :
  wp m (fun r s' => match r with
                    | inl _ => Q (inl tt) s'
                    | inr e => if ok e then Q (inl tt) s' else Q (inr e) s'
                    end) s ->
  wp (tolerate ok m) Q s.
Proof.
  intros H. unfold tolerate. wps. eapply wp_mono; [exact H |].
  intros [u|e] s' HQ; cbn [wp_then]; [by wps |]. destruct (ok e); by wps.
Qed.

(** What was logged since a state. *)
Definition grows s s' : Prop := exists evs, calls s' = evs ++ calls s.
Definition since s (ev : event sysC) s' : Prop := exists evs, calls s' = evs ++ calls s /\ ev ∈ evs.

#[local] Instance grows_refl : Reflexive grows.
Proof. intros s. by exists []. Qed.
Lemma sys_grows_trans s1 s2 s3 : grows s1 s2 -> grows s2 s3 -> grows s1 s3.
Proof. intros [e1 H1] [e2 H2]. exists (e2 ++ e1). by rewrite H2, H1, (assoc_L (++)). Qed.
Lemma since_grows s1 ev s2 s3 : since s1 ev s2 -> grows s2 s3 -> since s1 ev s3.
Proof.
  intros (e1 & H1 & Hin) [e2 H2]. exists (e2 ++ e1). split; [by rewrite H2, H1, (assoc_L (++)) |].
  apply elem_of_app. by right.
Qed.
Lemma grows_since s1 ev s2 s3 : grows s1 s2 -> since s2 ev s3 -> since s1 ev s3.
Proof.
  intros [e1 H1] (e2 & H2 & Hin). exists (e2 ++ e1). split; [by rewrite H2, H1, (assoc_L (++)) |].
  apply elem_of_app. by left.
Qed.
Lemma since_one s ev s' : calls s' = ev :: calls s -> since s ev s'.
Proof. intros H. exists [ev]. split; [done | left]. Qed.

(** An addition leaves the rule installed, or refused as unsupported. *)
Lemma addRule_wp p s (Q : unit + error -> St -> Prop) :
  (forall s', loc s' = loc s -> grows s s' ->
     (forall r, rules (world s') r -> rules (world s) r \/ r = make_rule p) ->
     (forall r, rules (world s) r -> rules (world s') r) ->
     rules (world s') (make_rule p) \/
       (exists e, since s (Event (RuleAdd (make_rule p)) (Some e)) s' /\ unsupported e) ->
     Q (inl tt) s') ->
  (forall e s', loc s' = loc s -> grows s s' -> same_rules (world s) (world s') -> Q (inr e) s') ->
  wp (addRule p) Q s.
Proof.
  intros Hok Herr. unfold addRule. wps. apply wp_tolerate. wps.
  pose proof (rule_add _ _ _ _ H) as Hl. destruct r as [e|].
  - destruct Hl as [Hsame Hex]. destruct (errors_Is e (Errno EEXIST)) eqn:E; cbn [orb].
    + apply Hok; cbn; [done | by eexists [_] | intros r; rewrite Hsame; auto | intros r; by rewrite Hsame |].
      left. apply Hsame. by apply Hex.
    + destruct (isOpErr e) eqn:E'.
      * apply Hok; cbn; [done | by eexists [_] | intros r; rewrite Hsame; auto | intros r; by rewrite Hsame |].
        right. exists e. split; [by apply (since_one s) | by apply isOpErr_unsupported].
      * apply Herr; cbn; [done | by eexists [_] | exact Hsame].
  - apply Hok; cbn; [done | by eexists [_] | intros r; by rewrite Hl | intros r; rewrite Hl; auto |].
    left. apply Hl. by right.
Qed.

Lemma removeRule_wp p s (Q : unit + error -> St -> Prop) :
  (forall s', loc s' = loc s -> grows s s' ->
     (forall r, rules (world s') r <-> rules (world s) r /\ r <> make_rule p) ->
     (exists a, since s (Event (RuleDel (make_rule p)) a) s') -> Q (inl tt) s') ->
  (forall e s', loc s' = loc s -> grows s s' -> same_rules (world s) (world s') ->
     (exists a, since s (Event (RuleDel (make_rule p)) a) s') -> Q (inr e) s') ->
  wp (removeRule p) Q s.
Proof.
  intros Hok Herr. unfold removeRule. wps. apply wp_tolerate. wps.
  pose proof (rule_del _ _ _ _ H) as Hl. destruct r as [e|].
  - destruct Hl as [Hsame Hno].
    destruct (errors_Is e (Errno ENOENT) || isOpErr e) eqn:E.
    + rewrite orb_true_iff, isOpErr_unsupported in E. apply Hok; cbn; [done | by eexists [_] | | eexists; by apply (since_one s)].
      intros r. rewrite Hsame. split; [|tauto]. intros Hr. split; [done |]. intros ->. by apply Hno.
    + apply Herr; cbn; [done | by eexists [_] | done | eexists; by apply (since_one s)].
  - apply Hok; cbn; [done | by eexists [_] | exact Hl | eexists; by apply (since_one s)].
Qed.

(** Computations that leave the rules and the state alone. *)
Definition calm s0 s : Prop :=
  loc s = loc s0 /\ grows s0 s /\ same_rules (world s0) (world s).
Definition quiet {A} (m : SO A) : Prop := no_panic m /\ forall s0, preserves (calm s0) m.

Lemma quiet_run_wp {A} (m : SO A) s (Q : A + error -> St -> Prop) :
  quiet m -> (forall r s', calm s s' -> Q r s') -> wp m Q s.
Proof.
  intros [Hn Hp] HQ. specialize (Hn s). specialize (Hp s s). unfold wp in *.
  destruct (m s) as [[a|e|p] s']; [apply HQ, Hp | apply HQ, Hp | done];
    (split; [done |]; split; [by exists [] | done]).
Qed.

Lemma calm_call {R} (c : sysC R) s0 :
  match c with RuleAdd _ | RuleDel _ => False | _ => True end -> preserves (calm s0) (call c).
Proof.
  intros Hc s (Hl & Hev & Hr). pose proof (rule_frame c (world s)) as Hf.
  unfold call. destruct (handle c (world s)) as [r w]. cbn [snd] in *. split; [done |].
  split; [by apply (sys_grows_trans _ s); [|eexists [_]] |]. intros r'. cbn. rewrite <- (Hr r').
  by destruct c.
Qed.

Lemma quiet_flushRoutes t f : quiet (flushRoutes t f).
Proof.
  split; [|intros s0]; unfold flushRoutes, flush_route, tolerate, format_errors;
    [no_panic | preserves; by apply calm_call].
Qed.

Lemma quiet_addRoutingTableName : quiet addRoutingTableName.
Proof.
  split; [|intros s0]; unfold addRoutingTableName, entryExists, close_file;
    [no_panic | preserves; by apply calm_call].
Qed.

Lemma collect_wp f (m : SO unit) s (Q : list error + error -> St -> Prop) :
  wp m (fun r => Q (inl (match r with inl _ => [] | inr e => [f e] end))) s -> wp (collect f m) Q s.
Proof. intros H. unfold collect. wps. eapply wp_mono; [exact H |]. intros r s' HQ. by wps. Qed.

Lemma calm_trans s0 s1 s2 : calm s0 s1 -> calm s1 s2 -> calm s0 s2.
Proof.
  intros (Hl & He & Hr) (Hl' & He' & Hr'). split; [by rewrite Hl' |]. split; [by eapply sys_grows_trans |].
  intros r. by rewrite (Hr' r).
Qed.

(** [netlink.NewRule] with what makes a rule of the set-up. *)
Definition nl_rule (priority family table mark suppress : Z) (invert : bool) : NlRule :=
  mkNlRule priority family table mark (nl_Mask NewRule) (nl_TunID NewRule) (nl_Goto NewRule) (nl_Src NewRule)
    (nl_Dst NewRule) (nl_Flow NewRule) (nl_IifName NewRule) (nl_OifName NewRule) (nl_SuppressIfgroup NewRule)
    suppress invert (nl_Type NewRule).
(** In each family (2 and 10), the main table (254) without its default route comes first,
    then NetBird's table (0x1BD0) for all that is not marked as the client's own. *)
Definition setup_rules : list NlRule :=
  [nl_rule 105 2 254 0 0 false; nl_rule 105 10 254 0 0 false;
   nl_rule 110 2 7120 ControlPlaneMark (-1) true; nl_rule 110 10 7120 ControlPlaneMark (-1) true].
Lemma make_setup_rules : map make_rule getSetupRules = setup_rules.
Proof. reflexivity. Qed.

Lemma in_setup_rules rl : rl ∈ setup_rules -> exists p, rl = make_rule p /\ p ∈ getSetupRules.
Proof. rewrite <- make_setup_rules. apply list_elem_of_fmap. Qed.

(** The rules the cleanup has tried to delete. *)
Definition deletion_tried s (rl : NlRule) s' : Prop :=
  exists a, since s (Event (RuleDel rl) a) s'.

Lemma CleanupRouting_wp s (Q : unit + error -> St -> Prop) :
  (forall r s', grows s s' ->
     (forall p, p ∈ getSetupRules -> deletion_tried s (make_rule p) s') ->
     (forall r', rules (world s') r' -> rules (world s) r') ->
     (forall r', r' ∉ setup_rules -> rules (world s) r' -> rules (world s') r') ->
     (r = inl tt -> forall r', rules (world s') r' <-> rules (world s) r' /\ r' ∉ setup_rules) ->
     Q r s') ->
  wp (CleanupRouting true) Q s.
Proof.
  intros HQ. unfold CleanupRouting. cbn [negb]. wps. apply collect_wp.
  apply quiet_run_wp; [apply quiet_flushRoutes |]. intros r1 s1 H1. cbn [wp_then]. wps. apply collect_wp.
  apply quiet_run_wp; [apply quiet_flushRoutes |]. intros r2 s2 H2. cbn [wp_then]. wps.
  destruct (calm_trans _ _ _ H1 H2) as (_ & Hev2 & Hr2). clear H1 H2.
  apply (wp_for_collect (fun l errs s' => exists tried, getSetupRules = tried ++ l /\
    grows s s' /\ (forall p, p ∈ tried -> deletion_tried s (make_rule p) s') /\
    (forall r', rules (world s') r' -> rules (world s) r') /\
    (forall r', r' ∉ map make_rule tried -> rules (world s) r' -> rules (world s') r') /\
    (errs = [] -> forall r', r' ∈ map make_rule tried -> ~ rules (world s') r'))).
  - exists []. split; [done |]. split; [done |]. split; [by intros p Hp%not_elem_of_nil |].
    split; [intros r'; by rewrite (Hr2 r') |]. split; [intros r' _; by rewrite (Hr2 r') |].
    by intros _ r' Hr%not_elem_of_nil.
  - intros p l errs s3 (tried & El & Hev & Htr & Hsub & Hkeep & Hgone). wps.
    apply removeRule_wp; [intros s4 Hl4 Hev4 Hr4 Ht4 | intros e s4 Hl4 Hev4 Hr4 Ht4]; wps;
      exists (tried ++ [p]); (split; [by rewrite <- (assoc_L (++)) |]); (split; [by eapply sys_grows_trans |]);
      (split; [intros q [Hq|Hq%list_elem_of_singleton]%elem_of_app;
                 [destruct (Htr q Hq) as [a Ha]; exists a; by eapply since_grows
                 | subst; destruct Ht4 as [a Ha]; exists a; by eapply grows_since] |]).
    + split; [intros r' H'; apply Hsub; by apply Hr4 in H' as [H' _] |]. rewrite map_app. split.
      * intros r' Hn H'. apply Hr4. rewrite not_elem_of_app in Hn. destruct Hn as [Hn Hp].
        split; [by apply Hkeep |]. intros ->. apply Hp. by left.
      * rewrite app_nil_r. intros Herr r' [Hr'|Hr'%list_elem_of_singleton]%elem_of_app; rewrite Hr4.
        -- intros [H' _]. by apply (Hgone Herr r').
        -- tauto.
    + split; [intros r' H'; apply Hsub; by apply Hr4 in H' |]. rewrite map_app. split.
      * intros r' Hn H'. apply Hr4. rewrite not_elem_of_app in Hn. destruct Hn as [Hn _]. by apply Hkeep.
      * intros Herr. by apply app_nil in Herr as [_ ?].
  - intros errs s3 (tried & El & Hev & Htr & Hsub & Hkeep & Hgone). rewrite app_nil_r in El.
    cbn [wp_then]. wps. apply collect_wp. wps.
    pose proof (rule_frame (SysctlCleanup (default ∅ (originalSysctl (loc s3)))) (world s3)) as Hf.
    cbv beta iota in Hf. rewrite H in Hf. cbn [snd] in Hf. rewrite <- El in *.
    assert (HX : forall rr ss e1 e2 e4, (rr = inl tt -> e1 ++ e2 ++ errs ++ e4 = []) ->
       world ss = w -> grows s3 ss -> Q rr ss).
    { intros rr ss e1 e2 e4 Hall Hw Hss. apply HQ.
      - by eapply sys_grows_trans.
      - intros p Hp. destruct (Htr p Hp) as [a Ha]. exists a. by eapply since_grows.
      - intros r' H'. rewrite Hw in H'. apply Hsub. by apply Hf.
      - intros r' Hn H'. rewrite Hw. apply Hf. by apply Hkeep.
      - intros Hrr r'. rewrite Hw, Hf. apply Hall in Hrr.
        apply app_nil in Hrr as [_ Hrr]. apply app_nil in Hrr as [_ Hrr].
        apply app_nil in Hrr as [Herr _]. split.
        + intros H'. split; [auto |]. intros Hr'. by apply (Hgone Herr r').
        + intros [H' Hn]. by apply Hkeep. }
    destruct r as [e4|]; cbn [wp_then]; wps; unfold format_errors;
      (match goal with |- context [FormatErrorOrNil ?l] => destruct (FormatErrorOrNil l) as [ef|] eqn:Ef end; wps;
       [eapply (HX _ _ [] [] []); [done | done | by eexists [_]]
       |apply FormatErrorOrNil_nil in Ef; eapply HX; [intros _; exact Ef | done | by eexists [_]]]).
Qed.

(** The kernel refused to install a rule because its family is not supported. *)
Definition refused s (rl : NlRule) s' : Prop :=
  exists e, since s (Event (RuleAdd rl) (Some e)) s' /\ unsupported e.

Lemma setup_loop_wp s (Q : unit + error -> St -> Prop) :
  (forall s', loc s' = loc s -> grows s s' ->
     (forall r, rules (world s) r -> rules (world s') r) ->
     (forall r, rules (world s') r -> rules (world s) r \/ r ∈ setup_rules) ->
     (forall p, p ∈ getSetupRules -> rules (world s') (make_rule p) \/ refused s (make_rule p) s') ->
     Q (inl tt) s') ->
  (forall e s', grows s s' -> (forall r, rules (world s) r -> rules (world s') r) ->
     (forall r, rules (world s') r -> rules (world s) r \/ r ∈ setup_rules) -> Q (inr e) s') ->
  wp (for_each getSetupRules (fun rule => wrap (Wrap (rp_description rule)) (addRule rule))) Q s.
Proof.
  intros Hok Herr.
  apply (wp_for_each (fun l s' => exists added, getSetupRules = added ++ l /\ loc s' = loc s /\
    grows s s' /\ (forall r, rules (world s) r -> rules (world s') r) /\
    (forall r, rules (world s') r -> rules (world s) r \/ r ∈ map make_rule added) /\
    (forall p, p ∈ added -> rules (world s') (make_rule p) \/ refused s (make_rule p) s'))).
  - exists []. split; [done |]. split; [done |]. split; [by exists [] |]. repeat (split; [done || auto |]). by intros p Hp%not_elem_of_nil.
  - intros p l s1 (added & El & Hl & Hev & Hup & Hdown & Hin). wps.
    apply addRule_wp.
    + intros s2 Hl2 Hev2 Hd2 Hu2 Hp2. exists (added ++ [p]).
      split; [by rewrite <- (assoc_L (++)) |]. split; [by rewrite Hl2 |]. split; [by eapply sys_grows_trans |].
      split; [auto |]. rewrite map_app. split.
      * intros r [H'| ->]%Hd2; [destruct (Hdown r H'); [auto | right; apply elem_of_app; auto] |].
        right. apply elem_of_app. right. by left.
      * intros q [Hq|Hq%list_elem_of_singleton]%elem_of_app.
        -- destruct (Hin q Hq) as [H'|(e & Hs & He)]; [auto |]. right. exists e. split; [by eapply since_grows | done].
        -- subst q. destruct Hp2 as [H'|[e [Hs He]]]; [auto | right]. exists e. split; [by eapply grows_since | done].
    + intros e s2 Hl2 Hev2 Hs2. apply Herr; [by eapply sys_grows_trans | intros r H'; by apply Hs2, Hup |]. intros r H'. apply Hs2, Hdown in H' as [H'|H']; [auto |].
      right. rewrite <- make_setup_rules, El, map_app. apply elem_of_app. auto.
  - intros s1 (added & El & Hl & Hev & Hup & Hdown & Hin). rewrite app_nil_r in El. rewrite <- El in *.
    by apply Hok.
Qed.

(** C25: with advanced routing, when [SetupRouting] returns no error, the rules are those
    there were and the setup's four, less any that the kernel refused as of an address
    family it does not support (without IPv6, both of IPv6). When it returns an error it has
    tried to delete each of the four. No other rule is touched either way. A
    failure to name the table or to set the sysctls does not make it fail. *)
Theorem SetupRouting_installs_or_cleans ips s :
  wp (SetupRouting ips true)
    (fun r s' =>
       (forall rl, rl ∉ setup_rules -> rules (world s') rl <-> rules (world s) rl) /\
       match r with
       | inl _ => (forall rl, rules (world s) rl -> rules (world s') rl) /\
                  (forall rl, rl ∈ setup_rules -> rules (world s') rl \/ refused s rl s')
       | inr _ => forall rl, rl ∈ setup_rules -> deletion_tried s rl s'
       end) s.
Proof.
  unfold SetupRouting, cleanup_on_error. cbn [negb]. wps. apply setup_loop_wp.
  - intros s1 Hl Hev Hup Hdown Hin. cbn [wp_then]. wps.
    apply quiet_run_wp; [apply quiet_addRoutingTableName |]. intros r s2 (_ & Hev2 & Hr2). cbn [wp_then]. wps.
    pose proof (rule_frame SysctlSetup (world s2)) as Hf. rewrite H in Hf. cbn [snd] in Hf. cbn [world].
    split.
    { intros rl Hn. rewrite (Hf rl), (Hr2 rl). split; [|apply Hup]. intros [H'|H']%Hdown; [done | by destruct Hn]. }
    split; [intros rl H'; apply Hf, Hr2; by apply Hup |].
    intros rl (p & -> & Hp)%in_setup_rules. destruct (Hin p Hp) as [H'|(e & Hs & He)].
    + left. by apply Hf, Hr2.
    + right. exists e. split; [|done]. eapply since_grows; [by eapply since_grows |]. by eexists [_].
  - intros e s1 Hg Hup Hdown. cbn [wp_then]. wps. apply CleanupRouting_wp.
    intros r s2 Hev Htr Hsub Hkeep _. cbn [wp_then]. wps. split.
    + intros rl Hn. split; [|intros H'; by apply Hkeep, Hup]. intros [H'|H']%Hsub%Hdown; [done | by destruct Hn].
    + intros rl (p & -> & Hp)%in_setup_rules. destruct (Htr p Hp) as [a Ha]. exists a. by eapply grows_since.
Qed.

(** C26: [CleanupRouting] that reports no error has taken away exactly the four
    rules of the setup (so after it a new [SetupRouting] starts from the rules the
    system had), and even a failing one only ever removes rules, and of these four. *)
Theorem CleanupRouting_removes_rules s :
  wp (CleanupRouting true)
    (fun r s' =>
       (forall rl, rules (world s') rl -> rules (world s) rl) /\
       (forall rl, rl ∉ setup_rules -> rules (world s) rl -> rules (world s') rl) /\
       (r = inl tt -> forall rl, rules (world s') rl <-> rules (world s) rl /\ rl ∉ setup_rules)) s.
Proof. apply CleanupRouting_wp. auto. Qed.

(** ** Theorems: the VPN routes *)

(** What adding and removing a route do to the kernel's routes, when they succeed. *)
Definition route_added (r : NlRoute) (w w' : W) : Prop :=
  ~ routes w r /\ ((forall r', routes w' r' <-> routes w r' \/ r' = r)
                  \/ (forall r', routes w' r' <-> routes w r')).
Definition route_removed (r : NlRoute) (w w' : W) : Prop :=
  forall r', routes w' r' <-> routes w r' /\ r' <> r.

Lemma RouteAdd_wp r s (Q : unit + error -> St -> Prop) :
  (forall s', loc s' = loc s -> route_added r (world s) (world s') -> Q (inl tt) s') ->
  (forall e s', (forall r', routes (world s') r' <-> routes (world s) r') -> Q (inr e) s') ->
  wp (tolerate isOpErr (check (call (RouteAdd r)))) Q s.
Proof.
  intros Hok Herr. apply wp_tolerate. wps. pose proof (route_add _ _ _ _ H) as Hl.
  destruct r0 as [e|].
  - destruct Hl as [Hs Hn]. destruct (isOpErr e) eqn:E; [|by apply Herr].
    apply Hok; [done |]. split; [by apply Hn, isOpErr_unsupported | by right].
  - destruct Hl as [Hn Hs]. apply Hok; [done |]. split; [done | by left].
Qed.

Lemma RouteDel_wp ok r s (Q : unit + error -> St -> Prop) :
  (forall e, ok e = true -> errors_Is e (Errno ESRCH) = true \/ errors_Is e (Errno ENOENT) = true
                           \/ unsupported e) ->
  (forall s', loc s' = loc s -> route_removed r (world s) (world s') -> Q (inl tt) s') ->
  (forall e s', Q (inr e) s') ->
  wp (tolerate ok (check (call (RouteDel r)))) Q s.
Proof.
  intros Htol Hok Herr. apply wp_tolerate. wps. pose proof (route_del _ _ _ _ H) as Hl.
  destruct r0 as [e|]; [|by apply Hok].
  destruct Hl as [Hs Hn]. destruct (ok e) eqn:E; [|by apply Herr].
  apply Hok; [done |]. intros r'. cbn. rewrite Hs. split; [|tauto].
  intros Hr. split; [done |]. intros ->. by apply (Hn (Htol _ E)).
Qed.

(** The route of a prefix through the VPN interface. *)
Definition vpn_route (prefix : Prefix) (intf : option Interface) (n : IPNet) : NlRoute :=
  let r := table_route prefix NetbirdVPNTableID n in
  mkNlRoute (match intf with Some i => if_Index i | None => 0 end) (nr_Scope r) (nr_Dst r)
    (nr_Src r) (nr_Gw r) (nr_Protocol r) (nr_Priority r) (nr_Family r) (nr_Table r) (nr_Type r).

(** The routes [AddVPNRoute] adds, in order. *)
Definition vpn_routes (prefix : Prefix) (intf : option Interface) : list NlRoute :=
  (if bool_decide (prefix = Defaultv4)
   then match ParseCIDR (prefix_String Defaultv6) with
        | inl (_, n) => [unreachable_route Defaultv6 NetbirdVPNTableID n] | inr _ => [] end
   else []) ++
  match ParseCIDR (prefix_String prefix) with
  | inl (_, n) => [vpn_route prefix intf n] | inr _ => [] end.

Lemma addRoute_wp prefix intf s (Q : unit + error -> St -> Prop) :
  (forall n ip s', ParseCIDR (prefix_String prefix) = inl (ip, n) ->
     route_added (vpn_route prefix intf n) (world s) (world s') -> Q (inl tt) s') ->
  (forall e s', Q (inr e) s') ->
  wp (addRoute prefix (mkNexthop AddrZero intf) NetbirdVPNTableID) Q s.
Proof.
  intros Hok Herr. unfold addRoute, parse_dst.
  destruct (ParseCIDR (prefix_String prefix)) as [[ip n]|e] eqn:E; [|wps; apply Herr].
  unfold addNextHop. cbn [nh_IP nh_Intf addr_IsValid]. wps. apply RouteAdd_wp.
  - intros s' _ Hr. eapply Hok; [done |]. exact Hr.
  - intros e s' _. apply Herr.
Qed.

Lemma removeRoute_wp prefix intf s (Q : unit + error -> St -> Prop) :
  (forall n ip s', ParseCIDR (prefix_String prefix) = inl (ip, n) ->
     route_removed (vpn_route prefix intf n) (world s) (world s') -> Q (inl tt) s') ->
  (forall e s', Q (inr e) s') ->
  wp (removeRoute prefix (mkNexthop AddrZero intf) NetbirdVPNTableID) Q s.
Proof.
  intros Hok Herr. unfold removeRoute, parse_dst.
  destruct (ParseCIDR (prefix_String prefix)) as [[ip n]|e] eqn:E; [|wps; apply Herr].
  unfold addNextHop. cbn [nh_IP nh_Intf addr_IsValid]. wps. apply RouteDel_wp.
  - intros e [H|H%isOpErr_unsupported]%orb_true_iff; auto.
  - intros s' _ Hr. eapply Hok; [done |]. exact Hr.
  - intros e s'. apply Herr.
Qed.

Lemma addUnreachableRoute_wp prefix t s (Q : unit + error -> St -> Prop) :
  (forall n ip s', ParseCIDR (prefix_String prefix) = inl (ip, n) ->
     route_added (unreachable_route prefix t n) (world s) (world s') -> Q (inl tt) s') ->
  (forall e s', Q (inr e) s') -> wp (addUnreachableRoute prefix t) Q s.
Proof.
  intros Hok Herr. unfold addUnreachableRoute, parse_dst.
  destruct (ParseCIDR (prefix_String prefix)) as [[ip n]|e] eqn:E; [|wps; apply Herr].
  wps. apply RouteAdd_wp; [intros s' _ Hr; by eapply Hok | intros e s' _; apply Herr].
Qed.

Lemma removeUnreachableRoute_wp prefix t s (Q : unit + error -> St -> Prop) :
  (forall n ip s', ParseCIDR (prefix_String prefix) = inl (ip, n) ->
     route_removed (unreachable_route prefix t n) (world s) (world s') -> Q (inl tt) s') ->
  (forall e s', Q (inr e) s') -> wp (removeUnreachableRoute prefix t) Q s.
Proof.
  intros Hok Herr. unfold removeUnreachableRoute, parse_dst.
  destruct (ParseCIDR (prefix_String prefix)) as [[ip n]|e] eqn:E; [|wps; apply Herr].
  wps. apply RouteDel_wp; [| intros s' _ Hr; by eapply Hok | intros e s'; apply Herr].
  intros e [[H|H]%orb_true_iff|H%isOpErr_unsupported]%orb_true_iff; auto.
Qed.

(** Adding routes one after the other, and removing them. *)
Inductive routes_added : list NlRoute -> W -> W -> Prop :=
  | added_nil w w' : (forall r, routes w' r <-> routes w r) -> routes_added [] w w'
  | added_cons r rs w w1 w' :
      route_added r w w1 -> routes_added rs w1 w' -> routes_added (r :: rs) w w'.

Definition routes_removed (rs : list NlRoute) (w w' : W) : Prop :=
  forall r', routes w' r' <-> routes w r' /\ r' ∉ rs.

Lemma routes_added_without rs w w1 :
  routes_added rs w w1 -> forall r, routes w1 r /\ r ∉ rs <-> routes w r.
Proof.
  induction 1 as [w w' Hs|r rs w wa w' [Hn Hr] _ IH]; intros r'.
  - rewrite Hs. split; [tauto | intros H; split; [done | apply not_elem_of_nil]].
  - rewrite not_elem_of_cons. specialize (IH r').
    assert (Hw : routes wa r' /\ r' <> r <-> routes w r').
    { destruct Hr as [Hr|Hr]; rewrite Hr; split; try tauto; intros H; (split; [tauto |]); by intros ->. }
    tauto.
Qed.

Lemma wg_network_frame w p w' : handle WgNetwork w = (p, w') -> forall r, routes w' r <-> routes w r.
Proof. intros H. pose proof (route_frame WgNetwork w) as Hf. by rewrite H in Hf. Qed.

Lemma routes_added_frame rs w0 w w' :
  (forall r, routes w r <-> routes w0 r) -> routes_added rs w w' -> routes_added rs w0 w'.
Proof.
  intros H0 Ha. destruct Ha as [w w' Hs|r rs w wa w' [Hn Hr] Ha].
  - constructor. intros r. by rewrite Hs.
  - econstructor; [|done]. split; [by rewrite <- H0 |].
    destruct Hr as [Hr|Hr]; [left | right]; intros r'; by rewrite Hr, H0.
Qed.

Lemma AddVPNRoute_adds prefix intf s s' :
  AdvancedRouting = true -> AddVPNRoute prefix intf s = (Ok tt, s') ->
  routes_added (vpn_routes prefix intf) (world s) (world s').
Proof.
  intros Hadv Hrun. apply (wp_run _ (fun r s' => r = inl tt ->
    routes_added (vpn_routes prefix intf) (world s) (world s')) _ _ _ Hrun); [|done].
  unfold AddVPNRoute, validateRoute. rewrite Hadv. cbn [negb]. wps.
  pose proof (wg_network_frame _ _ _ H) as Hf. destruct (route_allowed r prefix); wps; [..|done]; unfold vpn_routes; rewrite H0.
  - apply addUnreachableRoute_wp; [|done]. intros n ip s1 En Hu. rewrite En. cbn [world] in Hu.
    cbn [wp_then]. wps. apply addRoute_wp; [|done]. intros n' ip' s2 En' Hr _. rewrite En'.
    eapply routes_added_frame; [exact Hf |].
    repeat (econstructor; [done |]). by constructor.
  - cbn [wp_then app]. wps. apply addRoute_wp; [|done]. intros n' ip' s2 En' Hr _. rewrite En'.
    eapply routes_added_frame; [exact Hf |]. econstructor; [done |]. by constructor.
Qed.

Lemma RemoveVPNRoute_removes prefix intf s s' :
  AdvancedRouting = true -> RemoveVPNRoute prefix intf s = (Ok tt, s') ->
  routes_removed (vpn_routes prefix intf) (world s) (world s').
Proof.
  intros Hadv Hrun. apply (wp_run _ (fun r s' => r = inl tt ->
    routes_removed (vpn_routes prefix intf) (world s) (world s')) _ _ _ Hrun); [|done].
  unfold RemoveVPNRoute, validateRoute. rewrite Hadv. cbn [negb]. wps.
  pose proof (wg_network_frame _ _ _ H) as Hf. destruct (route_allowed r prefix); wps; [..|done]; unfold vpn_routes; rewrite H0.
  - apply removeUnreachableRoute_wp; [|done]. intros n ip s1 En Hu. rewrite En. cbn [world] in Hu.
    cbn [wp_then]. wps. apply removeRoute_wp; [|done]. intros n' ip' s2 En' Hr _. rewrite En'.
    intros r'. rewrite (Hr r'), (Hu r'), (Hf r'). cbn [app]. rewrite !not_elem_of_cons.
    pose proof (not_elem_of_nil (A := NlRoute) r'). tauto.
  - cbn [wp_then app]. wps. apply removeRoute_wp; [|done]. intros n' ip' s2 En' Hr _.
    rewrite En'. intros r'. rewrite (Hr r'), (Hf r'), not_elem_of_cons.
    pose proof (not_elem_of_nil (A := NlRoute) r'). tauto.
Qed.

(** C27: [RemoveVPNRoute] undoes [AddVPNRoute]: with advanced routing, when both
    succeed for a prefix (the removal from any later state with the routes the
    addition left), the kernel has exactly the routes it had before, the
    unreachable IPv6 default route that goes with the IPv4 default included. *)
Theorem AddVPNRoute_RemoveVPNRoute prefix intf s s1 s1' s2 :
  AdvancedRouting = true ->
  AddVPNRoute prefix intf s = (Ok tt, s1) ->
  (forall r, routes (world s1') r <-> routes (world s1) r) ->
  RemoveVPNRoute prefix intf s1' = (Ok tt, s2) ->
  forall r, routes (world s2) r <-> routes (world s) r.
Proof.
  intros Hadv Ha Hsame Hd r. rewrite (RemoveVPNRoute_removes _ _ _ _ Hadv Hd r), Hsame.
  by apply routes_added_without, AddVPNRoute_adds.
Qed.
End kernel.

(** ** A kernel to run *)
Module SampleKernel.

Record Kernel := mkKernel { k_rules : list NlRule; k_routes : list NlRoute }.

#[export] Instance newrule : NetlinkLib :=
  {| NewRule := mkNlRule (-1) 0 0 0 None 0 (-1) None None (-1) EmptyString EmptyString (-1) (-1) false 0 |}.

#[export] Instance handler : Handler sysC Kernel := fun R c k =>
  match c in sysC R return R * Kernel with
  | WgNetwork => (mkPrefix (Addr4 (100 * 2 ^ 24 + 64 * 2 ^ 16)) 10, k)
  | RouteAdd r => if decide (r ∈ k_routes k) then (Some (Errno EEXIST), k)
                  else (None, mkKernel (k_rules k) (r :: k_routes k))
  | RouteDel r => if decide (r ∈ k_routes k)
                  then (None, mkKernel (k_rules k) (filter (fun r' => r' <> r) (k_routes k)))
                  else (Some (Errno ESRCH), k)
  | RouteListFiltered _ t => (inl (filter (fun r => nr_Table r = t) (k_routes k)), k)
  | RuleAdd r => if decide (r ∈ k_rules k) then (Some (Errno EEXIST), k)
                 else (None, mkKernel (r :: k_rules k) (k_routes k))
  | RuleDel r => if decide (r ∈ k_rules k)
                 then (None, mkKernel (filter (fun r' => r' <> r) (k_rules k)) (k_routes k))
                 else (Some (Errno ENOENT), k)
  | RuleList f => (inl (filter (fun r => nl_Family r = f) (k_rules k)), k)
  | LinkByName _ => (inr (New "Link not found"), k)
  | LinkByIndex _ => (inr (New "Link not found"), k)
  | SysctlSetup => ((∅, None), k)
  | SysctlCleanup _ | SysctlSet _ _ _ | OpenFile _ | OpenAppend _ | SeekStart | WriteString _
  | CloseFile | SetupRefCounter _ | CleanupRefCounter | GenericAddVPNRoute _ _
  | GenericRemoveVPNRoute _ _ => (None, k)
  | ScanLines => (([], None), k)
  end.

#[export] Instance kernel : RoutingKernel Kernel.
Proof.
  refine {| rules k r := r ∈ k_rules k; routes k r := r ∈ k_routes k |}.
  - intros r w e w' H. cbn in H. destruct (decide _) as [Hr|Hr]; injection H as <- <-.
    + split; [done | done].
    + intros r'. cbn. rewrite elem_of_cons. tauto.
  - intros r w e w' H. cbn in H. destruct (decide _) as [Hr|Hr]; injection H as <- <-.
    + intros r'. cbn. rewrite list_elem_of_filter. tauto.
    + done.
  - intros R c w. destruct c; try done; cbn; intros r0; by repeat case_match.
  - intros r w e w' H. cbn in H. destruct (decide _) as [Hr|Hr]; injection H as <- <-.
    + split; [done |]. by intros [|].
    + split; [done |]. intros r'. cbn. rewrite elem_of_cons. tauto.
  - intros r w e w' H. cbn in H. destruct (decide _) as [Hr|Hr]; injection H as <- <-.
    + intros r'. cbn. rewrite list_elem_of_filter. tauto.
    + done.
  - intros R c w. destruct c; try done; cbn; intros r0; by repeat case_match.
Defined.

#[export] Instance net : NbNet := {| AdvancedRouting := true; ControlPlaneMark := 112640 |}.

Definition start : state sysC SysOps Kernel := mkState (mkSysOps None false) (mkKernel [] []) [].

End SampleKernel.

Import SampleRoutes SampleKernel.

Lemma AddVPNRoute_RemoveVPNRoute_witness :
  let intf := Some (mkInterface 7 "wt0") in
  let s1 := (AddVPNRoute Defaultv4 intf start).2 in
  let s2 := (RemoveVPNRoute Defaultv4 intf s1).2 in
  length (k_routes (world s1)) = 2%nat /\
  forall r, routes (world s2) r <-> routes (world start) r.
Proof.
  intros intf s1 s2. split; [by vm_compute |].
  apply (AddVPNRoute_RemoveVPNRoute Defaultv4 intf start s1 s1 s2); [done | by vm_compute | done | by vm_compute].
Defined.

(** ** Theorems: names and prefixes *)

Definition mask_size_ok (n : Z) : bool := bool_decide (mask_Size (CIDRMask n 32) = (n, 32)).

Lemma mask_Size_CIDRMask n : 0 <= n <= 32 -> mask_Size (CIDRMask n 32) = (n, 32).
Proof.
  intros Hn. assert (H : forallb mask_size_ok (map Z.of_nat (seq 0 33)) = true) by by vm_compute.
  rewrite forallb_forall in H. specialize (H n). unfold mask_size_ok in H.
  rewrite bool_decide_eq_true in H. apply H, in_map_iff. exists (Z.to_nat n).
  split; [lia | apply in_seq; lia].
Qed.

(** A prefix handed to WireGuard or netlink as a [net.IPNet] reads back as
    the same prefix, for every IPv4 address and length (the conversions of
    [prefixesToIPNets] and of [getRoutes], [parseRulePrefix] are inverse). *)
Theorem ipnet_prefix_prefix_IPNet n bits :
  0 <= n < 2 ^ 32 -> 0 <= bits <= 32 ->
  let p := mkPrefix (Addr4 n) bits in
  ipnet_prefix (prefix_IPNet p) = Some p /\ parseRulePrefix (prefix_IPNet p) = p.
Proof.
  intros Hn Hb p. assert (E : ipnet_prefix (prefix_IPNet p) = Some p).
  { unfold ipnet_prefix, prefix_IPNet, p. cbn [ipnet_IP ipnet_Mask prefix_ip prefix_Bits addr_AsSlice addr_BitLen].
    rewrite AddrFromSlice_AsSlice4, mask_Size_CIDRMask by done. cbn [addr_Unmap fst].
    unfold PrefixFrom. cbn [addr_IsValid addr_BitLen addr_withoutZone].
    destruct (0 <=? bits) eqn:E1; [|lia]. destruct (bits <=? 32) eqn:E2; [|lia]. cbn [andb].
    unfold prefix_IsValid. cbn [prefix_Bits]. by rewrite E1. }
  split; [done |]. unfold parseRulePrefix. by rewrite E.
Qed.

Lemma ipnet_prefix_prefix_IPNet_witness :
  let p := mkPrefix (Addr4 3232235776) 24 in
  ipnet_prefix (prefix_IPNet p) = Some p /\ parseRulePrefix (prefix_IPNet p) = p.
Proof. apply (ipnet_prefix_prefix_IPNet 3232235776 24); lia. Defined.

Lemma find_entry_app id l1 l2 :
  find_entry id l1 = None -> find_entry id (l1 ++ l2) = find_entry id l2.
Proof.
  induction l1 as [|l l1 IH]; cbn [find_entry app]; [done |].
  destruct (scan_entry l) as [[i name]|]; [|exact IH]. destruct (i =? id); [|exact IH].
  by destruct (negb _).
Qed.

(** The entry [addRoutingTableName] appends to the table file is found the
    next time: a file that names no table with the client's number gains exactly
    one entry, and the check then answers that it exists, without an error. *)
Theorem rt_tables_entry_found lines :
  find_entry NetbirdVPNTableID lines = None ->
  find_entry NetbirdVPNTableID (lines ++ Split newline netbird_entry) = Some (true, None).
Proof. intros H. rewrite find_entry_app by done. by vm_compute. Qed.

Lemma rt_tables_entry_found_witness :
  let lines := ["#"; "255	local"; "254	main"; "253	default"; "0	unspec"; "1	inr.ruhep"] in
  find_entry NetbirdVPNTableID (lines ++ Split newline netbird_entry) = Some (true, None).
Proof. intros lines. apply (rt_tables_entry_found lines). by vm_compute. Defined.
