(* ===== verification/WgIface.v ===== *)
(** * The WireGuard interface: [go/iface] and [go/iface/wgaddr]

    [WGIface] (iface.go, iface_create.go, iface_destroy_linux.go,
    iface_new_linux.go) is a front of a tunnel device ([WGTunDevice], an interface
    whose methods are calls here), a configurer (file [Configurer], through its
    interface [cfgC]) and a proxy factory. The methods that take the interface's
    mutex run under it from start to end, so each is one step. *)

From Stdlib Require Import ZArith Lia Ascii.
From stdpp Require Import base tactics list strings gmap.
From S2P Require Import Prelude GoStrings Netip Uapi Configurer Routes.

(** ** wgaddr/address.go *)

Record Address := mkAddress { wa_IP : Addr; wa_Network : Prefix }.

#[export] Instance Address_eq_dec : EqDecision Address.
Proof. solve_decision. Defined.

Definition ParseWGAddress (address : string) : Address + error :=
  match ParsePrefix address with
  | inr err => inr err
  | inl prefix => inl (mkAddress (addr_Unmap (prefix_ip prefix)) (prefix_Masked prefix))
  end.

Definition Address_String (addr : Address) : string :=
  addr_String (wa_IP addr) +:+ "/" +:+ itoa (prefix_Bits (wa_Network addr)).

(** ** iface.go *)

Definition DefaultMTU : Z := 1280.
Definition MinMTU : Z := 576.
Definition MaxMTU : Z := 8192.
Definition DefaultWgPort : Z := 51820.
Definition ErrIfaceNotFound : error := Sentinel "ErrIfaceNotFound".

(** The argument is a uint16. *)
Definition ValidateMTU (mtu : Z) : option error :=
  if mtu <? MinMTU then Some (New "MTU below minimum")
  else if MaxMTU <? mtu then Some (New "MTU exceeds maximum supported size")
  else None.

Record MobileIFaceArguments := mkMobileArgs { TunAdapter : option ref; TunFd : Z }.

(** The filters of the ICE mux that the program passes: the engine's [addrViaRoutes]. *)
Inductive FilterFn := FilterAddrViaRoutes.

Record WGIFaceOpts := mkWGIFaceOpts {
  o_IFaceName : string; o_Address : string; o_WGPort : Z; o_WGPrivKey : string; o_MTU : Z;
  o_MobileArgs : option MobileIFaceArguments; o_TransportNet : option ref; o_FilterFn : option FilterFn;
  o_DisableDNS : bool
}.

(** What finding an interface by name answers: it, or an error that is a
    [net.OpError] or not. *)
Inductive IfaceLookup := IfaceFound | IfaceNil | IfaceOpError | IfaceOtherError.

#[export] Instance IfaceLookup_eq_dec : EqDecision IfaceLookup.
Proof. solve_decision. Defined.

(** The calls: the tunnel device's methods, the configurer's, the constructors
    of both, the proxy factory, netlink, the clock. *)
Inductive ifC : Set -> Type :=
  | NetstackIsEnabled : ifC bool
  | WireGuardModuleIsLoaded : ifC bool
  | ModuleTunIsLoaded : ifC bool
  | NetstackListenAddr : ifC string
  | NewICEBind (net : option ref) (filter : option FilterFn) (addr : Address) (mtu : Z) : ifC ref
  | NewNetstackDevice (name : string) (addr : Address) (port : Z) (key : string) (mtu : Z) (bind : ref)
      (listenAddress : string) : ifC ref
  | NewKernelDevice (name : string) (addr : Address) (port : Z) (key : string) (mtu : Z) (net : option ref) : ifC ref
  | NewUSPDevice (name : string) (addr : Address) (port : Z) (key : string) (mtu : Z) (bind : ref) : ifC ref
  | NewUSPFactory (bind : ref) (mtu : Z) : ifC ref
  | NewKernelFactory (port mtu : Z) : ifC ref
  | TunCreate (t : ref) : ifC (ref + error)
  | TunUp (t : ref) : ifC (ref + error)
  | TunUpdateAddr (t : ref) (addr : Address) : ifC (option error)
  | TunWgAddress (t : ref) : ifC Address
  | TunMTU (t : ref) : ifC Z
  | TunDeviceName (t : ref) : ifC string
  | TunClose (t : ref) : ifC (option error)
  | TunFilteredDevice (t : ref) : ifC (option ref)
  | TunDevice (t : ref) : ifC (option ref)
  | TunGetNet (t : ref) : ifC (option ref)
  | TunGetICEBind (t : ref) : ifC (option ref)
  | DeviceSetFilter (dev filter : ref) : ifC unit
  | Cfg {R : Set} (configurer : ref) (c : cfgC R) : ifC R
  | GetProxy (factory : ref) : ifC ref
  | FactoryFree (factory : ref) : ifC (option error)
  | InterfaceByName (name : string) : ifC IfaceLookup
  | LinkByName (name : string) : ifC (ref + error)
  | LinkDel (link : ref) : ifC (option error)
  | NewTimer (d : Z) : ifC Z
  | TimerFired (deadline : Z) : ifC bool
  | Sleep (d : Z) : ifC unit.

Record WGIface := mkWGIface {
  tun : option ref; userspaceBind : bool; configurer : option ref; filter_ : option ref;
  wgProxyFactory : option ref
}.
Definition wgIface0 : WGIface := mkWGIface None false None None None.
Definition set_configurer (c : option ref) (w : WGIface) : WGIface :=
  mkWGIface (tun w) (userspaceBind w) c (filter_ w) (wgProxyFactory w).
Definition set_filter_ (f : option ref) (w : WGIface) : WGIface :=
  mkWGIface (tun w) (userspaceBind w) (configurer w) f (wgProxyFactory w).

Section iface.
Context {me : MultiError} {W : Type} `{!Handler ifC W}.

Definition I := M ifC WGIface W.

Definition with_tun {A} (k : ref -> I A) : I A := let* w := get in deref "tun" (tun w) k.

(** [NewWGIFace] returns a new object. *)
Definition NewWGIFace (opts : WGIFaceOpts) : M ifC unit W WGIface :=
  match ParseWGAddress (o_Address opts) with
  | inr err => fail err
  | inl wgAddress =>
      let* enabled := call NetstackIsEnabled in
      if (enabled : bool) then
        let* iceBind := call (NewICEBind (o_TransportNet opts) (o_FilterFn opts) wgAddress (o_MTU opts)) in
        let* listenAddr := call NetstackListenAddr in
        let* t := call (NewNetstackDevice (o_IFaceName opts) wgAddress (o_WGPort opts) (o_WGPrivKey opts) (o_MTU opts) iceBind
                          listenAddr) in
        let* f := call (NewUSPFactory iceBind (o_MTU opts)) in
        ret (mkWGIface (Some t) true None None (Some f))
      else
      let* kernel := call WireGuardModuleIsLoaded in
      if (kernel : bool) then
        let* t := call (NewKernelDevice (o_IFaceName opts) wgAddress (o_WGPort opts) (o_WGPrivKey opts) (o_MTU opts) (o_TransportNet opts)) in
        let* f := call (NewKernelFactory (o_WGPort opts) (o_MTU opts)) in
        ret (mkWGIface (Some t) false None None (Some f))
      else
      let* module := call ModuleTunIsLoaded in
      if (module : bool) then
        let* iceBind := call (NewICEBind (o_TransportNet opts) (o_FilterFn opts) wgAddress (o_MTU opts)) in
        let* t := call (NewUSPDevice (o_IFaceName opts) wgAddress (o_WGPort opts) (o_WGPrivKey opts) (o_MTU opts) iceBind) in
        let* f := call (NewUSPFactory iceBind (o_MTU opts)) in
        ret (mkWGIface (Some t) true None None (Some f))
      else fail (New "couldn't check or load tun module")
  end.

Definition iface_GetProxy : I ref :=
  let* w := get in deref "wgProxyFactory" (wgProxyFactory w) (fun f => call (GetProxy f)).

Definition GetBind : I (option ref) :=
  let* w := get in
  match tun w with None => ret None | Some t => call (TunGetICEBind t) end.

Definition IsUserspaceBind : I bool := let* w := get in ret (userspaceBind w).
Definition Name : I string := with_tun (fun t => call (TunDeviceName t)).
Definition iface_Address : I Address := with_tun (fun t => call (TunWgAddress t)).
Definition MTU : I Z := with_tun (fun t => call (TunMTU t)).

(** The found interface, or one with only its name. *)
Definition ToInterface : I (string * bool) :=
  let* name := Name in
  let* r := call (InterfaceByName name) in
  ret (name, bool_decide (r = IfaceFound)).

Definition Up : I ref := with_tun (fun t => check_val (call (TunUp t))).

Definition UpdateAddr (newAddr : string) : I unit :=
  match ParseWGAddress newAddr with
  | inr err => fail err
  | inl addr => with_tun (fun t => check (call (TunUpdateAddr t addr)))
  end.

(** Each configurer operation refuses while there is no configurer; those that
    log the device's name read it first. *)
Definition with_configurer {A} (log_name : bool) (k : ref -> I A) : I A :=
  let* w := get in
  match configurer w with
  | None => fail ErrIfaceNotFound
  | Some c => (if log_name then let* _ := Name in ret tt else ret tt) ;;; k c
  end.

Definition iface_UpdatePeer (peerKey : string) (allowedIps : list Prefix) (keepAlive : Z)
    (endpoint : option UDPAddr) (preSharedKey : option Key) : I unit :=
  with_configurer true (fun c =>
    check (call (Cfg c (UpdatePeer peerKey allowedIps keepAlive endpoint preSharedKey)))).
Definition iface_RemoveEndpointAddress (peerKey : string) : I unit :=
  with_configurer false (fun c => check (call (Cfg c (RemoveEndpointAddress peerKey)))).
Definition iface_RemovePeer (peerKey : string) : I unit :=
  with_configurer true (fun c => check (call (Cfg c (RemovePeer peerKey)))).
Definition iface_AddAllowedIP (peerKey : string) (allowedIP : Prefix) : I unit :=
  with_configurer true (fun c => check (call (Cfg c (AddAllowedIP peerKey allowedIP)))).
Definition iface_RemoveAllowedIP (peerKey : string) (allowedIP : Prefix) : I unit :=
  with_configurer true (fun c => check (call (Cfg c (RemoveAllowedIP peerKey allowedIP)))).
Definition iface_GetStats : I (gmap string WGStats) :=
  with_configurer false (fun c => check_val (call (Cfg c GetStats))).
Definition iface_FullStats : I Stats :=
  with_configurer false (fun c => check_val (call (Cfg c FullStats))).
Definition iface_LastActivities : I (option (gmap string Z)) :=
  let* w := get in
  match configurer w with
  | None => ret None
  | Some c => let* m := call (Cfg c LastActivities) in ret (Some m)
  end.

(** iface_destroy_linux.go *)
Definition Destroy : I unit :=
  let* name := Name in
  let* link := wrap (Wrap "failed to get link by name") (check_val (call (LinkByName name))) in
  wrap (Wrap "failed to delete link") (check (call (LinkDel link))).

Definition maxWaitTime : Z := 5 * second.
Definition pollInterval : Z := 100000000.

(** One turn of the wait: [Some true] when the interface is gone. *)
Definition poll (deadline : Z) : I (option bool) :=
  let* name := Name in
  let* r := call (InterfaceByName name) in
  match r with
  | IfaceOpError | IfaceNil => Name ;;; ret (Some true)
  | IfaceOtherError | IfaceFound =>
      (match r with IfaceOtherError => Name ;;; ret tt | _ => ret tt end) ;;;
      let* fired := call (TimerFired deadline) in
      match fired with
      | true => Name ;;; ret (Some false)
      | false => call (Sleep pollInterval) ;;; ret None
      end
  end.

(** [fuel] bounds the number of turns; running out of it is a panic, which the
    theorem below rules out for the fuel used. *)
Fixpoint wait_loop (fuel : nat) (deadline : Z) : I unit :=
  match fuel with
  | O => panic "out of fuel"
  | S fuel' =>
      let* r := poll deadline in
      match r with
      | Some true => ret tt
      | Some false => fail (New "timeout when waiting for interface to be removed")
      | None => wait_loop fuel' deadline
      end
  end.

Definition wait_fuel : nat := 51.

Definition waitUntilRemoved : I unit :=
  let* deadline := call (NewTimer maxWaitTime) in
  wait_loop wait_fuel deadline.

Definition fail_multi (errs : list error) : I unit :=
  match FormatErrorOrNil errs with Some e => fail e | None => ret tt end.

(** The end of [Close]: wait for the interface to go, or delete it. *)
Definition close_wait (result : list error) : I unit :=
  let* r := try waitUntilRemoved in
  match r with
  | inl _ => fail_multi result
  | inr _ =>
      Name ;;;
      let* d := try Destroy in
      match d with
      | inr e => Name ;;; fail_multi (result ++ [Wrap "failed to remove WireGuard interface" e])
      | inl _ => Name ;;; fail_multi result
      end
  end.

(** Its first two steps collect errors. *)
Definition close_proxy : I (list error) :=
  let* w := get in
  let* r := try (deref "wgProxyFactory" (wgProxyFactory w) (fun f => check (call (FactoryFree f)))) in
  ret (match r with inr e => [Wrap "failed to free WireGuard proxy" e] | inl _ => [] end).
Definition close_tun (result : list error) : I (list error) :=
  let* r := try (with_tun (fun t => check (call (TunClose t)))) in
  match r with
  | inr e => Name ;;; ret (result ++ [Wrap "failed to close wireguard interface" e])
  | inl _ => ret result
  end.

Definition Close : I unit :=
  let* result := close_proxy in
  let* result' := close_tun result in
  close_wait result'.

Definition SetFilter (filter : ref) : I unit :=
  with_tun (fun t =>
    let* dev := call (TunFilteredDevice t) in
    match dev with
    | None => fail (New "userspace packet filtering not handled on this device")
    | Some _ =>
        modify (set_filter_ (Some filter)) ;;;
        let* dev' := call (TunFilteredDevice t) in
        deref "FilteredDevice" dev' (fun d => call (DeviceSetFilter d filter))
    end).

Definition GetFilter : I (option ref) := let* w := get in ret (filter_ w).
Definition GetDevice : I (option ref) := with_tun (fun t => call (TunFilteredDevice t)).
Definition GetWGDevice : I (option ref) := with_tun (fun t => call (TunDevice t)).
Definition GetNet : I (option ref) := with_tun (fun t => call (TunGetNet t)).

(** iface_create.go *)
Definition Create : I unit :=
  with_tun (fun t =>
    let* cfgr := check_val (call (TunCreate t)) in
    modify (set_configurer (Some cfgr))).

Definition CreateOnAndroid : I unit := fail (New "this function has not implemented on non mobile").
Definition RenewTun (fd : Z) : I unit := fail (New "this function has not been implemented on non-android").

End iface.

(** ** Close ends, and ends with the interface gone *)

(** The clock: a timer's deadline lies its duration after now, it has fired from
    then on, and a sleep lasts at least as long as asked. *)
Class IfaceClock (W : Type) `{!Handler ifC W} := {
  now : W -> Z;
  now_mono : forall R (c : ifC R) w, now w <= now (handle c w).2;
  NewTimer_now : forall d w, (handle (NewTimer d) w).1 = now w + d;
  TimerFired_now : forall t w, (handle (TimerFired t) w).1 = (t <=? now w);
  Sleep_now : forall d w, now w + d <= now (handle (Sleep d) w).2
}.

Section close.
Context {me : MultiError} {W : Type} `{!Handler ifC W, !IfaceClock W}.
Notation St := (state ifC WGIface W).

(** The interface was seen to be gone, or its link deleted. *)
Definition gone (evs : list (event ifC)) : Prop :=
  (exists name, Event (InterfaceByName name) IfaceOpError ∈ evs) \/
  (exists name, Event (InterfaceByName name) IfaceNil ∈ evs) \/
  (exists link, Event (LinkDel link) None ∈ evs).

(** What a part of [Close] leaves: the object, and a clock and a log that only grow. *)
Definition later (s s' : St) : Prop :=
  loc s' = loc s /\ now (world s) <= now (world s') /\ exists evs, calls s' = evs ++ calls s.

Lemma later_refl s : later s s.
Proof. split; [done |]. split; [lia | by exists []]. Qed.
Lemma later_trans s1 s2 s3 : later s1 s2 -> later s2 s3 -> later s1 s3.
Proof.
  intros (H1 & N1 & e1 & E1) (H2 & N2 & e2 & E2). split; [by rewrite H2 |]. split; [lia |].
  exists (e2 ++ e1). by rewrite E2, E1, (assoc_L (++)).
Qed.
Lemma later_saw s s' ev : later s s' -> ev ∈ calls s -> ev ∈ calls s'.
Proof. intros (_ & _ & evs & ->) H. apply elem_of_app. by right. Qed.

Lemma later_call {R} (c : ifC R) s r w :
  handle c (world s) = (r, w) -> later s (mkState (loc s) w (Event c r :: calls s)).
Proof.
  intros H. split; [done |]. split; [|by exists [Event c r]].
  pose proof (now_mono R c (world s)) as Hn. by rewrite H in Hn.
Qed.

Lemma Name_wp s t (Q : string + error -> St -> Prop) :
  tun (loc s) = Some t -> (forall n s', later s s' -> Q (inl n) s') -> wp Name Q s.
Proof.
  intros Ht HQ. unfold Name, with_tun, deref. wps. rewrite Ht. wps. by apply HQ, later_call.
Qed.

Lemma poll_wp d s t (Q : option bool + error -> St -> Prop) :
  tun (loc s) = Some t ->
  (forall r s', later s s' ->
     match r with
     | Some true => gone (calls s')
     | Some false => True
     | None => now (world s) < d /\ now (world s) + pollInterval <= now (world s')
     end -> Q (inl r) s') ->
  wp (poll d) Q s.
Proof.
  intros Ht HQ. unfold poll. wps. apply (Name_wp _ t); [done |]. intros n s1 L1. cbn [wp_then]. wps.
  set (s2 := mkState _ _ _). assert (L2 : later s s2) by (eapply later_trans; [exact L1 | by apply later_call]).
  assert (Ht2 : tun (loc s2) = Some t) by (by rewrite (proj1 L2)).
  assert (Hgone : (r = IfaceOpError \/ r = IfaceNil) -> wp (Name ;;; ret (Some true)) Q s2).
  { intros Hr. wps. apply (Name_wp _ t); [done |]. intros n2 s3 L3. cbn [wp_then]. wps. apply HQ.
    - by eapply later_trans.
    - assert (Hev : Event (InterfaceByName n) r ∈ calls s3) by (eapply later_saw; [exact L3 | left]).
      destruct Hr as [->| ->]; [left; by exists n | right; left; by exists n]. }
  assert (Hrest : forall s3, later s s3 ->
    wp (let* fired := call (TimerFired d) in
        match fired with true => Name ;;; ret (Some false) | false => call (Sleep pollInterval) ;;; ret None end) Q s3).
  { intros s3 L3. wps. pose proof (TimerFired_now d (world s3)) as Hf. rewrite H0 in Hf. cbn in Hf.
    assert (L4 := later_trans _ _ _ L3 (later_call _ _ _ _ H0)). destruct r0.
    - wps. apply (Name_wp _ t); [by rewrite (proj1 L4) |]. intros n3 s5 L5. cbn [wp_then]. wps. apply HQ; [|done].
      by eapply later_trans.
    - wps. cbn [world] in H1. apply HQ; [exact (later_trans _ _ _ L4 (later_call (Sleep pollInterval) (mkState (loc s3) w0 _) r0 w1 H1)) |].
      pose proof (Sleep_now pollInterval w0) as Hs. rewrite H1 in Hs. cbn in Hs |- *.
      destruct L3 as (_ & N3 & _). destruct L4 as (_ & N4 & _). cbn in N4. symmetry in Hf. apply Z.leb_gt in Hf. lia. }
  destruct r; [| apply Hgone; by right | apply Hgone; by left |]; apply wp_bind.
  - by apply wp_ret, Hrest.
  - apply wp_bind, (Name_wp _ t); [done |]. intros n2 s3 L3. cbn [wp_then].
    apply wp_ret, Hrest. by eapply later_trans.
Qed.

Lemma wait_loop_wp fuel d s t (Q : unit + error -> St -> Prop) :
  tun (loc s) = Some t ->
  d - now (world s) <= pollInterval * Z.of_nat fuel ->
  (forall r s', later s s' -> (r = inl tt -> gone (calls s')) -> Q r s') ->
  wp (wait_loop (S fuel) d) Q s.
Proof.
  revert s. induction fuel as [|fuel IH]; intros s Ht Hd HQ; cbn [wait_loop];
    wps; (apply (poll_wp _ _ t); [done |]); intros [[]|] s1 L1 H1; cbn [wp_then].
  1, 4: wps; apply HQ; [exact L1 | by intros _].
  1, 3: wps; apply HQ; [exact L1 | done].
  - unfold pollInterval in *. lia.
  - apply IH; [by rewrite (proj1 L1) | unfold pollInterval in *; lia |].
    intros r s2 L2 H2. apply HQ; [by eapply later_trans | done].
Qed.

Lemma waitUntilRemoved_wp s t (Q : unit + error -> St -> Prop) :
  tun (loc s) = Some t ->
  (forall r s', later s s' -> (r = inl tt -> gone (calls s')) -> Q r s') ->
  wp waitUntilRemoved Q s.
Proof.
  intros Ht HQ. unfold waitUntilRemoved. wps. apply (wait_loop_wp 50 _ _ t); [done | |].
  - pose proof (NewTimer_now maxWaitTime (world s)) as Hn. rewrite H in Hn. cbn in Hn.
    pose proof (now_mono _ (NewTimer maxWaitTime) (world s)) as Hm. rewrite H in Hm. cbn in Hm |- *.
    unfold maxWaitTime, pollInterval, second in *. lia.
  - intros r' s' L Hg. apply HQ; [|done]. eapply later_trans; [|exact L]. by apply later_call.
Qed.

Lemma Destroy_wp s t (Q : unit + error -> St -> Prop) :
  tun (loc s) = Some t ->
  (forall r s', later s s' -> (r = inl tt -> gone (calls s')) -> Q r s') ->
  wp Destroy Q s.
Proof.
  intros Ht HQ. unfold Destroy. wps. apply (Name_wp _ t); [done |]. intros n s1 L1. cbn [wp_then]. wps.
  set (s2 := mkState _ _ _). assert (L2 : later s s2) by (eapply later_trans; [exact L1 | by apply later_call]).
  destruct r as [link|e]; cbn [wp_then]; [| by apply HQ]. wps.
  assert (L3 := later_trans _ _ _ L2 (later_call _ _ _ _ H0)).
  destruct r as [e|]; apply HQ; try done. intros _. right. right. exists link. left.
Qed.

Lemma fail_multi_wp errs s (Q : unit + error -> St -> Prop) :
  (forall r, (r = inl tt <-> errs = []) -> Q r s) -> wp (fail_multi errs) Q s.
Proof.
  intros HQ. unfold fail_multi. pose proof (FormatErrorOrNil_nil errs) as H.
  destruct (FormatErrorOrNil errs) as [e|]; wps; apply HQ.
  - split; [done |]. intros E. by apply H in E.
  - split; [| done]. intros _. by apply H.
Qed.

Lemma close_wait_wp errs s t (Q : unit + error -> St -> Prop) :
  tun (loc s) = Some t ->
  (forall r s', later s s' -> (r = inl tt -> errs = [] /\ gone (calls s')) -> Q r s') ->
  wp (close_wait errs) Q s.
Proof.
  intros Ht HQ. unfold close_wait. wps. apply (waitUntilRemoved_wp _ t); [done |].
  intros r s1 L1 H1. cbn [wp_then]. assert (Ht1 : tun (loc s1) = Some t) by (by rewrite (proj1 L1)).
  destruct r as [[]|e].
  - apply fail_multi_wp. intros r Hr. apply HQ; [done |]. intros E. split; [by apply Hr | by apply H1].
  - wps. apply (Name_wp _ t); [done |]. intros n s2 L2. cbn [wp_then]. wps.
    apply (Destroy_wp _ t); [by rewrite (proj1 L2) |]. intros r s3 L3 H3. cbn [wp_then].
    assert (Ht3 : tun (loc s3) = Some t) by (by rewrite (proj1 L3), (proj1 L2)).
    destruct r as [[]|e']; wps; (apply (Name_wp _ t); [done |]); intros n' s4 L4; cbn [wp_then];
      apply fail_multi_wp; intros r Hr; (apply HQ; [exact (later_trans _ _ _ L1 (later_trans _ _ _ L2 (later_trans _ _ _ L3 L4))) |]).
    + intros E. split; [by apply Hr |]. destruct L4 as (_ & _ & evs & ->). specialize (H3 eq_refl).
      unfold gone in *. setoid_rewrite elem_of_app. naive_solver.
    + intros E. apply Hr in E. by destruct errs.
Qed.

Lemma close_proxy_wp s f (Q : list error + error -> St -> Prop) :
  wgProxyFactory (loc s) = Some f ->
  (forall errs e s', later s s' -> saw (Event (FactoryFree f) e) s' -> (errs = [] -> e = None) ->
     Q (inl errs) s') ->
  wp close_proxy Q s.
Proof.
  intros Hf HQ. unfold close_proxy, deref. wps. rewrite Hf. wps.
  destruct r as [e|]; wps; (eapply HQ; [by apply later_call | left | done]).
Qed.

Lemma close_tun_wp errs s t (Q : list error + error -> St -> Prop) :
  tun (loc s) = Some t ->
  (forall errs' e s', later s s' -> saw (Event (TunClose t) e) s' -> (errs' = [] -> errs = [] /\ e = None) ->
     Q (inl errs') s') ->
  wp (close_tun errs) Q s.
Proof.
  intros Ht HQ. unfold close_tun, with_tun, deref. wps. rewrite Ht. wps.
  assert (L1 := later_call _ _ _ _ H). destruct r as [e|]; cbn [wp_then]; wps.
  - apply (Name_wp _ t); [done |]. intros n s2 L2. cbn [wp_then]. wps. eapply HQ.
    + by eapply later_trans.
    + eapply later_saw; [exact L2 | left].
    + by destruct errs.
  - by eapply HQ; [exact L1 | left |].
Qed.

(** C29: [Close] of a created interface always returns: the wait for the interface to
    go polls at most 51 times, and nothing in it panics. When it returns no error, the
    proxy factory was freed, the device closed, and the interface was seen to be gone
    or its link was deleted; in every case the device and the factory were told. *)
Theorem Close_spec s t f :
  tun (loc s) = Some t -> wgProxyFactory (loc s) = Some f ->
  wp Close (fun r s' =>
    exists e1 e2, saw (Event (FactoryFree f) e1) s' /\ saw (Event (TunClose t) e2) s' /\
      (r = inl tt -> e1 = None /\ e2 = None /\ gone (calls s'))) s.
Proof.
  intros Ht Hf. unfold Close. wps. apply (close_proxy_wp _ f); [done |].
  intros errs1 e1 s1 L1 S1 H1. cbn [wp_then]. wps. apply (close_tun_wp _ _ t); [by rewrite (proj1 L1) |].
  intros errs2 e2 s2 L2 S2 H2. cbn [wp_then]. apply (close_wait_wp _ _ t); [by rewrite (proj1 L2), (proj1 L1) |].
  intros r s3 L3 H3. exists e1, e2. split; [by eapply later_saw, later_saw; [| |] |].
  split; [by eapply later_saw |]. intros E. destruct (H3 E) as [E2 Hg]. apply H2 in E2 as [E1 ->]. auto.
Qed.

End close.

(** ** Addresses *)

(** An IPv4 address of the interface is read back from its own string: the form
    [updateConfig] compares with the address management sends. *)
Theorem ParseWGAddress_Address_String n b :
  0 <= n < 2 ^ 32 -> 0 <= b <= 32 ->
  let a := mkAddress (Addr4 n) (prefix_Masked (mkPrefix (Addr4 n) b)) in
  ParseWGAddress (Address_String a) = inl a.
Proof.
  intros Hn Hb a. unfold a, ParseWGAddress, Address_String, prefix_Masked, prefix_IsValid. cbn [prefix_Bits].
  destruct (Z.leb_spec 0 b); [| lia]. cbn [wa_IP wa_Network prefix_Bits prefix_ip addr_String].
  rewrite ParsePrefix_dotted by done. unfold prefix_Masked, prefix_IsValid. cbn.
  destruct (Z.leb_spec 0 b); [done | lia].
Qed.

(** ** An interface to run: the system forgets it at the third poll *)
Module SampleIface.

Record World := mkWorld { clock : Z; polls : Z }.

#[export] Instance handler : Handler ifC World := fun R c w =>
  match c in ifC R return R * World with
  | NetstackIsEnabled | ModuleTunIsLoaded => (false, w)
  | WireGuardModuleIsLoaded => (true, w)
  | NetstackListenAddr => ("127.0.0.1:1080", w)
  | NewICEBind _ _ _ _ | NewNetstackDevice _ _ _ _ _ _ _ | NewKernelDevice _ _ _ _ _ _ | NewUSPDevice _ _ _ _ _ _
  | NewUSPFactory _ _ | NewKernelFactory _ _ | GetProxy _ => (1, w)
  | TunCreate _ | TunUp _ | LinkByName _ => (inl 2, w)
  | TunUpdateAddr _ _ | TunClose _ | FactoryFree _ | LinkDel _ => (None, w)
  | TunWgAddress _ => (mkAddress AddrZero PrefixZero, w)
  | TunMTU _ => (DefaultMTU, w)
  | TunDeviceName _ => ("wt0", w)
  | TunFilteredDevice _ | TunDevice _ | TunGetNet _ | TunGetICEBind _ => (None, w)
  | DeviceSetFilter _ _ => (tt, w)
  | Cfg _ c => (match c in cfgC R return R with
                | ConfigureInterface _ _ | UpdatePeer _ _ _ _ _ | RemoveEndpointAddress _ | RemovePeer _
                | AddAllowedIP _ _ | RemoveAllowedIP _ _ => None
                | GetStats => inl ∅ | FullStats => inr ErrPeerNotFound
                | LastActivities => ∅ | CloseConfigurer => tt
                end, w)
  | InterfaceByName _ => (if polls w <? 2 then IfaceFound else IfaceOpError, mkWorld (clock w) (polls w + 1))
  | NewTimer d => (clock w + d, w)
  | TimerFired t => (t <=? clock w, w)
  | Sleep d => (tt, mkWorld (clock w + Z.max 0 d) (polls w))
  end.

#[export] Instance iface_clock : IfaceClock World.
Proof.
  refine {| now := clock |}; try done.
  - intros R c w. destruct c; cbn; lia.
  - intros d w. cbn. lia.
Defined.

Definition opened : state ifC WGIface World :=
  mkState (mkWGIface (Some 1) false None None (Some 1)) (mkWorld 0 0) [].

End SampleIface.

Import SampleRoutes SampleIface.

Lemma Close_spec_witness :
  (Close opened).1 = Ok tt /\
  wp Close (fun r s' =>
    exists e1 e2, saw (Event (FactoryFree 1) e1) s' /\ saw (Event (TunClose 1) e2) s' /\
      (r = inl tt -> e1 = None /\ e2 = None /\ gone (calls s'))) opened.
Proof. split; [by vm_compute | by apply Close_spec]. Defined.

Lemma ParseWGAddress_Address_String_witness :
  Address_String (mkAddress (Addr4 1681915905) (mkPrefix (Addr4 1681915904) 16)) = "100.64.0.1/16" /\
  ParseWGAddress (Address_String (mkAddress (Addr4 1681915905) (prefix_Masked (mkPrefix (Addr4 1681915905) 16)))) =
  inl (mkAddress (Addr4 1681915905) (prefix_Masked (mkPrefix (Addr4 1681915905) 16))).
Proof. split; [by vm_compute | apply (ParseWGAddress_Address_String 1681915905 16); lia]. Defined.
