(* ===== verification/KernelModule.v ===== *)
(** * Kernel modules and the WireGuard link: [go/iface/device]

    kernel_module_linux.go looks for a kernel module among the loaded, the built-in
    and the installed ones, and loads it after its dependencies; wg_link_linux.go
    creates the interface of a kernel device and gives it its address. The files
    read are lists of lines, as [bufio.Scanner] gives them, with the error the scan
    ends with. *)

From Stdlib Require Import ZArith Lia Ascii.
From stdpp Require Import base tactics list strings gmap.
From S2P Require Import Prelude GoStrings Netip Filepath WgIface.

(** ** Names and files of modules *)

Definition cleanName (s : string) : string := ReplaceAll (TrimSpace s) "-" "_".

(** The loop that trims extensions; each turn shortens the name. *)
Fixpoint trim_exts (fuel : nat) (s : string) : string :=
  match fuel with
  | O => s
  | S fuel' =>
      let ext := Ext s in
      if bool_decide (ext = "") then s else trim_exts fuel' (TrimSuffix s ext)
  end.

Definition pathToName (s : string) : string :=
  let b := Base s in
  cleanName (trim_exts (String.length b) b).

Inductive status := unknown | unloaded | unloading | loading | live | inuse.
Definition status_Z (st : status) : Z :=
  match st with
  | unknown => 1 | unloaded => 2 | unloading => 3 | loading => 4 | live => 5 | inuse => 6
  end.

Definition ErrModuleNotFound : error := Sentinel "ErrModuleNotFound".
Definition defaultModuleDir : string := "/lib/modules".
Definition envDisableWireGuardKernel : string := "NB_WG_KERNEL_DISABLED".
Definition EINVAL : Z := 22.
Definition ENOSYS : Z := 38.

Record module := mkModule { mod_name : string; mod_path : string }.

(** An entry [filepath.WalkDir] visits: its path, whether it is a regular file,
    whether the visit reports an error. *)
Record WalkEntry := mkWalkEntry { we_path : string; we_regular : bool; we_err : bool }.

(** The state /proc/modules gives a module by the fields of its line; a short line
    makes an index panic. *)
Definition status_of_fields (fields : list string) : option status :=
  match fields with
  | _ :: _ :: refs :: rest =>
      if bool_decide (refs <> "0") then Some inuse
      else match rest with
           | _ :: st :: _ =>
               if bool_decide (st = "Live") then Some live
               else if bool_decide (st = "Loading") then Some loading
               else if bool_decide (st = "Unloading") then Some unloading
               else Some unloaded
           | _ => None
           end
  | _ => None
  end.

(** The scan for a module: the status and whether its line was found. *)
Fixpoint scan_modules (name : string) (lines : list string) : outcome (status * bool) :=
  match lines with
  | [] => Ok (unloaded, false)
  | l :: lines' =>
      match Fields l with
      | [] => Panic "fields[0]: index out of range"
      | f :: fs =>
          if bool_decide (f = name) then
            match status_of_fields (f :: fs) with
            | Some st => Ok (st, true)
            | None => Panic "fields: index out of range"
            end
          else scan_modules name lines'
      end
  end.

(** The fields of the dependency line of a module. *)
Fixpoint scan_deps (name : string) (lines : list string) : outcome (option (list string)) :=
  match lines with
  | [] => Ok None
  | l :: lines' =>
      match Fields l with
      | [] => Panic "fields[0]: index out of range"
      | f :: fs => if bool_decide (pathToName (TrimSuffix f ":") = name) then Ok (Some (f :: fs))
                   else scan_deps name lines'
      end
  end.

Definition find_module_path (name : string) (entries : list WalkEntry) : string :=
  match find (fun e => negb (we_err e) && we_regular e && bool_decide (pathToName (we_path e) = name)) entries with
  | Some e => we_path e
  | None => EmptyString
  end.

(** The bytes of [uname]'s release up to the terminating NUL. *)
Fixpoint until_nul (s : string) : option string :=
  match s with
  | EmptyString => None
  | String c s' => if Ascii.eqb c "000"%char then Some EmptyString
                   else match until_nul s' with Some r => Some (String c r) | None => None end
  end.

(** ** The calls *)

Inductive kmC : Set -> Type :=
  | Uname : kmC (string + error)
  | StatTun : kmC (option error)
  | Getenv (name : string) : kmC string
  | AddFakeLink (mtu : Z) : kmC (option error)
  | ScanFile (path : string) : kmC ((list string * option error) + error)
  | WalkDir (root : string) : kmC (list WalkEntry)
  | OpenFile (path : string) : kmC (option error)
  | CloseFile (path : string) : kmC (option error)
  | FinitModule (path : string) : kmC (option error)
  | ReadAll (path : string) : kmC (string + error)
  | InitModule (path : string) : kmC (option error).

Section modules.
Context {W : Type} `{!Handler kmC W}.

(** The package's state is [moduleRoot]. *)
Definition KM := M kmC string W.

Definition getModuleRoot : KM string :=
  let* r := call Uname in
  match r with
  | inr _ => panic "uname"
  | inl release =>
      match until_nul release with
      | None => panic "uname.Release[i]: index out of range"
      | Some s => ret (Join2 defaultModuleDir s)
      end
  end.

(** Opening a file, scanning it and closing it; what the scan ends with counts
    only where the reader went through all of it. *)
Definition scan_file {A} (path : string) (k : list string -> option error -> KM A) : KM A :=
  let* r := call (ScanFile path) in
  match r with
  | inr err => fail err
  | inl p => with_defer (k (fst p) (snd p)) (ignore (check (call (CloseFile path))))
  end.

Definition isBuiltinModule (name : string) : KM bool :=
  let* root := get in
  scan_file (Join2 root "/modules.builtin") (fun lines err =>
    if existsb (fun l => bool_decide (pathToName l = name)) lines then ret true
    else match err with Some e => fail e | None => ret false end).

Definition procModules : string := "/proc/modules".

Definition moduleStatus (name : string) : KM status :=
  scan_file procModules (fun lines err =>
    let* r := lift (scan_modules name lines) in
    match r, err with
    | (_, false), Some e => fail e
    | (st, _), _ => ret st
    end).

Definition isModuleEnabled (name : string) : KM bool :=
  let* builtin := try (isBuiltinModule name) in
  let* state := try (moduleStatus name) in
  ret (match builtin with inl b => b | inr _ => false end ||
       match state with inl st => status_Z loading <=? status_Z st | inr _ => false end).

Definition getModulePath (name : string) : KM string :=
  let* root := get in
  let* entries := call (WalkDir root) in
  ret (find_module_path name entries).

Definition loadModule (name path : string) : KM unit :=
  let* state := moduleStatus name in
  if status_Z loading <=? status_Z state then ret tt
  else
    check (call (OpenFile path)) ;;;
    with_defer
      (let* err := call (FinitModule path) in
       match err with
       | Some e =>
           if errors_Is e (Errno ENOSYS) then
             check_val (call (ReadAll path)) ;;;
             check (call (InitModule path))
           else fail e
       | None => ret tt
       end)
      (ignore (check (call (CloseFile path)))).

(** The modules a dependency line lists: every entry that is not the module itself. *)
Definition line_modules (root name : string) (deps : list string) : list module :=
  omap (fun v => if bool_decide (pathToName v <> name) then Some (mkModule (pathToName v) (Join2 root v)) else None) deps.

Definition getModuleDependencies (name : string) : KM (list module) :=
  let* root := get in
  scan_file (Join2 root "/modules.dep") (fun lines err =>
    let* r := lift (scan_deps name lines) in
    match r, err with
    | None, Some e => fail e
    | None, None => fail ErrModuleNotFound
    | Some [], _ => fail ErrModuleNotFound
    | Some (f :: fs), _ => ret (line_modules root name (TrimSuffix f ":" :: fs))
    end).

Definition loadModuleWithDependencies (name path : string) : KM unit :=
  let* r := try (getModuleDependencies name) in
  match r with
  | inr _ => fail (New "couldn't load list of module dependencies")
  | inl deps =>
      for_each deps (fun dep =>
        wrap (fun _ => New "couldn't load dependency module") (loadModule (mod_name dep) (mod_path dep))) ;;;
      loadModule name path
  end.

Definition tryToLoadModule (moduleName : string) : KM bool :=
  let* enabled := isModuleEnabled moduleName in
  if (enabled : bool) then ret true
  else
    let* modulePath := wrap (Opaque "couldn't find module path") (getModulePath moduleName) in
    if bool_decide (modulePath = "") then ret false
    else
      wrap (Opaque "couldn't load module") (loadModuleWithDependencies moduleName modulePath) ;;;
      ret true.

Definition ModuleTunIsLoaded : KM bool :=
  let* err := call StatTun in
  match err with
  | None => ret true
  | Some _ =>
      let* r := try (tryToLoadModule "tun") in
      ret (match r with inl b => b | inr _ => false end)
  end.

(** An interface with an impossible MTU: refused as invalid where the link kind is
    known, whatever else happens. *)
Definition MaxInt : Z := 2 ^ 63 - 1.
Definition canCreateFakeWireGuardInterface : KM bool :=
  let* err := call (AddFakeLink MaxInt) in
  ret (match err with Some e => errors_Is e (Errno EINVAL) | None => false end).

Definition WireGuardModuleIsLoaded : KM bool :=
  let* v := call (Getenv envDisableWireGuardKernel) in
  if bool_decide (v = "true") then ret false
  else
    let* fake := canCreateFakeWireGuardInterface in
    if (fake : bool) then ret true
    else
      let* r := try (tryToLoadModule "wireguard") in
      ret (match r with inl b => b | inr _ => false end).

End modules.

(** ** The link of a kernel device: wg_link_linux.go *)

(** netlink's interface attributes that the link sets. *)
Record wgLink := mkWgLink { l_Name : string; l_MTU : Z }.
Definition link_Type : string := "wireguard".

(** What looking a link up answers: it, an error that says there is none, another. *)
Inductive LinkLookup := LinkFound | LinkNotFound | LinkError (e : error).

Inductive linkC : Set -> Type :=
  | LkByName (name : string) : linkC LinkLookup
  | LkAdd (l : wgLink) : linkC (option error)
  | LkDel (l : wgLink) : linkC (option error)
  | LkSetMTU (l : wgLink) (mtu : Z) : linkC (option error)
  | LkSetUp (l : wgLink) : linkC (option error)
  | LkAddrList (l : wgLink) : linkC (list string + error)
  | LkAddrDel (l : wgLink) (addr : string) : linkC (option error)
  | LkAddrAdd (l : wgLink) (addr : string) : linkC (option error)
  | LkParseAddr (s : string) : linkC (string + error).

Section link.
Context {W : Type} `{!Handler linkC W}.

Definition LK := M linkC wgLink W.

(** [os.IsExist]: an EEXIST. *)
Definition IsExist (e : error) : bool := errors_Is e (Errno 17).

Definition link_Close : LK unit := let* l := get in check (call (LkDel l)).

(** An addition that finds the thing there already is a success. *)
Definition add_or_reuse (msg : string) (m : LK (option error)) : LK unit :=
  let* err := m in
  match err with
  | None => ret tt
  | Some e => if IsExist e then ret tt else fail (Wrap msg e)
  end.

Definition recreate : LK unit :=
  let* l := get in
  let* link := call (LkByName (l_Name l)) in
  match link with
  | LinkError e => fail (Wrap "link by name" e)
  | LinkFound => check (call (LkDel l)) ;;; add_or_reuse "link add" (call (LkAdd l))
  | LinkNotFound => add_or_reuse "link add" (call (LkAdd l))
  end.

Definition setMTU (mtu : Z) : LK unit :=
  let* l := get in wrap (Wrap "link set mtu") (check (call (LkSetMTU l mtu))).

Definition link_up : LK unit :=
  let* l := get in wrap (Wrap "link setup") (check (call (LkSetUp l))).

Definition assignAddr (address : Address) : LK unit :=
  let* l := get in
  let* addrs := wrap (Wrap "list addr") (check_val (call (LkAddrList l))) in
  for_each addrs (fun a => wrap (Wrap "del addr") (check (call (LkAddrDel l a)))) ;;;
  let* addr := wrap (Wrap "parse addr") (check_val (call (LkParseAddr (Address_String address)))) in
  add_or_reuse "add addr" (call (LkAddrAdd l addr)) ;;;
  wrap (Wrap "link setup") (check (call (LkSetUp l))).

End link.

(** ** Lemmas: base names and extensions *)

Fixpoint before_dot (s : string) : string :=
  match s with
  | EmptyString => EmptyString
  | String c s' => if Ascii.eqb c dot then EmptyString else String c (before_dot s')
  end.

Lemma split_last_Some c s a b : split_last c s = Some (a, b) -> s = a +:+ String c b /\ has_char c b = false.
Proof.
  revert a b. induction s as [|x s IH]; intros a b; cbn [split_last]; [done |].
  destruct (split_last c s) as [[a' b']|] eqn:E.
  - intros [= <- <-]. destruct (IH a' b' eq_refl) as [-> H]. done.
  - destruct (Ascii.eqb_spec x c) as [->|]; [| done]. intros [= <- <-]. split; [done |].
    clear IH. induction s as [|y s IH]; [done |]. cbn [split_last has_char] in *.
    destruct (split_last c s) as [[]|]; [done |]. destruct (Ascii.eqb y c); [done |]. by apply IH.
Qed.

Lemma split_last_None c s : split_last c s = None -> has_char c s = false.
Proof.
  induction s as [|x s IH]; cbn [split_last has_char]; [done |].
  destruct (split_last c s) as [[]|]; [done |]. destruct (Ascii.eqb x c); [done |]. intros _. by apply IH.
Qed.

Lemma before_dot_free s : has_char dot s = false -> before_dot s = s.
Proof.
  induction s as [|c s IH]; cbn [has_char before_dot]; [done |]. intros [Hc Hs]%orb_false_iff.
  by rewrite Hc, IH.
Qed.

Lemma before_dot_app a b : before_dot (a +:+ String dot b) = before_dot a.
Proof.
  induction a as [|c a IH]; [done |]. change (String c a +:+ ?t) with (String c (a +:+ t)). cbn [before_dot].
  destruct (Ascii.eqb c dot); [done | by rewrite IH].
Qed.

Lemma trim_exts_spec n s :
  (String.length s <= n)%nat -> has_char slash s = false -> trim_exts n s = before_dot s.
Proof.
  revert s. induction n as [|n IH]; intros s Hn Hs.
  { destruct s; [done | cbn in Hn; lia]. }
  cbn [trim_exts]. unfold Ext. rewrite (split_last_none slash s) by done.
  destruct (split_last dot s) as [[a e]|] eqn:E.
  - apply split_last_Some in E as [-> He]. rewrite bool_decide_eq_false_2 by done.
    rewrite TrimSuffix_app, before_dot_app. apply IH.
    + rewrite length_app_s in Hn. cbn in Hn. lia.
    + rewrite has_char_app in Hs. by apply orb_false_iff in Hs as [? _].
  - rewrite bool_decide_eq_true_2 by done. by rewrite before_dot_free by (by apply split_last_None).
Qed.

Lemma has_char_srev c s : has_char c (srev s) = has_char c s.
Proof.
  induction s as [|x s IH]; [done |]. rewrite srev_cons, has_char_app, IH. cbn.
  by rewrite orb_false_r, orb_comm.
Qed.

Lemma Base_app d b : has_char slash b = false -> b <> EmptyString -> Base (d +:+ String slash b) = b.
Proof.
  intros Hb Hne. unfold Base.
  assert (Ht : trim_right (Ascii.eqb slash) (d +:+ String slash b) = d +:+ String slash b).
  { unfold trim_right. change (String slash b) with (chr slash +:+ b).
    rewrite <- app_assoc_s. rewrite (srev_app_distr (d +:+ chr slash) b).
    assert (Hh : has_char slash (srev b) = false) by (by rewrite has_char_srev).
    assert (Hn : srev b <> EmptyString).
    { intros E. apply (f_equal srev) in E. by rewrite srev_involutive in E. }
    destruct (srev b) as [|c r] eqn:Er; [done |]. cbn [has_char] in Hh. apply orb_false_iff in Hh as [Hc _].
    change (String c r +:+ ?t) with (String c (r +:+ t)). cbn [trim_left].
    rewrite Ascii.eqb_sym, Hc. change (String c (r +:+ ?t)) with (String c r +:+ t). rewrite <- Er.
    rewrite <- srev_app_distr. by rewrite srev_involutive. }
  rewrite Ht. rewrite split_last_app by done. destruct d; done.
Qed.

Lemma pathToName_file_name d b :
  has_char slash b = false -> b <> EmptyString ->
  pathToName (d +:+ "/" +:+ b) = cleanName (before_dot b).
Proof.
  intros Hb Hne. unfold pathToName. change ("/" +:+ b) with (String slash b).
  rewrite Base_app by done. by rewrite trim_exts_spec.
Qed.

(** The loop that strips extensions leaves what stands before the first dot of
    the file's name: [/lib/modules/x/kernel/wireguard.ko.xz] is module [wireguard],
    whatever the directory and however many the extensions. *)
Theorem pathToName_spec d b :
  has_char slash b = false -> b <> EmptyString ->
  pathToName (d +:+ "/" +:+ b) = cleanName (before_dot b).
Proof. apply pathToName_file_name. Qed.

Lemma pathToName_spec_witness :
  pathToName "/lib/modules/6.1/kernel/drivers/net/wire-guard.ko.xz" = "wire_guard".
Proof.
  apply (pathToName_spec "/lib/modules/6.1/kernel/drivers/net" "wire-guard.ko.xz"); [done | discriminate].
Defined.

(** ** The kernel's files *)

(** A module as /proc/modules lists it: its name, size, how many use it, which do, its
    state and its address. *)
Inductive ModuleState := Live | Loading | Unloading.
Record ProcModule := mkProcModule {
  pm_name : string; pm_size : Z; pm_refs : Z; pm_users : list string; pm_state : ModuleState; pm_address : string
}.
Definition state_word (st : ModuleState) : string :=
  match st with Live => "Live" | Loading => "Loading" | Unloading => "Unloading" end.
Definition users_word (l : list string) : string :=
  match l with [] => "-" | _ => foldr (fun u s => u +:+ "," +:+ s) EmptyString l end.
Definition proc_words (m : ProcModule) : list string :=
  [pm_name m; itoa (pm_size m); itoa (pm_refs m); users_word (pm_users m); state_word (pm_state m); pm_address m].
Definition proc_line (m : ProcModule) : string := Join (proc_words m) " ".

Definition word (s : string) : Prop := no_space s = true /\ s <> EmptyString.
(** What the kernel says of a module is made of words, and it does not unload one in use. *)
Record proc_ok (m : ProcModule) : Prop := {
  po_name : word (pm_name m);
  po_users : Forall (fun u => no_space u = true) (pm_users m);
  po_address : word (pm_address m);
  po_refs : pm_refs m <> 0 -> pm_state m <> Unloading
}.

(** A file name of a directory, and the module in it: what stands before the first dot,
    with dashes as underscores. *)
Definition file_name (b : string) : Prop := has_char slash b = false /\ word b.
Definition module_in (b : string) : string := ReplaceAll (before_dot b) "-" "_".

Lemma no_space_before_dot b : no_space b = true -> no_space (before_dot b) = true.
Proof.
  induction b as [|c b IH]; [done |]. rewrite no_space_cons. intros [Hc Hb]%andb_true_iff. cbn [before_dot].
  destruct (Ascii.eqb c dot); [done |]. rewrite no_space_cons, Hc. by apply IH.
Qed.
Lemma pathToName_file d b : file_name b -> pathToName (d +:+ "/" +:+ b) = module_in b.
Proof.
  intros (Hs & Hb & Hne). rewrite pathToName_file_name by done. unfold cleanName.
  by rewrite TrimSpace_id by by apply no_space_before_dot.
Qed.

(** *** Reading a line of /proc/modules *)



(** The status the code gives a module is one of being there exactly when it is neither
    absent nor being unloaded. *)
Definition there (m : ProcModule) : Prop := pm_state m <> Unloading.


(** ** A module reported as loaded is there *)

(** What the code relies on of the kernel: /proc/modules lists the modules that are in
    the kernel, a line each, and modules.builtin the files of those built in, of which
    a failing scan gives a part; modules.dep has no blank line; the files of the module directory are
    named without white space; a module whose file was accepted is in the kernel, and none
    is unloaded meanwhile. *)
Class ModuleKernel (W : Type) `{!Handler kmC W} := {
  modules : W -> list ProcModule;
  builtins : list (string * string);
  modules_ok : forall w, Forall proc_ok (modules w);
  builtins_ok : Forall (fun e : string * string => file_name e.2) builtins;
  modules_stay : forall R (c : kmC R) w m, m ∈ modules w -> there m ->
    exists m', m' ∈ modules (handle c w).2 /\ pm_name m' = pm_name m /\ there m';
  proc_lines : forall w lines err,
    (handle (ScanFile "/proc/modules") w).1 = inl (lines, err) -> lines `prefix_of` map proc_line (modules w);
  builtin_lines : forall p w lines err,
    Base p = "modules.builtin" -> p <> "/proc/modules" -> (handle (ScanFile p) w).1 = inl (lines, err) ->
    lines `prefix_of` map (fun e : string * string => e.1 +:+ "/" +:+ e.2) builtins;
  file_lines : forall p w lines err,
    p <> "/proc/modules" -> (handle (ScanFile p) w).1 = inl (lines, err) ->
    Forall (fun l => Fields l <> []) lines;
  walk_files : forall root w e, e ∈ (handle (WalkDir root) w).1 ->
    exists d b, we_path e = d +:+ "/" +:+ b /\ file_name b;
  finit_loads : forall d b w, file_name b -> (handle (FinitModule (d +:+ "/" +:+ b)) w).1 = None ->
    exists m, m ∈ modules (handle (FinitModule (d +:+ "/" +:+ b)) w).2 /\ pm_name m = module_in b /\ there m;
  init_loads : forall d b w, file_name b -> (handle (InitModule (d +:+ "/" +:+ b)) w).1 = None ->
    exists m, m ∈ modules (handle (InitModule (d +:+ "/" +:+ b)) w).2 /\ pm_name m = module_in b /\ there m
}.

Section loaded.
Context {W : Type} `{!Handler kmC W, !ModuleKernel W}.
Notation St := (state kmC string W).

(** A module is in the kernel, or part of it. *)
Definition loaded (w : W) (n : string) : Prop := exists m, m ∈ modules w /\ pm_name m = n /\ there m.
Definition builtin (n : string) : Prop := exists d b, (d, b) ∈ builtins /\ n = module_in b.



(** Later states have at least the modules of earlier ones, and the same root. *)
Definition grows (s s' : St) : Prop := loc s' = loc s /\ forall n, loaded (world s) n -> loaded (world s') n.

Lemma grows_refl s : grows s s.
Proof. by split. Qed.












End loaded.

(** ** Assigning the link's address *)

(** What the code relies on of netlink: listing, deleting and adding the link's
    addresses, an addition being refused as existing only for an address that is there. *)
Class LinkKernel (W : Type) `{!Handler linkC W} := {
  addrs : W -> list string;
  addrs_list : forall l w, match (handle (LkAddrList l) w).1 with inl x => x = addrs w | inr _ => True end;
  addrs_frame : forall R (c : linkC R) w,
    match c with LkAddrDel _ _ | LkAddrAdd _ _ => True | _ => addrs (handle c w).2 = addrs w end;
  addrs_del : forall l a w,
    addrs (handle (LkAddrDel l a) w).2 =
      match (handle (LkAddrDel l a) w).1 with None => filter (fun b => b <> a) (addrs w) | Some _ => addrs w end;
  addrs_add : forall l a w,
    match (handle (LkAddrAdd l a) w).1 with
    | None => addrs (handle (LkAddrAdd l a) w).2 = addrs w ++ [a]
    | Some e => addrs (handle (LkAddrAdd l a) w).2 = addrs w /\ (IsExist e = true -> a ∈ addrs w)
    end
}.

Section assign.
Context {W : Type} `{!Handler linkC W, !LinkKernel W}.
Notation St := (state linkC wgLink W).

(** When [assignAddr] succeeds the link has exactly one address, the new one, and
    was brought up; the addresses it had before are gone. *)
Theorem assignAddr_spec address (s : St) :
  wp (assignAddr address) (fun r s' =>
    r = inl tt -> exists a, saw (Event (LkParseAddr (Address_String address)) (inl a)) s' /\
      addrs (world s') = [a] /\ saw (Event (LkSetUp (loc s)) None) s') s.
Proof.
  unfold assignAddr. apply wp_bind, wp_get. cbn [wp_then].
  apply wp_bind, wp_wrap, wp_check_val, wp_call. intros [old|e] w1 H1; cbn [wp_then]; [| done].
  pose proof (addrs_list (loc s) (world s)) as Hl. rewrite H1 in Hl. cbn in Hl. subst old.
  pose proof (addrs_frame _ (LkAddrList (loc s)) (world s)) as Hf. rewrite H1 in Hf. cbn in Hf.
  apply wp_bind, (wp_for_each (fun rest s' => loc s' = loc s /\ forall x, x ∈ addrs (world s') -> x ∈ rest)).
  - split; [done |]. cbn. by rewrite Hf.
  - intros a rest s2 [L2 Hin]. apply wp_wrap, wp_check, wp_call. intros [e|] w3 H3; cbn [wp_then]; [done |].
    split; [done |]. pose proof (addrs_del (loc s) a (world s2)) as Hd. rewrite H3 in Hd. cbn in Hd |- *.
    rewrite Hd. intros x. rewrite list_elem_of_filter. intros [Hne Hx]. apply Hin, elem_of_cons in Hx. naive_solver.
  - intros s2 [L2 Hin]. cbn [wp_then]. assert (Hnil : addrs (world s2) = []).
    { destruct (addrs (world s2)) as [|x l]; [done |].
      assert (Hx : x ∈ []) by (apply Hin; left). by apply elem_of_nil in Hx. }
    apply wp_bind, wp_wrap, wp_check_val, wp_call. intros [a|e] w3 H3; cbn [wp_then]; [| done].
    pose proof (addrs_frame _ (LkParseAddr (Address_String address)) (world s2)) as Hp. rewrite H3 in Hp. cbn in Hp.
    unfold add_or_reuse. apply wp_bind, wp_bind, wp_call. intros err w4 H4. cbn [wp_then].
    pose proof (addrs_add (loc s) a w3) as Ha. cbn [world] in H4. rewrite H4 in Ha. cbn [fst snd] in Ha.
    assert (Hup : addrs w4 = [a] -> forall s5 : St, world s5 = w4 ->
      saw (Event (LkParseAddr (Address_String address)) (inl a)) s5 ->
      wp (wrap (Wrap "link setup") (check (call (LkSetUp (loc s))))) (fun r s' =>
        r = inl tt -> exists a, saw (Event (LkParseAddr (Address_String address)) (inl a)) s' /\
          addrs (world s') = [a] /\ saw (Event (LkSetUp (loc s)) None) s') s5).
    { intros E s5 Hw Hs. apply wp_wrap, wp_check, wp_call. intros [e|] w6 H6; [done |]. intros _. exists a.
      split; [by right |]. split; [| by left].
      pose proof (addrs_frame _ (LkSetUp (loc s)) (world s5)) as Hu. rewrite H6 in Hu. cbn in Hu |- *. congruence. }
    destruct err as [e|].
    + destruct Ha as [_ Hex]. destruct (IsExist e); [| by apply wp_fail].
      specialize (Hex eq_refl). rewrite Hp, Hnil in Hex. by apply elem_of_nil in Hex.
    + apply wp_ret. apply Hup; [by rewrite Ha, Hp, Hnil | done |]. right. by left.
Qed.

End assign.

(** ** Kernels to run *)
Module SampleModules.

(** A kernel with one loadable module, and whether it is loaded. *)
#[export] Instance km_handler : Handler kmC bool := fun R c w =>
  match c in kmC R return R * bool with
  | Uname => (inl ("6.1.0" +:+ String "000" EmptyString), w)
  | StatTun => (Some (New "no such file"), w)
  | Getenv _ => ("", w)
  | AddFakeLink _ => (Some (Errno 95), w)
  | ScanFile p =>
      (if bool_decide (p = procModules) then inl ((if w then ["tun 16384 0 - Live 0x0"] else []), None)
       else if bool_decide (Base p = "modules.builtin") then inl (["kernel/fs/ext4.ko"], None)
       else inl (["kernel/net/tun.ko.xz: kernel/net/tun.ko.xz"], None), w)
  | WalkDir _ => ([mkWalkEntry "/lib/modules/6.1.0/kernel/net/tun.ko.xz" true false], w)
  | OpenFile _ | CloseFile _ => (None, w)
  | FinitModule p => if bool_decide (pathToName p = "tun") then (None, true) else (Some (Errno EINVAL), w)
  | ReadAll _ => (inl "", w)
  | InitModule p => (Some (Errno EINVAL), w)
  end.

Definition tun_module : ProcModule := mkProcModule "tun" 16384 0 [] Live "0x0".

#[export] Instance module_kernel : ModuleKernel bool.
Proof.
  refine {| modules := fun w : bool => if w then [tun_module] else []; builtins := [("kernel/fs", "ext4.ko")] |}.
  - intros w. destruct w; repeat constructor; try done; by vm_compute.
  - repeat constructor; by vm_compute.
  - intros R c w m Hm Ht. destruct w; [| by apply elem_of_nil in Hm]. exists m. split; [| done].
    destruct c; cbn; try done. by case_bool_decide.
  - intros w lines err. cbn. intros [= <- <-]. by destruct w.
  - intros p w lines err Hb Hp. cbn. rewrite bool_decide_eq_false_2, bool_decide_eq_true_2 by done. by intros [= <- <-].
  - intros p w lines err Hp. cbn. rewrite bool_decide_eq_false_2 by done.
    case_bool_decide; intros [= <- <-]; repeat constructor; by vm_compute.
  - intros root w e. cbn. intros ->%list_elem_of_singleton. exists "/lib/modules/6.1.0/kernel/net", "tun.ko.xz".
    split; [done |]. repeat split; by vm_compute.
  - intros d b w Hb. cbn -[pathToName String.append]. rewrite pathToName_file by done. case_bool_decide as E; [| done]. intros _.
    exists tun_module. split; [left |]. by rewrite E.
  - done.
Defined.

#[export] Instance link_handler : Handler linkC (list string) := fun R c w =>
  match c in linkC R return R * list string with
  | LkByName _ => (LinkFound, w)
  | LkAdd _ | LkDel _ | LkSetMTU _ _ | LkSetUp _ => (None, w)
  | LkAddrList _ => (inl w, w)
  | LkAddrDel _ a => (None, filter (fun b => b <> a) w)
  | LkAddrAdd _ a => if bool_decide (a ∈ w) then (Some (Errno 17), w) else (None, w ++ [a])
  | LkParseAddr s => (inl s, w)
  end.

#[export] Instance link_kernel : LinkKernel (list string).
Proof.
  refine {| addrs := fun w => w |}.
  - done.
  - intros R c w. destruct c; done.
  - done.
  - intros l a w. cbn. case_bool_decide; done.
Defined.

End SampleModules.

Import SampleModules.

Lemma assignAddr_spec_witness :
  let s := mkState (mkWgLink "wt0" 1280) ["10.0.0.1/24"; "10.0.0.2/24"] [] in
  let a := mkAddress (Addr4 1681915905) (mkPrefix (Addr4 1681915904) 16) in
  (assignAddr a s).1 = Ok tt /\ world (assignAddr a s).2 = ["100.64.0.1/16"] /\
  wp (assignAddr a) (fun r s' =>
    r = inl tt -> exists x, saw (Event (LkParseAddr (Address_String a)) (inl x)) s' /\
      addrs (world s') = [x] /\ saw (Event (LkSetUp (loc s)) None) s') s.
Proof. split; [by vm_compute |]. split; [by vm_compute |]. apply assignAddr_spec. Defined.

