(* ===== verification/Grpc.v ===== *)
(** * What the two gRPC clients share

    The management client ([go/management/client/grpc.go]) and the signal client
    ([go/signal/client/grpc.go]) run over the same packages: gRPC connections and
    status errors, contexts, the backoff library and the encryption of messages.
    None of them is in the repository: what they do is a call or a parameter with
    their documented behaviour as its laws. [attempts] and [Retry_wp] carry a
    retried operation's specification over to the retry loop around it. *)

From Stdlib Require Import ZArith Lia Ascii.
From stdpp Require Import base tactics list strings gmap.
From S2P Require Import Prelude GoStrings Uapi.

(** ** Connections, contexts and status errors *)

(** [connectivity.State]. *)
Inductive ConnState := Idle | Connecting | Ready | TransientFailure | Shutdown.

#[export] Instance ConnState_eq_dec : EqDecision ConnState.
Proof. solve_decision. Defined.

(** [codes.Code]. *)
Definition OK : Z := 0.
Definition Canceled : Z := 1.
Definition Unknown : Z := 2.
Definition PermissionDenied : Z := 7.
Definition FailedPrecondition : Z := 9.
Definition Unavailable : Z := 14.

Definition EOF : error := Sentinel "io.EOF".
Definition is_EOF (err : option error) : bool :=
  match err with Some (Sentinel n) => bool_decide (n = "io.EOF") | _ => false end.
Definition CtxCanceled : error := Sentinel "context.Canceled".
Definition CtxDeadlineExceeded : error := Sentinel "context.DeadlineExceeded".

(** [status.FromError]: the code of an error's status, and whether the error is a
    status (or nil) at all; the code is [Unknown] when it is not. *)
Class GrpcLib := {
  FromError : option error -> Z * bool;
  FromError_nil : FromError None = (OK, true);
  FromError_status : forall c m, c <> OK -> FromError (Some (Status c m)) = (c, true);
  FromError_other : forall e, (FromError e).2 = false -> (FromError e).1 = Unknown
}.
Definition status_code `{!GrpcLib} (e : option error) : Z := (FromError e).1.

(** [s, ok := status.FromError(err); ok && s.Code() == code]. *)
Definition is_status `{!GrpcLib} (e : option error) (code : Z) : bool :=
  (FromError e).2 && (status_code e =? code).

(** The calls on contexts and connections, and on the listener of the
    connection's state. A context is known by the object [context.WithCancel] or
    [context.WithTimeout] (nanoseconds) makes; its cancel function by the same. *)
Inductive netC : Set -> Type :=
  | CreateConnection (ctx : ref) (addr : string) (tlsEnabled : bool) (component : string) : netC (ref + error)
  | GetState (conn : ref) : netC ConnState
  | WaitForStateChange (conn ctx : ref) (st : ConnState) : netC bool
  | CloseConn (conn : ref) : netC (option error)
  | CtxWithCancel (parent : ref) : netC ref
  | CtxWithTimeout (parent : ref) (timeout : Z) : netC ref
  | CtxBackground : netC ref
  | CtxCancel (ctx : ref) : netC unit
  | MarkDisconnected (listener : ref) (err : error) : netC unit
  | MarkConnected (listener : ref) : netC unit.

(** A client whose calls include these. *)
Class HasNet (C : Set -> Type) := net : forall {R : Set}, netC R -> C R.

Section contexts.
Context {C : Set -> Type} `{!HasNet C} {L W : Type} `{!Handler C W}.

(** [ctx, cancel := ...; defer cancel()]. *)
Definition with_ctx {A} (make : netC Z) (k : ref -> M C L W A) : M C L W A :=
  let* ctx := call (net make) in
  with_defer (k ctx) (call (net (CtxCancel ctx))).

Definition with_cancel {A} (parent : ref) (k : ref -> M C L W A) : M C L W A :=
  with_ctx (CtxWithCancel parent) k.
Definition with_timeout {A} (parent : ref) (timeout : Z) (k : ref -> M C L W A) : M C L W A :=
  with_ctx (CtxWithTimeout parent timeout) k.

(** The part of both clients' [IsHealthy] before the probe: the state decides,
    or the connection has to be probed. *)
Definition known_health (st : ConnState) : option bool :=
  match st with
  | TransientFailure => Some false
  | Connecting => Some true
  | Shutdown => Some true
  | Idle => None
  | Ready => None
  end.

(** [conn.GetState() == Ready || conn.GetState() == Idle]: the state is read
    again when the first read is not [Ready]. *)
Definition conn_ready (conn : ref) : M C L W bool :=
  let* st := call (net (GetState conn)) in
  if bool_decide (st = Ready) then ret true
  else
    let* st' := call (net (GetState conn)) in
    ret (bool_decide (st' = Idle)).

End contexts.

(** ** Retrying *)

(** [errors.As(err, &permanent)]: the error inside the outermost
    [backoff.PermanentError]. *)
Fixpoint as_permanent (e : error) : option error :=
  match e with
  | Permanent e' => Some e'
  | Wrap _ e' => as_permanent e'
  | Multi es => list_find (fun o => is_Some o) (map as_permanent es) ≫= snd
  | _ => None
  end.

Section attempts.
Context {C : Set -> Type} {L W : Type}.
Implicit Types s : state C L W.

(** Time passes between two attempts: the outside may change. *)
Definition elapse s (w : W) : state C L W := mkState (loc s) w (calls s).

(** What [backoff.Retry] documents: the operation runs until it returns nil or a
    permanent error, whose cause is then returned; after any other error the
    backoff may stop the loop, which returns that error or the one of the
    context it was given, or let the operation run again after a pause. *)
Inductive attempts (op : M C L W unit) : state C L W -> outcome unit * state C L W -> Prop :=
  | attempts_nil s s' : op s = (Ok tt, s') -> attempts op s (Ok tt, s')
  | attempts_panic s p s' : op s = (Panic p, s') -> attempts op s (Panic p, s')
  | attempts_permanent s e e' s' :
      op s = (Err e, s') -> as_permanent e = Some e' -> attempts op s (Err e', s')
  | attempts_stop s e s' w e' :
      op s = (Err e, s') -> as_permanent e = None ->
      e' ∈ [e; CtxCanceled; CtxDeadlineExceeded] -> attempts op s (Err e', elapse s' w)
  | attempts_again s e s' w r :
      op s = (Err e, s') -> as_permanent e = None ->
      attempts op (elapse s' w) r -> attempts op s r.
End attempts.

(** [backoff.Retry], with the backoff it is given. *)
Class BackoffLib := {
  Retry : forall {C : Set -> Type} {L W : Type}, M C L W unit -> M C L W unit;
  Retry_attempts : forall (C : Set -> Type) (L W : Type) (op : M C L W unit) s,
    attempts op s (Retry op s)
}.

(** A retried operation keeps [I] from one attempt to the next; what it ends with
    satisfies [Q]. *)
Lemma Retry_wp `{!BackoffLib} {C : Set -> Type} {L W : Type} (I : state C L W -> Prop) (op : M C L W unit)
    (Q : unit + error -> state C L W -> Prop) (s : state C L W) :
  (forall s, I s ->
     wp op (fun r s' =>
       match r with
       | inl _ => Q (inl tt) s'
       | inr e =>
           match as_permanent e with
           | Some e' => Q (inr e') s'
           | None => forall w, I (elapse s' w) /\
                       forall e', e' ∈ [e; CtxCanceled; CtxDeadlineExceeded] -> Q (inr e') (elapse s' w)
           end
       end) s) ->
  I s -> wp (Retry op) Q s.
Proof.
  intros Hop HI. pose proof (Retry_attempts C L W op s) as Ha. unfold wp at 1.
  destruct (Retry op s) as [o sf]. remember (o, sf) as out eqn:Eo. revert o sf Eo HI.
  induction Ha as [s s' E|s p s' E|s e e' s' E Hp|s e s' w e' E Hp He|s e s' w r E Hp _ IH];
    intros o sf Eo HI; pose proof (Hop _ HI) as Hw; unfold wp in Hw; rewrite E in Hw;
    try (injection Eo as <- <-); try done.
  - by rewrite Hp in Hw.
  - rewrite Hp in Hw. by apply Hw.
  - rewrite Hp in Hw. apply IH; [done |]. by apply Hw.
Qed.

(** A retried operation keeps what it keeps, however it ends. *)
Lemma preserves_Retry `{!BackoffLib} {C : Set -> Type} {L W : Type} (I : state C L W -> Prop) (op : M C L W unit) :
  (forall s w, I s -> I (elapse s w)) -> preserves I op -> preserves I (Retry op).
Proof.
  intros He Hop s. pose proof (Retry_attempts C L W op s) as Ha. revert Ha. generalize (Retry op s). intros out Ha.
  induction Ha as [s s' E|s p s' E|s e e' s' E Hp|s e s' w e' E Hp Hi|s e s' w r E Hp _ IH]; intros Hs;
    pose proof (Hop _ Hs) as Hi'; rewrite E in Hi'; cbn in *; auto.
Qed.

(** ** Encryption *)

(** The package [encryption] seals a protobuf message to a peer: opening what
    was sealed needs the sealer's public key and the receiver's private one. *)
Class Sealing (A : Set) := DecryptMessage : Key -> Key -> string -> A + error.

(** [b] is the message [a], sealed by the owner of [own] for the owner of [remote]. *)
Definition sealed `{!WgTypes, !Sealing A} (remote own : Key) (a : A) (b : string) : Prop :=
  forall k, PublicKey k = remote -> DecryptMessage (PublicKey own) k b = inl a.

(** ** Instances to run the theorems on *)
Module SampleGrpc.

#[export] Instance grpclib : GrpcLib.
Proof.
  refine {| FromError e := match e with
                           | None => (OK, true)
                           | Some (Status c _) => if c =? OK then (Unknown, false) else (c, true)
                           | Some _ => (Unknown, false)
                           end |}; [done | |].
  - intros c m Hc. by rewrite (proj2 (Z.eqb_neq _ _) Hc).
  - intros [[]|]; try done. by destruct (code =? OK).
Defined.

(** A backoff that never retries. *)
#[export] Instance backoff : BackoffLib.
Proof.
  refine {| Retry C L W op := fun s =>
    match op s with
    | (Err e, s') => (Err (default e (as_permanent e)), s')
    | r => r
    end |}.
  intros C L W op s. destruct (op s) as [[[]|e|p] s'] eqn:E; [by apply attempts_nil | | by apply attempts_panic].
  destruct (as_permanent e) as [e'|] eqn:Ep; cbn; [by eapply attempts_permanent |].
  assert (Hs : s' = elapse s' (world s')) by (by destruct s'). rewrite Hs.
  eapply attempts_stop; [done | done | left].
Defined.

End SampleGrpc.
