(* ===== verification/EngineData.v ===== *)
(** * The engine's messages and conversions: [go/internal/engine.go] (its pure
    functions) and the signal message format of [go/signal/client/client.go]

    The protobuf messages the engine reads are records of the fields it reads; a
    pointer field that may be nil is an option, a getter on a nil message gives the
    zero value. [EngLib] gathers what the conversions use of packages that are not
    in the repository. *)

From Stdlib Require Import ZArith Lia Ascii.
From stdpp Require Import base tactics list strings gmap sorting.
From S2P Require Import Prelude GoStrings Netip Uapi Routes.

(** ** Signal messages *)

Inductive BodyType := OFFER | ANSWER | CANDIDATE | MODE | GO_IDLE.

#[export] Instance BodyType_eq_dec : EqDecision BodyType.
Proof. solve_decision. Defined.

Record RosenpassConfig := mkRosenpassConfig {
  rp_PubKey : option string;   (* bytes; nil or present *)
  rp_ServerAddr : string
}.
Record Body := mkBody {
  b_Type : BodyType; b_Payload : string; b_WgListenPort : Z; b_NetBirdVersion : string;
  b_RosenpassConfig : option RosenpassConfig; b_RelayServerAddress : string;
  b_SessionId : option string
}.
Record Message := mkMessage { m_Key : string; m_RemoteKey : string; m_Body : option Body }.

(** [msg.GetBody()]: the zero body for a nil one, whose type is the first of the enum. *)
Definition body0 : Body := mkBody OFFER EmptyString 0 EmptyString None EmptyString None.
Definition GetBody (msg : Message) : Body := default body0 (m_Body msg).

Record Credential := mkCredential { UFrag : string; Pwd : string }.

Definition UnMarshalCredential (msg : Message) : Credential + error :=
  match Split ":" (b_Payload (GetBody msg)) with
  | [u; p] => inl (mkCredential u p)
  | _ => inr (New "error parsing message body")
  end.

(** ** Management messages *)

Record ProtoRoute := mkProtoRoute {
  pr_ID : string; pr_Network : string; pr_NetworkType : Z; pr_Peer : string; pr_Metric : Z;
  pr_Masquerade : bool; pr_NetID : string; pr_Domains : list string; pr_KeepRoute : bool;
  pr_SkipAutoApply : bool
}.
Record ProtoRecord := mkProtoRecord {
  prec_Name : string; prec_Type : Z; prec_Class : string; prec_TTL : Z; prec_RData : string
}.
Record ProtoZone := mkProtoZone {
  pz_Domain : string; pz_Records : list ProtoRecord; pz_SearchDomainDisabled : bool;
  pz_SkipPTRProcess : bool
}.
Record ProtoNameServer := mkProtoNameServer { pns_IP : string; pns_NSType : Z; pns_Port : Z }.
Record ProtoNSGroup := mkProtoNSGroup {
  pg_NameServers : list ProtoNameServer; pg_Primary : bool; pg_Domains : list string;
  pg_SearchDomainsEnabled : bool
}.
Record ProtoDNSConfig := mkProtoDNSConfig {
  pd_ServiceEnable : bool; pd_NameServerGroups : list ProtoNSGroup; pd_CustomZones : list ProtoZone;
  pd_ForwarderPort : Z   (* an int64 *)
}.
(** [&mgmProto.DNSConfig{}]; the getters of a nil message give the same. *)
Definition protoDNSConfig0 : ProtoDNSConfig := mkProtoDNSConfig false [] [] 0.

Record RemotePeerConfig := mkRemotePeerConfig {
  rpc_WgPubKey : string; rpc_AllowedIps : list string; rpc_Fqdn : string; rpc_AgentVersion : string
}.
Record ProtoPeerConfig := mkProtoPeerConfig {
  ppc_Address : string; ppc_SshConfig : option string; ppc_Fqdn : string;
  ppc_RoutingPeerDnsResolutionEnabled : bool; ppc_LazyConnectionEnabled : bool; ppc_Mtu : Z   (* an int32 *)
}.
Record ForwardingRule := mkForwardingRule {
  fr_Protocol : Z; fr_DestinationPort : string; fr_TranslatedAddress : string; fr_TranslatedPort : string
}.
Record NetworkMap := mkNetworkMap {
  nm_Serial : Z; nm_PeerConfig : option ProtoPeerConfig; nm_RemotePeers : list RemotePeerConfig;
  nm_RemotePeersIsEmpty : bool; nm_Routes : list ProtoRoute; nm_DNSConfig : option ProtoDNSConfig;
  nm_OfflinePeers : list RemotePeerConfig; nm_NumRoutesFirewallRules : nat;
  nm_RoutesFirewallRulesIsEmpty : bool; nm_ForwardingRules : list ForwardingRule
}.
Inductive HostProtocol := UDP | TCP | HTTP | HTTPS | DTLS.
#[export] Instance HostProtocol_eq_dec : EqDecision HostProtocol.
Proof. solve_decision. Defined.

Record HostConfig := mkHostConfig { hc_Uri : string; hc_Protocol : HostProtocol }.
Record ProtectedHostConfig := mkProtectedHostConfig {
  ph_HostConfig : option HostConfig; ph_User : string; ph_Password : string
}.
Record RelayConfig := mkRelayConfig { rc_Urls : list string; rc_TokenPayload : string; rc_TokenSignature : string }.
Record FlowConfig := mkFlowConfig {
  fc_Enabled : bool; fc_Counters : bool; fc_Url : string; fc_TokenPayload : string;
  fc_TokenSignature : string; fc_Interval : option Z;   (* nanoseconds *)
  fc_DnsCollection : bool; fc_ExitNodeCollection : bool
}.
Record NetbirdConfig := mkNetbirdConfig {
  nc_Stuns : list HostConfig; nc_Turns : list ProtectedHostConfig; nc_Signal : option HostConfig;
  nc_Relay : option RelayConfig; nc_Flow : option FlowConfig
}.
Record Checks := mkChecks { Files : list string }.
Record SyncResponse := mkSyncResponse {
  sr_NetbirdConfig : option NetbirdConfig; sr_NetworkMap : option NetworkMap; sr_Checks : list Checks
}.

(** ** The client's own data, as the packages it hands them to declare them *)

Record SimpleRecord := mkSimpleRecord {
  dr_Name : string; dr_Type : Z; dr_Class : string; dr_TTL : Z; dr_RData : string
}.
Record CustomZone := mkCustomZone {
  cz_Domain : string; cz_Records : list SimpleRecord; cz_SearchDomainDisabled : bool; cz_SkipPTRProcess : bool
}.
Record NameServer := mkNameServer { ns_IP : Addr; ns_NSType : Z; ns_Port : Z }.
Record NameServerGroup := mkNameServerGroup {
  nsg_NameServers : list NameServer; nsg_Primary : bool; nsg_Domains : list string; nsg_SearchDomainsEnabled : bool
}.
Record DnsConfig := mkDnsConfig {
  dc_ServiceEnable : bool; dc_CustomZones : list CustomZone;
  dc_NameServerGroups : list NameServerGroup; dc_ForwarderPort : Z
}.
Record NfFlowConfig := mkNfFlowConfig {
  nf_Enabled : bool; nf_Counters : bool; nf_URL : string; nf_TokenPayload : string; nf_TokenSignature : string;
  nf_Interval : Z; nf_DNSCollection : bool; nf_ExitNodeCollection : bool
}.
Record PeerState := mkPeerState { ps_IP : string; ps_PubKey : string; ps_FQDN : string; ps_ConnStatus : string }.
Definition StatusIdle : string := "Idle".

(** What the conversions use of packages that are not in the repository: pion's
    STUN URIs, the ICE session identifiers, the forwarder's domain sets, punycode
    and reverse zones, the firewall's conversions, and the difference of two slices. [with_credentials] sets the
    two fields [Username] and [Password] of a URI. *)
Class EngLib := {
  URI : Set;
  ParseURI : string -> URI + error;
  with_credentials : URI -> string -> string -> URI;
  ICESessionID : Set;
  ICESessionIDFromBytes : string -> ICESessionID + error;
  SessionBytes : ICESessionID -> string;
  ICESessionID_bytes : forall i, ICESessionIDFromBytes (SessionBytes i) = inl i;
  DomainSet : Set;
  NewDomainSet : list string -> DomainSet;
  FromPunycodeList : list string -> list string;
  addReverseZone : DnsConfig -> Prefix -> DnsConfig;
  ForwarderClientPort : Z;
  ForwarderClientPort_range : 0 < ForwarderClientPort < 2 ^ 16;
  FwProtocol : Set;
  PortInfo : Set;
  convertToFirewallProtocol : Z -> FwProtocol + error;
  convertPortInfo : string -> PortInfo + error;
  convertToIP : string -> Addr + error;
  NetbirdVersion : string;
  SliceDiff : list string -> list string -> list string;
  SliceDiff_spec : forall x y k, k ∈ SliceDiff x y <-> k ∈ x /\ k ∉ y
}.

Record ForwardRule `{!EngLib} := mkForwardRule {
  Protocol : FwProtocol; DestinationPort : PortInfo; TranslatedAddress : Addr; TranslatedPort : PortInfo
}.
Record ForwarderEntry `{!EngLib} := mkForwarderEntry { fe_Domain : string; fe_Set : DomainSet; fe_ResID : string }.
Record OfferAnswer `{!EngLib} := mkOfferAnswer {
  oa_IceCredentials : Credential; oa_WgListenPort : Z; oa_Version : string;
  oa_RosenpassPubKey : option string; oa_RosenpassAddr : string; oa_RelaySrvAddress : string;
  oa_SessionID : option ICESessionID
}.
Arguments mkForwardRule {_} _ _ _ _.
Arguments mkForwarderEntry {_} _ _ _.
Arguments mkOfferAnswer {_} _ _ _ _ _ _ _.

Section conversions.
Context {wg : WgTypes} {rl : RouteLib} {el : EngLib} {mo : MapOrder}.

Definition MarshalCredential (myKey : Key) (myPort : Z) (remoteKey : string) (credential : Credential)
    (t : BodyType) (rosenpassPubKey : option string) (rosenpassAddr relaySrvAddress : string)
    (sessionID : option string) : Message :=
  mkMessage (Key_String (PublicKey myKey)) remoteKey
    (Some (mkBody t (UFrag credential +:+ ":" +:+ Pwd credential) (wrapu 32 myPort) NetbirdVersion
             (Some (mkRosenpassConfig rosenpassPubKey rosenpassAddr)) relaySrvAddress sessionID)).

Definition session_id (b : Body) : option ICESessionID :=
  match b_SessionId b with
  | Some bytes => match ICESessionIDFromBytes bytes with inl i => Some i | inr _ => None end
  | None => None
  end.

Definition convertToOfferAnswer (msg : Message) : OfferAnswer + error :=
  match UnMarshalCredential msg with
  | inr err => inr err
  | inl remoteCred =>
      let b := GetBody msg in
      let '(pub, addr) := match b_RosenpassConfig b with
                          | Some cfg => (rp_PubKey cfg, rp_ServerAddr cfg)
                          | None => (None, EmptyString)
                          end in
      inl (mkOfferAnswer (mkCredential (UFrag remoteCred) (Pwd remoteCred)) (b_WgListenPort b)
             (b_NetBirdVersion b) pub addr (b_RelayServerAddress b) (session_id b))
  end.

(** *** Durations *)

Definition millisecond : Z := 1000000.

(** In nanoseconds; the products are int64. *)
Definition calculateShutdownTimeout (peerCount : Z) : Z :=
  let baseTimeout := 10 * second in
  let perPeerTimeout := wraps 64 (peerCount * (100 * millisecond)) in
  let timeout := wraps 64 (baseTimeout + perPeerTimeout) in
  let maxTimeout := 30 * second in
  if maxTimeout <? timeout then maxTimeout else timeout.

(** *** Flow, routes, DNS *)

Definition toFlowLoggerConfig (config : FlowConfig) : NfFlowConfig + error :=
  match fc_Interval config with
  | None => inr (New "flow interval is nil")
  | Some i => inl (mkNfFlowConfig (fc_Enabled config) (fc_Counters config) (fc_Url config)
                     (fc_TokenPayload config) (fc_TokenSignature config) i (fc_DnsCollection config)
                     (fc_ExitNodeCollection config))
  end.

Definition toDNSFeatureFlag (networkMap : NetworkMap) : bool :=
  match nm_PeerConfig networkMap with
  | Some c => ppc_RoutingPeerDnsResolutionEnabled c
  | None => false
  end.

Definition convertRoute (protoRoute : ProtoRoute) (prefix : Prefix) : Route :=
  mkRoute (pr_ID protoRoute) (prefix_Masked prefix) (FromPunycodeList (pr_Domains protoRoute))
    (pr_NetID protoRoute) (pr_NetworkType protoRoute) (pr_Peer protoRoute) (pr_Metric protoRoute)
    (pr_Masquerade protoRoute) (pr_KeepRoute protoRoute) (pr_SkipAutoApply protoRoute).

Definition toRoute (protoRoute : ProtoRoute) : option Route :=
  match pr_Domains protoRoute with
  | [] => match ParsePrefix (pr_Network protoRoute) with
          | inl prefix => Some (convertRoute protoRoute prefix)
          | inr _ => None
          end
  | _ => Some (convertRoute protoRoute PrefixZero)
  end.

Definition toRoutes (protoRoutes : list ProtoRoute) : list Route := omap toRoute protoRoutes.

Definition domain_entries (r : Route) : list ForwarderEntry :=
  map (fun d => mkForwarderEntry d (NewDomainSet (r_Domains r)) (GetResourceID r)) (r_Domains r).

Fixpoint toRouteDomains (myPubKey : string) (routes : list Route) : list ForwarderEntry :=
  match routes with
  | [] => []
  | route :: routes' =>
      if bool_decide (r_Domains route = []) then toRouteDomains myPubKey routes'
      else if bool_decide (r_Peer route = myPubKey)
           then domain_entries route ++ toRouteDomains myPubKey routes'
           else toRouteDomains myPubKey routes'
  end.

Definition toRecord (record : ProtoRecord) : SimpleRecord :=
  mkSimpleRecord (prec_Name record) (prec_Type record) (prec_Class record) (prec_TTL record) (prec_RData record).

Definition toZone (zone : ProtoZone) : CustomZone :=
  mkCustomZone (pz_Domain zone) (map toRecord (pz_Records zone)) (pz_SearchDomainDisabled zone)
    (pz_SkipPTRProcess zone).

(** A list converted element by element; a panic ends it. *)
Fixpoint map_panic {A B} (f : A -> outcome B) (l : list A) : outcome (list B) :=
  match l with
  | [] => Ok []
  | x :: l' =>
      match f x, map_panic f l' with
      | Ok y, Ok ys => Ok (y :: ys)
      | Ok _, Err e => Err e
      | Ok _, Panic p => Panic p
      | Err e, _ => Err e
      | Panic p, _ => Panic p
      end
  end.

(** [netip.MustParseAddr] panics on what [ParseAddr] refuses. *)
Definition MustParseAddr (s : string) : outcome Addr :=
  match ParseAddr s with inl a => Ok a | inr _ => Panic "netip.MustParseAddr" end.

Definition toNameServer (ns : ProtoNameServer) : outcome NameServer :=
  match MustParseAddr (pns_IP ns) with
  | Ok a => Ok (mkNameServer a (pns_NSType ns) (pns_Port ns))
  | Err e => Err e
  | Panic p => Panic p
  end.

Definition toNSGroup (nsGroup : ProtoNSGroup) : outcome NameServerGroup :=
  match map_panic toNameServer (pg_NameServers nsGroup) with
  | Ok nss => Ok (mkNameServerGroup nss (pg_Primary nsGroup) (pg_Domains nsGroup) (pg_SearchDomainsEnabled nsGroup))
  | Err e => Err e
  | Panic p => Panic p
  end.

Definition toDNSConfig (protoDNSConfig : ProtoDNSConfig) (network : Prefix) : outcome DnsConfig :=
  let port := wrapu 16 (pd_ForwarderPort protoDNSConfig) in
  let forwarderPort := if port =? 0 then ForwarderClientPort else port in
  let zones := map toZone (pd_CustomZones protoDNSConfig) in
  match map_panic toNSGroup (pd_NameServerGroups protoDNSConfig) with
  | Ok groups =>
      let dnsUpdate := mkDnsConfig (pd_ServiceEnable protoDNSConfig) zones groups forwarderPort in
      Ok (match zones with [] => dnsUpdate | _ => addReverseZone dnsUpdate network end)
  | Err e => Err e
  | Panic p => Panic p
  end.

(** *** Peers *)

Definition offlineState (offlinePeer : RemotePeerConfig) : PeerState :=
  mkPeerState (Join (rpc_AllowedIps offlinePeer) ",") (rpc_WgPubKey offlinePeer) (rpc_Fqdn offlinePeer) StatusIdle.

Fixpoint excluded_of (ip : string) (peers : list RemotePeerConfig) (m : gmap string bool) : gmap string bool :=
  match peers with
  | [] => m
  | p :: peers' =>
      excluded_of ip peers'
        (fold_left (fun m allowedIP => if bool_decide (allowedIP <> ip) then m
                                       else <[rpc_WgPubKey p := true]> m) (rpc_AllowedIps p) m)
  end.

Definition toExcludedLazyPeers (rules : list ForwardRule) (peers : list RemotePeerConfig) : gmap string bool :=
  fold_left (fun m r => excluded_of (addr_String (TranslatedAddress r)) peers m) rules ∅.

(** [sort.Strings], by bytes. *)
Definition sort_Strings (l : list string) : list string := merge_sort String.le l.

Definition check_key (check : Checks) : string := Join (sort_Strings (Files check)) "|".
Definition normalize (checks : list Checks) : list string := sort_Strings (map check_key checks).
Definition isChecksEqual (checks1 checks2 : list Checks) : bool :=
  bool_decide (normalize checks1 = normalize checks2).

(** The frequency map: a missing key counts 0. *)
Definition freq_of (freq : gmap string Z) (key : string) : Z := default 0 (freq !! key).
Definition freq_add (freq : gmap string Z) (p : Prefix) : gmap string Z :=
  <[prefix_String p := wraps 64 (freq_of freq (prefix_String p) + 1)]> freq.

Fixpoint consume (freq : gmap string Z) (list2 : list string) : option (gmap string Z) :=
  match list2 with
  | [] => Some freq
  | s :: list2' =>
      match ParsePrefix s with
      | inr _ => None
      | inl p =>
          let key := prefix_String p in
          if freq_of freq key =? 0 then None
          else consume (<[key := freq_of freq key - 1]> freq) list2'
      end
  end.

Definition compareNetIPLists (list1 : list Prefix) (list2 : list string) : bool :=
  if negb (Nat.eqb (length list1) (length list2)) then false
  else match consume (fold_left freq_add list1 ∅) list2 with
       | None => false
       | Some freq => forallb (fun kv => kv.2 =? 0) (map_order freq)
       end.

(** A local network worth blocking: IPv4, not loopback, multicast or link-local. *)
Definition lan_prefix (n : IPNet) : option Prefix + error :=
  match AddrFromSlice (ipnet_IP n) with
  | None => inr (New "cast IPNet to netip.Addr")
  | Some addr =>
      let prefix := prefix_Masked (PrefixFrom (addr_Unmap addr) (mask_Size (ipnet_Mask n)).1) in
      let ip := prefix_ip prefix in
      inl (if negb (addr_Is4 ip) || addr_IsLoopback ip || addr_IsMulticast ip
              || addr_IsLinkLocalUnicast ip || addr_IsLinkLocalMulticast ip
           then None else Some prefix)
  end.

End conversions.

(** ** Helper lemmas *)

Lemma sort_Strings_perm l : sort_Strings l ≡ₚ l.
Proof. apply merge_sort_Permutation. Qed.

Lemma sort_Strings_eq l1 l2 : sort_Strings l1 = sort_Strings l2 <-> l1 ≡ₚ l2.
Proof.
  split; intros H.
  - by rewrite <- (sort_Strings_perm l1), H, sort_Strings_perm.
  - apply (StronglySorted_unique String.le).
    + apply (StronglySorted_merge_sort String.le).
    + apply (StronglySorted_merge_sort String.le).
    + etrans; [apply sort_Strings_perm |]. rewrite H. symmetry. apply sort_Strings_perm.
Qed.

(** File names the joined key keeps apart. *)
Definition file_ok (f : string) : Prop := has_char "|" f = false /\ f <> EmptyString.
Definition checks_ok (cs : list Checks) : Prop := Forall (fun c => Forall file_ok (Files c)) cs.

Lemma Join_inj c l1 l2 :
  Forall (fun f => has_char c f = false /\ f <> EmptyString) l1 ->
  Forall (fun f => has_char c f = false /\ f <> EmptyString) l2 ->
  Join l1 (chr c) = Join l2 (chr c) -> l1 = l2.
Proof.
  assert (Hne : forall f l, f <> EmptyString -> Join (f :: l) (chr c) <> EmptyString).
  { intros [|a f] [|g l] Hf; cbn; done. }
  intros H1 H2 HJ. destruct l1 as [|f1 l1], l2 as [|f2 l2]; [done | | |].
  - inversion_clear H2 as [|? ? [_ Hf] _]. by destruct (Hne f2 l2 Hf).
  - inversion_clear H1 as [|? ? [_ Hf] _]. by destruct (Hne f1 l1 Hf).
  - apply (f_equal (Split c)) in HJ.
    rewrite !Split_Join in HJ; [done | done | | done |];
      (eapply Forall_impl; [eassumption |]; by intros f []).
Qed.

Lemma check_key_eq a b :
  Forall file_ok (Files a) -> Forall file_ok (Files b) ->
  check_key a = check_key b <-> Files a ≡ₚ Files b.
Proof.
  intros Ha Hb. unfold check_key. rewrite <- sort_Strings_eq. split; [| by intros ->].
  apply Join_inj; by rewrite sort_Strings_perm.
Qed.

(** The frequency map of a list counts its printed prefixes. *)
Definition count (k : string) (l : list string) : Z := Z.of_nat (length (filter (k =.) l)).

Lemma count_cons k x l : count k (x :: l) = (if decide (k = x) then 1 else 0) + count k l.
Proof. unfold count. rewrite filter_cons. case_decide; cbn [length]; lia. Qed.

Lemma count_nonneg k l : 0 <= count k l <= Z.of_nat (length l).
Proof. unfold count. pose proof (length_filter (k =.) l). lia. Qed.

Lemma count_Permutation k l1 l2 : l1 ≡ₚ l2 -> count k l1 = count k l2.
Proof. intros H. unfold count. by rewrite H. Qed.

Lemma count_0 k l : count k l = 0 <-> k ∉ l.
Proof.
  unfold count. split.
  - intros H Hk. assert (Hf : k ∈ filter (k =.) l) by (by apply list_elem_of_filter).
    destruct (filter (k =.) l); [by apply elem_of_nil in Hf | cbn in H; lia].
  - intros Hk. rewrite filter_all_out; [done |]. by intros x Hx <-.
Qed.

Lemma count_perm l1 l2 : (forall k, count k l1 = count k l2) -> l1 ≡ₚ l2.
Proof.
  revert l2. induction l1 as [|x l1 IH]; intros l2 H.
  - destruct l2 as [|y l2]; [done |]. specialize (H y). rewrite count_cons, decide_True in H by done.
    pose proof (count_nonneg y l2). change (count y []) with 0 in H. lia.
  - assert (Hx : x ∈ l2).
    { apply dec_stable. intros Hn. apply count_0 in Hn. rewrite <- H, count_cons, decide_True in Hn by done.
      pose proof (count_nonneg x l1). lia. }
    apply elem_of_Permutation in Hx as [l2' Hl2]. rewrite Hl2. constructor. apply IH.
    intros k. specialize (H k). rewrite (count_Permutation k _ _ Hl2), !count_cons in H. lia.
Qed.

Lemma freq_of_insert k k' v m : freq_of (<[k := v]> m) k' = if decide (k' = k) then v else freq_of m k'.
Proof.
  unfold freq_of. case_decide; [subst; by rewrite lookup_insert_eq | by rewrite lookup_insert_ne].
Qed.

Lemma wraps_id w z : 0 < w -> - 2 ^ (w - 1) <= z < 2 ^ (w - 1) -> wraps w z = z.
Proof.
  intros Hw Hz. unfold wraps, wrapu.
  assert (Hp : 2 ^ w = 2 * 2 ^ (w - 1)) by (rewrite <- Z.pow_succ_r by lia; f_equal; lia).
  destruct (Z.ltb_spec (z mod 2 ^ w) (2 ^ (w - 1))) as [H|H].
  - destruct (Z.leb_spec 0 z); [apply Z.mod_small; lia |].
    rewrite <- (Z.mod_unique_pos z (2 ^ w) (-1) (z + 2 ^ w)) in H by lia. lia.
  - destruct (Z.leb_spec 0 z).
    + rewrite Z.mod_small in H by lia. lia.
    + rewrite <- (Z.mod_unique_pos z (2 ^ w) (-1) (z + 2 ^ w)) by lia. lia.
Qed.

Lemma freq_add_spec ps freq k :
  (forall k, 0 <= freq_of freq k) -> (forall k, freq_of freq k + Z.of_nat (length ps) < 2 ^ 63) ->
  freq_of (fold_left freq_add ps freq) k = freq_of freq k + count k (map prefix_String ps).
Proof.
  revert freq. induction ps as [|p ps IH]; intros freq H0 Hb; cbn [fold_left map].
  - change (count k []) with 0. lia.
  - cbn [length] in Hb.
    assert (Hw : forall k, freq_of (freq_add freq p) k
                 = freq_of freq k + if decide (k = prefix_String p) then 1 else 0).
    { intros k'. unfold freq_add. rewrite freq_of_insert. case_decide; [subst | lia].
      specialize (H0 (prefix_String p)). specialize (Hb (prefix_String p)). rewrite wraps_id; lia. }
    rewrite IH.
    + rewrite Hw, count_cons. lia.
    + intros k'. rewrite Hw. specialize (H0 k'). case_decide; lia.
    + intros k'. rewrite Hw. specialize (Hb k'). case_decide; lia.
Qed.

(** What consuming a list of prefixes from a frequency map leaves. *)
Lemma consume_spec list2 freq :
  (forall k, 0 <= freq_of freq k) ->
  match consume freq list2 with
  | Some freq' => exists ps, Forall2 (fun s p => ParsePrefix s = inl p) list2 ps /\
      forall k, freq_of freq k = freq_of freq' k + count k (map prefix_String ps) /\ 0 <= freq_of freq' k
  | None => forall ps, Forall2 (fun s p => ParsePrefix s = inl p) list2 ps ->
      exists k, freq_of freq k < count k (map prefix_String ps)
  end.
Proof.
  revert freq. induction list2 as [|s list2 IH]; intros freq H0; cbn [consume].
  - exists []. split; [constructor |]. intros k. change (count k (map _ [])) with 0. specialize (H0 k). lia.
  - destruct (ParsePrefix s) as [p|e] eqn:Es.
    2:{ intros ps H. inversion H; congruence. }
    destruct (Z.eqb_spec (freq_of freq (prefix_String p)) 0) as [Hz|Hz].
    { intros ps H. inversion H as [|? p' ? ps' Hp Hps]; subst. rewrite Es in Hp. injection Hp as <-.
      exists (prefix_String p). cbn [map]. rewrite count_cons, decide_True by done.
      pose proof (count_nonneg (prefix_String p) (map prefix_String ps')). lia. }
    set (freq1 := <[prefix_String p := _]> freq).
    assert (H1 : forall k, freq_of freq1 k = freq_of freq k - if decide (k = prefix_String p) then 1 else 0).
    { intros k. unfold freq1. rewrite freq_of_insert. case_decide; [subst; lia | lia]. }
    assert (H10 : forall k, 0 <= freq_of freq1 k).
    { intros k. rewrite H1. specialize (H0 k). case_decide; [subst; lia | lia]. }
    specialize (IH freq1 H10). destruct (consume freq1 list2) as [freq'|].
    + destruct IH as (ps & Hps & Hk). exists (p :: ps). split; [by constructor |].
      intros k. cbn [map]. rewrite count_cons. specialize (Hk k). rewrite H1 in Hk. lia.
    + intros ps H. inversion H as [|? p' ? ps' Hp Hps]; subst. rewrite Es in Hp. injection Hp as <-.
      destruct (IH ps' Hps) as [k Hk]. exists k. cbn [map]. rewrite count_cons, H1 in *. lia.
Qed.

Section theorems.
Context {wg : WgTypes} {rl : RouteLib} {el : EngLib} {mo : MapOrder}.

Lemma freq_all_zero (m : gmap string Z) :
  forallb (fun kv => kv.2 =? 0) (map_order m) = true <-> forall k, freq_of m k = 0.
Proof.
  rewrite forallb_forall. split.
  - intros H k. unfold freq_of. destruct (m !! k) as [v|] eqn:E; [cbn | done].
    apply elem_of_map_to_list in E. rewrite <- (map_order_perm m) in E.
    apply list_elem_of_In in E. by apply Z.eqb_eq, (H (k, v)).
  - intros H [k v] Hin. apply list_elem_of_In in Hin. rewrite (map_order_perm m) in Hin.
    apply elem_of_map_to_list in Hin. specialize (H k). unfold freq_of in H. rewrite Hin in H.
    by apply Z.eqb_eq.
Qed.

Lemma compareNetIPLists_iff list1 list2 :
  Z.of_nat (length list1) < 2 ^ 63 ->
  compareNetIPLists list1 list2 = true <->
  exists ps, Forall2 (fun s p => ParsePrefix s = inl p) list2 ps /\
    map prefix_String list1 ≡ₚ map prefix_String ps.
Proof.
  intros Hlen. unfold compareNetIPLists.
  assert (Hf : forall k, freq_of (fold_left freq_add list1 ∅) k = count k (map prefix_String list1)).
  { intros k. rewrite freq_add_spec; [done | done | by intros k']. }
  assert (H0 : forall k, 0 <= freq_of (fold_left freq_add list1 ∅) k).
  { intros k. rewrite Hf. apply count_nonneg. }
  pose proof (consume_spec list2 _ H0) as Hc. destruct (Nat.eqb_spec (length list1) (length list2)) as [E|E].
  2:{ split; [done |]. intros (ps & Hps & Hp). apply Forall2_length in Hps. apply Permutation_length in Hp.
      rewrite !length_map in Hp. congruence. }
  cbn [negb]. destruct (consume _ list2) as [freq'|].
  - destruct Hc as (ps & Hps & Hk). rewrite freq_all_zero. split.
    + intros Hz. exists ps. split; [done |]. apply count_perm. intros k. rewrite <- Hf.
      specialize (Hk k). specialize (Hz k). lia.
    + intros (ps' & Hps' & Hp) k. assert (ps' = ps) as ->.
      { clear -Hps Hps'. revert ps' Hps'. induction Hps as [|s p l ps Hs _ IH]; intros ps' Hps';
          inversion Hps'; subst; [done |]. f_equal; [congruence | auto]. }
      specialize (Hk k). rewrite Hf, (count_Permutation k _ _ Hp) in Hk. lia.
  - split; [done |]. intros (ps & Hps & Hp). destruct (Hc ps Hps) as [k Hk].
    rewrite Hf, (count_Permutation k _ _ Hp) in Hk. lia.
Qed.

(** [compareNetIPLists] is multiset equality of the printed prefixes: it answers
    true exactly when every string parses as a prefix and the strings, reprinted, are
    a permutation of the first list; the order in which the map is iterated does not
    matter. *)
Theorem compareNetIPLists_spec list1 list2 :
  Z.of_nat (length list1) < 2 ^ 63 ->
  compareNetIPLists list1 list2 = true <->
  exists ps, Forall2 (fun s p => ParsePrefix s = inl p) list2 ps /\
    map prefix_String list1 ≡ₚ map prefix_String ps.
Proof. apply compareNetIPLists_iff. Qed.

(** [isChecksEqual] compares posture checks as a set of sets: on file names that
    are not empty and hold no separator, it answers true exactly when the second list
    is a reordering of the first in which each check lists the same files in some order. *)
Theorem isChecksEqual_spec checks1 checks2 :
  checks_ok checks1 -> checks_ok checks2 ->
  isChecksEqual checks1 checks2 = true <->
  exists checks3, checks2 ≡ₚ checks3 /\ Forall2 (fun a b => Files a ≡ₚ Files b) checks1 checks3.
Proof.
  unfold checks_ok. intros H1 H2. unfold isChecksEqual, normalize. rewrite bool_decide_eq_true, sort_Strings_eq. split.
  - intros Hp. apply Permutation_map_inv in Hp as (checks3 & Hm & H3). exists checks3. split; [done |].
    rewrite (H3 : checks2 ≡ₚ checks3) in H2. clear H3. revert checks3 Hm H2.
    induction H1 as [|a l1 Ha _ IH]; intros [|b l3] Hm H2; try done. injection Hm as Hab Hm.
    inversion_clear H2 as [|? ? Hb H3]. constructor; [by apply check_key_eq | by apply IH].
  - intros (checks3 & H3 & Hf). rewrite H3 in H2 |- *. clear H3.
    cut (map check_key checks1 = map check_key checks3); [by intros -> |]. revert H1 H2.
    induction Hf as [|a b l1 l3 Hab _ IH]; intros H1 H2; cbn; [done |].
    inversion_clear H1. inversion_clear H2. f_equal; [by apply check_key_eq | by apply IH].
Qed.

(** The separator makes [isChecksEqual] coarser than that in general: a check on
    one file whose name holds the separator equals a check on two files, and an empty
    check equals a check on the empty name. *)
Theorem isChecksEqual_conflates a b :
  String.leb a b = true ->
  isChecksEqual [mkChecks [a +:+ "|" +:+ b]] [mkChecks [a; b]] = true /\
  isChecksEqual [mkChecks []] [mkChecks [EmptyString]] = true.
Proof.
  intros Hab. split; [| done]. unfold isChecksEqual, normalize. apply bool_decide_eq_true. f_equal.
  cbn [map]. unfold check_key. cbn [Files].
  assert (E : sort_Strings [a; b] = [a; b]).
  { apply (StronglySorted_unique String.le); [apply (StronglySorted_merge_sort String.le) | |].
    - repeat constructor. unfold String.le. by rewrite Hab.
    - apply sort_Strings_perm. }
  by rewrite E.
Qed.

(** Credentials survive the signal message: what [MarshalCredential] writes,
    [convertToOfferAnswer] reads back, with the port, the Rosenpass and relay
    addresses and the session identifier, unless the fragment or the password holds
    the separator; then the message is refused, never misread. *)
Theorem convertToOfferAnswer_MarshalCredential k port remote u p t pub addr relay sid :
  0 <= port < 2 ^ 32 ->
  let msg := MarshalCredential k port remote (mkCredential u p) t pub addr relay
               (SessionBytes <$> sid) in
  if has_char ":" u || has_char ":" p
  then exists e, convertToOfferAnswer msg = inr e
  else convertToOfferAnswer msg =
       inl (mkOfferAnswer (mkCredential u p) port NetbirdVersion pub addr relay sid).
Proof.
  intros Hport msg.
  assert (Hc : forall u', has_char ":" u' = true -> exists a b l, Split ":" u' = a :: b :: l).
  { intros u'. induction u' as [|c u' IH]; cbn [has_char Split]; [done |].
    destruct (Ascii.eqb c ":").
    - pose proof (Split_nonempty ":" u'). destruct (Split ":" u') as [|a l]; [done |]. by eexists _, _, _.
    - cbn [orb]. intros H. destruct (IH H) as (a & b & l & ->). by eexists _, _, _. }
  unfold convertToOfferAnswer, UnMarshalCredential, msg, MarshalCredential, GetBody. cbn [m_Body default id b_Payload UFrag Pwd].
  change (":" +:+ p) with (String ":" p).
  destruct (has_char ":" u) eqn:Eu; cbn [orb].
  - assert (E : exists a b d l, Split ":" (u +:+ String ":" p) = a :: b :: d :: l).
    { clear msg. induction u as [|c u IH]; [done |].
      change (String c u +:+ ?x) with (String c (u +:+ x)).
      cbn [Split has_char] in *. destruct (Ascii.eqb c ":"); cbn [orb] in Eu.
      - assert (Hu : has_char ":" (u +:+ String ":" p) = true) by (rewrite has_char_app; cbn; apply orb_true_r).
        destruct (Hc _ Hu) as (a & b & l & ->). by eexists _, _, _, _.
      - destruct (IH Eu) as (a & b & d & l & ->). by eexists _, _, _, _. }
    destruct E as (a & b & d & l & ->). by eexists.
  - rewrite Split_app by done. destruct (has_char ":" p) eqn:Ep.
    + destruct (Hc p Ep) as (a & b & l & ->). by eexists.
    + rewrite Split_free by done. cbn. unfold session_id. cbn.
      unfold wrapu. rewrite Z.mod_small by done.
      destruct sid; cbn; [by rewrite ICESessionID_bytes | done].
Qed.

(** The shutdown timeout is ten seconds plus a tenth per peer, capped at thirty:
    always between the two, and no int64 product overflows up to 2^36 peers. *)
Theorem calculateShutdownTimeout_bounds n :
  0 <= n < 2 ^ 36 ->
  calculateShutdownTimeout n = Z.min (10 * second + n * (100 * millisecond)) (30 * second) /\
  10 * second <= calculateShutdownTimeout n <= 30 * second.
Proof.
  intros Hn. unfold calculateShutdownTimeout, second, millisecond.
  rewrite (wraps_id 64 (n * _)) by lia. rewrite wraps_id by lia.
  destruct (Z.ltb_spec (30 * 1000000000) (10 * 1000000000 + n * (100 * 1000000))); lia.
Qed.

(** *** Routes *)

Lemma mask_top_idemp len bits n : mask_top len bits (mask_top len bits n) = mask_top len bits n.
Proof.
  unfold mask_top. f_equal. set (k := len - bits). destruct (Z.leb_spec 0 k).
  - rewrite Z.shiftr_shiftl_l by done. by rewrite Z.sub_diag, Z.shiftl_0_r.
  - assert (Hj : exists j, 0 < j /\ k = - j) by (exists (- k); lia). destruct Hj as (j & Hj & ->).
    rewrite !Z.shiftr_opp_r, Z.shiftl_opp_r.
    rewrite Z.shiftr_shiftl_l by lia. by rewrite Z.sub_diag, Z.shiftl_0_r.
Qed.

Lemma prefix_Masked_idemp p : prefix_Masked (prefix_Masked p) = prefix_Masked p.
Proof.
  unfold prefix_Masked. destruct (prefix_IsValid p) eqn:E; [| done].
  unfold prefix_IsValid in *. cbn [prefix_Bits prefix_ip]. rewrite E. f_equal.
  destruct (prefix_ip p); cbn [addr_mask]; [done | by rewrite mask_top_idemp ..].
Qed.

(** A route [toRoutes] keeps: it has domains, or a network that parses. *)
Definition route_ok (pr : ProtoRoute) : bool :=
  match pr_Domains pr, ParsePrefix (pr_Network pr) with [], inr _ => false | _, _ => true end.

(** The network a kept route gets. *)
Definition route_network (pr : ProtoRoute) : Prefix :=
  match pr_Domains pr, ParsePrefix (pr_Network pr) with
  | [], inl p => prefix_Masked p
  | _, _ => PrefixZero
  end.

Definition route_converted (pr : ProtoRoute) (r : Route) : Prop :=
  r_ID r = pr_ID pr /\ r_NetID r = pr_NetID pr /\ r_Peer r = pr_Peer pr /\ r_Metric r = pr_Metric pr /\
  r_Domains r = FromPunycodeList (pr_Domains pr) /\ r_Network r = route_network pr /\
  prefix_Masked (r_Network r) = r_Network r.

Lemma toRoute_spec pr :
  match toRoute pr with
  | Some r => route_ok pr = true /\ route_converted pr r
  | None => route_ok pr = false
  end.
Proof.
  unfold toRoute, route_ok, route_converted, route_network.
  destruct (pr_Domains pr) as [|d ds] eqn:Ed.
  - destruct (ParsePrefix (pr_Network pr)) as [p|e]; [| done]. cbn. rewrite Ed.
    repeat (split; [done |]). apply prefix_Masked_idemp.
  - cbn. by rewrite Ed.
Qed.

(** [toRoutes] keeps the order of the routes it is sent and drops exactly the
    static routes whose network does not parse; a static route's network is masked,
    a domain route's is the zero prefix (it is never read), and masking it again
    changes nothing. *)
Theorem toRoutes_spec protoRoutes :
  Forall2 route_converted (filter route_ok protoRoutes) (toRoutes protoRoutes).
Proof.
  induction protoRoutes as [|pr l IH]; [constructor |].
  change (toRoutes (pr :: l)) with (match toRoute pr with Some r => r :: toRoutes l | None => toRoutes l end).
  rewrite filter_cons. pose proof (toRoute_spec pr) as H. destruct (toRoute pr) as [r|].
  - destruct H as [Hok Hr]. case_decide as Hd; [by constructor | by rewrite Hok in Hd].
  - case_decide as Hd; [by rewrite H in Hd | done].
Qed.

(** *** The DNS configuration *)

Lemma map_panic_ok {A B} (f : A -> outcome B) l :
  match map_panic f l with
  | Ok ys => Forall2 (fun x y => f x = Ok y) l ys
  | Err e => exists x, x ∈ l /\ f x = Err e
  | Panic p => exists x, x ∈ l /\ f x = Panic p
  end.
Proof.
  induction l as [|x l IH]; cbn [map_panic]; [constructor |].
  destruct (f x) as [y|e|p] eqn:E; [| exists x; split; [left | done] ..].
  destruct (map_panic f l) as [ys|e|p]; [by constructor | |];
    destruct IH as (z & Hz & Ez); exists z; (split; [by right | done]).
Qed.

(** What each part of the settings becomes: the same values, an address parsed. *)
Record server_converted (p : ProtoNameServer) (n : NameServer) : Prop := {
  sc_IP : ParseAddr (pns_IP p) = inl (ns_IP n);
  sc_NSType : ns_NSType n = pns_NSType p;
  sc_Port : ns_Port n = pns_Port p
}.
Record group_converted (p : ProtoNSGroup) (g : NameServerGroup) : Prop := {
  gc_NameServers : Forall2 server_converted (pg_NameServers p) (nsg_NameServers g);
  gc_Primary : nsg_Primary g = pg_Primary p;
  gc_Domains : nsg_Domains g = pg_Domains p;
  gc_SearchDomainsEnabled : nsg_SearchDomainsEnabled g = pg_SearchDomainsEnabled p
}.
Record record_converted (p : ProtoRecord) (r : SimpleRecord) : Prop := {
  rc_Name : dr_Name r = prec_Name p;
  rc_Type : dr_Type r = prec_Type p;
  rc_Class : dr_Class r = prec_Class p;
  rc_TTL : dr_TTL r = prec_TTL p;
  rc_RData : dr_RData r = prec_RData p
}.
Record zone_converted (p : ProtoZone) (z : CustomZone) : Prop := {
  zc_Domain : cz_Domain z = pz_Domain p;
  zc_Records : Forall2 record_converted (pz_Records p) (cz_Records z);
  zc_SearchDomainDisabled : cz_SearchDomainDisabled z = pz_SearchDomainDisabled p;
  zc_SkipPTRProcess : cz_SkipPTRProcess z = pz_SkipPTRProcess p
}.

Lemma toNameServer_spec ns :
  match toNameServer ns with
  | Ok n => server_converted ns n
  | Err _ => False
  | Panic _ => exists e, ParseAddr (pns_IP ns) = inr e
  end.
Proof. unfold toNameServer, MustParseAddr. destruct (ParseAddr (pns_IP ns)) eqn:E; cbn; [by split | by eexists]. Qed.

Lemma toNSGroup_spec g :
  match toNSGroup g with
  | Ok n => group_converted g n
  | Err _ => False
  | Panic _ => exists ns e, ns ∈ pg_NameServers g /\ ParseAddr (pns_IP ns) = inr e
  end.
Proof.
  unfold toNSGroup. pose proof (map_panic_ok toNameServer (pg_NameServers g)) as H.
  destruct (map_panic toNameServer (pg_NameServers g)) as [ys|e|p]; cbn.
  - split; [| done | done | done]. eapply Forall2_impl; [exact H |]. intros ns n E.
    pose proof (toNameServer_spec ns) as Hs. by rewrite E in Hs.
  - destruct H as (x & _ & E). pose proof (toNameServer_spec x) as Hs. by rewrite E in Hs.
  - destruct H as (x & Hx & E). pose proof (toNameServer_spec x) as Hs. rewrite E in Hs.
    destruct Hs as [e' He]. by exists x, e'.
Qed.

Lemma Forall2_map_converted {A B} (f : A -> B) (P : A -> B -> Prop) l :
  (forall a, P a (f a)) -> Forall2 P l (map f l).
Proof. intros HP. induction l; cbn; by constructor. Qed.
Lemma toZone_spec z : zone_converted z (toZone z).
Proof. split; [done | | done | done]. apply Forall2_map_converted. by intros []. Qed.

Definition nameservers (c : ProtoDNSConfig) : list ProtoNameServer :=
  pd_NameServerGroups c ≫= pg_NameServers.

(** The port of the DNS forwarder: the last 16 bits of the int64 that was sent, or the
    library's default where these are 0. *)
Definition forwarder_port (sent port : Z) : Prop :=
  (sent mod 2 ^ 16 <> 0 /\ port = sent mod 2 ^ 16) \/ (sent mod 2 ^ 16 = 0 /\ port = ForwarderClientPort).

(** C28: [toDNSConfig] converts the settings field by field, in order: the service flag,
    every zone with its records and flags, every group of name servers with its domains
    and flags, every server's address, type and port, and the forwarder's port; when there
    is a zone, the network's reverse zone is added to that. It panics exactly where a name
    server's address does not parse, and never returns an error. *)
Theorem toDNSConfig_spec c network :
  match toDNSConfig c network with
  | Ok d => exists d0,
      d = (match pd_CustomZones c with [] => d0 | _ => addReverseZone d0 network end) /\
      dc_ServiceEnable d0 = pd_ServiceEnable c /\
      Forall2 zone_converted (pd_CustomZones c) (dc_CustomZones d0) /\
      Forall2 group_converted (pd_NameServerGroups c) (dc_NameServerGroups d0) /\
      forwarder_port (pd_ForwarderPort c) (dc_ForwarderPort d0)
  | Err _ => False
  | Panic _ => exists ns e, ns ∈ nameservers c /\ ParseAddr (pns_IP ns) = inr e
  end.
Proof.
  unfold toDNSConfig. pose proof (map_panic_ok toNSGroup (pd_NameServerGroups c)) as H.
  destruct (map_panic toNSGroup (pd_NameServerGroups c)) as [gs|e|p].
  - set (port := if _ =? 0 then _ else _).
    exists (mkDnsConfig (pd_ServiceEnable c) (map toZone (pd_CustomZones c)) gs port).
    split; [by destruct (pd_CustomZones c) |]. cbn [dc_ServiceEnable dc_NameServerGroups dc_CustomZones dc_ForwarderPort]. subst port.
    split; [done |]. split; [apply Forall2_map_converted, toZone_spec |]. split.
    + eapply Forall2_impl; [exact H |]. intros g n E. pose proof (toNSGroup_spec g) as Hs. by rewrite E in Hs.
    + unfold wrapu, forwarder_port. destruct (Z.eqb_spec (pd_ForwarderPort c mod 2 ^ 16) 0); [by right | by left].
  - destruct H as (x & _ & E). pose proof (toNSGroup_spec x) as Hs. by rewrite E in Hs.
  - destruct H as (g & Hg & E). pose proof (toNSGroup_spec g) as Hs. rewrite E in Hs.
    destruct Hs as (ns & e & Hns & He). exists ns, e. split; [| done].
    unfold nameservers. apply list_elem_of_bind. by exists g.
Qed.

(** *** Lazy connections *)

Lemma excluded_fold (ip k' : string) (ips : list string) (m : gmap string bool) :
  fold_left (fun m allowedIP => if bool_decide (allowedIP <> ip) then m else <[k' := true]> m) ips m
  = if bool_decide (ip ∈ ips) then <[k' := true]> m else m.
Proof.
  revert m. induction ips as [|x ips IH]; intros m; cbn [fold_left].
  - by rewrite bool_decide_eq_false_2 by apply not_elem_of_nil.
  - rewrite IH. destruct (decide (x = ip)) as [->|Hx].
    + rewrite (bool_decide_eq_false_2 (ip <> ip)) by naive_solver.
      rewrite (bool_decide_eq_true_2 (ip ∈ ip :: ips)) by left.
      case_bool_decide; [apply insert_insert_eq | done].
    + rewrite (bool_decide_eq_true_2 (x <> ip)) by done.
      assert (E : bool_decide (ip ∈ x :: ips) = bool_decide (ip ∈ ips)).
      { apply bool_decide_ext. rewrite elem_of_cons. naive_solver. }
      by rewrite E.
Qed.

Lemma excluded_of_spec ip peers m k :
  excluded_of ip peers m !! k = Some true <->
  m !! k = Some true \/ exists p, p ∈ peers /\ rpc_WgPubKey p = k /\ ip ∈ rpc_AllowedIps p.
Proof.
  revert m. induction peers as [|p peers IH]; intros m; cbn [excluded_of].
  - split; [by left |]. intros [H|(p & Hp & _)]; [done | by apply elem_of_nil in Hp].
  - rewrite IH, excluded_fold. case_bool_decide as Hip.
    + rewrite lookup_insert_Some. setoid_rewrite elem_of_cons. destruct (decide (rpc_WgPubKey p = k)); naive_solver.
    + setoid_rewrite elem_of_cons. naive_solver.
Qed.

Lemma toExcludedLazyPeers_iff rules peers k :
  toExcludedLazyPeers rules peers !! k = Some true <->
  exists r p, r ∈ rules /\ p ∈ peers /\ rpc_WgPubKey p = k /\
    addr_String (TranslatedAddress r) ∈ rpc_AllowedIps p.
Proof.
  unfold toExcludedLazyPeers.
  cut (forall m, fold_left (fun m r => excluded_of (addr_String (TranslatedAddress r)) peers m) rules m !! k
                 = Some true <->
       m !! k = Some true \/ exists r p, r ∈ rules /\ p ∈ peers /\ rpc_WgPubKey p = k /\
         addr_String (TranslatedAddress r) ∈ rpc_AllowedIps p).
  { intros H. rewrite H, lookup_empty. naive_solver. }
  induction rules as [|r rules IH]; intros m; cbn [fold_left].
  - split; [by left |]. intros [H|(r & ? & H & _)]; [done | by apply elem_of_nil in H].
  - rewrite IH, excluded_of_spec. setoid_rewrite elem_of_cons. naive_solver.
Qed.

Lemma dotted_no_slash n : has_char "/" (dotted n) = false.
Proof.
  assert (H : forall z, has_char "/" (itoa z) = false).
  { intros z. eapply all_chars_has_char; [apply itoa_chars | done]. }
  unfold dotted. by rewrite !has_char_app, !H.
Qed.

(** So no peer is ever excluded while management sends the allowed addresses as
    prefixes, as it does: a prefix's string is never an address's. *)
Theorem toExcludedLazyPeers_prefixes rules peers :
  Forall (fun r => addr_Is4 (TranslatedAddress r) = true) rules ->
  Forall (fun p => Forall (fun ip => has_char "/" ip = true) (rpc_AllowedIps p)) peers ->
  forall k, toExcludedLazyPeers rules peers !! k <> Some true.
Proof.
  intros Hr Hp k. rewrite toExcludedLazyPeers_iff. intros (r & p & Hir & Hip & _ & Hin).
  rewrite Forall_forall in Hr. specialize (Hr r Hir). rewrite Forall_forall in Hp. specialize (Hp p Hip).
  rewrite Forall_forall in Hp. specialize (Hp _ Hin).
  destruct (TranslatedAddress r); try done. cbn [addr_String] in Hp. by rewrite dotted_no_slash in Hp.
Qed.

(** *** Forwarded domains *)

(** The forwarder gets one entry per domain of the routes this peer serves, with
    the route's whole domain set and its resource identifier, and no other. *)
Theorem toRouteDomains_spec myPubKey routes e :
  e ∈ toRouteDomains myPubKey routes <->
  exists r, r ∈ routes /\ r_Peer r = myPubKey /\ fe_Domain e ∈ r_Domains r /\
    fe_Set e = NewDomainSet (r_Domains r) /\ fe_ResID e = GetResourceID r.
Proof.
  induction routes as [|r routes IH]; cbn [toRouteDomains].
  - split; [by intros ?%elem_of_nil | by intros (? & ?%elem_of_nil & _)].
  - setoid_rewrite elem_of_cons.
    assert (Hd : e ∈ domain_entries r <-> fe_Domain e ∈ r_Domains r /\
                 fe_Set e = NewDomainSet (r_Domains r) /\ fe_ResID e = GetResourceID r).
    { unfold domain_entries. rewrite list_elem_of_fmap. split.
      - intros (d & -> & Hin). done.
      - intros (Hin & Hs & Hi). exists (fe_Domain e). split; [| done]. destruct e; cbn in *. by subst. }
    case_bool_decide as E1; [| case_bool_decide as E2].
    + rewrite IH. split; [naive_solver |]. intros (r' & [->|Hr'] & Hp & Hd' & Hs); [| naive_solver].
      rewrite E1 in Hd'. by apply elem_of_nil in Hd'.
    + rewrite elem_of_app, Hd, IH. naive_solver.
    + rewrite IH. naive_solver.
Qed.

End theorems.

(** ** An instance to run the theorems on *)
Module SampleData.

#[export] Instance englib : EngLib.
Proof.
  refine {| URI := string * string * string;
            ParseURI s := if HasPrefix s "stun:" || HasPrefix s "turn:" then inl (s, "", "")
                          else inr (New "unknown scheme");
            with_credentials u user pass := (u.1.1, user, pass);
            ICESessionID := string; ICESessionIDFromBytes s := inl s; SessionBytes s := s;
            DomainSet := list string; NewDomainSet l := l; FromPunycodeList l := l;
            addReverseZone d _ := d; ForwarderClientPort := 5353;
            FwProtocol := Z; PortInfo := string;
            convertToFirewallProtocol p := if p =? 0 then inr (New "unknown") else inl p;
            convertPortInfo s := if bool_decide (s = "") then inr (New "invalid") else inl s;
            convertToIP s := match AddrFromSlice s with Some a => inl a | None => inr (New "invalid IP") end;
            NetbirdVersion := "0.60.0"; SliceDiff x y := filter (fun k => k ∉ y) x |}; [done | lia |].
  intros x y k. rewrite list_elem_of_filter. naive_solver.
Defined.

Definition ip1 : Prefix := mkPrefix (Addr4 1681915905) 32.   (* 100.64.0.1/32 *)
Definition ip2 : Prefix := mkPrefix (Addr4 167772160) 8.     (* 10.0.0.0/8 *)

End SampleData.

Import Keys SampleRoutes SampleData.

Lemma compareNetIPLists_spec_witness :
  compareNetIPLists [ip1; ip2] ["10.0.0.0/8"; "100.64.0.1/32"] = true /\
  exists ps, Forall2 (fun s p => ParsePrefix s = inl p) ["10.0.0.0/8"; "100.64.0.1/32"] ps /\
    map prefix_String [ip1; ip2] ≡ₚ map prefix_String ps.
Proof.
  split; [by vm_compute |]. apply (compareNetIPLists_spec [ip1; ip2]); by vm_compute.
Defined.

Lemma isChecksEqual_spec_witness :
  exists checks3, [mkChecks ["/bin/b"; "/bin/a"]; mkChecks []] ≡ₚ checks3 /\
    Forall2 (fun a b => Files a ≡ₚ Files b) [mkChecks []; mkChecks ["/bin/a"; "/bin/b"]] checks3.
Proof.
  apply isChecksEqual_spec; [| | by vm_compute];
    repeat (constructor; cbn); try done; by vm_compute.
Defined.

Lemma isChecksEqual_conflates_witness :
  isChecksEqual [mkChecks ["/a|/b"]] [mkChecks ["/a"; "/b"]] = true.
Proof. apply (isChecksEqual_conflates "/a" "/b"). by vm_compute. Defined.

Lemma convertToOfferAnswer_MarshalCredential_witness :
  convertToOfferAnswer
    (MarshalCredential (hex_encode "k") 51820 "remote" (mkCredential "frag" "secret") OFFER None "" "" (Some "12345678"))
  = inl (@mkOfferAnswer englib (mkCredential "frag" "secret") 51820 NetbirdVersion None "" "" (Some "12345678")).
Proof.
  apply (convertToOfferAnswer_MarshalCredential (el := englib) (hex_encode "k") 51820 "remote" "frag" "secret" OFFER None "" ""
           (Some "12345678")). lia.
Defined.

Lemma calculateShutdownTimeout_bounds_witness :
  calculateShutdownTimeout 7 = 10700000000 /\ 10 * second <= calculateShutdownTimeout 7 <= 30 * second.
Proof. split; [by vm_compute | apply (calculateShutdownTimeout_bounds 7); lia]. Defined.

Lemma toExcludedLazyPeers_prefixes_witness :
  toExcludedLazyPeers [mkForwardRule 6 "80" (Addr4 1681915905) "80"]
    [mkRemotePeerConfig "peer1" ["100.64.0.1/32"] "" ""] !! "peer1" <> Some true.
Proof. apply toExcludedLazyPeers_prefixes; repeat constructor. Defined.
