(* ===== verification/SignalClient.v ===== *)
(** * The signal client: [go/signal/client/grpc.go] and [worker.go]

    [GrpcClient] keeps one stream to the signal server: [Receive] connects it again
    whenever it breaks, [Send] and [SendToStream] use it. Each operation is one
    computation here; how they interleave with the goroutines that wait for the
    stream and with the worker is SignalSched. *)

From Stdlib Require Import ZArith Lia Ascii.
From stdpp Require Import base tactics list strings gmap.
From S2P Require Import Prelude GoStrings Netip Uapi Routes EngineData Grpc.

(** ** Data *)

(** [Status], a string in the source. *)
Inductive StreamStatus := StreamConnected | StreamDisconnected.

#[export] Instance StreamStatus_eq_dec : EqDecision StreamStatus.
Proof. solve_decision. Defined.

Record EncryptedMessage := mkEncryptedMessage { em_Key : string; em_RemoteKey : string; em_Body : string }.

Record GrpcClient := mkGrpcClient {
  c_key : Key;
  c_signalConn : ref;
  c_ctx : ref;
  c_stream : option ref;
  c_connectedCh : option ref;
  c_status : StreamStatus;
  c_connStateCallback : option ref;
  c_onReconnectedListenerFn : option ref;
  c_decryptionWorker : option ref;
  c_decryptionWorkerCancel : option ref
}.

Definition set_stream (v : option ref) (c : GrpcClient) : GrpcClient :=
  mkGrpcClient (c_key c) (c_signalConn c) (c_ctx c) v (c_connectedCh c) (c_status c) (c_connStateCallback c)
    (c_onReconnectedListenerFn c) (c_decryptionWorker c) (c_decryptionWorkerCancel c).
Definition set_connectedCh (v : option ref) (c : GrpcClient) : GrpcClient :=
  mkGrpcClient (c_key c) (c_signalConn c) (c_ctx c) (c_stream c) v (c_status c) (c_connStateCallback c)
    (c_onReconnectedListenerFn c) (c_decryptionWorker c) (c_decryptionWorkerCancel c).
Definition set_status (v : StreamStatus) (c : GrpcClient) : GrpcClient :=
  mkGrpcClient (c_key c) (c_signalConn c) (c_ctx c) (c_stream c) (c_connectedCh c) v (c_connStateCallback c)
    (c_onReconnectedListenerFn c) (c_decryptionWorker c) (c_decryptionWorkerCancel c).
Definition set_connStateCallback (v : option ref) (c : GrpcClient) : GrpcClient :=
  mkGrpcClient (c_key c) (c_signalConn c) (c_ctx c) (c_stream c) (c_connectedCh c) (c_status c) v
    (c_onReconnectedListenerFn c) (c_decryptionWorker c) (c_decryptionWorkerCancel c).
Definition set_onReconnected (v : option ref) (c : GrpcClient) : GrpcClient :=
  mkGrpcClient (c_key c) (c_signalConn c) (c_ctx c) (c_stream c) (c_connectedCh c) (c_status c)
    (c_connStateCallback c) v (c_decryptionWorker c) (c_decryptionWorkerCancel c).
Definition set_worker (w cancel : option ref) (c : GrpcClient) : GrpcClient :=
  mkGrpcClient (c_key c) (c_signalConn c) (c_ctx c) (c_stream c) (c_connectedCh c) (c_status c)
    (c_connStateCallback c) (c_onReconnectedListenerFn c) w cancel.

(** ** The calls the client makes *)

Inductive sigC : Set -> Type :=
  | Net {R : Set} (c : netC R) : sigC R
  (* the signal service *)
  | ConnectStream (ctx : ref) (id : string) : sigC (option ref * option error)
  | StreamRegistered (stream : ref) : sigC (list string + error)
  | StreamRecv (stream : ref) : sigC (option EncryptedMessage * option error)
  | StreamSend (stream : ref) (msg : EncryptedMessage) : sigC (option error)
  | UnarySend (ctx : ref) (msg : EncryptedMessage) : sigC (option error)
  (* encryption.EncryptMessage *)
  | EncryptBody (remote own : Key) (body : option Body) : sigC (string + error)
  (* channels, goroutines, the reconnect listener *)
  | MakeChan : sigC ref
  | CloseChan (ch : ref) : sigC unit
  | SelectDone (ctx ch : ref) : sigC unit
  | CallListener (fn : ref) : sigC unit
  | NewWorker (handler : ref) : sigC ref
  | GoWork (worker ctx : ref) : sigC unit
  (* the hand-over of a message; the select in which [Worker.AddMsg] queues it, unless the
     client is cancelled, and the loop of [Worker.Work] are [SignalSched.pipe_step] *)
  | AddMsg (worker ctx : ref) (msg : EncryptedMessage) : sigC unit
  | WgWait : sigC unit
  | BackoffReset : sigC unit.

#[export] Instance sig_net : HasNet sigC := @Net.

Definition ConnectTimeout : Z := 10 * second.
Definition SignalComponent : string := "signal".

Section client.
Context {wg : WgTypes} {gl : GrpcLib} {bl : BackoffLib} {sb : Sealing Body}.
Context {W : Type} `{!Handler sigC W}.

Definition SC := M sigC GrpcClient W.

(** ** Construction and closing *)

(** The connection of [NewClient]; its object starts as [newClient0]. *)
Definition NewClient_connect (ctx : ref) (addr : string) (tlsEnabled : bool) : M sigC (option ref) W ref :=
  Retry (let* conn := wrap (Wrap "create connection")
                        (check_val (call (Net (CreateConnection ctx addr tlsEnabled SignalComponent)))) in
         modify (fun _ => Some conn)) ;;;
  let* conn := get in
  deref "conn" conn ret.

Definition newClient0 (ctx : ref) (key : Key) (conn : ref) : GrpcClient :=
  mkGrpcClient key conn ctx None None StreamDisconnected None None None None.

Definition IsStreamConnected : SC bool :=
  let* c := get in ret (bool_decide (c_status c = StreamConnected)).
Definition GetStatus : SC StreamStatus := let* c := get in ret (c_status c).

Definition Close : SC unit :=
  let* c := get in
  match c_decryptionWorkerCancel c with Some cancel => call (Net (CtxCancel cancel)) | None => ret tt end ;;;
  call WgWait ;;;
  modify (set_worker None (c_decryptionWorkerCancel c)) ;;;
  check (call (Net (CloseConn (c_signalConn c)))).

Definition SetConnStateListener (notifier : ref) : SC unit := modify (set_connStateCallback (Some notifier)).
Definition SetOnReconnectedListener (fn : ref) : SC unit := modify (set_onReconnected (Some fn)).

(** ** Notifications *)

Definition notifyStreamDisconnected : SC unit := modify (set_status StreamDisconnected).

Definition notifyStreamConnected : SC unit :=
  modify (set_status StreamConnected) ;;;
  let* c := get in
  match c_connectedCh c with
  | Some ch => call (CloseChan ch) ;;; modify (set_connectedCh None)
  | None => ret tt
  end ;;;
  match c_onReconnectedListenerFn c with Some fn => call (CallListener fn) | None => ret tt end.

Definition getStreamStatusChan : SC ref :=
  let* c := get in
  match c_connectedCh c with
  | Some ch => ret ch
  | None =>
      let* ch := call MakeChan in
      modify (set_connectedCh (Some ch)) ;;;
      ret ch
  end.

Definition WaitStreamConnected : SC unit :=
  let* connected := IsStreamConnected in
  if connected : bool then ret tt
  else
    let* ch := getStreamStatusChan in
    let* c := get in
    call (SelectDone (c_ctx c) ch).

Definition notifyDisconnected (err : error) : SC unit :=
  let* c := get in
  match c_connStateCallback c with
  | None => ret tt
  | Some l => call (Net (MarkDisconnected l err))
  end.

Definition notifyConnected : SC unit :=
  let* c := get in
  match c_connStateCallback c with
  | None => ret tt
  | Some l => call (Net (MarkConnected l))
  end.

(** ** Messages *)

(** [decryptMessage] opens what the peer [msg.Key] sealed for this client. *)
Definition decryptMessage (key : Key) (msg : EncryptedMessage) : Message + error :=
  match ParseKey (em_Key msg) with
  | inr err => inr err
  | inl remoteKey =>
      match DecryptMessage remoteKey key (em_Body msg) with
      | inr err => inr err
      | inl body => inl (mkMessage (em_Key msg) (em_RemoteKey msg) (Some body))
      end
  end.

Definition encryptMessage (msg : Message) : SC EncryptedMessage :=
  let* c := get in
  match ParseKey (m_RemoteKey msg) with
  | inr err => fail err
  | inl remoteKey =>
      let* encryptedBody := check_val (call (EncryptBody remoteKey (c_key c) (m_Body msg))) in
      ret (mkEncryptedMessage (m_Key msg) (m_RemoteKey msg) encryptedBody)
  end.

(** ** Sending *)

Definition sig_Ready : SC bool := let* c := get in conn_ready (c_signalConn c).

(** [return err]. *)
Definition return_err (err : option error) : SC unit :=
  match err with Some e => fail e | None => ret tt end.

(** The attempts [attempt], [attempt + 1], ... of [Send], [left] of them; [last]
    is the error of the previous one. *)
Fixpoint send_loop (left : nat) (attempt attemptTimeout : Z) (last : option error)
    (encryptedMessage : EncryptedMessage) : SC unit :=
  match left with
  | O => return_err last
  | S left' =>
      let timeout := if 1 <? attempt then attempt * 5 * second else attemptTimeout in
      let* c := get in
      let* ctx := call (Net (CtxWithTimeout (c_ctx c) timeout)) in
      let* err := call (UnarySend ctx encryptedMessage) in
      call (Net (CtxCancel ctx)) ;;;
      if is_status err Canceled then return_err err
      else match err with
           | None => ret tt
           | Some _ => send_loop left' (attempt + 1) timeout err encryptedMessage
           end
  end.

Definition Send (msg : Message) : SC unit :=
  let* ready := sig_Ready in
  if negb ready then fail (New "no connection to signal")
  else
    let* encryptedMessage := encryptMessage msg in
    send_loop 4 0 ConnectTimeout None encryptedMessage.

Definition SendToStream (msg : EncryptedMessage) : SC unit :=
  let* ready := sig_Ready in
  if negb ready then fail (New "no connection to signal")
  else
    let* c := get in
    match c_stream c with
    | None => fail (New "connection to the Signal Exchange has not been established yet. Please call GrpcClient.Receive before sending messages")
    | Some stream => check (call (StreamSend stream msg))
    end.

Definition IsHealthy : SC bool :=
  let* c := get in
  let* st := call (Net (GetState (c_signalConn c))) in
  match known_health st with
  | Some b => ret b
  | None =>
      with_timeout (c_ctx c) (1 * second) (fun ctx =>
        let* err := call (UnarySend ctx (mkEncryptedMessage (Key_String (PublicKey (c_key c))) "dummy" EmptyString)) in
        match err with
        | Some e => notifyDisconnected e ;;; ret false
        | None => notifyConnected ;;; ret true
        end)
  end.

(** ** Receiving *)

Definition connect (ctx : ref) (key : string) : SC ref :=
  modify (set_stream None) ;;;
  let* r := call (ConnectStream ctx key) in
  modify (set_stream r.1) ;;;
  match r.2 with
  | Some err => fail err
  | None =>
      deref "stream" r.1 (fun stream =>
        let* registered := check_val (call (StreamRegistered stream)) in
        if bool_decide (registered = []) then
          fail (New "didn't receive a registration header from the Signal server whille connecting to the streams")
        else ret stream)
  end.

Definition startEncryptionWorker (handler : ref) : SC unit :=
  let* c := get in
  match c_decryptionWorker c with
  | Some _ => ret tt
  | None =>
      let* w := call (NewWorker handler) in
      modify (set_worker (Some w) (c_decryptionWorkerCancel c)) ;;;
      let* background := call (Net CtxBackground) in
      let* workerCtx := call (Net (CtxWithCancel background)) in
      modify (set_worker (Some w) (Some workerCtx)) ;;;
      call (GoWork w workerCtx)
  end.

(** The cases of the switch in [receive], all of which return the error. *)
Definition stream_broken (err : option error) : bool :=
  is_status err Canceled || (status_code err =? Unavailable) || is_EOF err || bool_decide (is_Some err).

Fixpoint receive (fuel : nat) (stream : ref) : SC unit :=
  match fuel with
  | O => panic "out of fuel"
  | S fuel' =>
      let* r := call (StreamRecv stream) in
      let '(msg, err) := r in
      if stream_broken err then return_err err
      else
        match msg with
        | None => receive fuel' stream
        | Some m =>
            let* c := get in
            deref "decryptionWorker" (c_decryptionWorker c) (fun w => call (AddMsg w (c_ctx c) m)) ;;;
            receive fuel' stream
        end
  end.

(** The operation that [Receive] retries: one connection to the stream, until it
    breaks. The first [GetState] is the one that is logged. *)
Definition receive_operation (fuel : nat) (ctx msgHandler : ref) : SC unit :=
  notifyStreamDisconnected ;;;
  let* c := get in
  call (Net (GetState (c_signalConn c))) ;;;
  let* connState := call (Net (GetState (c_signalConn c))) in
  if bool_decide (connState = Shutdown) then
    fail (Permanent (New "connection to signal has been shut down"))
  else if negb (bool_decide (connState = Ready) || bool_decide (connState = Idle)) then
    call (Net (WaitForStateChange (c_signalConn c) ctx connState)) ;;;
    fail (New "connection to signal is not ready")
  else
    with_cancel ctx (fun ctx' =>
      let* stream := connect ctx' (Key_String (PublicKey (c_key c))) in
      notifyStreamConnected ;;;
      notifyConnected ;;;
      startEncryptionWorker msgHandler ;;;
      let* r := try (receive fuel stream) in
      match r with
      | inl _ => ret tt
      | inr err =>
          if is_status (Some err) Canceled then ret tt
          else
            call BackoffReset ;;;
            notifyDisconnected err ;;;
            fail err
      end).

Definition Receive (fuel : nat) (ctx msgHandler : ref) : SC unit := Retry (receive_operation fuel ctx msgHandler).

End client.

(** ** Messages between two clients *)

(** What the theorems assume of the packages: sealing, and streams that deliver
    at most [N] messages before they break. *)
Class SignalWorld (W : Type) {wg : WgTypes} {gl : GrpcLib} {sb : Sealing Body} `{!Handler sigC W} := {
  EncryptBody_sealed : forall w remote own body b,
    (handle (EncryptBody remote own body) w).1 = inl b -> sealed remote own (default body0 body) b;
  ConnectStream_stream : forall w ctx id,
    (handle (ConnectStream ctx id) w).1.2 = None -> is_Some (handle (ConnectStream ctx id) w).1.1;
  stream_bound : nat;
  pending : W -> ref -> nat;
  pending_bound : forall w st, (pending w st <= stream_bound)%nat;
  pending_frame : forall (R : Set) (c : sigC R) w st, (pending (handle c w).2 st <= pending w st)%nat;
  pending_recv : forall w st, stream_broken (handle (StreamRecv st) w).1.2 = false ->
    (pending (handle (StreamRecv st) w).2 st < pending w st)%nat
}.

Section proofs.
Context {wg : WgTypes} {gl : GrpcLib} {bl : BackoffLib} {sb : Sealing Body}.
Context {W : Type} `{!Handler sigC W, !SignalWorld W}.
Notation St := (state sigC GrpcClient W).

(** The attempts a log holds, in the order they were made. *)
Definition sent (ev : event sigC) : option (EncryptedMessage * option error) :=
  match ev with
  | @Event _ R c a =>
      match c in sigC R' return R' -> option (EncryptedMessage * option error) with
      | UnarySend _ m => fun err => Some (m, err)
      | _ => fun _ => None
      end a
  end.
Notation sends := (logged sent).

Lemma decryptMessage_sealed own peer msg b :
  String.length (PublicKey own) = 32%nat ->
  m_Key msg = Key_String (PublicKey own) ->
  sealed (PublicKey peer) own (default body0 (m_Body msg)) b ->
  decryptMessage peer (mkEncryptedMessage (m_Key msg) (m_RemoteKey msg) b)
  = inl (mkMessage (m_Key msg) (m_RemoteKey msg) (Some (default body0 (m_Body msg)))).
Proof.
  intros Hl Hk Hs. unfold decryptMessage. cbn [em_Key em_RemoteKey em_Body].
  rewrite Hk, ParseKey_String by done. by rewrite (Hs peer eq_refl).
Qed.

(** What [encryptMessage] makes of a message: sealed for the key it names. *)
Definition sealed_for (own : Key) (msg : Message) (em : EncryptedMessage) : Prop :=
  em_Key em = m_Key msg /\ em_RemoteKey em = m_RemoteKey msg /\
  exists remote, ParseKey (m_RemoteKey msg) = inl remote /\
    sealed remote own (default body0 (m_Body msg)) (em_Body em).

Lemma encryptMessage_wp msg (s : St) (Q : EncryptedMessage + error -> St -> Prop) :
  (forall r s' evs, loc s' = loc s -> calls s' = evs ++ calls s -> sends evs = [] ->
     match r with inl em => sealed_for (c_key (loc s)) msg em | inr _ => True end -> Q r s') ->
  wp (encryptMessage msg) Q s.
Proof.
  intros HQ. unfold encryptMessage. wps.
  destruct (ParseKey (m_RemoteKey msg)) as [remote|e] eqn:Ek; wps; [|by apply (HQ _ _ [])].
  destruct r as [b|e]; cbn [wp_then]; [| by apply (HQ _ _ [Event (EncryptBody remote (c_key (loc s)) (m_Body msg)) (inr e)])].
  wps. eapply (HQ _ _ [_]); [done | reflexivity | done |]. split; [done |]. split; [done |].
  exists remote. split; [done |].
  pose proof (EncryptBody_sealed (world s) remote (c_key (loc s)) (m_Body msg) b) as Hs.
  rewrite H in Hs. by apply Hs.
Qed.

(** C32: a message that one client seals with [encryptMessage] for another is opened
    by the other's [decryptMessage] as the message that was sent, with the zero
    body for a missing one. *)
Theorem decryptMessage_encryptMessage peer msg (s : St) :
  String.length (PublicKey peer) = 32%nat -> String.length (PublicKey (c_key (loc s))) = 32%nat ->
  m_Key msg = Key_String (PublicKey (c_key (loc s))) ->
  m_RemoteKey msg = Key_String (PublicKey peer) ->
  wp (encryptMessage msg) (fun r _ =>
    match r with
    | inl em => decryptMessage peer em
                = inl (mkMessage (m_Key msg) (m_RemoteKey msg) (Some (default body0 (m_Body msg))))
    | inr _ => True
    end) s.
Proof.
  intros Hp Ho Hk Hr. apply encryptMessage_wp. intros [em|e] s' evs _ _ _; [|done].
  intros (Hek & Her & remote & Hpk & Hs). rewrite Hr, ParseKey_String in Hpk by done. injection Hpk as <-.
  destruct em as [ek er eb]. cbn in *. subst ek er. by eapply decryptMessage_sealed.
Qed.

(** ** Send *)

Definition retriable (a : option error) : Prop := is_Some a /\ is_status a Canceled = false.

(** At most [n] attempts to send [em], the last deciding the result. *)
Definition send_run (n : nat) (em : EncryptedMessage) (l : list (EncryptedMessage * option error))
    (r : unit + error) : Prop :=
  exists fails a, l = map (pair em) (fails ++ [a]) /\ (length fails < n)%nat /\ Forall retriable fails /\
    match r with
    | inl _ => a = None
    | inr e => a = Some e /\ (is_status a Canceled = true \/ S (length fails) = n)
    end.

Lemma send_run_next n em a l r :
  retriable a -> send_run n em l r -> send_run (S n) em ((em, a) :: l) r.
Proof.
  intros Ha (fails & b & -> & Hn & Hf & Hr). exists (a :: fails), b.
  split; [done |]. split; [cbn; lia |]. split; [by constructor |].
  destruct r; [done |]. destruct Hr as [-> [H|H]]; (split; [done |]); [by left | right; cbn; lia].
Qed.

Lemma send_run_nil n em : send_run (S n) em [(em, None)] (inl tt).
Proof. exists [], None. repeat split; [cbn; lia | done]. Qed.

Lemma send_run_last n em e :
  is_status (Some e) Canceled = true \/ n = 0%nat -> send_run (S n) em [(em, Some e)] (inr e).
Proof.
  intros H. exists [], (Some e). repeat split; [cbn; lia | done |]. destruct H as [H| ->]; [by left | by right].
Qed.

Lemma not_canceled_nil : is_status None Canceled = false.
Proof. unfold is_status, status_code. by rewrite FromError_nil. Qed.

Lemma send_loop_S n attempt tmo last em :
  send_loop (S n) attempt tmo last em
  = (let timeout := if 1 <? attempt then attempt * 5 * second else tmo in
     let* c := get in
     let* ctx := call (Net (CtxWithTimeout (c_ctx c) timeout)) in
     let* err := call (UnarySend ctx em) in
     call (Net (CtxCancel ctx)) ;;;
     if is_status err Canceled then return_err err
     else match err with
          | None => ret tt
          | Some _ => send_loop n (attempt + 1) timeout err em
          end).
Proof. done. Qed.

Lemma send_loop_wp n attempt tmo last em (s : St) (Q : unit + error -> St -> Prop) :
  (forall r evs s', calls s' = evs ++ calls s -> send_run (S n) em (sends evs) r -> Q r s') ->
  wp (send_loop (S n) attempt tmo last em) Q s.
Proof.
  revert attempt tmo last s Q. induction n as [|n IH]; intros attempt tmo last s Q HQ;
    rewrite send_loop_S; cbv zeta; wps; (destruct (is_status r0 Canceled) eqn:Ec;
      [destruct r0 as [e|]; [|by rewrite not_canceled_nil in Ec]; cbn [return_err]; wps;
       eapply (HQ _ [_; _; _]); [reflexivity | by apply send_run_last; left] |]);
    destruct r0 as [e|]; try (wps; eapply (HQ _ [_; _; _]); [reflexivity | by apply send_run_nil]).
  - cbn [send_loop return_err]. wps. eapply (HQ _ [_; _; _]); [reflexivity | by apply send_run_last; right].
  - apply IH. intros r2 evs s' Hc Hr. cbn [calls] in Hc.
    eapply (HQ _ (evs ++ [_; _; _])); [by rewrite Hc, <- (assoc_L (++)) |].
    rewrite logged_app. by apply send_run_next.
Qed.

Lemma sig_Ready_wp (s : St) (Q : bool + error -> St -> Prop) :
  (forall b s' evs, loc s' = loc s -> calls s' = evs ++ calls s -> sends evs = [] -> Q (inl b) s') ->
  wp sig_Ready Q s.
Proof.
  intros HQ. unfold sig_Ready, conn_ready. wps. case_bool_decide; wps.
  - by eapply (HQ _ _ [_]).
  - by eapply (HQ _ _ [_; _]).
Qed.

(** C21: [Send] seals the message once and hands the server that same ciphertext at
    most four times: every attempt but the last failed with something else than
    Canceled, the last decides. It returns nil exactly when the last attempt
    succeeded, and an error after an attempt only when that was canceled or the
    fourth; without an attempt it always returns an error. *)
Theorem Send_spec msg (s : St) :
  wp (Send msg) (fun r s' => exists evs, calls s' = evs ++ calls s /\
    ((sends evs = [] /\ exists e, r = inr e) \/
     exists em, sealed_for (c_key (loc s)) msg em /\ send_run 4 em (sends evs) r)) s.
Proof.
  unfold Send. wps. apply sig_Ready_wp. intros b s1 e1 L1 C1 N1. cbn [wp_then].
  destruct b; cbn [negb]; [|wps; exists e1; eauto]. wps. apply encryptMessage_wp.
  intros r s2 e2 L2 C2 N2 Hr. destruct r as [em|e]; cbn [wp_then].
  - apply (send_loop_wp 3). intros r e3 s3 C3 H3. exists (e3 ++ e2 ++ e1).
    split; [by rewrite C3, C2, C1, !(assoc_L (++)) |].
    right. exists em. rewrite L1 in Hr. split; [done |]. by rewrite !logged_app, N1, N2.
  - exists (e2 ++ e1). split; [by rewrite C2, C1, (assoc_L (++)) |]. left. rewrite logged_app, N1, N2. eauto.
Qed.

(** ** Receive *)

(** A message a stream delivered, a message handed to a worker, a worker started. *)
Definition received (ev : event sigC) : option EncryptedMessage :=
  match ev with
  | @Event _ R c a =>
      match c in sigC R' return R' -> option EncryptedMessage with
      | StreamRecv _ => fun r => if stream_broken r.2 then None else r.1
      | _ => fun _ => None
      end a
  end.
Definition added (ev : event sigC) : option (ref * EncryptedMessage) :=
  match ev with Event (AddMsg w _ m) _ => Some (w, m) | _ => None end.
Definition started (ev : event sigC) : option ref :=
  match ev with Event (GoWork w _) _ => Some w | _ => None end.

(** From [s] to [s'] every message received was handed on, in the order of the
    stream, all of them to the client's one worker, which was started if it was
    not there. *)
Definition forwards (s s' : St) : Prop := exists evs,
  calls s' = evs ++ calls s /\
  map snd (logged added evs) = logged received evs /\
  Forall (fun p => c_decryptionWorker (loc s') = Some p.1) (logged added evs) /\
  match c_decryptionWorker (loc s) with
  | Some w => c_decryptionWorker (loc s') = Some w /\ logged started evs = []
  | None => logged started evs = option_list (c_decryptionWorker (loc s'))
  end.

Lemma forwards_refl s : forwards s s.
Proof.
  exists []. split; [done |]. split; [done |]. split; [constructor |].
  by destruct (c_decryptionWorker (loc s)).
Qed.

Lemma forwards_trans s1 s2 s3 : forwards s1 s2 -> forwards s2 s3 -> forwards s1 s3.
Proof.
  intros (e1 & C1 & R1 & A1 & W1) (e2 & C2 & R2 & A2 & W2). exists (e2 ++ e1).
  split; [by rewrite C2, C1, (assoc_L (++)) |].
  rewrite !logged_app. split; [by rewrite map_app, R1, R2 |]. split.
  - apply Forall_app. split; [|done]. eapply Forall_impl; [exact A1 |]. intros p Hp. cbn in *.
    rewrite Hp in W2. by destruct W2.
  - destruct (c_decryptionWorker (loc s1)) as [w|].
    + destruct W1 as [Hw ->]. rewrite Hw in W2. by destruct W2 as [-> ->].
    + rewrite W1. destruct (c_decryptionWorker (loc s2)) as [w|]; cbn [option_list]; [|done].
      by destruct W2 as [-> ->].
Qed.

(** A call that is none of the three, and leaves the worker alone. *)
Lemma forwards_call s s' ev :
  calls s' = ev :: calls s -> c_decryptionWorker (loc s') = c_decryptionWorker (loc s) ->
  received ev = None -> added ev = None -> started ev = None -> forwards s s'.
Proof.
  intros Hc Hw Hr Ha Hs. exists [ev]. split; [done |]. unfold logged. cbn. rewrite Hr, Ha, Hs, Hw.
  split; [done |]. split; [constructor |]. by destruct (c_decryptionWorker (loc s)).
Qed.
Lemma forwards_modify s s' :
  calls s' = calls s -> c_decryptionWorker (loc s') = c_decryptionWorker (loc s) -> forwards s s'.
Proof.
  intros Hc Hw. exists []. split; [done |]. rewrite Hw. split; [done |]. split; [constructor |].
  by destruct (c_decryptionWorker (loc s)).
Qed.

Lemma pass_modify s0 f :
  (forall c, c_decryptionWorker (f c) = c_decryptionWorker c) -> preserves (forwards s0) (modify (W := W) f).
Proof. intros Hf s Hs. eapply forwards_trans; [exact Hs |]. apply forwards_modify; [done | apply Hf]. Qed.
Lemma pass_call s0 {R : Set} (c : sigC R) :
  (forall a, received (Event c a) = None /\ added (Event c a) = None /\ started (Event c a) = None) ->
  preserves (forwards s0) (call c).
Proof.
  intros Hc s Hs. unfold call. destruct (handle c (world s)) as [r w]. eapply forwards_trans; [exact Hs |].
  destruct (Hc r) as (Hr & Ha & Hst). by eapply forwards_call.
Qed.

#[local] Hint Extern 1 (preserves (forwards _) (modify _)) => apply pass_modify; done : go_inv.
#[local] Hint Extern 1 (preserves (forwards _) (call _)) => apply pass_call; by intros : go_inv.

Lemma pass_notifyStreamConnected s0 : preserves (forwards s0) notifyStreamConnected.
Proof. unfold notifyStreamConnected. preserves. Qed.
Lemma pass_notifyConnected s0 : preserves (forwards s0) notifyConnected.
Proof. unfold notifyConnected. preserves. Qed.
Lemma pass_notifyDisconnected s0 e : preserves (forwards s0) (notifyDisconnected e).
Proof. unfold notifyDisconnected. preserves. Qed.
Lemma pass_connect s0 ctx key : preserves (forwards s0) (connect ctx key).
Proof. unfold connect. preserves. Qed.

Lemma startEncryptionWorker_wp handler s0 (s : St) (Q : unit + error -> St -> Prop) :
  forwards s0 s ->
  (forall s', forwards s0 s' -> is_Some (c_decryptionWorker (loc s')) -> Q (inl tt) s') ->
  wp (startEncryptionWorker handler) Q s.
Proof.
  intros Hf HQ. unfold startEncryptionWorker. wps.
  destruct (c_decryptionWorker (loc s)) as [w|] eqn:Ew; wps; [by apply HQ |].
  destruct r2. apply HQ; [|by eexists]. eapply forwards_trans; [exact Hf |].
  exists [Event (GoWork r r1) tt; Event (Net (CtxWithCancel r0)) r1; Event (Net CtxBackground) r0;
          Event (NewWorker handler) r].
  split; [done |]. split; [done |]. split; [constructor |]. by rewrite Ew.
Qed.

Lemma stream_broken_err err : stream_broken err = true -> is_Some err.
Proof.
  destruct err; [by eexists |]. unfold stream_broken, is_status, status_code. rewrite FromError_nil. done.
Qed.

Lemma receive_wp fuel stream s0 (s : St) (Q : unit + error -> St -> Prop) :
  forwards s0 s -> is_Some (c_decryptionWorker (loc s)) -> (pending (world s) stream < fuel)%nat ->
  (forall e m s' tl, forwards s0 s' -> calls s' = Event (StreamRecv stream) (m, Some e) :: tl ->
     Q (inr e) s') ->
  wp (receive fuel stream) Q s.
Proof.
  revert s. induction fuel as [|fuel IH]; intros s Hf Hw Hp HQ; [lia |]. cbn [receive]. wps.
  destruct r as [msg err]. destruct (stream_broken err) eqn:Eb.
  - destruct (stream_broken_err err Eb) as [e ->]. cbn [return_err]. wps.
    eapply HQ; [|reflexivity]. eapply forwards_trans; [exact Hf |].
    eapply forwards_call; [reflexivity | done | | done | done]. cbn. by rewrite Eb.
  - pose proof (pending_recv (world s) stream) as Hd. rewrite H in Hd. cbn in Hd. specialize (Hd Eb).
    destruct msg as [m|].
    + wps. destruct Hw as [w0 Hw]. rewrite Hw. cbn [deref]. wps. apply IH; [| by eexists | | done].
      * eapply forwards_trans; [exact Hf |].
        exists [Event (AddMsg w0 (c_ctx (loc s)) m) r; Event (StreamRecv stream) (Some m, err)].
        split; [done |]. unfold logged. cbn. rewrite Eb, Hw. split; [done |]. split; [by repeat constructor | done].
      * cbn [world]. pose proof (pending_frame _ (AddMsg w0 (c_ctx (loc s)) m) w stream) as Hq.
        cbn [world] in *. rewrite H0 in Hq. cbn in Hq. lia.
    + apply IH; [| done | cbn; lia | done]. eapply forwards_trans; [exact Hf |].
      eapply forwards_call; [reflexivity | done | | done | done]. cbn. by rewrite Eb.
Qed.

Lemma no_panic_notifyStreamConnected : no_panic (W := W) notifyStreamConnected.
Proof. unfold notifyStreamConnected. no_panic. Qed.
Lemma no_panic_notifyConnected : no_panic (W := W) notifyConnected.
Proof. unfold notifyConnected. no_panic. Qed.
Lemma no_panic_notifyDisconnected e : no_panic (W := W) (notifyDisconnected e).
Proof. unfold notifyDisconnected. no_panic. Qed.

Lemma connect_wp ctx key s0 (s : St) (Q : ref + error -> St -> Prop) :
  forwards s0 s -> (forall r s', forwards s0 s' -> Q r s') -> wp (connect ctx key) Q s.
Proof.
  intros Hf. apply wp_inv; [|apply pass_connect | done].
  unfold connect. wps. destruct r as [o [e|]]; cbn [snd]; wps; [done |].
  pose proof (ConnectStream_stream (world s) ctx key) as Hs. cbn [world] in *. rewrite H in Hs. destruct (Hs eq_refl) as [st Hst].
  cbn in Hst. subst o. cbn [fst deref]. wps. destruct r as [l|e]; cbn [wp_then]; [|done]. by case_bool_decide; wps.
Qed.

(** The last things done: a stream was read and answered Canceled, and its context
    was cancelled. *)
Definition read_canceled (s : St) : Prop := exists ctx u stream m e tl,
  calls s = Event (Net (CtxCancel ctx)) u :: Event (StreamRecv stream) (m, Some e) :: tl /\
  is_status (Some e) Canceled = true.

Lemma receive_operation_wp fuel ctx handler s0 (s : St) :
  (stream_bound < fuel)%nat -> forwards s0 s ->
  wp (receive_operation fuel ctx handler)
    (fun r s' => forwards s0 s' /\ (r = inl tt -> read_canceled s')) s.
Proof.
  intros Hn Hf. unfold receive_operation, notifyStreamDisconnected. wps.
  set (s1 := mkState _ _ _).
  assert (F1 : forwards s0 s1).
  { eapply forwards_trans; [exact Hf |]. exists [Event (Net (GetState (c_signalConn (loc s)))) r0; Event (Net (GetState (c_signalConn (loc s)))) r].
    split; [done |]. split; [done |]. split; [constructor |]. cbn. by destruct (c_decryptionWorker (loc s)). }
  destruct (bool_decide (r0 = Shutdown)); [by wps |]. destruct (negb _).
  { wps. split; [|done]. eapply forwards_trans; [exact F1 |]. by eapply forwards_call. }
  unfold with_cancel, with_ctx. wps. set (s2 := mkState _ _ _).
  assert (F2 : forwards s0 s2) by (eapply forwards_trans; [exact F1 | by eapply forwards_call]).
  apply (connect_wp _ _ s0); [exact F2 |]. intros [stream|e] s3 F3; cbn [wp_then].
  all: wps.
  2: split; [eapply forwards_trans; [exact F3 | by eapply forwards_call] | done].
  eapply wp_inv; [apply no_panic_wp, no_panic_notifyStreamConnected | apply pass_notifyStreamConnected | exact F3 |].
  intros r3 s4 F4; destruct r3; cbn [wp_then]; wps.
  2: split; [eapply forwards_trans; [exact F4 | by eapply forwards_call] | done].
  eapply wp_inv; [apply no_panic_wp, no_panic_notifyConnected | apply pass_notifyConnected | exact F4 |].
  intros r3 s5 F5; destruct r3; cbn [wp_then]; wps.
  2: split; [eapply forwards_trans; [exact F5 | by eapply forwards_call] | done].
  apply (startEncryptionWorker_wp _ s0); [exact F5 |]. intros s6 F6 Hw. cbn [wp_then]. wps.
  apply (receive_wp _ _ s0); [exact F6 | exact Hw | pose proof (pending_bound (world s6) stream); lia |].
  intros e m s7 tl F7 C7. cbn [wp_then]. destruct (is_status (Some e) Canceled) eqn:Ec; wps.
  - split; [eapply forwards_trans; [exact F7 | by eapply forwards_call] |]. intros _.
    cbn [calls]. rewrite C7. by repeat eexists.
  - set (s8 := mkState _ _ _).
    assert (F8 : forwards s0 s8) by (eapply forwards_trans; [exact F7 | by eapply forwards_call]).
    eapply wp_inv; [apply no_panic_wp, no_panic_notifyDisconnected | apply pass_notifyDisconnected | exact F8 |].
    intros r9 s9 F9. destruct r9; cbn [wp_then]; wps; (split; [|done]);
      (eapply forwards_trans; [exact F9 | by eapply forwards_call]).
Qed.

(** C8: however often [Receive] reconnects, and whatever ends it, every message its
    streams delivered was handed on exactly once and in the order of the streams,
    all of them to one worker, which was started at most once; no step panics. It
    returns nil only after a stream answered Canceled. [fuel] bounds the reads of
    one stream. *)
Theorem Receive_forwards fuel ctx handler (s : St) :
  (stream_bound < fuel)%nat ->
  wp (Receive fuel ctx handler) (fun r s' => forwards s s' /\ (r = inl tt -> read_canceled s')) s.
Proof.
  intros Hn. apply (Retry_wp (forwards s)); [|apply forwards_refl]. intros s1 F1.
  eapply wp_mono; [by apply (receive_operation_wp _ _ _ s) |]. intros [[]|e] s2 [F2 H2]; [done |].
  destruct (as_permanent e) as [e'|]; [done |]. intros w.
  assert (F3 : forwards s (elapse s2 w)) by (eapply forwards_trans; [exact F2 | by apply forwards_modify]).
  split; [exact F3 |]. by intros.
Qed.
End proofs.

(** ** A signal server to run the theorems on *)
Module SampleSignal.
Import Keys SampleGrpc.

#[export] Instance Body_eq_dec : EqDecision Body.
Proof. assert (EqDecision RosenpassConfig) by solve_decision. solve_decision. Defined.

Definition hello : Body := mkBody OFFER "frag:secret" 51820 "0.60.0" None "" None.
Definition me : Key := key "A".
Definition peer : Key := key "B".

(** It seals one message. *)
#[export] Instance sealing : Sealing Body := fun _ _ b =>
  if bool_decide (b = "sealed hello") then inl hello else inr (New "decryption failed").

(** The objects made so far, and the messages the stream still delivers before it
    is cancelled; the server fails to take the first two messages sent. *)
Record World := mkWorld { next : Z; left : nat; failures : nat }.

Definition msg1 : EncryptedMessage := mkEncryptedMessage (Key_String peer) (Key_String me) "sealed hello".

#[export] Instance handler : Handler sigC World := fun R c w =>
  let fresh := (next w, mkWorld (next w + 1) (left w) (failures w)) in
  match c in sigC R return R * World with
  | Net n =>
      match n in netC R return R * World with
      | CreateConnection _ _ _ _ => (inl (next w), mkWorld (next w + 1) (left w) (failures w))
      | GetState _ => (Ready, w)
      | WaitForStateChange _ _ _ => (true, w)
      | CloseConn _ => (None, w)
      | CtxWithCancel _ | CtxWithTimeout _ _ | CtxBackground => fresh
      | CtxCancel _ | MarkDisconnected _ _ | MarkConnected _ => (tt, w)
      end
  | ConnectStream _ _ => ((Some 7, None), w)
  | StreamRegistered _ => (inl ["1"], w)
  | StreamRecv _ =>
      match Nat.min 3 (left w) with
      | O => ((None, Some (Status Canceled "canceled")), w)
      | S n => ((Some msg1, None), mkWorld (next w) n (failures w))
      end
  | StreamSend _ _ => (None, w)
  | UnarySend _ _ =>
      match failures w with
      | O => (None, w)
      | S n => (Some (Status Unavailable "unavailable"), mkWorld (next w) (left w) n)
      end
  | EncryptBody _ _ b => (if bool_decide (default body0 b = hello) then inl "sealed hello" else inr (New "too long"), w)
  | MakeChan => fresh
  | CloseChan _ | SelectDone _ _ | CallListener _ => (tt, w)
  | NewWorker _ => fresh
  | GoWork _ _ | AddMsg _ _ _ | WgWait | BackoffReset => (tt, w)
  end.

#[export] Instance signal_world : SignalWorld World.
Proof.
  refine {| stream_bound := 3; pending w _ := Nat.min 3 (left w) |}.
  - intros w remote own body b Hb. cbn in Hb. case_bool_decide as Hd; [|done]. injection Hb as <-.
    intros k _. unfold DecryptMessage, sealing. by rewrite bool_decide_eq_true_2, Hd.
  - intros w ctx id _. by eexists.
  - intros w _. lia.
  - intros R c w st. destruct c; cbn -[Nat.min]; try lia; [destruct c; cbn -[Nat.min]; lia | |].
    + destruct (Nat.min 3 (left w)) eqn:E; cbn -[Nat.min]; lia.
    + destruct (failures w); cbn -[Nat.min]; lia.
  - intros w st. cbn -[Nat.min]. destruct (Nat.min 3 (left w)) eqn:E; cbn -[Nat.min]; [done | lia].
Defined.

Definition client : state sigC GrpcClient World := mkState (newClient0 1 me 2) (mkWorld 10 2 2) [].
Definition offer : Message := mkMessage (Key_String me) (Key_String peer) (Some hello).

End SampleSignal.

Import Keys SampleGrpc SampleSignal.

(** Two attempts fail, the third is taken. *)
Example Send_retries : map snd (logged sent (calls (Send offer client).2))
  = [Some (Status Unavailable "unavailable"); Some (Status Unavailable "unavailable"); None].
Proof. by vm_compute. Qed.

Lemma decryptMessage_encryptMessage_witness :
  wp (encryptMessage offer) (fun r _ =>
    match r with
    | inl em => decryptMessage peer em = inl (mkMessage (Key_String me) (Key_String peer) (Some hello))
    | inr _ => True
    end) client.
Proof. apply (decryptMessage_encryptMessage peer offer client); by vm_compute. Defined.

Lemma Receive_forwards_witness :
  wp (Receive 4 1 5) (fun r s' => forwards client s' /\ (r = inl tt -> read_canceled s')) client.
Proof. apply (Receive_forwards 4 1 5 client). cbn. lia. Defined.
