(* ===== verification/SignalSched.v ===== *)
(** * The goroutines around the signal client

    [go/signal/client/grpc.go] and [worker.go] once more, where operations of several
    goroutines interleave. [waiters]: goroutines in [WaitStreamConnected], against
    the notifications of [Receive]; every step is one of the client's operations
    under its mutex. [pipe]: the worker's channel between [receive], which adds the
    messages, and [Work], which decrypts and handles them. *)

From Stdlib Require Import ZArith Lia Ascii.
From stdpp Require Import base tactics list strings gmap fin_sets sets.
From S2P Require Import Prelude GoStrings Netip Uapi Routes EngineData Grpc SignalClient.

(** ** Waiting for the stream *)

(** Where a goroutine is in [WaitStreamConnected]: before the test of the status,
    before it takes the channel, in the select, or past it. *)
Inductive pc := AtStart | AtLock | AtSelect (ch : ref) | Returned.

(** A channel is an object of its own. *)
Class ChanWorld (W : Type) `{!Handler sigC W} := {
  chans : W -> Z -> Prop;   (* the channels made so far *)
  chans_frame : forall (R : Set) (c : sigC R) w ch, chans w ch -> chans (handle c w).2 ch;
  MakeChan_fresh : forall w, ~ chans w (handle MakeChan w).1 /\
    chans (handle MakeChan w).2 (handle MakeChan w).1
}.

Section waiters.
Context {W : Type} `{!Handler sigC W, !ChanWorld W}.
Notation St := (state sigC GrpcClient W).

Definition more (w w' : W) : Prop := forall ch, chans w ch -> chans w' ch.

(** The channels closed so far, in order. *)
Definition closing (ev : event sigC) : option ref :=
  match ev with Event (CloseChan ch) _ => Some ch | _ => None end.
Notation closed s := (logged closing (calls s)).

Inductive step : St * list pc -> St * list pc -> Prop :=
  | step_connected s s' ws : notifyStreamConnected s = (Ok tt, s') -> step (s, ws) (s', ws)
  | step_disconnected s s' ws : notifyStreamDisconnected s = (Ok tt, s') -> step (s, ws) (s', ws)
  | step_other s s' ws evs :
      (* anything else the client or the outside does *)
      c_connectedCh (loc s') = c_connectedCh (loc s) -> c_status (loc s') = c_status (loc s) ->
      more (world s) (world s') ->
      calls s' = evs ++ calls s -> logged closing evs = [] -> step (s, ws) (s', ws)
  | step_enter s ws : step (s, ws) (s, ws ++ [AtStart])
  | step_connected_already s ws i :
      ws !! i = Some AtStart -> IsStreamConnected s = (Ok true, s) -> step (s, ws) (s, <[i := Returned]> ws)
  | step_wait s ws i :
      ws !! i = Some AtStart -> IsStreamConnected s = (Ok false, s) -> step (s, ws) (s, <[i := AtLock]> ws)
  | step_get s s' ws i ch :
      ws !! i = Some AtLock -> getStreamStatusChan s = (Ok ch, s') -> step (s, ws) (s', <[i := AtSelect ch]> ws)
  | step_released s ws i ch :
      ws !! i = Some (AtSelect ch) -> ch ∈ closed s -> step (s, ws) (s, <[i := Returned]> ws)
  | step_ctx_done s ws i ch :
      ws !! i = Some (AtSelect ch) -> step (s, ws) (s, <[i := Returned]> ws).

(** Without interference, the steps of one goroutine are [WaitStreamConnected]. *)
Lemma WaitStreamConnected_steps (s : St) :
  WaitStreamConnected s
  = match IsStreamConnected s with
    | (Ok true, s1) => (Ok tt, s1)
    | (Ok false, s1) =>
        match getStreamStatusChan s1 with
        | (Ok ch, s2) => call (SelectDone (c_ctx (loc s2)) ch) s2
        | (Err e, s2) => (Err e, s2)
        | (Panic p, s2) => (Panic p, s2)
        end
    | (Err e, s1) => (Err e, s1)
    | (Panic p, s1) => (Panic p, s1)
    end.
Proof.
  unfold WaitStreamConnected, bind. destruct (IsStreamConnected s) as [[[]| |] s1]; done.
Qed.

(** What holds throughout: a goroutine in the select waits on a channel that was
    closed or is the one to be closed next, which is open; no channel was closed
    twice. *)
Record waiting_ok (c : St * list pc) : Prop := mkWaitingOk {
  wo_select : forall i ch, c.2 !! i = Some (AtSelect ch) ->
    ch ∈ closed c.1 \/ c_connectedCh (loc c.1) = Some ch;
  wo_open : forall ch, c_connectedCh (loc c.1) = Some ch -> ch ∉ closed c.1 /\ chans (world c.1) ch;
  wo_closed : forall ch, ch ∈ closed c.1 -> chans (world c.1) ch;
  wo_once : NoDup (closed c.1)
}.

Lemma waiting_ok_pc s ws i p :
  (forall ch, p <> AtSelect ch) -> waiting_ok (s, ws) -> waiting_ok (s, <[i := p]> ws).
Proof.
  intros Hp [H1 H2 H3 H4]. split; [|done..]. cbn in *. intros j ch Hj.
  destruct (decide (i = j)) as [->|Hne].
  - apply list_lookup_insert_Some in Hj as [(_ & Hj & _)|[? _]]; [by destruct (Hp ch) | done].
  - rewrite list_lookup_insert_ne in Hj by done. by eapply H1.
Qed.

Lemma more_call {R : Set} (c : sigC R) w r w' : handle c w = (r, w') -> more w w'.
Proof. intros E ch Hch. pose proof (chans_frame R c w ch Hch) as H. by rewrite E in H. Qed.
Lemma more_refl w : more w w.
Proof. by intros ch. Qed.
Lemma more_trans w1 w2 w3 : more w1 w2 -> more w2 w3 -> more w1 w3.
Proof. unfold more. auto. Qed.

(** [notifyStreamConnected] closes the channel the waiting goroutines hold. *)
Lemma notifyStreamConnected_wp (s : St) (Q : unit + error -> St -> Prop) :
  (forall s', closed s' = closed s ++ option_list (c_connectedCh (loc s)) ->
     c_connectedCh (loc s') = None -> c_status (loc s') = StreamConnected ->
     more (world s) (world s') -> Q (inl tt) s') ->
  wp notifyStreamConnected Q s.
Proof.
  intros HQ. unfold notifyStreamConnected. wps.
  destruct (c_connectedCh (loc s)) as [ch|] eqn:Ech; cbn [set_status c_connectedCh]; rewrite Ech; wps;
    destruct (c_onReconnectedListenerFn _); wps; try destruct r0; try destruct r; apply HQ;
    cbn [calls loc world set_status set_connectedCh c_connectedCh c_status]; rewrite ?logged_cons; cbn;
    rewrite ?(right_id_L [] (++)); try done; eauto using more_call, more_refl.
  eapply more_trans; [exact (more_call _ _ _ _ H) | exact (more_call _ _ _ _ H0)].
Qed.

Lemma getStreamStatusChan_wp (s : St) (Q : ref + error -> St -> Prop) :
  (forall ch s', closed s' = closed s -> c_connectedCh (loc s') = Some ch ->
     c_status (loc s') = c_status (loc s) -> more (world s) (world s') ->
     c_connectedCh (loc s) = Some ch \/
       (c_connectedCh (loc s) = None /\ ~ chans (world s) ch /\ chans (world s') ch) -> Q (inl ch) s') ->
  wp getStreamStatusChan Q s.
Proof.
  intros HQ. unfold getStreamStatusChan. wps. destruct (c_connectedCh (loc s)) as [ch|] eqn:Ech; wps.
  - apply HQ; auto using more_refl.
  - pose proof (MakeChan_fresh (world s)) as Hf. cbn [world] in H. rewrite H in Hf. cbn in Hf.
    apply HQ; cbn [calls loc world set_connectedCh c_connectedCh c_status]; auto.
    + rewrite logged_cons. cbn. by rewrite (right_id_L [] (++)).
    + by eapply more_call.
Qed.

Lemma waiting_ok_step c c' : step c c' -> waiting_ok c -> waiting_ok c'.
Proof.
  intros Hs. destruct Hs as [s s' ws E|s s' ws E|s s' ws evs Ech Est Hc Ec El|s ws|s ws i Hi E|s ws i Hi E
                            |s s' ws i ch Hi E|s ws i ch Hi Hcl|s ws i ch Hi]; try (by apply waiting_ok_pc).
  - refine (wp_run _ (fun _ s1 => waiting_ok (s, ws) -> waiting_ok (s1, ws)) _ _ _ E _).
    apply notifyStreamConnected_wp. intros s1 C1 N1 _ I1 [H1 H2 H3 H4]. cbn in *.
    assert (Hin : forall ch, ch ∈ closed s1 <-> ch ∈ closed s \/ c_connectedCh (loc s) = Some ch).
    { intros ch. rewrite C1, elem_of_app. destruct (c_connectedCh (loc s)); cbn; set_solver. }
    split; cbn.
    + intros i ch Hi. left. apply Hin. by eapply H1.
    + intros ch Hch. by rewrite N1 in Hch.
    + intros ch [Hch|Hch]%Hin; apply I1; [by apply H3 | by apply H2].
    + rewrite C1. apply NoDup_app. split; [done |]. destruct (c_connectedCh (loc s)) as [ch|]; cbn.
      * destruct (H2 ch eq_refl) as [Ho _]. split; [set_solver | apply NoDup_singleton].
      * split; [set_solver | constructor].
  - unfold notifyStreamDisconnected, modify in E. injection E as <-. by intros [H1 H2 H3 H4].
  - intros [H1 H2 H3 H4]. cbn in *.
    assert (Hcl : closed s' = closed s) by (by rewrite Ec, logged_app, El, (right_id_L [] (++))).
    split; cbn; rewrite ?Hcl, ?Ech; try done.
    + intros ch Hch. destruct (H2 ch Hch). auto.
    + intros ch Hch. auto.
  - intros [H1 H2 H3 H4]. split; [|done..]. cbn in *. intros i ch [Hi|[_ Hi]]%lookup_app_Some; [by eapply H1 |].
    by apply list_lookup_singleton_Some in Hi as [_ Hi].
  - refine (wp_run _ (fun r s1 => match r with
      | inl ch => waiting_ok (s, ws) -> waiting_ok (s1, <[i := AtSelect ch]> ws)
      | inr _ => True end) _ _ _ E _).
    apply getStreamStatusChan_wp. intros ch1 s1 C1 N1 _ I1 Hch [H1 H2 H3 H4]. cbn in *.
    assert (Hopen : ch1 ∉ closed s /\ chans (world s1) ch1).
    { destruct Hch as [Hch|(Hch & Hf & Hin)]; [destruct (H2 ch1 Hch); auto |]. split; [|done]. intros Hx. by apply Hf, H3. }
    assert (Hold : forall ch0, c_connectedCh (loc s) = Some ch0 -> ch0 = ch1).
    { intros ch0 H0. destruct Hch as [Hch|(Hch & _)]; congruence. }
    split; cbn; rewrite ?C1; [| |by auto | done].
    + intros j ch0 Hj. rewrite N1. destruct (decide (i = j)) as [->|Hne].
      * apply list_lookup_insert_Some in Hj as [(_ & [= <-] & _)|[? _]]; [by right | done].
      * rewrite list_lookup_insert_ne in Hj by done.
        destruct (H1 _ _ Hj) as [?|H0]; [by left | right]. by rewrite (Hold _ H0).
    + intros ch0. rewrite N1. by intros [= <-].
Qed.

(** Reachable: any steps, from a client that has not been waited for. *)
Definition reachable (s0 : St) : St * list pc -> Prop := rtc step (s0, []).

Lemma reachable_ok s0 c :
  c_connectedCh (loc s0) = None -> logged closing (calls s0) = [] -> reachable s0 c -> waiting_ok c.
Proof.
  intros Hch Hcl Hr. unfold reachable in Hr.
  assert (H0 : waiting_ok (s0, [])).
  { split; cbn; rewrite ?Hch, ?Hcl; [done | done | set_solver | constructor]. }
  remember (s0, []) as c0 eqn:E0. clear E0 Hch Hcl. induction Hr as [c|c c1 c2 Hs _ IH]; [done |].
  by apply IH, (waiting_ok_step c).
Qed.

(** C18: no connection is announced over the heads of the goroutines that wait for
    it: whatever the interleaving, when [notifyStreamConnected] has run, every
    goroutine that was in the select of [WaitStreamConnected] waits on a channel
    that is closed, so that it can go on; and no channel is ever closed twice,
    which would panic. *)
Theorem notifyStreamConnected_releases s0 (s s' : St) ws :
  c_connectedCh (loc s0) = None -> logged closing (calls s0) = [] -> reachable s0 (s, ws) ->
  notifyStreamConnected s = (Ok tt, s') ->
  NoDup (closed s') /\
  forall i ch, ws !! i = Some (AtSelect ch) ->
    ch ∈ closed s' /\ step (s', ws) (s', <[i := Returned]> ws).
Proof.
  intros Hch Hcl Hr E. pose proof (reachable_ok _ _ Hch Hcl Hr) as Hok.
  pose proof (waiting_ok_step _ _ (step_connected _ _ ws E) Hok) as [H1' _ _ H4']. cbn in *.
  split; [done |]. intros i ch Hi. assert (Hc : ch ∈ closed s').
  { destruct (H1' _ _ Hi) as [?|Hn]; [done |].
    assert (Hnone : c_connectedCh (loc s') = None).
    { refine (wp_run _ (fun _ s1 => c_connectedCh (loc s1) = None) _ _ _ E _). by apply notifyStreamConnected_wp. }
    by rewrite Hnone in Hn. }
  split; [done |]. by eapply step_released.
Qed.

(** Channels are closed by the announcement of a connection only. *)
Lemma step_closing c c' :
  step c c' -> closed c'.1 = closed c.1 \/ exists s', notifyStreamConnected c.1 = (Ok tt, s') /\ c' = (s', c.2).
Proof.
  intros Hs. destruct Hs as [s s' ws E|s s' ws E|s s' ws evs Ech Est Hc Ec El|s ws|s ws i Hi E|s ws i Hi E
                            |s s' ws i ch Hi E|s ws i ch Hi Hcl|s ws i ch Hi]; try (by left).
  - right. by exists s'.
  - left. unfold notifyStreamDisconnected, modify in E. by injection E as <-.
  - left. cbn. by rewrite Ec, logged_app, El, (right_id_L [] (++)).
  - left. refine (wp_run _ (fun _ s1 => closed s1 = closed s) _ _ _ E _). by apply getStreamStatusChan_wp.
Qed.
Lemma closed_by_connection c c' ch :
  rtc step c c' -> ch ∉ closed c.1 -> ch ∈ closed c'.1 ->
  exists s1 ws s2, rtc step c (s1, ws) /\ notifyStreamConnected s1 = (Ok tt, s2) /\ rtc step (s2, ws) c'.
Proof.
  intros Hr. induction Hr as [c|c c1 c2 Hs Hr IH]; [done |]. intros Hn Hin.
  destruct (step_closing _ _ Hs) as [Hc|(s' & E & ->)].
  - rewrite <- Hc in Hn. destruct (IH Hn Hin) as (s1 & ws & s2 & R1 & E & R2). exists s1, ws, s2. split; [by eapply rtc_l | done].
  - destruct c as [s ws]. cbn in *. by exists s, ws, s'.
Qed.

(** C31: a wakeup can be lost, since [WaitStreamConnected] reads the status before it takes
    the mutex. Take any moment at which the stream is not connected and is about to be: a
    goroutine that calls [WaitStreamConnected] just then can read the status before the
    announcement and ask for the channel after it. It then waits on a channel that is
    open, while the stream is connected and a fresh call would return at once. In
    whatever run that follows, that channel is closed only once another connection
    is announced. *)
Theorem WaitStreamConnected_lost_wakeup s0 (s s1 : St) ws :
  c_connectedCh (loc s0) = None -> logged closing (calls s0) = [] -> reachable s0 (s, ws) ->
  c_status (loc s) <> StreamConnected -> notifyStreamConnected s = (Ok tt, s1) ->
  exists s2 ch, rtc step (s, ws) (s2, ws ++ [AtSelect ch]) /\
    c_status (loc s2) = StreamConnected /\ WaitStreamConnected s2 = (Ok tt, s2) /\ ch ∉ closed s2 /\
    forall c, rtc step (s2, ws ++ [AtSelect ch]) c -> ch ∈ closed c.1 ->
      exists s3 ws3 s4, rtc step (s2, ws ++ [AtSelect ch]) (s3, ws3) /\
        notifyStreamConnected s3 = (Ok tt, s4) /\ rtc step (s4, ws3) c.
Proof.
  intros Hch Hcl Hr Hst En.
  assert (Hrun : exists s2 ch, getStreamStatusChan s1 = (Ok ch, s2) /\ c_connectedCh (loc s2) = Some ch /\
    c_status (loc s2) = StreamConnected).
  { assert (H1 : c_status (loc s1) = StreamConnected).
    { refine (wp_run _ (fun _ s1 => c_status (loc s1) = StreamConnected) _ _ _ En _). by apply notifyStreamConnected_wp. }
    assert (H2 : wp getStreamStatusChan (fun r s2 => exists ch, r = inl ch /\ c_connectedCh (loc s2) = Some ch /\
      c_status (loc s2) = StreamConnected) s1).
    { apply getStreamStatusChan_wp. intros ch s2 _ Hc Hs _ _. exists ch. split; [done |]. split; [done | congruence]. }
    unfold wp in H2. destruct (getStreamStatusChan s1) as [[ch|e|p] s2]; [| by destruct H2 as (? & ? & _) | done].
    destruct H2 as (ch' & [= <-] & H2). by exists s2, ch. }
  destruct Hrun as (s2 & ch & Eg & Hc2 & Hs2). exists s2, ch.
  assert (Hlen : (ws ++ [AtStart]) !! length ws = Some AtStart) by (by rewrite lookup_app_r, Nat.sub_diag).
  assert (Hput : forall p q, <[length ws := q]> (ws ++ [p]) = ws ++ [q]).
  { intros p q. rewrite insert_app_r_alt, Nat.sub_diag by done. done. }
  assert (Hpath : rtc step (s, ws) (s2, ws ++ [AtSelect ch])).
  { eapply rtc_l; [apply step_enter |].
    eapply rtc_l; [apply (step_wait s _ (length ws) Hlen) |].
    { unfold IsStreamConnected, bind, get, ret. by rewrite bool_decide_eq_false_2. }
    rewrite Hput. eapply rtc_l; [by apply (step_connected s s1) |].
    eapply rtc_l; [apply (step_get s1 s2 _ (length ws) ch); [by rewrite lookup_app_r, Nat.sub_diag | done] |].
    by rewrite Hput. }
  assert (Hopen : ch ∉ closed s2).
  { assert (Hok : waiting_ok (s2, ws ++ [AtSelect ch])).
    { apply (reachable_ok s0); [done | done |]. unfold reachable. by etrans. }
    by apply (wo_open _ Hok ch) in Hc2 as [? _]. }
  split; [done |]. split; [done |]. split.
  { unfold WaitStreamConnected, IsStreamConnected, bind, get, ret. by rewrite bool_decide_eq_true_2. }
  split; [done |]. intros c Hrc Hin. by apply (closed_by_connection _ _ ch).
Qed.
End waiters.

(** ** The worker *)

Section pipe.
Context {wg : WgTypes} {sb : Sealing Body}.
Variable key : Key.

(** The channel between the goroutine of [receive], in [AddMsg], and the one of
    [Work]: [p_in] are the messages [AddMsg] was called with, [p_taken] those the
    worker took, [p_handled] the ones it passed on to the handler (whose errors
    are only logged). *)
Record Pipe := mkPipe {
  p_in : list EncryptedMessage;
  p_adding : option EncryptedMessage;
  encryptedMsgPool : list EncryptedMessage;
  p_current : option EncryptedMessage;
  p_taken : list EncryptedMessage;
  p_handled : list Message;
  p_clientDone : bool;
  p_stopped : bool
}.

(** [NewWorker]: the channel holds one message. *)
Definition poolCapacity : nat := 1.
Definition NewPipe : Pipe := mkPipe [] None [] None [] [] false false.

(** What one round of [Work] does with the message it took. *)
Definition work_one (msg : EncryptedMessage) : option Message :=
  match decryptMessage key msg with inl m => Some m | inr _ => None end.

(** The steps inside [AddMsg] and [Work]. *)
Inductive pipe_internal : Pipe -> Pipe -> Prop :=
  | pipe_send i m pool cur tk h d st :
      (length pool < poolCapacity)%nat ->
      pipe_internal (mkPipe i (Some m) pool cur tk h d st) (mkPipe i None (pool ++ [m]) cur tk h d st)
  | pipe_recv i a m pool tk h d :
      pipe_internal (mkPipe i a (m :: pool) None tk h d false) (mkPipe i a pool (Some m) (tk ++ [m]) h d false)
  | pipe_work i a pool m tk h d st :
      pipe_internal (mkPipe i a pool (Some m) tk h d st)
        (mkPipe i a pool None tk (h ++ option_list (work_one m)) d st).

Inductive pipe_step : Pipe -> Pipe -> Prop :=
  | pipe_inner p p' : pipe_internal p p' -> pipe_step p p'
  | pipe_AddMsg i m pool cur tk h d st :
      pipe_step (mkPipe i None pool cur tk h d st) (mkPipe (i ++ [m]) (Some m) pool cur tk h d st)
  (* the client's context is cancelled: [AddMsg] may give its message up *)
  | pipe_client_cancel i a pool cur tk h d st :
      pipe_step (mkPipe i a pool cur tk h d st) (mkPipe i a pool cur tk h true st)
  | pipe_dropped i m pool cur tk h st :
      pipe_step (mkPipe i (Some m) pool cur tk h true st) (mkPipe i None pool cur tk h true st)
  (* the worker's context is cancelled, and the worker sees it between two messages *)
  | pipe_stop i a pool tk h d :
      pipe_step (mkPipe i a pool None tk h d false) (mkPipe i a pool None tk h d true).

(** The messages on their way, the oldest first. *)
Definition in_flight (p : Pipe) : list EncryptedMessage := encryptedMsgPool p ++ option_list (p_adding p).

Record pipe_ok (p : Pipe) : Prop := mkPipeOk {
  po_pool : (length (encryptedMsgPool p) <= poolCapacity)%nat;
  po_handled : exists done, p_taken p = done ++ option_list (p_current p) /\ p_handled p = omap work_one done;
  po_order : sublist (p_taken p ++ in_flight p) (p_in p);
  po_all : p_clientDone p = false -> p_taken p ++ in_flight p = p_in p
}.

Lemma pipe_internal_ok p p' : pipe_internal p p' -> pipe_ok p -> pipe_ok p'.
Proof.
  intros Hs [Hn (dn & Ht & Hh) Ho Ha]. destruct Hs as [i m pool cur tk h d st Hl|i a m pool tk h d|i a pool m tk h d st];
    unfold in_flight in *; cbn in *.
  - split; cbn; unfold in_flight; cbn; rewrite ?(right_id_L [] (++)); try done; [|by eauto].
    rewrite length_app. cbn. unfold poolCapacity in *. lia.
  - split; cbn; unfold in_flight; cbn; rewrite <- ?(assoc_L (++)); try done; [cbn in *; lia |].
    rewrite (right_id_L [] (++)) in Ht. subst tk. by exists dn.
  - split; cbn; unfold in_flight; cbn; try done. exists (dn ++ [m]). rewrite (right_id_L [] (++)), omap_app, Hh.
    split; [done |]. cbn. by destruct (work_one m).
Qed.

Lemma pipe_step_ok p p' : pipe_step p p' -> pipe_ok p -> pipe_ok p'.
Proof.
  intros Hs. destruct Hs as [p p' Hi|i m pool cur tk h d st|i a pool cur tk h d st|i m pool cur tk h st|i a pool tk h d];
    [by apply pipe_internal_ok |..]; intros [Hn Hh Ho Ha]; unfold in_flight in *; cbn in *;
    rewrite ?(right_id_L [] (++)) in Ho; (split; cbn; unfold in_flight; cbn; [done | done |..]);
    rewrite ?(right_id_L [] (++)) in *; try done.
  - rewrite (assoc_L (++)). by apply sublist_app.
  - intros Hd. rewrite (assoc_L (++)). by rewrite <- Ha.
  - etransitivity; [|exact Ho]. rewrite (assoc_L (++)). apply sublist_inserts_r. done.
Qed.

Lemma pipe_reachable_ok p : rtc pipe_step NewPipe p -> pipe_ok p.
Proof.
  assert (H0 : pipe_ok NewPipe) by (split; cbn; [lia | by exists [] | done | done]).
  intros Hr. remember NewPipe as p0 eqn:E. clear E. induction Hr as [p|p p1 p2 Hs _ IH]; [done |].
  by apply IH, (pipe_step_ok p).
Qed.

(** How many internal steps the messages on their way still need. *)
Definition work_left (p : Pipe) : nat :=
  3 * length (option_list (p_adding p)) + 2 * length (encryptedMsgPool p) + length (option_list (p_current p)).

Lemma pipe_internal_works p p' : pipe_internal p p' -> (work_left p' < work_left p)%nat.
Proof. intros []; unfold work_left; cbn; rewrite ?length_app; cbn; lia. Qed.

Lemma pipe_internal_enabled p :
  pipe_ok p -> p_stopped p = false -> work_left p <> 0%nat -> exists p', pipe_internal p p' /\
    p_stopped p' = false /\ p_in p' = p_in p /\ p_clientDone p' = p_clientDone p.
Proof.
  destruct p as [i a pool [m|] tk h d st]; intros [Hn _ _ _]; cbn in *; intros -> Hw.
  - eexists. split; [apply pipe_work | done].
  - destruct pool as [|m pool]; [|by eexists; split; [apply pipe_recv |]].
    destruct a as [m|]; [|by destruct Hw]. eexists. split; [apply pipe_send; cbn; unfold poolCapacity; lia | done].
Qed.

(** C19: the worker handles the stream's messages in order and without loss or
    repetition. In every reachable state the messages passed to the handler are
    the decryptable ones among a prefix of those [AddMsg] was called with, in
    their order, as long as the client's context is not cancelled; and as long as
    the worker is not stopped it never blocks: what is on its way can always be
    carried to the end, where every message was handled. *)
Theorem worker_in_order p :
  rtc pipe_step NewPipe p -> p_stopped p = false -> p_clientDone p = false ->
  (exists done, p_handled p = omap work_one done /\ prefix done (p_in p) /\
     (length (p_in p) <= length done + 3)%nat) /\
  exists p', rtc pipe_internal p p' /\ p_in p' = p_in p /\ work_left p' = 0%nat /\
    p_handled p' = omap work_one (p_in p).
Proof.
  intros Hr Hst Hd. apply pipe_reachable_ok in Hr. split.
  - destruct Hr as [Hn (dn & Ht & Hh) _ Ha]. exists dn. split; [done |]. rewrite <- (Ha Hd), Ht.
    split; [eexists; by rewrite <- (assoc_L (++)) |]. unfold in_flight, poolCapacity in *. rewrite !length_app.
    destruct (p_current p), (p_adding p); cbn; lia.
  - remember (work_left p) as n eqn:En. revert p En Hr Hst Hd. induction (lt_wf n) as [n _ IH]. intros p -> Hr Hst Hd.
    destruct (decide (work_left p = 0%nat)) as [H0|H0].
    + exists p. split; [done |]. split; [done |]. split; [done |].
      destruct Hr as [Hn (dn & Ht & Hh) _ Ha]. rewrite Hh, <- (Ha Hd), Ht. unfold in_flight, work_left in *.
      destruct (p_current p), (p_adding p), (encryptedMsgPool p); cbn in *; try lia. by rewrite !(right_id_L [] (++)).
    + destruct (pipe_internal_enabled p Hr Hst H0) as (p1 & Hi & Hst1 & Hin1 & Hd1).
      destruct (IH _ (pipe_internal_works _ _ Hi) p1 eq_refl) as (p2 & Hr2 & Hin2 & H2); [by eapply pipe_internal_ok | done | congruence |].
      exists p2. rewrite Hin1 in *. split; [by eapply rtc_l | done].
Qed.
End pipe.

(** ** Runs *)

Import Keys SampleGrpc SampleSignal.

#[export] Instance sample_chans : ChanWorld World.
Proof.
  refine {| chans w ch := ch < next w |}.
  - intros R c w ch. destruct c; cbn -[Nat.min]; try lia; [destruct c; cbn; lia | |].
    + destruct (Nat.min 3 (left w)); cbn; lia.
    + destruct (failures w); cbn; lia.
  - intros w. cbn. lia.
Defined.

(** After the test of the status and before the channel is taken, the stream
    connects: the goroutine then makes a channel of its own. *)
Definition connected_client := (notifyStreamConnected client).2.
Definition asked_client := (getStreamStatusChan connected_client).2.

Lemma asked_reachable : reachable client (asked_client, [AtSelect 10]).
Proof.
  unfold reachable. eapply rtc_l; [apply step_enter |]. cbn [app].
  eapply rtc_l; [apply (step_wait client [AtStart] 0); [done | by vm_compute] |].
  eapply rtc_l; [apply (step_connected client connected_client); by vm_compute |].
  eapply rtc_l; [apply (step_get connected_client asked_client [AtLock] 0 10); [done | by vm_compute] |]. done.
Qed.

Lemma WaitStreamConnected_lost_wakeup_witness :
  c_status (loc client) <> StreamConnected /\
  exists s2 ch, rtc step (client, []) (s2, [AtSelect ch]) /\
    c_status (loc s2) = StreamConnected /\ WaitStreamConnected s2 = (Ok tt, s2) /\ ch ∉ logged closing (calls s2) /\
    forall c, rtc step (s2, [AtSelect ch]) c -> ch ∈ logged closing (calls c.1) ->
      exists s3 ws3 s4, rtc step (s2, [AtSelect ch]) (s3, ws3) /\
        notifyStreamConnected s3 = (Ok tt, s4) /\ rtc step (s4, ws3) c.
Proof.
  split; [by vm_compute |].
  apply (WaitStreamConnected_lost_wakeup client client connected_client []); [done | done | apply rtc_refl | by vm_compute | by vm_compute].
Defined.

Lemma notifyStreamConnected_releases_witness :
  NoDup (logged closing (calls (notifyStreamConnected asked_client).2)) /\
  forall i ch, [AtSelect 10] !! i = Some (AtSelect ch) ->
    ch ∈ logged closing (calls (notifyStreamConnected asked_client).2) /\
    step ((notifyStreamConnected asked_client).2, [AtSelect 10])
         ((notifyStreamConnected asked_client).2, <[i := Returned]> [AtSelect 10]).
Proof.
  apply (notifyStreamConnected_releases client asked_client (notifyStreamConnected asked_client).2 [AtSelect 10]);
    [done | done | exact asked_reachable | by vm_compute].
Defined.

(** One message on its way through the worker of [peer]. *)
Lemma worker_in_order_witness :
  let p := mkPipe [msg1] (Some msg1) [] None [] [] false false in
  (exists done, p_handled p = omap (work_one peer) done /\ prefix done (p_in p) /\
     (length (p_in p) <= length done + 3)%nat) /\
  exists p', rtc (pipe_internal peer) p p' /\ p_in p' = p_in p /\ work_left p' = 0%nat /\
    p_handled p' = omap (work_one peer) (p_in p).
Proof.
  intros p. apply (worker_in_order peer p); [|done | done].
  eapply rtc_l; [apply pipe_AddMsg |]. apply rtc_refl.
Defined.
