(* ===== verification/MgmtClient.v ===== *)
(** * The management client: [go/management/client/grpc.go]

    [GrpcClient] talks to the management server: [Sync] follows its stream of
    network maps, reconnecting it when it breaks; [Login], [Register] and the other
    requests are one sealed message and one sealed answer. The server, the
    encryption, and the handler of the network maps are calls ([mgC]); the
    generated messages that nothing in the repository reads are parameters. *)

From Stdlib Require Import ZArith Lia Ascii.
From stdpp Require Import base tactics list strings gmap.
From S2P Require Import Prelude GoStrings Netip Uapi Routes EngineData Grpc.

Definition ConnectTimeout : Z := 10 * second.
Definition errMsgNoMgmtConnection : string := "no connection to management".

(** ** Messages *)

(** [system.Info], the fields that are sent. *)
Record NetworkAddress := mkNetworkAddress { na_NetIP : Prefix; na_Mac : string }.
Record File := mkFile { f_Path : string; f_Exist : bool; f_ProcessIsRunning : bool }.
Record Flags := mkFlags {
  fl_RosenpassEnabled : bool; fl_RosenpassPermissive : bool; fl_ServerSSHAllowed : bool;
  fl_DisableClientRoutes : bool; fl_DisableServerRoutes : bool; fl_DisableDNS : bool;
  fl_DisableFirewall : bool; fl_BlockLANAccess : bool; fl_BlockInbound : bool;
  fl_LazyConnectionEnabled : bool
}.
Record Info := mkInfo {
  i_Hostname : string; i_GoOS : string; i_OS : string; i_OSVersion : string; i_Platform : string;
  i_Kernel : string; i_NetbirdVersion : string; i_UIVersion : string; i_KernelVersion : string;
  i_NetworkAddresses : list NetworkAddress; i_SystemSerialNumber : string;
  i_SystemManufacturer : string; i_SystemProductName : string; i_EnvCloud : string;
  i_EnvPlatform : string; i_Files : list File; i_Flags : Flags
}.

Record ProtoNetworkAddress := mkProtoNetworkAddress { pna_NetIP : string; pna_Mac : string }.
Record PeerSystemMeta := mkPeerSystemMeta {
  pm_Hostname : string; pm_GoOS : string; pm_OS : string; pm_Core : string; pm_OSVersion : string;
  pm_Platform : string; pm_Kernel : string; pm_NetbirdVersion : string; pm_UiVersion : string;
  pm_KernelVersion : string; pm_NetworkAddresses : list ProtoNetworkAddress;
  pm_SysSerialNumber : string; pm_SysManufacturer : string; pm_SysProductName : string;
  pm_EnvCloud : string; pm_EnvPlatform : string; pm_Files : list File; pm_Flags : Flags
}.
Record PeerKeys := mkPeerKeys { pk_SshPubKey : string; pk_WgPubKey : string }.
Record LoginRequest := mkLoginRequest {
  lq_SetupKey : string; lq_Meta : option PeerSystemMeta; lq_JwtToken : string; lq_PeerKeys : PeerKeys;
  lq_DnsLabels : list string
}.
Record LoginResponse := mkLoginResponse {
  lr_NetbirdConfig : option NetbirdConfig; lr_PeerConfig : option ProtoPeerConfig; lr_Checks : list Checks
}.

(** The two authorization flows, read by nothing here, and [domain.List]'s conversion. *)
Class MgmtLib := {
  DeviceAuthorizationFlow : Set;
  PKCEAuthorizationFlow : Set;
  ToPunycodeList : list string -> list string
}.

(** What the client seals for the server. *)
Inductive MgmtMsg :=
  | SyncRequest (meta : option PeerSystemMeta)
  | MsgLogin (req : LoginRequest)
  | DeviceAuthorizationFlowRequest
  | PKCEAuthorizationFlowRequest
  | SyncMetaRequest (meta : option PeerSystemMeta)
  | ProtoEmpty.

Definition infoToMetaData (info : option Info) : option PeerSystemMeta :=
  match info with
  | None => None
  | Some i =>
      Some (mkPeerSystemMeta (i_Hostname i) (i_GoOS i) (i_OS i) (i_OSVersion i) (i_OSVersion i)
              (i_Platform i) (i_Kernel i) (i_NetbirdVersion i) (i_UIVersion i) (i_KernelVersion i)
              (map (fun a => mkProtoNetworkAddress (prefix_String (na_NetIP a)) (na_Mac a)) (i_NetworkAddresses i))
              (i_SystemSerialNumber i) (i_SystemManufacturer i) (i_SystemProductName i) (i_EnvCloud i)
              (i_EnvPlatform i) (map (fun f => mkFile (f_Path f) (f_Exist f) (f_ProcessIsRunning f)) (i_Files i))
              (i_Flags i))
  end.

(** ** State and calls *)

Record GrpcClient := mkGrpcClient {
  gc_key : Key;
  gc_ctx : ref;
  gc_conn : ref;
  gc_connStateCallback : option ref
}.

Definition set_connStateCallback (v : option ref) (c : GrpcClient) : GrpcClient :=
  mkGrpcClient (gc_key c) (gc_ctx c) (gc_conn c) v.

Inductive mgC : Set -> Type :=
  | Net {R : Set} (c : netC R) : mgC R
  | Seal (remote own : Key) (msg : MgmtMsg) : mgC (string + error)
  (* the service: a public key and a sealed body in, a sealed body out *)
  | RpcGetServerKey (ctx : ref) : mgC (string + error)
  | RpcSync (ctx : ref) (wgPubKey body : string) : mgC (ref + error)
  | SyncRecv (stream : ref) : mgC (string + error)
  | SyncCloseSend (stream : ref) : mgC (option error)
  | RpcLogin (ctx : ref) (wgPubKey body : string) : mgC (string + error)
  | RpcDeviceFlow (ctx : ref) (wgPubKey body : string) : mgC (string + error)
  | RpcPKCEFlow (ctx : ref) (wgPubKey body : string) : mgC (string + error)
  | RpcSyncMeta (ctx : ref) (wgPubKey body : string) : mgC (option error)
  | RpcLogout (ctx : ref) (wgPubKey body : string) : mgC (option error)
  (* the handler given to [Sync] *)
  | MsgHandler (resp : SyncResponse) : mgC (option error).

#[export] Instance mg_net : HasNet mgC := @Net.

Definition ManagementComponent : string := "management".

Section client.
Context {wg : WgTypes} {gl : GrpcLib} {bl : BackoffLib} {ml : MgmtLib}.
Context {ss : Sealing SyncResponse} {sl : Sealing LoginResponse}.
Context {sd : Sealing DeviceAuthorizationFlow} {sp : Sealing PKCEAuthorizationFlow}.
Context {W : Type} `{!Handler mgC W}.

Definition MC := M mgC GrpcClient W.

(** ** Construction, notifications *)

Definition NewClient_connect (ctx : ref) (addr : string) (tlsEnabled : bool) : M mgC (option ref) W ref :=
  Retry (let* conn := wrap (Wrap "create connection")
                        (check_val (call (Net (CreateConnection ctx addr tlsEnabled ManagementComponent)))) in
         modify (fun _ => Some conn)) ;;;
  let* conn := get in
  deref "conn" conn ret.

Definition newClient0 (ctx : ref) (ourPrivateKey : Key) (conn : ref) : GrpcClient :=
  mkGrpcClient ourPrivateKey ctx conn None.

Definition Close : MC unit := let* c := get in check (call (Net (CloseConn (gc_conn c)))).
Definition SetConnStateListener (notifier : ref) : MC unit := modify (set_connStateCallback (Some notifier)).

Definition notifyDisconnected (err : error) : MC unit :=
  let* c := get in
  match gc_connStateCallback c with
  | None => ret tt
  | Some l => call (Net (MarkDisconnected l err))
  end.
Definition notifyConnected : MC unit :=
  let* c := get in
  match gc_connStateCallback c with
  | None => ret tt
  | Some l => call (Net (MarkConnected l))
  end.

Definition ready : MC bool := let* c := get in conn_ready (gc_conn c).

(** ** The server's key *)

Definition GetServerPublicKey : MC Key :=
  let* ok := ready in
  if negb ok then fail (New errMsgNoMgmtConnection)
  else
    let* c := get in
    with_timeout (gc_ctx c) (5 * second) (fun mgmCtx =>
      let* resp := call (RpcGetServerKey mgmCtx) in
      match resp with
      | inr _ => fail (New "failed while getting Management Service public key")
      | inl key => match ParseKey key with inl k => ret k | inr err => fail err end
      end).

Definition IsHealthy : MC bool :=
  let* c := get in
  let* st := call (Net (GetState (gc_conn c))) in
  match known_health st with
  | Some b => ret b
  | None =>
      with_timeout (gc_ctx c) (1 * second) (fun ctx =>
        let* resp := call (RpcGetServerKey ctx) in
        match resp with
        | inr err => notifyDisconnected err ;;; ret false
        | inl _ => notifyConnected ;;; ret true
        end)
  end.

(** ** The stream of network maps *)

Definition my_key (c : GrpcClient) : string := Key_String (PublicKey (gc_key c)).

Definition connectToStream (ctx : ref) (serverPubKey : Key) (sysInfo : option Info) : MC ref :=
  let* c := get in
  let* encryptedReq := check_val (call (Seal serverPubKey (gc_key c) (SyncRequest (infoToMetaData sysInfo)))) in
  check_val (call (RpcSync ctx (my_key c) encryptedReq)).

(** The loop only ends with an error. *)
Fixpoint receiveEvents (fuel : nat) (stream : ref) (serverPubKey : Key) : MC unit :=
  match fuel with
  | O => panic "out of fuel"
  | S fuel' =>
      let* update := call (SyncRecv stream) in
      match update with
      | inr err => fail err
      | inl body =>
          let* c := get in
          match DecryptMessage serverPubKey (gc_key c) body with
          | inr err => fail err
          | inl decryptedResp =>
              ignore (check (call (MsgHandler decryptedResp))) ;;;
              receiveEvents fuel' stream serverPubKey
          end
      end
  end.

Definition handleStream (fuel : nat) (ctx : ref) (serverPubKey : Key) (sysInfo : option Info) : MC unit :=
  with_cancel ctx (fun ctx' =>
    let* opened := try (connectToStream ctx' serverPubKey sysInfo) in
    match opened with
    | inr err => if is_status (Some err) PermissionDenied then fail (Permanent err) else fail err
    | inl stream =>
        notifyConnected ;;;
        let* ended := try (receiveEvents fuel stream serverPubKey) in
        match ended with
        | inl _ => ret tt
        | inr err =>
            notifyDisconnected err ;;;
            if status_code (Some err) =? PermissionDenied then fail (Permanent err)
            else if status_code (Some err) =? Canceled then ret tt
            else fail err
        end
    end).

(** The operation that [Sync] retries. The first [GetState] is the one that is logged. *)
Definition sync_operation (fuel : nat) (ctx : ref) (sysInfo : option Info) : MC unit :=
  let* c := get in
  call (Net (GetState (gc_conn c))) ;;;
  let* connState := call (Net (GetState (gc_conn c))) in
  if bool_decide (connState = Shutdown) then
    fail (Permanent (New "connection to management has been shut down"))
  else if negb (bool_decide (connState = Ready) || bool_decide (connState = Idle)) then
    call (Net (WaitForStateChange (gc_conn c) ctx connState)) ;;;
    fail (New "connection to management is not ready")
  else
    let* serverPubKey := GetServerPublicKey in
    handleStream fuel ctx serverPubKey sysInfo.

Definition Sync (fuel : nat) (ctx : ref) (sysInfo : option Info) : MC unit :=
  Retry (sync_operation fuel ctx sysInfo).

Definition GetNetworkMap (sysInfo : option Info) : MC NetworkMap :=
  let* serverPubKey := GetServerPublicKey in
  let* c := get in
  with_cancel (gc_ctx c) (fun ctx =>
    let* stream := connectToStream ctx serverPubKey sysInfo in
    with_defer
      (let* body := check_val (call (SyncRecv stream)) in
       match DecryptMessage serverPubKey (gc_key c) body with
       | inr err => fail err
       | inl decryptedResp =>
           match sr_NetworkMap decryptedResp with
           | None => fail (New "invalid msg, required network map")
           | Some nm => ret nm
           end
       end)
      (ignore (check (call (SyncCloseSend stream))))).

(** ** Login *)

(** The operation that [login] retries, only when it was canceled; [resp] is a
    variable of [login]. *)
Definition login_operation (loginReq : string) : M mgC (GrpcClient * option string) W unit :=
  let* background := call (Net CtxBackground) in
  with_timeout background ConnectTimeout (fun mgmCtx =>
    let* c := get in
    let* r := call (RpcLogin mgmCtx (my_key c.1) loginReq) in
    match r with
    | inr err => if is_status (Some err) Canceled then fail err else fail (Permanent err)
    | inl body => modify (fun c => (c.1, Some body))
    end).

Definition login (serverKey : Key) (req : LoginRequest) : MC LoginResponse :=
  let* ok := ready in
  if negb ok then fail (New errMsgNoMgmtConnection)
  else
    let* c := get in
    let* loginReq := check_val (call (Seal serverKey (gc_key c) (MsgLogin req))) in
    let* r := local_var None (Retry (login_operation loginReq)) in
    deref "resp" r.2 (fun body =>
      match DecryptMessage serverKey (gc_key c) body with
      | inr err => fail err
      | inl loginResp => ret loginResp
      end).

Definition Register (serverKey : Key) (setupKey jwtToken : string) (sysInfo : option Info)
    (pubSSHKey : string) (dnsLabels : list string) : MC LoginResponse :=
  let* c := get in
  login serverKey (mkLoginRequest setupKey (infoToMetaData sysInfo) jwtToken (mkPeerKeys pubSSHKey (my_key c))
                     (ToPunycodeList dnsLabels)).

Definition Login (serverKey : Key) (sysInfo : option Info) (pubSSHKey : string) (dnsLabels : list string) : MC LoginResponse :=
  let* c := get in
  login serverKey (mkLoginRequest EmptyString (infoToMetaData sysInfo) EmptyString (mkPeerKeys pubSSHKey (my_key c))
                     (ToPunycodeList dnsLabels)).

(** ** One-shot requests *)

Definition GetDeviceAuthorizationFlow (serverKey : Key) : MC DeviceAuthorizationFlow :=
  let* ok := ready in
  if negb ok then fail (New "no connection to management in order to get device authorization flow")
  else
    let* c := get in
    with_timeout (gc_ctx c) (2 * second) (fun mgmCtx =>
      let* encryptedMSG := check_val (call (Seal serverKey (gc_key c) DeviceAuthorizationFlowRequest)) in
      let* body := check_val (call (RpcDeviceFlow mgmCtx (my_key c) encryptedMSG)) in
      match DecryptMessage serverKey (gc_key c) body with
      | inr err => fail (Opaque "failed to decrypt device authorization flow message" err)
      | inl flow => ret flow
      end).

Definition GetPKCEAuthorizationFlow (serverKey : Key) : MC PKCEAuthorizationFlow :=
  let* ok := ready in
  if negb ok then fail (New "no connection to management in order to get pkce authorization flow")
  else
    let* c := get in
    with_timeout (gc_ctx c) (2 * second) (fun mgmCtx =>
      let* encryptedMSG := check_val (call (Seal serverKey (gc_key c) PKCEAuthorizationFlowRequest)) in
      let* body := check_val (call (RpcPKCEFlow mgmCtx (my_key c) encryptedMSG)) in
      match DecryptMessage serverKey (gc_key c) body with
      | inr err => fail (Opaque "failed to decrypt pkce authorization flow message" err)
      | inl flow => ret flow
      end).

Definition SyncMeta (sysInfo : option Info) : MC unit :=
  let* ok := ready in
  if negb ok then fail (New errMsgNoMgmtConnection)
  else
    let* serverPubKey := GetServerPublicKey in
    let* c := get in
    let* syncMetaReq := check_val (call (Seal serverPubKey (gc_key c) (SyncMetaRequest (infoToMetaData sysInfo)))) in
    with_timeout (gc_ctx c) ConnectTimeout (fun mgmCtx =>
      check (call (RpcSyncMeta mgmCtx (my_key c) syncMetaReq))).

Definition Logout : MC unit :=
  let* serverKey := wrap (Wrap "get server public key") GetServerPublicKey in
  let* c := get in
  with_timeout (gc_ctx c) (15 * second) (fun mgmCtx =>
    let* encryptedMSG := wrap (Wrap "encrypt logout message") (check_val (call (Seal serverKey (gc_key c) ProtoEmpty))) in
    wrap (Wrap "logout") (check (call (RpcLogout mgmCtx (my_key c) encryptedMSG)))).

End client.

(** ** What the theorems assume of the outside

    A stream delivers at most [stream_bound] updates before it breaks. *)
Class MgmtWorld (W : Type) `{!Handler mgC W} := {
  stream_bound : nat;
  pending : W -> ref -> nat;
  pending_bound : forall w st, (pending w st <= stream_bound)%nat;
  pending_frame : forall (R : Set) (c : mgC R) w st, (pending (handle c w).2 st <= pending w st)%nat;
  pending_recv : forall w st b, (handle (SyncRecv st) w).1 = inl b ->
    (pending (handle (SyncRecv st) w).2 st < pending w st)%nat
}.

Section sync.
Context {wg : WgTypes} {gl : GrpcLib} {bl : BackoffLib} {ml : MgmtLib} {ss : Sealing SyncResponse}.
Context {W : Type} `{!Handler mgC W, !MgmtWorld W}.
Notation St := (state mgC GrpcClient W).

(** ** Sync delivers what the streams carry *)

(** A server key received, an update received, an update handed to the handler. *)
Definition got_key (ev : event mgC) : option Key :=
  match ev with
  | @Event _ R c a =>
      match c in mgC R' return R' -> option Key with
      | RpcGetServerKey _ => fun r =>
          match r with inl s => match ParseKey s with inl k => Some k | inr _ => None end | inr _ => None end
      | _ => fun _ => None
      end a
  end.
Definition got_update (ev : event mgC) : option string :=
  match ev with
  | @Event _ R c a =>
      match c in mgC R' return R' -> option string with
      | SyncRecv _ => fun r => match r with inl body => Some body | inr _ => None end
      | _ => fun _ => None
      end a
  end.
Definition handled (ev : event mgC) : option SyncResponse :=
  match ev with Event (MsgHandler resp) _ => Some resp | _ => None end.

(** The specification: of a log (the latest event first), the server key that was
    received last and the updates that could be opened with the key of their time. *)
Definition replay_step (own : Key) (ev : event mgC) (v : option Key * list SyncResponse)
    : option Key * list SyncResponse :=
  match got_key ev with
  | Some k => (Some k, v.2)
  | None =>
      match got_update ev, v.1 with
      | Some body, Some k =>
          match DecryptMessage k own body with inl resp => (v.1, v.2 ++ [resp]) | inr _ => v end
      | _, _ => v
      end
  end.
Definition replay (own : Key) (k0 : option Key) (evs : list (event mgC)) : option Key * list SyncResponse :=
  foldr (replay_step own) (k0, []) evs.

Section from.
Variable k0 : option Key.   (* the server key known at [s0] *)

(** Since [s0], the handler was given exactly that; [k] is the last server key. *)
Definition in_log (s0 : St) (k : option Key) (c : GrpcClient) (log : list (event mgC)) : Prop := exists evs,
  log = evs ++ calls s0 /\ gc_key c = gc_key (loc s0) /\
  replay (gc_key (loc s0)) k0 evs = (k, logged handled evs).
Definition in_step (s0 : St) (k : option Key) (s : St) : Prop := in_log s0 k (loc s) (calls s).

Lemma in_step_refl s : in_step s k0 s.
Proof. by exists []. Qed.

(** A call that is none of the three. *)
Lemma in_log_call s0 k c log ev :
  in_log s0 k c log -> got_key ev = None -> got_update ev = None -> handled ev = None ->
  in_log s0 k c (ev :: log).
Proof.
  intros (evs & -> & Hk & Hr) H1 H2 H3. exists (ev :: evs). rewrite (logged_skip handled) by done.
  split; [done |]. split; [done |]. cbn [replay foldr]. fold (replay (gc_key (loc s0)) k0 evs). rewrite Hr.
  unfold replay_step. by rewrite H1, H2.
Qed.

(** A server key arrives. *)
Lemma in_log_key s0 k1 k c log ev :
  in_log s0 k1 c log -> got_key ev = Some k -> handled ev = None -> in_log s0 (Some k) c (ev :: log).
Proof.
  intros (evs & -> & Hk & Hr) H1 H3. exists (ev :: evs). rewrite (logged_skip handled) by done.
  split; [done |]. split; [done |]. cbn [replay foldr]. fold (replay (gc_key (loc s0)) k0 evs). rewrite Hr.
  unfold replay_step. by rewrite H1.
Qed.

(** An update arrives and is handed on, or cannot be opened. *)
Lemma in_log_update s0 k c log st body resp r :
  in_log s0 (Some k) c log -> DecryptMessage k (gc_key c) body = inl resp ->
  in_log s0 (Some k) c (Event (MsgHandler resp) r :: Event (SyncRecv st) (inl body) :: log).
Proof.
  intros (evs & -> & Hk & Hr) Hd. exists (Event (MsgHandler resp) r :: Event (SyncRecv st) (inl body) :: evs).
  split; [done |]. split; [done |]. rewrite logged_cons, (logged_skip handled) by done.
  cbn [replay foldr]. fold (replay (gc_key (loc s0)) k0 evs). rewrite Hr. unfold replay_step. cbn.
  by rewrite <- Hk, Hd.
Qed.
Lemma in_log_sealed s0 k c log st body err :
  in_log s0 (Some k) c log -> DecryptMessage k (gc_key c) body = inr err ->
  in_log s0 (Some k) c (Event (SyncRecv st) (inl body) :: log).
Proof.
  intros (evs & -> & Hk & Hr) Hd. exists (Event (SyncRecv st) (inl body) :: evs).
  split; [done |]. split; [done |]. rewrite (logged_skip handled) by done.
  cbn [replay foldr]. fold (replay (gc_key (loc s0)) k0 evs). rewrite Hr. unfold replay_step. cbn.
  by rewrite <- Hk, Hd.
Qed.

Lemma step_quiet s0 k {R : Set} (c : mgC R) :
  (forall a, got_key (Event c a) = None /\ got_update (Event c a) = None /\ handled (Event c a) = None) ->
  preserves (in_step s0 k) (call c).
Proof.
  intros Hc s Hs. unfold call. destruct (handle c (world s)) as [r w]. destruct (Hc r) as (H1 & H2 & H3).
  by apply in_log_call.
Qed.
#[local] Hint Extern 1 (preserves (in_step _ _) (call _)) => apply step_quiet; by intros : go_inv.

(** A notification is at most one call on the listener. *)
Lemma notifyConnected_wp (s : St) (Q : unit + error -> St -> Prop) :
  (forall evs w, (evs = [] \/ exists c : netC unit, evs = [Event (Net c) tt]) ->
     Q (inl tt) (mkState (loc s) w (evs ++ calls s))) ->
  wp notifyConnected Q s.
Proof.
  intros HQ. unfold notifyConnected. wps. destruct (gc_connStateCallback (loc s)) as [l|]; wps.
  - destruct r. apply (HQ [_]). right. by eexists.
  - pose proof (HQ [] (world s)) as H. destruct s. apply H. by left.
Qed.
Lemma notifyDisconnected_wp e (s : St) (Q : unit + error -> St -> Prop) :
  (forall evs w, (evs = [] \/ exists c : netC unit, evs = [Event (Net c) tt]) ->
     Q (inl tt) (mkState (loc s) w (evs ++ calls s))) ->
  wp (notifyDisconnected e) Q s.
Proof.
  intros HQ. unfold notifyDisconnected. wps. destruct (gc_connStateCallback (loc s)) as [l|]; wps.
  - destruct r. apply (HQ [_]). right. by eexists.
  - pose proof (HQ [] (world s)) as H. destruct s. apply H. by left.
Qed.
Lemma in_log_notified s0 k c log evs :
  evs = [] \/ (exists n : netC unit, evs = [Event (Net n) tt]) -> in_log s0 k c log -> in_log s0 k c (evs ++ log).
Proof. intros [->|[n ->]] H; [done | by apply in_log_call]. Qed.

Lemma quiet_connectToStream s0 k ctx key info : preserves (in_step s0 k) (connectToStream ctx key info).
Proof. unfold connectToStream. preserves. Qed.
Lemma no_panic_connectToStream ctx key info : no_panic (W := W) (connectToStream ctx key info).
Proof. unfold connectToStream. no_panic. Qed.

Lemma quiet_ready s0 k : preserves (in_step s0 k) ready.
Proof. unfold ready, conn_ready. preserves. Qed.

Lemma GetServerPublicKey_wp s0 k (s : St) (Q : Key + error -> St -> Prop) :
  in_step s0 k s ->
  (forall r s', match r with inl key => in_step s0 (Some key) s' | inr _ => exists k', in_step s0 k' s' end -> Q r s') ->
  wp GetServerPublicKey Q s.
Proof.
  intros Hs HQ. unfold GetServerPublicKey. wps.
  apply (wp_inv (in_step s0 k)); [unfold ready, conn_ready; wps; by case_bool_decide; wps | apply quiet_ready | done |].
  intros [[]|e] s1 H1; cbn [wp_then negb]; [| wps; apply HQ; eauto | apply HQ; eauto].
  unfold with_timeout, with_ctx. wps. destruct r0 as [key|e]; wps.
  2:{ apply HQ. exists k. by repeat apply in_log_call. }
  destruct (ParseKey key) as [pk|e] eqn:Ek; wps; apply HQ.
  - apply in_log_call; [|done..]. apply (in_log_key _ k); [by apply in_log_call | | done]. cbn. by rewrite Ek.
  - exists k. repeat apply in_log_call; try done. cbn. by rewrite Ek.
Qed.

(** Since [s0] a stream ended with the error [e]: it answered it, or delivered an
    update that could not be opened. *)
Definition ended (s0 : St) (e : error) (log : list (event mgC)) : Prop := exists evs,
  log = evs ++ calls s0 /\
  ((exists st, Event (SyncRecv st) (inr e) ∈ evs) \/
   (exists st k body, Event (SyncRecv st) (inl body) ∈ evs /\
      DecryptMessage k (gc_key (loc s0)) body = inr e)).

Lemma ended_call s0 e log ev : ended s0 e log -> ended s0 e (ev :: log).
Proof.
  intros (evs & -> & H). exists (ev :: evs). split; [done |].
  destruct H as [(st & H)|(st & k & body & H & Hd)]; [left | right]; repeat eexists; try done; by right.
Qed.
Lemma ended_notified s0 e log evs :
  evs = [] \/ (exists n : netC unit, evs = [Event (Net n) tt]) -> ended s0 e log -> ended s0 e (evs ++ log).
Proof. intros [->|[n ->]] H; [done | by apply ended_call]. Qed.

(** Reading one stream with the key [k]. *)
Lemma receiveEvents_wp fuel stream s0 k (s : St) (Q : unit + error -> St -> Prop) :
  in_step s0 (Some k) s -> (pending (world s) stream < fuel)%nat ->
  (forall e s', in_step s0 (Some k) s' -> ended s0 e (calls s') -> Q (inr e) s') ->
  wp (receiveEvents fuel stream k) Q s.
Proof.
  revert s. induction fuel as [|fuel IH]; intros s Hs Hp HQ; [lia |]. cbn [receiveEvents]. wps.
  assert (Hs' := Hs). destruct Hs' as (evs & Hc & Hk & _).
  destruct r as [body|e]; wps.
  2:{ apply HQ; [by apply in_log_call |]. exists (Event (SyncRecv stream) (inr e) :: evs).
      split; [cbn; by rewrite Hc |]. left. exists stream. left. }
  destruct (DecryptMessage k (gc_key (loc s)) body) as [resp|e] eqn:Ed; wps.
  2:{ apply HQ; [by eapply in_log_sealed |]. exists (Event (SyncRecv stream) (inl body) :: evs).
      split; [cbn; by rewrite Hc |]. right. exists stream, k, body. rewrite <- Hk. split; [left | done]. }
  pose proof (pending_recv (world s) stream body) as Hd. rewrite H in Hd. specialize (Hd eq_refl). cbn in Hd.
  pose proof (pending_frame _ (MsgHandler resp) w stream) as Hf. cbn [world] in H0. rewrite H0 in Hf. cbn in Hf.
  destruct r as [e|]; cbn [wp_then]; apply IH; cbn; try done; try lia; by apply in_log_update.
Qed.

Lemma is_status_code e code : code <> Unknown -> is_status (Some e) code = (status_code (Some e) =? code).
Proof.
  intros Hc. unfold is_status. destruct (FromError (Some e)).2 eqn:Eo; [done |].
  unfold status_code. rewrite (FromError_other _ Eo). symmetry. by apply Z.eqb_neq.
Qed.

(** What [handleStream] returns: nil only after its stream ended with Canceled, a
    permanent error for a denied permission and only then. *)
Definition stream_result (s0 : St) (log : list (event mgC)) (r : unit + error) : Prop :=
  match r with
  | inl _ => exists e, ended s0 e log /\ status_code (Some e) = Canceled
  | inr e => (exists e', e = Permanent e' /\ status_code (Some e') = PermissionDenied) \/
             status_code (Some e) <> PermissionDenied
  end.

Lemma handleStream_wp fuel ctx k info s0 (s : St) :
  (stream_bound < fuel)%nat -> in_step s0 (Some k) s ->
  wp (handleStream fuel ctx k info) (fun r s' =>
    in_step s0 (Some k) s' /\ stream_result s0 (calls s') r) s.
Proof.
  intros Hn Hs. unfold handleStream, with_cancel, with_ctx. wps.
  apply (wp_inv (in_step s0 (Some k))); [apply no_panic_wp, no_panic_connectToStream | apply quiet_connectToStream | by apply in_log_call |].
  intros [stream|e] s1 H1; cbn [wp_then].
  2:{ rewrite is_status_code by done. destruct (Z.eqb_spec (status_code (Some e)) PermissionDenied); wps;
        (split; [by apply in_log_call | cbn; eauto]). }
  wps. apply notifyConnected_wp. intros evs2 w2 E2. cbn [wp_then]. wps. set (s2 := mkState _ _ _).
  assert (H2 : in_step s0 (Some k) s2) by (by apply in_log_notified).
  apply (receiveEvents_wp _ _ s0); [done | pose proof (pending_bound (world s2) stream); lia |].
  intros e s3 H3 He. cbn [wp_then]. wps. apply notifyDisconnected_wp. intros evs4 w4 E4. cbn [wp_then]. wps.
  assert (H4 : in_log s0 (Some k) (loc s3) (evs4 ++ calls s3)) by (by apply in_log_notified).
  destruct (Z.eqb_spec (status_code (Some e)) PermissionDenied); wps; [split; [by apply in_log_call | cbn; eauto] |].
  destruct (Z.eqb_spec (status_code (Some e)) Canceled); wps; (split; [by apply in_log_call |]); [|by right].
  exists e. split; [by apply ended_call, ended_notified | done].
Qed.

End from.

(** C6: however often [Sync] reconnects, the handler is given every update its
    streams deliver that can be opened with the server key of that stream, in
    their order and once each, and nothing else; no step panics. [Sync] returns nil only
    after a stream ended with Canceled. [fuel] bounds the updates of one stream. *)
Theorem Sync_delivers fuel ctx info (s : St) :
  (stream_bound < fuel)%nat ->
  wp (Sync fuel ctx info) (fun r s' => exists evs, calls s' = evs ++ calls s /\
    logged handled evs = (replay (gc_key (loc s)) None evs).2 /\
    (r = inl tt -> exists e, ended s e (calls s') /\ status_code (Some e) = Canceled)) s.
Proof.
  intros Hn.
  apply (wp_mono _ (fun r s' => (exists k, in_step None s k s') /\
    (r = inl tt -> exists e, ended s e (calls s') /\ status_code (Some e) = Canceled))).
  2:{ intros r s' [(k & evs & Hc & _ & Hr) He]. exists evs. split; [done |]. by rewrite Hr. }
  apply (Retry_wp (fun s1 => exists k, in_step None s k s1)); [|exists None; apply in_step_refl].
  intros s1 [k H1].
  apply (wp_mono _ (fun r s' => (exists k, in_step None s k s') /\
    (r = inl tt -> exists e, ended s e (calls s') /\ status_code (Some e) = Canceled))).
  2:{ intros [[]|e] s2 [H2 He]; [by split; [|auto] |].
      destruct (as_permanent e); [done |]. intros w. split; [done |]. by intros. }
  unfold sync_operation. wps.
  destruct (bool_decide (r0 = Shutdown)); wps; [split; [exists k; by repeat apply in_log_call | done] |].
  destruct (negb _); wps; [split; [exists k; by repeat apply in_log_call | done] |].
  apply (GetServerPublicKey_wp None s k); [by repeat apply in_log_call |].
  intros [key|e] s2 H2; cbn [wp_then]; [|by split].
  eapply wp_mono; [by apply (handleStream_wp None _ _ _ _ s) |]. intros r2 s3 [H3 He]. split; [by eexists |].
  intros ->. exact He.
Qed.

(** [handleStream] makes an error permanent, so that [Sync] does not retry it,
    exactly when the server denied the permission, on opening the stream or on
    reading it; it returns nil exactly for a stream that ended with Canceled. *)
Theorem handleStream_outcome fuel ctx k info (s : St) :
  (stream_bound < fuel)%nat ->
  wp (handleStream fuel ctx k info) (fun r s' => stream_result s (calls s') r) s.
Proof.
  intros Hn. eapply wp_mono; [apply (handleStream_wp (Some k) _ _ _ _ s); [done | apply in_step_refl] |].
  by intros r s' [_ H].
Qed.
End sync.

(** ** Login *)

Section login.
Context {wg : WgTypes} {gl : GrpcLib} {bl : BackoffLib} {ml : MgmtLib} {sl : Sealing LoginResponse}.
Context {W : Type} `{!Handler mgC W}.
Notation St := (state mgC GrpcClient W).

(** A login request and its answer. *)
Definition logins (ev : event mgC) : option (string * string * (string + error)) :=
  match ev with
  | @Event _ R c a =>
      match c in mgC R' return R' -> option (string * string * (string + error)) with
      | RpcLogin _ pub body => fun r => Some (pub, body, r)
      | _ => fun _ => None
      end a
  end.

Definition canceled (e : error) : Prop := is_status (Some e) Canceled = true.

(** What [login] makes of the server's last answer. *)
Definition login_result (serverKey own : Key) (last : string + error) (r : LoginResponse + error) : Prop :=
  match last with
  | inl body => r = DecryptMessage serverKey own body
  | inr e0 => exists e, r = inr e /\
      (e = e0 \/ canceled e0 /\ (as_permanent e0 = Some e \/ e ∈ [CtxCanceled; CtxDeadlineExceeded]))
  end.

(** The attempts so far: the same request, canceled each time. *)
Definition only_canceled (pub body : string) (l : list (string * string * (string + error))) : Prop :=
  exists es, l = map (fun e => (pub, body, inr e)) es /\ Forall canceled es.

Lemma only_canceled_snoc pub body l e :
  only_canceled pub body l -> canceled e -> only_canceled pub body (l ++ [(pub, body, inr e)]).
Proof.
  intros (es & -> & Hf) He. exists (es ++ [e]). rewrite map_app. split; [done |].
  apply Forall_app. split; [done | by constructor].
Qed.

Lemma login_operation_wp loginReq (s : state mgC (GrpcClient * option string) W) Q :
  (forall r a ctx bg u w,
     let s' := mkState (match a with inl body => ((loc s).1, Some body) | inr _ => loc s end) w
       (Event (Net (CtxCancel ctx)) u :: Event (RpcLogin ctx (my_key (loc s).1) loginReq) a ::
        Event (Net (CtxWithTimeout bg ConnectTimeout)) ctx :: Event (Net CtxBackground) bg :: calls s) in
     r = match a with
         | inl _ => inl tt
         | inr err => inr (if is_status (Some err) Canceled then err else Permanent err)
         end -> Q r s') ->
  wp (login_operation loginReq) Q s.
Proof.
  intros HQ. unfold login_operation, with_timeout, with_ctx. wps.
  destruct r1 as [body|err]; [|destruct (is_status (Some err) Canceled) eqn:Ec]; wps.
  - by apply (HQ _ (inl body)).
  - apply (HQ _ (inr err)). by rewrite Ec.
  - apply (HQ _ (inr err)). by rewrite Ec.
Qed.

Lemma ready_wp (s : St) (Q : bool + error -> St -> Prop) :
  (forall b evs w, logged logins evs = [] -> Q (inl b) (mkState (loc s) w (evs ++ calls s))) -> wp ready Q s.
Proof.
  intros HQ. unfold ready, conn_ready. wps. case_bool_decide; wps; [by apply (HQ _ [_]) | by apply (HQ _ [_; _])].
Qed.

(** C20: [login] seals the request once and sends that same ciphertext again only
    while the server answers Canceled; the first other answer ends it. The response
    it returns is that answer, opened with the server's key; an error is the
    answer's own, or what opening it failed with, or the context's. *)
Theorem login_spec serverKey req (s : St) :
  wp (login serverKey req) (fun r s' => exists evs, calls s' = evs ++ calls s /\
    ((logged logins evs = [] /\ exists e, r = inr e) \/
     exists body before last,
       Event (Seal serverKey (gc_key (loc s)) (MsgLogin req)) (inl body) ∈ evs /\
       logged logins evs = before ++ [(my_key (loc s), body, last)] /\
       only_canceled (my_key (loc s)) body before /\
       login_result serverKey (gc_key (loc s)) last r)) s.
Proof.
  unfold login. wps. apply ready_wp. intros b evs0 w0 H0. cbn [wp_then].
  destruct b; cbn [negb]; wps; [|exists evs0; eauto]. destruct r as [body|e]; cbn [wp_then].
  2:{ eexists (_ :: evs0). split; [reflexivity |]. left. rewrite logged_skip by done. eauto. }
  wps. set (ev := Event (Seal serverKey (gc_key (loc s)) (MsgLogin req)) (inl body)).
  set (before := fun log => exists evs, log = evs ++ ev :: evs0 ++ calls s /\
    only_canceled (my_key (loc s)) body (logged logins evs)).
  apply (Retry_wp (fun st => (loc st).1 = loc s /\ before (calls st))).
  2:{ split; [done |]. exists []. split; [done |]. by exists []. }
  intros st [Hl (evs & Hc & Hb)]. apply login_operation_wp. intros r a ctx bg u w2 st' ->.
  assert (Hst : exists evs1, calls st' = evs1 ++ calls s /\ ev ∈ evs1 /\
    logged logins evs1 = logged logins evs ++ [(my_key (loc s), body, a)]).
  { subst st'. rewrite Hl, Hc. cbn [calls].
    exists (Event (Net (CtxCancel ctx)) u :: Event (RpcLogin ctx (my_key (loc s)) body) a ::
      Event (Net (CtxWithTimeout bg ConnectTimeout)) ctx :: Event (Net CtxBackground) bg :: evs ++ ev :: evs0).
    split; [cbn; by rewrite <- !(assoc_L (++)) |]. split; [set_solver |].
    rewrite logged_skip, logged_cons, !logged_skip, logged_app, logged_skip, H0 by done. done. }
  assert (Hres : forall r', login_result serverKey (gc_key (loc s)) a r' ->
    exists evs1, calls st' = evs1 ++ calls s /\
      ((logged logins evs1 = [] /\ exists e, r' = inr e) \/
       exists body before last, Event (Seal serverKey (gc_key (loc s)) (MsgLogin req)) (inl body) ∈ evs1 /\
         logged logins evs1 = before ++ [(my_key (loc s), body, last)] /\
         only_canceled (my_key (loc s)) body before /\ login_result serverKey (gc_key (loc s)) last r')).
  { intros r' Hr. destruct Hst as (evs1 & Hc1 & Hin & Hlog). exists evs1. split; [done |].
    right. by exists body, (logged logins evs), a. }
  destruct a as [b0|err]; cbn [loc].
  - assert (Hv : (loc st').2 = Some b0) by done. cbn [wp_then snd]. rewrite Hv. cbn [deref].
    destruct (DecryptMessage serverKey (gc_key (loc s)) b0) as [resp|e] eqn:Ed; wps;
      apply Hres; cbn [login_result]; by rewrite Ed.
  - destruct (is_status (Some err) Canceled) eqn:Ec; cbn [as_permanent].
    + destruct (as_permanent err) as [e'|] eqn:Ep; cbn [wp_then].
      * apply Hres. exists e'. split; [done |]. right. split; [done |]. by left.
      * intros w3. split.
        -- split; [done |]. subst st'. cbn [elapse calls]. rewrite Hl, Hc.
           exists (Event (Net (CtxCancel ctx)) u :: Event (RpcLogin ctx (my_key (loc s)) body) (inr err) ::
             Event (Net (CtxWithTimeout bg ConnectTimeout)) ctx :: Event (Net CtxBackground) bg :: evs).
           split; [done |]. rewrite logged_skip, logged_cons, !logged_skip by done. by apply only_canceled_snoc.
        -- intros e' He'. apply (Hres (inr e')). exists e'. split; [done |].
           apply elem_of_cons in He' as [->|He']; [by left | right]. split; [done | by right].
    + cbn [wp_then]. apply Hres. exists err. split; [done | by left].
Qed.
End login.

(** ** A management server to run the theorems on *)
Module SampleMgmt.
Import Keys SampleGrpc.

#[export] Instance mgmtlib : MgmtLib :=
  {| DeviceAuthorizationFlow := unit; PKCEAuthorizationFlow := unit; ToPunycodeList l := l |}.

Definition update : SyncResponse := mkSyncResponse None None [].
Definition response : LoginResponse := mkLoginResponse None None [].

#[export] Instance seal_sync : Sealing SyncResponse := fun _ _ b =>
  if bool_decide (b = "update") then inl update else inr (New "decryption failed").
#[export] Instance seal_login : Sealing LoginResponse := fun _ _ b =>
  if bool_decide (b = "response") then inl response else inr (New "decryption failed").

(** The objects made so far, and the updates the stream still delivers before it is
    cancelled (at most three); the first login is canceled. *)
Record World := mkWorld { next : Z; left : nat; logged_in : bool }.

Definition me : Key := key "A".
Definition server : Key := key "M".

#[export] Instance handler : Handler mgC World := fun R c w =>
  let fresh := (next w, mkWorld (next w + 1) (left w) (logged_in w)) in
  match c in mgC R return R * World with
  | Net n =>
      match n in netC R return R * World with
      | CreateConnection _ _ _ _ => (inl (next w), mkWorld (next w + 1) (left w) (logged_in w))
      | GetState _ => (Ready, w)
      | WaitForStateChange _ _ _ => (true, w)
      | CloseConn _ => (None, w)
      | CtxWithCancel _ | CtxWithTimeout _ _ | CtxBackground => fresh
      | CtxCancel _ | MarkDisconnected _ _ | MarkConnected _ => (tt, w)
      end
  | Seal _ _ _ => (inl "sealed", w)
  | RpcGetServerKey _ => (inl (Key_String server), w)
  | RpcSync _ _ _ => (inl 7, w)
  | SyncRecv _ =>
      match Nat.min 3 (left w) with
      | O => (inr (Status Canceled "canceled"), w)
      | S n => (inl "update", mkWorld (next w) n (logged_in w))
      end
  | SyncCloseSend _ => (None, w)
  | RpcLogin _ _ _ =>
      if logged_in w then (inl "response", w)
      else (inr (Status Canceled "canceled"), mkWorld (next w) (left w) true)
  | RpcDeviceFlow _ _ _ => (inl "flow", w)
  | RpcPKCEFlow _ _ _ => (inl "flow", w)
  | RpcSyncMeta _ _ _ => (None, w)
  | RpcLogout _ _ _ => (None, w)
  | MsgHandler _ => (None, w)
  end.

#[export] Instance mgmt_world : MgmtWorld World.
Proof.
  refine {| stream_bound := 3; pending w _ := Nat.min 3 (left w) |}.
  - intros w _. lia.
  - intros R c w st. destruct c; cbn -[Nat.min]; try lia; [destruct c; cbn -[Nat.min]; lia | |].
    + destruct (Nat.min 3 (left w)) eqn:E; cbn -[Nat.min]; lia.
    + destruct (logged_in w); cbn -[Nat.min]; lia.
  - intros w st b. cbn -[Nat.min]. destruct (Nat.min 3 (left w)) eqn:E; cbn -[Nat.min]; [done | lia].
Defined.

Definition client : state mgC GrpcClient World := mkState (newClient0 1 me 2) (mkWorld 10 2 false) [].

End SampleMgmt.

Import Keys SampleGrpc SampleMgmt.

(** Two updates are handled before the stream is canceled. *)
Example Sync_two : length (logged handled (calls (Sync 4 1 None client).2)) = 2%nat.
Proof. by vm_compute. Qed.

Lemma Sync_delivers_witness :
  wp (Sync 4 1 None) (fun r s' => exists evs, calls s' = evs ++ calls client /\
    logged handled evs = (replay me None evs).2 /\
    (r = inl tt -> exists e, ended client e (calls s') /\ status_code (Some e) = Canceled)) client.
Proof. apply (Sync_delivers 4 1 None client). cbn. lia. Defined.

Lemma handleStream_outcome_witness :
  wp (handleStream 4 1 server None) (fun r s' => stream_result client (calls s') r) client.
Proof. apply (handleStream_outcome 4 1 server None client). cbn. lia. Defined.
