(* ===== verification/Helper.v ===== *)
(** * The helper of the C port: [helper/main.go] and [helper/management.go]

    A process that logs in to the management server with a setup key and writes the
    peers and routes it is sent to JSON files, which the C client reads. The
    management client is an object of its own in the helper's state; its methods run
    on that. A slice of a string that is too short panics, also in what is logged. *)

From Stdlib Require Import ZArith Lia Ascii.
From stdpp Require Import base tactics list strings.
From S2P Require Import Prelude GoStrings Filepath Json Uapi Crypto Routes EngineData Grpc.
From S2P Require MgmtClient.

(** ** Data *)

Record Config := mkConfig {
  co_PrivateKey : string; co_Address : string; co_ListenPort : Z;   (* WireGuardConfig *)
  co_ManagementURL : string; co_SignalURL : string; co_WgIfaceName : string; co_PeerID : string;
  co_SetupKey : string
}.
Definition config0 : Config := mkConfig "" "" 0 "" "" "" "" "".

Record PeerInfo := mkPeerInfo {
  pi_ID : string; pi_PublicKey : string; pi_Endpoint : string; pi_AllowedIPs : list string; pi_Keepalive : Z
}.
Record PeersFile := mkPeersFile { pf_Peers : list PeerInfo; pf_UpdatedAt : string }.
Record RouteInfo := mkRouteInfo { ri_Network : string; ri_Metric : Z }.
Record RoutesFile := mkRoutesFile { rf_Routes : list RouteInfo; rf_UpdatedAt : string }.

(** The metadata of the requests; what is left out is empty or nil. *)
Record Meta := mkMeta {
  me_Hostname : string; me_GoOS : string; me_Kernel : string; me_Core : string; me_Platform : string;
  me_OS : string; me_KernelVersion : string; me_OSVersion : string; me_NetbirdVersion : string
}.
Record LoginRequest := mkLoginRequest { lq_SetupKey : string; lq_Meta : Meta; lq_WgPubKey : string }.
Record SyncRequest := mkSyncRequest { sq_Meta : Meta }.

Record ManagementClient := mkManagementClient {
  mc_url : string;
  mc_conn : option ref;          (* and the service client on it *)
  mc_serverPubKey : string;
  mc_ourPrivKey : string;
  mc_ourPubKey : string
}.

Record Helper := mkHelper {
  h_configDir : string;
  h_config : option Config;
  h_peersFile : string;
  h_routesFile : string;
  h_running : bool;
  h_mgmtClient : option ManagementClient
}.

Definition set_config (v : option Config) (h : Helper) : Helper :=
  mkHelper (h_configDir h) v (h_peersFile h) (h_routesFile h) (h_running h) (h_mgmtClient h).
Definition set_running (v : bool) (h : Helper) : Helper :=
  mkHelper (h_configDir h) (h_config h) (h_peersFile h) (h_routesFile h) v (h_mgmtClient h).
Definition set_mgmtClient (v : option ManagementClient) (h : Helper) : Helper :=
  mkHelper (h_configDir h) (h_config h) (h_peersFile h) (h_routesFile h) (h_running h) v.
Definition set_conn (v : option ref) (m : ManagementClient) : ManagementClient :=
  mkManagementClient (mc_url m) v (mc_serverPubKey m) (mc_ourPrivKey m) (mc_ourPubKey m).
Definition set_serverPubKey (v : string) (m : ManagementClient) : ManagementClient :=
  mkManagementClient (mc_url m) (mc_conn m) v (mc_ourPrivKey m) (mc_ourPubKey m).

(** [&Helper{...}] of [main]. *)
Definition newHelper (configDir : string) : Helper :=
  mkHelper configDir None (Join2 configDir "peers.json") (Join2 configDir "routes.json") true None.

(** ** JSON *)

(** [WireGuardConfig], by its members. *)
Definition store_wg (k : string) (v : json) (c : Config) : option Config :=
  if is_field "PrivateKey" k then
    x ← into_string v (co_PrivateKey c);
    Some (mkConfig x (co_Address c) (co_ListenPort c) (co_ManagementURL c) (co_SignalURL c) (co_WgIfaceName c) (co_PeerID c) (co_SetupKey c))
  else if is_field "Address" k then
    x ← into_string v (co_Address c);
    Some (mkConfig (co_PrivateKey c) x (co_ListenPort c) (co_ManagementURL c) (co_SignalURL c) (co_WgIfaceName c) (co_PeerID c) (co_SetupKey c))
  else if is_field "ListenPort" k then
    x ← into_int v (co_ListenPort c);
    Some (mkConfig (co_PrivateKey c) (co_Address c) x (co_ManagementURL c) (co_SignalURL c) (co_WgIfaceName c) (co_PeerID c) (co_SetupKey c))
  else Some c.

Definition store_config (k : string) (v : json) (c : Config) : option Config :=
  if is_field "WireGuardConfig" k then into_struct store_wg v c
  else if is_field "ManagementURL" k then
    x ← into_string v (co_ManagementURL c);
    Some (mkConfig (co_PrivateKey c) (co_Address c) (co_ListenPort c) x (co_SignalURL c) (co_WgIfaceName c) (co_PeerID c) (co_SetupKey c))
  else if is_field "SignalURL" k then
    x ← into_string v (co_SignalURL c);
    Some (mkConfig (co_PrivateKey c) (co_Address c) (co_ListenPort c) (co_ManagementURL c) x (co_WgIfaceName c) (co_PeerID c) (co_SetupKey c))
  else if is_field "WgIfaceName" k then
    x ← into_string v (co_WgIfaceName c);
    Some (mkConfig (co_PrivateKey c) (co_Address c) (co_ListenPort c) (co_ManagementURL c) (co_SignalURL c) x (co_PeerID c) (co_SetupKey c))
  else if is_field "PeerID" k then
    x ← into_string v (co_PeerID c);
    Some (mkConfig (co_PrivateKey c) (co_Address c) (co_ListenPort c) (co_ManagementURL c) (co_SignalURL c) (co_WgIfaceName c) x (co_SetupKey c))
  else if is_field "SetupKey" k then
    x ← into_string v (co_SetupKey c);
    Some (mkConfig (co_PrivateKey c) (co_Address c) (co_ListenPort c) (co_ManagementURL c) (co_SignalURL c) (co_WgIfaceName c) (co_PeerID c) x)
  else Some c.

(** [json.Unmarshal(data, h.config)] with a new configuration. *)
Definition UnmarshalConfig (data : string) : Config + error :=
  match parse data with
  | None => inr (New "json: syntax error")
  | Some v => match into_struct store_config v config0 with
              | Some c => inl c
              | None => inr (New "json: cannot unmarshal")
              end
  end.

(** A slice of a message's strings: a repeated field without elements is nil. *)
Definition json_strings (l : list string) : json :=
  match l with [] => JNull | _ => JArr (map JStr l) end.

Definition json_peer (p : PeerInfo) : json :=
  JObj [("id", JStr (pi_ID p)); ("publicKey", JStr (pi_PublicKey p)); ("endpoint", JStr (pi_Endpoint p));
        ("allowedIPs", json_strings (pi_AllowedIPs p)); ("keepalive", JNum (itoa (pi_Keepalive p)))].
Definition json_peers (f : PeersFile) : json :=
  JObj [("peers", JArr (map json_peer (pf_Peers f))); ("updatedAt", JStr (pf_UpdatedAt f))].
Definition json_route (r : RouteInfo) : json :=
  JObj [("network", JStr (ri_Network r)); ("metric", JNum (itoa (ri_Metric r)))].
Definition json_routes (f : RoutesFile) : json :=
  JObj [("routes", JArr (map json_route (rf_Routes f))); ("updatedAt", JStr (rf_UpdatedAt f))].

Definition maskSetupKey (key : string) : string :=
  if bool_decide (key = "") then "(none)"
  else if (String.length key <=? 8)%nat then "***"
  else slice_to 4 key +:+ "..." +:+ slice_from (String.length key - 4) key.

(** ** The calls *)

Inductive helpC : Set -> Type :=
  | Net {R : Set} (c : netC R) : helpC R
  | OsReadFile (path : string) : helpC (string + error)
  | OsWriteFile (path data : string) : helpC (option error)
  | OsRename (old new : string) : helpC (option error)
  | NowRFC3339 : helpC string
  | NewTicker (period : Z) : helpC ref
  | StopTicker (t : ref) : helpC unit
  | WaitTick (t : ref) : helpC bool   (* whether [stop] ran meanwhile *)
  | RandRead : helpC (string + error)   (* 24 bytes *)
  | GrpcDial (target : string) (tls : bool) : helpC (ref + error)
  | RpcGetServerKey (conn ctx : ref) : helpC (string + error)
  | RpcLogin (conn ctx : ref) (wgPubKey body : string) : helpC (string + error)
  | RpcSync (conn ctx : ref) (wgPubKey body : string) : helpC (ref + error)
  | StreamRecv (stream : ref) : helpC (string + error).

#[export] Instance help_net : HasNet helpC := @Net.

Section helper.
Context {nb : NaclBox} {plr : Proto LoginRequest} {psr : Proto SyncRequest}.
Context {pls : Proto MgmtClient.LoginResponse} {pss : Proto SyncResponse}.
Context {W : Type} `{!Handler helpC W}.

Definition HM := M helpC Helper W.

(** [s[:n]]. *)
Definition slice_ok (n : nat) (s : string) : HM unit :=
  if (String.length s <? n)%nat then panic "slice bounds out of range" else ret tt.

(** A pure function that may fail. *)
Definition try_val {A} (r : A + error) : HM A := match r with inl a => ret a | inr err => fail err end.

(** ** Files *)

Definition writeJSONAtomic (path : string) (data : json) : HM unit :=
  let tmpFile := path +:+ ".tmp" in
  let jsonData := MarshalIndent data in
  wrap (Wrap "write temp file") (check (call (OsWriteFile tmpFile jsonData))) ;;;
  wrap (Wrap "atomic rename") (check (call (OsRename tmpFile path))).

Definition writePeers (peers : PeersFile) : HM unit :=
  let* h := get in writeJSONAtomic (h_peersFile h) (json_peers peers).
Definition writeRoutes (routes : RoutesFile) : HM unit :=
  let* h := get in writeJSONAtomic (h_routesFile h) (json_routes routes).

Definition loadConfig : HM unit :=
  let* h := get in
  let* data := wrap (Wrap "read config") (check_val (call (OsReadFile (Join2 (h_configDir h) "config.json")))) in
  modify (set_config (Some config0)) ;;;
  let* c := wrap (Wrap "parse config") (try_val (UnmarshalConfig data)) in
  modify (set_config (Some c)).

(** ** Updates *)

Definition peer_info (rp : RemotePeerConfig) : PeerInfo :=
  mkPeerInfo (rpc_WgPubKey rp) (rpc_WgPubKey rp) "" (rpc_AllowedIps rp) 25.
Definition route_info (r : ProtoRoute) : RouteInfo := mkRouteInfo (pr_Network r) 100.

Definition processPeers (remotePeers : list RemotePeerConfig) : HM unit :=
  if bool_decide (remotePeers = []) then ret tt
  else
    for_each remotePeers (fun rp => slice_ok 16 (pi_PublicKey (peer_info rp))) ;;;
    let* now := call NowRFC3339 in
    ignore (writePeers (mkPeersFile (map peer_info remotePeers) now)).

Definition processRoutes (routes : list ProtoRoute) : HM unit :=
  if bool_decide (routes = []) then ret tt
  else
    let* now := call NowRFC3339 in
    ignore (writeRoutes (mkRoutesFile (map route_info routes) now)).

Definition onSyncUpdate (resp : SyncResponse) : HM unit :=
  match sr_NetworkMap resp with
  | None => ret tt
  | Some nm => processPeers (nm_RemotePeers nm) ;;; processRoutes (nm_Routes nm)
  end.

Definition demo_peer : PeerInfo :=
  mkPeerInfo "peer-demo-001" "DEMO_PEER_PUBLIC_KEY_FROM_GO_HELPER" "203.0.113.100:51820" ["100.64.10.0/24"] 25.
Definition demo_route : RouteInfo := mkRouteInfo "10.30.0.0/16" 100.

Definition with_config {A} (k : Config -> HM A) : HM A :=
  let* h := get in deref "config" (h_config h) k.

Definition updateStub : HM unit :=
  with_config (fun c =>
    if bool_decide (co_SetupKey c = "") then ret tt
    else
      let* now := call NowRFC3339 in
      ignore (writePeers (mkPeersFile [demo_peer] now)) ;;;
      let* now' := call NowRFC3339 in
      ignore (writeRoutes (mkRoutesFile [demo_route] now'))).

(** ** The management client *)

(** A method on the client. *)
Definition on_client {A} (k : ManagementClient -> HM A) : HM A :=
  let* h := get in deref "mgmtClient" (h_mgmtClient h) k.
Definition update_client (f : ManagementClient -> ManagementClient) : HM unit :=
  modify (fun h => set_mgmtClient (f <$> h_mgmtClient h) h).

Definition NewManagementClient (url ourPrivKey : string) : ManagementClient + error :=
  match HelperBox.DerivePublicKey ourPrivKey with
  | inr err => inr (Wrap "derive public key" err)
  | inl ourPubKey => inl (mkManagementClient url None "" ourPrivKey ourPubKey)
  end.

(** The target of a URL and whether to use TLS. *)
Definition dial_target (url : string) : string * bool :=
  if HasPrefix url "https://" then (TrimPrefix url "https://", true)
  else if HasPrefix url "http://" then (TrimPrefix url "http://", false)
  else (url, false).

Definition Connect : HM unit :=
  on_client (fun m =>
    let '(target, useTLS) := dial_target (mc_url m) in
    let* conn := wrap (Wrap "dial") (check_val (call (GrpcDial target useTLS))) in
    update_client (set_conn (Some conn))).

Definition Close : HM unit :=
  on_client (fun m =>
    match mc_conn m with
    | Some conn => check (call (Net (CloseConn conn)))
    | None => ret tt
    end).

Definition GetServerKey : HM unit :=
  let* background := call (Net CtxBackground) in
  with_timeout background (10 * second) (fun ctx =>
    on_client (fun m =>
      deref "client" (mc_conn m) (fun conn =>
        let* key := wrap (Wrap "get server key") (check_val (call (RpcGetServerKey conn ctx))) in
        update_client (set_serverPubKey key) ;;;
        slice_ok 16 key))).

Definition login_meta : Meta :=
  mkMeta "netbird-minimal-c" "linux" "Linux" "22.04" "unknown" "linux" "5.15.0-generic" "22.04" "0.27.0".
Definition sync_meta : Meta := mkMeta "netbird-minimal-c" "linux" "" "minimal" "linux" "Linux" "" "" "".

(** [EncryptForServer], which reads a nonce. *)
Definition encrypt (bytes : string) (m : ManagementClient) : HM string :=
  match HelperBox.with_keys (mc_ourPrivKey m) (mc_serverPubKey m) (fun _ _ => inl tt) with
  | inr err => fail err
  | inl _ =>
      let* rnd := call RandRead in
      try_val (HelperBox.EncryptForServer rnd bytes (mc_ourPrivKey m) (mc_serverPubKey m))
  end.

Definition Login (setupKey : string) : HM MgmtClient.LoginResponse :=
  on_client (fun m =>
    if bool_decide (mc_serverPubKey m = "") then fail (New "server public key not set, call GetServerKey first")
    else
      slice_ok 8 setupKey ;;;
      slice_ok 16 (mc_ourPubKey m) ;;;
      let* loginReqBytes := wrap (Wrap "marshal login request")
                              (try_val (Marshal (mkLoginRequest setupKey login_meta (mc_ourPubKey m)))) in
      let* encrypted := wrap (Wrap "encrypt login request") (encrypt loginReqBytes m) in
      let* background := call (Net CtxBackground) in
      with_timeout background (30 * second) (fun ctx =>
        deref "client" (mc_conn m) (fun conn =>
          let* body := wrap (Wrap "login call") (check_val (call (RpcLogin conn ctx (mc_ourPubKey m) encrypted))) in
          let* decrypted := wrap (Wrap "decrypt login response")
                              (try_val (HelperBox.DecryptFromServer body (mc_ourPrivKey m) (mc_serverPubKey m))) in
          wrap (Wrap "unmarshal login response") (try_val (Unmarshal decrypted))))).

Definition mustDecodeWGKey (keyStr : string) : HM string :=
  match HelperBox.DecodeWGKey keyStr with
  | inl key => ret key
  | inr _ => panic "failed to decode WG key"
  end.

(** One received message: the update, when it can be opened and read. *)
Definition open_update (m : ManagementClient) (body : string) : option SyncResponse :=
  match HelperBox.DecryptFromServer body (mc_ourPrivKey m) (mc_serverPubKey m) with
  | inr _ => None
  | inl decrypted => match Unmarshal decrypted with inl resp => Some resp | inr _ => None end
  end.

Fixpoint receive (fuel : nat) (m : ManagementClient) (stream : ref) (onUpdate : SyncResponse -> HM unit) : HM unit :=
  match fuel with
  | O => panic "out of fuel"
  | S fuel' =>
      let* r := call (StreamRecv stream) in
      match r with
      | inr err => if is_EOF (Some err) then ret tt else fail (Wrap "receive sync update" err)
      | inl body =>
          match open_update m body with
          | None => ret tt
          | Some resp => onUpdate resp
          end ;;;
          receive fuel' m stream onUpdate
      end
  end.

Definition Sync (fuel : nat) (ctx : ref) (onUpdate : SyncResponse -> HM unit) : HM unit :=
  on_client (fun m =>
    if bool_decide (mc_serverPubKey m = "") then fail (New "server public key not set")
    else
      let* syncReqBytes := wrap (Wrap "marshal sync request") (try_val (Marshal (mkSyncRequest sync_meta))) in
      let* encrypted := wrap (Wrap "encrypt sync request") (encrypt syncReqBytes m) in
      deref "client" (mc_conn m) (fun conn =>
        let* stream := wrap (Wrap "sync call") (check_val (call (RpcSync conn ctx (mc_ourPubKey m) encrypted))) in
        receive fuel m stream onUpdate)).

(** ** Running *)

Definition stop : HM unit := modify (set_running false).

Fixpoint stub_loop (fuel : nat) (ticker : ref) : HM unit :=
  match fuel with
  | O => panic "out of fuel"
  | S fuel' =>
      let* h := get in
      if h_running h then
        let* stopped := call (WaitTick ticker) in
        when stopped stop ;;;
        updateStub ;;;
        stub_loop fuel' ticker
      else ret tt
  end.

Definition runStubMode (fuel : nat) : HM unit :=
  let* ticker := call (NewTicker (10 * second)) in
  with_defer (stub_loop fuel ticker) (call (StopTicker ticker)).

Definition runRealMode (fuel : nat) : HM unit :=
  with_config (fun c =>
    let* mgmtClient := wrap (Wrap "create management client")
                         (try_val (NewManagementClient (co_ManagementURL c) (co_PrivateKey c))) in
    modify (set_mgmtClient (Some mgmtClient)) ;;;
    wrap (Wrap "connect") Connect ;;;
    with_defer
      (wrap (Wrap "get server key") GetServerKey ;;;
       wrap (Wrap "login") (Login (co_SetupKey c)) ;;;
       let* ctx := call (Net CtxBackground) in
       wrap (Wrap "sync") (Sync fuel ctx onSyncUpdate))
      (ignore Close)).

Definition run (fuel : nat) : HM unit :=
  with_config (fun c =>
    if bool_decide (co_SetupKey c = "") then runStubMode fuel
    else
      let* r := try (runRealMode fuel) in
      match r with
      | inl _ => ret tt
      | inr _ => runStubMode fuel
      end).

End helper.
