(* ===== verification/HelperSpec.v ===== *)
(** * What the helper's files say

    [writeJSONAtomic_atomic]: a file is replaced as a whole or not at all.
    [receive_follows]: after any run of the update loop, peers.json and routes.json
    hold the peers and routes of the last update that had any. *)

From Stdlib Require Import ZArith Lia Ascii.
From stdpp Require Import base tactics list strings gmap fin_maps.
From S2P Require Import Prelude GoStrings Filepath Json Uapi Crypto Routes EngineData Grpc Helper.
From S2P Require MgmtClient.

(** What the theorems assume of the outside: files, which nothing else writes, and
    streams that deliver at most [stream_bound] updates. *)
Class HelperWorld (W : Type) `{!Handler helpC W} := {
  file : W -> string -> option string;
  file_frame : forall (R : Set) (c : helpC R) w p,
    match c with OsWriteFile q _ => p <> q | OsRename a b => p <> a /\ p <> b | _ => True end ->
    file (handle c w).2 p = file w p;
  file_write : forall w p d, (handle (OsWriteFile p d) w).1 = None -> file (handle (OsWriteFile p d) w).2 p = Some d;
  file_rename : forall w a b, (handle (OsRename a b) w).1 = None -> file (handle (OsRename a b) w).2 b = file w a;
  file_not_renamed : forall w a b, is_Some (handle (OsRename a b) w).1 -> file (handle (OsRename a b) w).2 b = file w b;
  stream_bound : nat;
  pending : W -> ref -> nat;
  pending_bound : forall w st, (pending w st <= stream_bound)%nat;
  pending_frame : forall (R : Set) (c : helpC R) w st, (pending (handle c w).2 st <= pending w st)%nat;
  pending_recv : forall w st b, (handle (StreamRecv st) w).1 = inl b ->
    (pending (handle (StreamRecv st) w).2 st < pending w st)%nat
}.

Section files.
Context {nb : NaclBox} {pss : Proto SyncResponse}.
Context {W : Type} `{!Handler helpC W, !HelperWorld W}.
Notation St := (state helpC Helper W).

Lemma tmp_neq p : p +:+ ".tmp" <> p.
Proof. intros H. apply (f_equal String.length) in H. rewrite length_app_s in H. cbn in H. lia. Qed.

(** The bodies a stream delivered; the files that were written. *)
Definition delivered (ev : event helpC) : option string :=
  match ev with
  | @Event _ R c a =>
      match c in helpC R' return R' -> option string with
      | StreamRecv _ => fun r => match r with inl body => Some body | inr _ => None end
      | _ => fun _ => None
      end a
  end.
Definition written (ev : event helpC) : option string :=
  match ev with Event (OsWriteFile p _) _ => Some p | _ => None end.

(** From [s] to [s'] nothing was received. *)
Definition quietly (s s' : St) : Prop :=
  loc s' = loc s /\
  (forall st, (pending (world s') st <= pending (world s) st)%nat) /\
  exists evs, calls s' = evs ++ calls s /\ logged delivered evs = [].

Lemma quietly_refl s : quietly s s.
Proof. split; [done |]. split; [lia |]. by exists []. Qed.
Lemma quietly_trans s1 s2 s3 : quietly s1 s2 -> quietly s2 s3 -> quietly s1 s3.
Proof.
  intros (L1 & P1 & e1 & C1 & D1) (L2 & P2 & e2 & C2 & D2). split; [congruence |]. split.
  - intros st. specialize (P1 st). specialize (P2 st). lia.
  - exists (e2 ++ e1). by rewrite C2, C1, (assoc_L (++)), logged_app, D1, D2.
Qed.
Lemma quietly_call {R : Set} (c : helpC R) (s : St) r w :
  handle c (world s) = (r, w) -> (forall a, delivered (Event c a) = None) ->
  quietly s (mkState (loc s) w (Event c r :: calls s)).
Proof.
  intros H Hc. split; [done |]. split.
  - intros st. pose proof (pending_frame R c (world s) st) as Hp. by rewrite H in Hp.
  - exists [Event c r]. split; [done |]. by rewrite logged_skip.
Qed.

(** A step changes no file but [p] and its temporary one. *)
Definition only (p : string) (s s' : St) : Prop :=
  forall q, q <> p -> q <> p +:+ ".tmp" -> file (world s') q = file (world s) q.

(** Some call of [writeJSONAtomic] failed, in some world. *)
Definition disk_error (path text : string) : Prop := exists w,
  is_Some (handle (OsWriteFile (path +:+ ".tmp") text) w).1 \/ is_Some (handle (OsRename (path +:+ ".tmp") path) w).1.

Lemma writeJSONAtomic_wp path data (s : St) (Q : unit + error -> St -> Prop) :
  (forall r s', quietly s s' -> only path s s' ->
     match r with
     | inl _ => file (world s') path = Some (MarshalIndent data)
     | inr _ => file (world s') path = file (world s) path /\ disk_error path (MarshalIndent data)
     end ->
     (exists evs, calls s' = evs ++ calls s /\ forall p, p ∈ logged written evs -> p = path +:+ ".tmp") ->
     Q r s') ->
  wp (writeJSONAtomic path data) Q s.
Proof.
  intros HQ. unfold writeJSONAtomic. wps.
  pose proof (file_frame _ (OsWriteFile (path +:+ ".tmp") (MarshalIndent data)) (world s)) as Hf.
  pose proof (file_write (world s) (path +:+ ".tmp") (MarshalIndent data)) as Hw.
  rewrite H in Hf, Hw. cbn in Hf, Hw.
  assert (Hp : path <> path +:+ ".tmp") by (intros E; by apply (tmp_neq path)).
  assert (Hq : quietly s (mkState (loc s) w (Event (OsWriteFile (path +:+ ".tmp") (MarshalIndent data)) r :: calls s)))
    by by apply quietly_call.
  set (s1 := mkState _ _ _) in *. assert (Ho : only path s s1) by (intros q _ H2; by apply Hf).
  destruct r as [e|]; cbn [wp_then].
  { apply HQ; [done | done | split; [by apply Hf |]; exists (world s); left; by rewrite H |].
    eexists [_]. split; [reflexivity |]. by intros p ->%list_elem_of_singleton. }
  wps. change w with (world s1) in H0.
  pose proof (file_frame _ (OsRename (path +:+ ".tmp") path) (world s1)) as Hf'.
  pose proof (file_rename (world s1) (path +:+ ".tmp") path) as Hr.
  pose proof (file_not_renamed (world s1) (path +:+ ".tmp") path) as Hn.
  pose proof H0 as E. rewrite H0 in Hf', Hr, Hn. cbn [fst snd] in Hf', Hr, Hn. apply (quietly_call _ s1) in H0; [|done].
  set (s2 := mkState (loc s1) _ _) in *.
  assert (Ho' : only path s s2) by (intros q H1 H2; cbn; rewrite Hf' by done; by apply Ho).
  destruct r as [e|]; (apply HQ; [by eapply quietly_trans | done | |
    eexists [_; _]; split; [reflexivity |]; by intros p ->%list_elem_of_singleton]).
  - cbn. rewrite Hn by by eexists. split; [by apply Hf |]. exists (world s1). right. cbn in E |- *. by rewrite E.
  - cbn. rewrite Hr by done. by apply Hw.
Qed.

(** C12: [writeJSONAtomic] replaces the file as a whole or leaves it as it was: the file
    is never written to itself, no other file but the temporary one changes, and when it
    returns nil the file holds JSON text that reads as the value that was given. *)
Theorem writeJSONAtomic_atomic path data (s : St) :
  writable 0 data ->
  wp (writeJSONAtomic path data) (fun r s' =>
    (forall q, q <> path -> q <> path +:+ ".tmp" -> file (world s') q = file (world s) q) /\
    (exists evs, calls s' = evs ++ calls s /\ forall p, p ∈ logged written evs -> p <> path) /\
    match r with
    | inl _ => (file (world s') path ≫= parse) = Some (clean data)
    | inr _ => file (world s') path = file (world s) path
    end) s.
Proof.
  intros Hd. apply writeJSONAtomic_wp. intros r s' _ Ho Hf (evs & Hc & Hw). split; [exact Ho |]. split.
  - exists evs. split; [done |]. intros p ->%Hw. apply tmp_neq.
  - destruct r; [|by destruct Hf]. rewrite Hf. cbn. by apply parse_MarshalIndent.
Qed.

(** ** What the files say *)

Definition values_of (name : string) (v : json) : option (list json) :=
  match v with
  | JObj ((k, JArr l) :: _) => if bool_decide (k = name) then Some l else None
  | _ => None
  end.
Definition peers_in (w : W) (h : Helper) : option (list json) := (file w (h_peersFile h) ≫= parse) ≫= values_of "peers".
Definition routes_in (w : W) (h : Helper) : option (list json) := (file w (h_routesFile h) ≫= parse) ≫= values_of "routes".

(** The specification: what an update leaves in the two files. *)
Definition follow (v : option (list json) * option (list json)) (resp : SyncResponse) : option (list json) * option (list json) :=
  match sr_NetworkMap resp with
  | None => v
  | Some nm =>
      (if bool_decide (nm_RemotePeers nm = []) then v.1
       else Some (map (fun rp => clean (json_peer (peer_info rp))) (nm_RemotePeers nm)),
       if bool_decide (nm_Routes nm = []) then v.2
       else Some (map (fun r => clean (json_route (route_info r))) (nm_Routes nm)))
  end.

Lemma values_of_peers f : values_of "peers" (clean (json_peers f)) = Some (map (fun p => clean (json_peer p)) (pf_Peers f)).
Proof.
  unfold json_peers. cbn [clean map fst snd]. replace (to_valid "peers") with "peers" by (by vm_compute).
  cbn [values_of]. by rewrite bool_decide_eq_true_2, map_map.
Qed.
Lemma values_of_routes f : values_of "routes" (clean (json_routes f)) = Some (map (fun r => clean (json_route r)) (rf_Routes f)).
Proof.
  unfold json_routes. cbn [clean map fst snd]. replace (to_valid "routes") with "routes" by (by vm_compute).
  cbn [values_of]. by rewrite bool_decide_eq_true_2, map_map.
Qed.

(** An update that names a peer by a key too short to be sliced for the log. *)
Definition short_key (resp : SyncResponse) : Prop := exists nm rp,
  sr_NetworkMap resp = Some nm /\ rp ∈ nm_RemotePeers nm /\ (String.length (rpc_WgPubKey rp) < 16)%nat.

Lemma writable_strings d l : d < max_depth -> writable d (json_strings l).
Proof. intros Hd. destruct l as [|x l]; [done |]. split; [done |]. cbn. split; [done |]. by induction l. Qed.
Lemma writable_peers f : writable 0 (json_peers f).
Proof.
  split; [done |]. cbn. split; [|done]. split; [done |]. induction (pf_Peers f) as [|p l IH]; [done |].
  split; [|done]. split; [done |]. cbn. repeat split; [by apply writable_strings | by eexists].
Qed.
Lemma writable_routes f : writable 0 (json_routes f).
Proof.
  split; [done |]. cbn. split; [|done]. split; [done |]. induction (rf_Routes f) as [|p l IH]; [done |].
  split; [|done]. split; [done |]. cbn. repeat split. by eexists.
Qed.

Lemma slices_ok_wp l (s : St) (Q : unit + error -> St -> Prop) :
  Forall (fun rp => (16 <= String.length (rpc_WgPubKey rp))%nat) l -> Q (inl tt) s ->
  wp (for_each l (fun rp => slice_ok 16 (pi_PublicKey (peer_info rp)))) Q s.
Proof.
  intros Hl HQ. apply (wp_for_each (fun l' s' => s' = s /\ Forall (fun rp => (16 <= String.length (rpc_WgPubKey rp))%nat) l')); [done | |].
  - intros rp l' s' [-> H]. inversion H; subst. unfold slice_ok. cbn [peer_info pi_PublicKey].
    destruct (Nat.ltb_spec (String.length (rpc_WgPubKey rp)) 16); [lia | by wps].
  - by intros s' [-> _].
Qed.

Lemma slices_panic l (s : St) :
  ~ Forall (fun rp => (16 <= String.length (rpc_WgPubKey rp))%nat) l ->
  for_each l (fun rp => slice_ok 16 (pi_PublicKey (peer_info rp))) s = (Panic "slice bounds out of range", s).
Proof.
  induction l as [|rp l IH]; intros Hl; [by destruct Hl |]. cbn [for_each]. unfold bind, slice_ok at 1. cbn [peer_info pi_PublicKey].
  destruct (Nat.ltb_spec (String.length (rpc_WgPubKey rp)) 16); [done |]. cbn. apply IH. intros H'. apply Hl. by constructor.
Qed.


(** *** With a disk that neither fills up nor fails, and the two files apart *)

Context (write_ok : forall w p d, (handle (OsWriteFile p d) w).1 = None).
Context (rename_ok : forall w a b, (handle (OsRename a b) w).1 = None).

Definition apart (h : Helper) : Prop :=
  h_peersFile h <> h_routesFile h /\ h_peersFile h <> h_routesFile h +:+ ".tmp" /\ h_routesFile h <> h_peersFile h +:+ ".tmp".

Lemma write_succeeds path data (s : St) (Q : unit + error -> St -> Prop) :
  (forall s', quietly s s' -> only path s s' -> file (world s') path = Some (MarshalIndent data) -> Q (inl tt) s') ->
  wp (writeJSONAtomic path data) Q s.
Proof.
  intros HQ. apply writeJSONAtomic_wp. intros [[]|e] s' Hq Ho Hf _; [by apply HQ |].
  destruct Hf as (_ & w & [[x Hx]|[x Hx]]); [by rewrite write_ok in Hx | by rewrite rename_ok in Hx].
Qed.

Lemma processPeers_wp rps (s : St) (Q : unit + error -> St -> Prop) :
  Forall (fun rp => (16 <= String.length (rpc_WgPubKey rp))%nat) rps ->
  (forall s', quietly s s' -> only (h_peersFile (loc s)) s s' ->
     peers_in (world s') (loc s)
     = (if bool_decide (rps = []) then peers_in (world s) (loc s)
        else Some (map (fun rp => clean (json_peer (peer_info rp))) rps)) -> Q (inl tt) s') ->
  wp (processPeers rps) Q s.
Proof.
  intros Hl HQ. unfold processPeers. case_bool_decide as Hr; [wps; apply HQ; [apply quietly_refl | done | done] |].
  wps. apply slices_ok_wp; [done |]. cbn [wp_then]. wps. apply (quietly_call _ s) in H as Hq; [|done].
  set (s1 := mkState _ _ _) in *. unfold writePeers. wps. apply write_succeeds. intros s' Hq' Ho Hf.
  apply HQ; [by eapply quietly_trans | |]; change (loc s1) with (loc s) in *.
  - intros q H1 H2. rewrite Ho by done. cbn. pose proof (file_frame _ NowRFC3339 (world s) q I) as Hn. by rewrite H in Hn.
  - unfold peers_in. rewrite Hf. cbn [mbind option_bind]. rewrite parse_MarshalIndent by apply writable_peers.
    cbn [mbind option_bind]. rewrite values_of_peers. cbn [pf_Peers]. by rewrite map_map.
Qed.

Lemma processRoutes_wp rs (s : St) (Q : unit + error -> St -> Prop) :
  (forall s', quietly s s' -> only (h_routesFile (loc s)) s s' ->
     routes_in (world s') (loc s)
     = (if bool_decide (rs = []) then routes_in (world s) (loc s)
        else Some (map (fun r => clean (json_route (route_info r))) rs)) -> Q (inl tt) s') ->
  wp (processRoutes rs) Q s.
Proof.
  intros HQ. unfold processRoutes. case_bool_decide as Hr; [wps; apply HQ; [apply quietly_refl | done | done] |].
  wps. apply (quietly_call _ s) in H as Hq; [|done].
  set (s1 := mkState _ _ _) in *. unfold writeRoutes. wps. apply write_succeeds. intros s' Hq' Ho Hf.
  apply HQ; [by eapply quietly_trans | |]; change (loc s1) with (loc s) in *.
  - intros q H1 H2. rewrite Ho by done. cbn. pose proof (file_frame _ NowRFC3339 (world s) q I) as Hn. by rewrite H in Hn.
  - unfold routes_in. rewrite Hf. cbn [mbind option_bind]. rewrite parse_MarshalIndent by apply writable_routes.
    cbn [mbind option_bind]. rewrite values_of_routes. cbn [rf_Routes]. by rewrite map_map.
Qed.

Definition views (h : Helper) (w : W) : option (list json) * option (list json) := (peers_in w h, routes_in w h).

Lemma onSyncUpdate_wp resp (s : St) (Q : unit + error -> St -> Prop) :
  apart (loc s) -> ~ short_key resp ->
  (forall s', quietly s s' -> views (loc s) (world s') = follow (views (loc s) (world s)) resp -> Q (inl tt) s') ->
  wp (onSyncUpdate resp) Q s.
Proof.
  intros (A1 & A2 & A3) Hs HQ. unfold onSyncUpdate, follow in *. destruct (sr_NetworkMap resp) as [nm|] eqn:En.
  2:{ wps. by apply HQ; [apply quietly_refl |]. }
  wps. apply processPeers_wp.
  { apply Forall_forall. intros rp Hrp. destruct (decide (16 <= String.length (rpc_WgPubKey rp))%nat); [done |].
    destruct Hs. exists nm, rp. split; [done |]. split; [done | lia]. }
  intros s1 Hq1 Ho1 Hp1. cbn [wp_then]. apply processRoutes_wp. destruct Hq1 as (L1 & Hq1). rewrite L1.
  intros s2 Hq2 Ho2 Hr2. apply HQ; [eapply quietly_trans; [by split | done] |].
  assert (E1 : peers_in (world s2) (loc s) = peers_in (world s1) (loc s)).
  { unfold peers_in. by rewrite Ho2 by done. }
  assert (E2 : routes_in (world s1) (loc s) = routes_in (world s) (loc s)).
  { unfold routes_in. by rewrite Ho1 by done. }
  unfold views. by rewrite E1, Hp1, Hr2, E2.
Qed.

Lemma onSyncUpdate_panics resp (s : St) :
  short_key resp -> onSyncUpdate resp s = (Panic "slice bounds out of range", s).
Proof.
  intros (nm & rp & En & Hrp & Hl). unfold onSyncUpdate. rewrite En. unfold processPeers, bind.
  rewrite bool_decide_eq_false_2 by (intros E; rewrite E in Hrp; by apply elem_of_nil in Hrp).
  rewrite slices_panic; [done |]. rewrite Forall_forall. intros H. specialize (H rp Hrp). cbn in H. lia.
Qed.

Lemma short_key_dec resp : {short_key resp} + {~ short_key resp}.
Proof.
  destruct (sr_NetworkMap resp) as [nm|] eqn:En; [|right; intros (nm & rp & H & _); congruence].
  destruct (decide (Exists (fun rp => (String.length (rpc_WgPubKey rp) < 16)%nat) (nm_RemotePeers nm))) as [H|H].
  - left. apply Exists_exists in H as (rp & Hrp & Hl). by exists nm, rp.
  - right. intros (nm' & rp & En' & Hrp & Hl). apply H, Exists_exists. exists rp. by replace nm with nm' by congruence.
Qed.

(** The updates that could be opened, of those a log says were delivered. *)
Definition updates (m : ManagementClient) (evs : list (event helpC)) : list SyncResponse :=
  omap (open_update m) (logged delivered evs).

Lemma omap_snoc {A B} (f : A -> option B) l x : omap f (l ++ [x]) = omap f l ++ option_list (f x).
Proof. induction l as [|y l IH]; [cbn; by destruct (f x) |]. cbn. rewrite IH. by destruct (f y). Qed.

Lemma updates_app m e2 e1 : updates m (e2 ++ e1) = updates m e1 ++ updates m e2.
Proof. unfold updates. rewrite logged_app. induction (logged delivered e1) as [|x l IH]; [done |]. cbn. rewrite IH. by destruct (open_update m x). Qed.

(** Where the loop ends, from [s]. *)
Definition followed (m : ManagementClient) (s : St) (o : outcome unit) (s' : St) : Prop :=
  loc s' = loc s /\ exists evs, calls s' = evs ++ calls s /\
  match o with
  | Panic _ => exists us resp, updates m evs = us ++ [resp] /\ short_key resp
  | _ => Forall (fun resp => ~ short_key resp) (updates m evs) /\
         views (loc s) (world s') = foldl follow (views (loc s) (world s)) (updates m evs)
  end.

Lemma followed_step m (s s1 s2 : St) evs o :
  loc s1 = loc s -> calls s1 = evs ++ calls s -> Forall (fun resp => ~ short_key resp) (updates m evs) ->
  views (loc s) (world s1) = foldl follow (views (loc s) (world s)) (updates m evs) ->
  followed m s1 o s2 -> followed m s o s2.
Proof.
  intros L1 C1 F1 V1 (L2 & e2 & C2 & H2). split; [congruence |]. exists (e2 ++ evs).
  split; [by rewrite C2, C1, (assoc_L (++)) |]. rewrite updates_app, L1 in *.
  destruct o as [u|e|p].
  - destruct H2 as [F2 V2]. split; [by apply Forall_app |]. by rewrite foldl_app, <- V1, V2.
  - destruct H2 as [F2 V2]. split; [by apply Forall_app |]. by rewrite foldl_app, <- V1, V2.
  - destruct H2 as (us & resp & E & Hs). exists (updates m evs ++ us), resp. by rewrite E, (assoc_L (++)).
Qed.

Lemma receive_followed fuel m stream (s s' : St) o :
  apart (loc s) -> (pending (world s) stream < fuel)%nat ->
  receive fuel m stream onSyncUpdate s = (o, s') -> followed m s o s'.
Proof.
  revert s. induction fuel as [|fuel IH]; intros s Ha Hf E; [lia |]. cbn [receive] in E.
  unfold bind at 1 in E. unfold call in E.
  pose proof (pending_recv (world s) stream) as Hp. pose proof (file_frame _ (StreamRecv stream) (world s)) as Hff.
  destruct (handle (StreamRecv stream) (world s)) as [r w] eqn:Er. cbn [fst snd] in Hp, Hff.
  assert (Hv : views (loc s) w = views (loc s) (world s)) by (unfold views, peers_in, routes_in; by rewrite !Hff).
  destruct r as [body|err].
  2:{ destruct (is_EOF _); injection E as <- <-; (split; [done |];
        exists [Event (StreamRecv stream) (inr err)]; split; [done |]; split; [constructor | exact Hv]). }
  set (s1 := mkState _ _ _) in *. set (evs := [Event (StreamRecv stream) (inl body) : event helpC]).
  assert (Hu : updates m evs = option_list (open_update m body)) by (cbn; by destruct (open_update m body)).
  specialize (Hp body eq_refl). destruct (open_update m body) as [resp|]; unfold bind in E.
  - destruct (short_key_dec resp) as [Hs|Hs].
    { rewrite onSyncUpdate_panics in E by done. injection E as <- <-. split; [done |].
      exists evs. split; [done |]. exists [], resp. by rewrite Hu. }
    assert (Hw : wp (onSyncUpdate resp) (fun r s2 => r = inl tt /\ quietly s1 s2 /\
        views (loc s1) (world s2) = follow (views (loc s1) (world s1)) resp) s1).
    { apply onSyncUpdate_wp; [done | done |]. intros s2 Hq V2. done. }
    unfold wp in Hw. destruct (onSyncUpdate resp s1) as [[[]|e|p] s2]; [|by destruct Hw | done].
    destruct Hw as (_ & (L2 & P2 & e2 & C2 & D2) & V2).
    apply (followed_step m s s2 _ (e2 ++ evs)); [done | by rewrite C2, <- (assoc_L (++)) | | |].
    + rewrite updates_app, Hu. unfold updates. rewrite D2. by repeat constructor.
    + rewrite updates_app, Hu. unfold updates. rewrite D2. cbn in *. by rewrite V2, Hv.
    + apply IH; [by rewrite L2 | | done]. specialize (P2 stream). cbn in P2. lia.
  - cbn [ret] in E. apply (followed_step m s s1 _ evs); [done | done | by rewrite Hu; constructor | by rewrite Hu |].
    apply IH; [done | | done]. cbn. lia.
Qed.

Lemma apart_newHelper dir : apart (newHelper dir).
Proof.
  destruct (Join2_suffix dir "peers.json") as [x Hx]; [done |].
  destruct (Join2_suffix dir "routes.json") as [y Hy]; [done |].
  unfold apart, newHelper. cbn [h_peersFile h_routesFile]. rewrite Hx, Hy, !app_assoc_s.
  repeat split; intros H; apply (f_equal srev) in H; rewrite !srev_app_distr in H; discriminate H.
Qed.

(** C11: after any run of the update loop of a helper that [main] made, on a disk that
    does not fail: peers.json and routes.json hold, as JSON text, the peers and routes of
    the last update that could be opened and had any (so peers that are all removed stay
    in the file); and the loop panics only on an update that names a peer by a key
    shorter than 16 bytes. *)
Theorem receive_follows dir fuel m stream (s s' : St) o :
  h_peersFile (loc s) = h_peersFile (newHelper dir) -> h_routesFile (loc s) = h_routesFile (newHelper dir) ->
  (stream_bound < fuel)%nat ->
  receive fuel m stream onSyncUpdate s = (o, s') ->
  loc s' = loc s /\ exists evs, calls s' = evs ++ calls s /\
  match o with
  | Panic _ => exists us resp, updates m evs = us ++ [resp] /\ short_key resp
  | _ => Forall (fun resp => ~ short_key resp) (updates m evs) /\
         views (loc s) (world s') = foldl follow (views (loc s) (world s)) (updates m evs)
  end.
Proof.
  intros Hp Hr Hf. apply receive_followed; [|pose proof (pending_bound (world s) stream); lia].
  unfold apart. rewrite Hp, Hr. apply apart_newHelper.
Qed.

End files.

(** ** Stub mode *)

Section stub.
Context {nb : NaclBox} {plr : Proto LoginRequest} {psr : Proto SyncRequest}.
Context {pls : Proto MgmtClient.LoginResponse} {pss : Proto SyncResponse}.
Context {W : Type} `{!Handler helpC W}.
Notation St := (state helpC Helper W).

(** Without a setup key, nothing written so far. *)
Definition unwritten (n : nat) (s : St) : Prop :=
  length (logged written (calls s)) = n /\ exists c, h_config (loc s) = Some c /\ co_SetupKey c = "".

Lemma unwritten_call n {R : Set} (c : helpC R) : (forall a, written (Event c a) = None) -> preserves (unwritten n) (call c).
Proof.
  intros Hc s [Hn Hs]. unfold call. destruct (handle c (world s)) as [r w]. split; [|done]. cbn [calls snd]. by rewrite logged_skip.
Qed.
Lemma unwritten_get n : preserves (unwritten n) get.
Proof. by intros s. Qed.
Lemma unwritten_stop n : preserves (unwritten n) stop.
Proof. by intros s. Qed.
Lemma unwritten_updateStub n : preserves (unwritten n) updateStub.
Proof.
  intros s Hs. destruct (Hs) as [_ (c & Hc & Hk)]. unfold updateStub, with_config, deref, bind, get. rewrite Hc.
  by rewrite bool_decide_eq_true_2.
Qed.
#[local] Hint Resolve unwritten_get unwritten_stop unwritten_updateStub : go_inv.
#[local] Hint Extern 1 (preserves (unwritten _) (call _)) => apply unwritten_call; by intros : go_inv.
#[local] Opaque updateStub stop.

(** Without a setup key the helper runs in stub mode, in which it then writes nothing. *)
Theorem run_without_key_writes_nothing fuel (s : St) c :
  h_config (loc s) = Some c -> co_SetupKey c = "" ->
  length (logged written (calls (run fuel s).2)) = length (logged written (calls s)).
Proof.
  intros Hc Hk. assert (Hu : unwritten (length (logged written (calls s))) s) by (split; [done | by exists c]).
  unfold run, with_config, deref, bind at 1, get. rewrite Hc. rewrite bool_decide_eq_true_2 by done.
  assert (Hl : forall n t, preserves (unwritten n) (stub_loop fuel t)).
  { intros n. clear. induction fuel as [|fuel IH]; intros t; cbn [stub_loop]; preserves. }
  assert (Hm : forall n, preserves (unwritten n) (runStubMode fuel)) by (intros n; unfold runStubMode; preserves; apply Hl).
  by apply (Hm _ s Hu).
Qed.

End stub.

(** ** A sample *)

Module SampleHelper.
Import Keys SampleBox.

Definition me : ManagementClient := mkManagementClient "https://m" (Some 2) key_B key_A key_A.

Definition map_of (keys : list string) : SyncResponse :=
  mkSyncResponse None (Some (mkNetworkMap 1 None (map (fun k => mkRemotePeerConfig k ["100.64.0.2/32"] "" "") keys) false
    [mkProtoRoute "r" "10.0.0.0/8" 1 "" 9999 false "net" [] false false] None [] 0 true [])) [].

(** The text of an update is the list of its peers. *)
#[export] Instance sync_proto : Proto SyncResponse.
Proof.
  refine {| Marshal _ := inr (New "not needed");
            Unmarshal s := if bool_decide (s = "none") then inl (map_of []) else inl (map_of [s]) |}. done.
Defined.

Definition seal (text : string) : string :=
  match HelperBox.EncryptForServer (inl nonce) text key_B key_A with inl c => c | inr _ => EmptyString end.

(** Three updates: a peer, one that cannot be opened, and no peers. *)
Record World := mkWorld { files : gmap string string; left : nat }.
Definition update (n : nat) : string :=
  match n with 2%nat => seal key_B | 1%nat => "garbled" | _ => seal "none" end.

#[export] Instance handler : Handler helpC World := fun R c w =>
  match c in helpC R return R * World with
  | Net n =>
      match n in netC R return R * World with
      | CreateConnection _ _ _ _ => (inl 1, w)
      | GetState _ => (Ready, w)
      | WaitForStateChange _ _ _ => (true, w)
      | CloseConn _ => (None, w)
      | CtxWithCancel _ | CtxWithTimeout _ _ | CtxBackground => (1, w)
      | CtxCancel _ | MarkDisconnected _ _ | MarkConnected _ => (tt, w)
      end
  | OsReadFile p => (match files w !! p with Some d => inl d | None => inr (Errno 2) end, w)
  | OsWriteFile p d => (None, mkWorld (<[p := d]> (files w)) (left w))
  | OsRename a b =>
      (None, mkWorld (match files w !! a with
                      | Some d => <[b := d]> (delete a (files w))
                      | None => delete b (files w) end) (left w))
  | NowRFC3339 => ("2024-01-01T00:00:00Z", w)
  | NewTicker _ => (9, w)
  | StopTicker _ => (tt, w)
  | WaitTick _ => (true, w)
  | RandRead => (inl nonce, w)
  | GrpcDial _ _ => (inl 2, w)
  | RpcGetServerKey _ _ => (inl key_B, w)
  | RpcLogin _ _ _ _ => (inr (New "refused"), w)
  | RpcSync _ _ _ _ => (inl 7, w)
  | StreamRecv _ =>
      match Nat.min 3 (left w) with
      | O => (inr EOF, w)
      | S n => (inl (update n), mkWorld (files w) n)
      end
  end.

#[export] Instance helper_world : HelperWorld World.
Proof.
  refine {| file w p := files w !! p; stream_bound := 3; pending w _ := Nat.min 3 (left w) |}.
  - intros R c w p. destruct c; cbn -[Nat.min]; try done.
    + by destruct c.
    + intros H. by rewrite lookup_insert_ne.
    + intros [H1 H2]. destruct (files w !! old); [rewrite lookup_insert_ne by done |]; by rewrite lookup_delete_ne.
    + by destruct (Nat.min 3 (left w)).
  - intros w p d _. cbn. by rewrite lookup_insert_eq.
  - intros w a b _. cbn. destruct (files w !! a) eqn:E; [by rewrite lookup_insert_eq |]. by rewrite lookup_delete_eq.
  - intros w a b [x H]. discriminate H.
  - intros w _. lia.
  - intros R c w st. destruct c; cbn -[Nat.min]; try lia; [by destruct c; cbn -[Nat.min]; lia |].
    destruct (Nat.min 3 (left w)) eqn:E; cbn -[Nat.min]; lia.
  - intros w st b. cbn -[Nat.min]. destruct (Nat.min 3 (left w)) eqn:E; cbn -[Nat.min]; [done | lia].
Defined.

Definition helper : state helpC Helper World := mkState (newHelper "/etc/netbird") (mkWorld ∅ 3) [].

End SampleHelper.

Import Keys SampleBox SampleHelper.

(** The last update has no peers: the file keeps the ones of the first. *)
Example removed_peers_stay :
  let '(o, s) := receive 4 me 7 onSyncUpdate helper in
  o = Ok tt /\ peers_in (world s) (loc s)
    = Some [JObj [("id", JStr key_B); ("publicKey", JStr key_B); ("endpoint", JStr ""); ("allowedIPs", JArr [JStr "100.64.0.2/32"]); ("keepalive", JNum "25")]].
Proof. by vm_compute. Qed.

Lemma receive_follows_witness :
  let '(o, s') := receive 4 me 7 onSyncUpdate helper in
  loc s' = loc helper /\ exists evs, calls s' = evs ++ calls helper /\
  match o with
  | Panic _ => exists us resp, updates me evs = us ++ [resp] /\ short_key resp
  | _ => Forall (fun resp => ~ short_key resp) (updates me evs) /\
         views (loc helper) (world s') = foldl follow (views (loc helper) (world helper)) (updates me evs)
  end.
Proof.
  destruct (receive 4 me 7 onSyncUpdate helper) as [o s'] eqn:E.
  apply (receive_follows ltac:(done) ltac:(done) "/etc/netbird" 4 me 7 helper s' o); [done | done | cbn; lia | exact E].
Defined.

Lemma writeJSONAtomic_atomic_witness :
  wp (writeJSONAtomic "/p" (json_peers (mkPeersFile [demo_peer] "now"))) (fun r s' =>
    (forall q, q <> "/p" -> q <> "/p" +:+ ".tmp" -> file (world s') q = file (world helper) q) /\
    (exists evs, calls s' = evs ++ calls helper /\ forall p, p ∈ logged written evs -> p <> "/p") /\
    match r with
    | inl _ => (file (world s') "/p" ≫= parse) = Some (clean (json_peers (mkPeersFile [demo_peer] "now")))
    | inr _ => file (world s') "/p" = file (world helper) "/p"
    end) helper.
Proof. apply writeJSONAtomic_atomic, writable_peers. Defined.
