(* ===== verification/MiniClient.v ===== *)
(** * The mini client: [go/miniclient]

    A command line that registers with the management server, or makes up a demo peer,
    and applies the result with the ip and wg tools. [main] is [main_args] on the
    arguments of the process; what is printed is left out, but for the status. *)

From Stdlib Require Import ZArith Lia Ascii.
From stdpp Require Import base tactics list strings.
From S2P Require Import Prelude GoStrings Filepath Json Uapi Crypto Routes EngineData Grpc.
From S2P Require MgmtClient.

(** ** Configuration: config.go *)

Record Peer := mkPeer { p_ID : string; p_PublicKey : string; p_AllowedIPs : string; p_Endpoint : string }.
Definition peer0 : Peer := mkPeer "" "" "" "".

(** The two slices are nil ([None]) or hold elements. *)
Record Config := mkConfig {
  co_ManagementURL : string; co_SignalURL : string; co_SetupKey : string; co_WgIfaceName : string;
  co_WgAddress : string; co_WgListenPort : Z; co_WgPrivateKey : string;
  co_Peers : option (list Peer); co_Routes : option (list string)
}.
Definition config0 : Config := mkConfig "" "" "" "" "" 0 "" None None.

Definition defaultConfig : Config :=
  mkConfig "https://api.netbird.io:443" "https://signal.netbird.io:443" "" "wtnb0" "100.64.0.50/32" 51820 ""
    (Some []) (Some []).

Definition set_ManagementURL (v : string) (c : Config) : Config :=
  mkConfig v (co_SignalURL c) (co_SetupKey c) (co_WgIfaceName c) (co_WgAddress c) (co_WgListenPort c) (co_WgPrivateKey c) (co_Peers c) (co_Routes c).
Definition set_SignalURL (v : string) (c : Config) : Config :=
  mkConfig (co_ManagementURL c) v (co_SetupKey c) (co_WgIfaceName c) (co_WgAddress c) (co_WgListenPort c) (co_WgPrivateKey c) (co_Peers c) (co_Routes c).
Definition set_SetupKey (v : string) (c : Config) : Config :=
  mkConfig (co_ManagementURL c) (co_SignalURL c) v (co_WgIfaceName c) (co_WgAddress c) (co_WgListenPort c) (co_WgPrivateKey c) (co_Peers c) (co_Routes c).
Definition set_WgIfaceName (v : string) (c : Config) : Config :=
  mkConfig (co_ManagementURL c) (co_SignalURL c) (co_SetupKey c) v (co_WgAddress c) (co_WgListenPort c) (co_WgPrivateKey c) (co_Peers c) (co_Routes c).
Definition set_WgAddress (v : string) (c : Config) : Config :=
  mkConfig (co_ManagementURL c) (co_SignalURL c) (co_SetupKey c) (co_WgIfaceName c) v (co_WgListenPort c) (co_WgPrivateKey c) (co_Peers c) (co_Routes c).
Definition set_WgListenPort (v : Z) (c : Config) : Config :=
  mkConfig (co_ManagementURL c) (co_SignalURL c) (co_SetupKey c) (co_WgIfaceName c) (co_WgAddress c) v (co_WgPrivateKey c) (co_Peers c) (co_Routes c).
Definition set_WgPrivateKey (v : string) (c : Config) : Config :=
  mkConfig (co_ManagementURL c) (co_SignalURL c) (co_SetupKey c) (co_WgIfaceName c) (co_WgAddress c) (co_WgListenPort c) v (co_Peers c) (co_Routes c).
Definition set_Peers (v : option (list Peer)) (c : Config) : Config :=
  mkConfig (co_ManagementURL c) (co_SignalURL c) (co_SetupKey c) (co_WgIfaceName c) (co_WgAddress c) (co_WgListenPort c) (co_WgPrivateKey c) v (co_Routes c).
Definition set_Routes (v : option (list string)) (c : Config) : Config :=
  mkConfig (co_ManagementURL c) (co_SignalURL c) (co_SetupKey c) (co_WgIfaceName c) (co_WgAddress c) (co_WgListenPort c) (co_WgPrivateKey c) (co_Peers c) v.

(** *** As JSON *)

Definition json_peer (p : Peer) : json :=
  JObj [("id", JStr (p_ID p)); ("public_key", JStr (p_PublicKey p)); ("allowed_ips", JStr (p_AllowedIPs p));
        ("endpoint", JStr (p_Endpoint p))].
Definition json_slice {A} (f : A -> json) (l : option (list A)) : json :=
  match l with None => JNull | Some l => JArr (map f l) end.
Definition json_config (c : Config) : json :=
  JObj [("management_url", JStr (co_ManagementURL c)); ("signal_url", JStr (co_SignalURL c));
        ("setup_key", JStr (co_SetupKey c)); ("wg_iface_name", JStr (co_WgIfaceName c));
        ("wg_address", JStr (co_WgAddress c)); ("wg_listen_port", JNum (itoa (co_WgListenPort c)));
        ("wg_private_key", JStr (co_WgPrivateKey c)); ("peers", json_slice json_peer (co_Peers c));
        ("routes", json_slice JStr (co_Routes c))].

Definition store_peer (k : string) (v : json) (p : Peer) : option Peer :=
  if is_field "id" k then x ← into_string v (p_ID p); Some (mkPeer x (p_PublicKey p) (p_AllowedIPs p) (p_Endpoint p))
  else if is_field "public_key" k then x ← into_string v (p_PublicKey p); Some (mkPeer (p_ID p) x (p_AllowedIPs p) (p_Endpoint p))
  else if is_field "allowed_ips" k then x ← into_string v (p_AllowedIPs p); Some (mkPeer (p_ID p) (p_PublicKey p) x (p_Endpoint p))
  else if is_field "endpoint" k then x ← into_string v (p_Endpoint p); Some (mkPeer (p_ID p) (p_PublicKey p) (p_AllowedIPs p) x)
  else Some p.

(** A configuration being read, with the backing arrays of its two slices. *)
Record Reading := mkReading { rd_config : Config; rd_peers : list Peer; rd_routes : list string }.
Definition upd (f : Config -> Config) (r : Reading) : Reading := mkReading (f (rd_config r)) (rd_peers r) (rd_routes r).

Definition store_config (k : string) (v : json) (r : Reading) : option Reading :=
  let c := rd_config r in
  let text (get : Config -> string) (set : string -> Config -> Config) :=
    x ← into_string v (get c); Some (upd (set x) r) in
  if is_field "management_url" k then text co_ManagementURL set_ManagementURL
  else if is_field "signal_url" k then text co_SignalURL set_SignalURL
  else if is_field "setup_key" k then text co_SetupKey set_SetupKey
  else if is_field "wg_iface_name" k then text co_WgIfaceName set_WgIfaceName
  else if is_field "wg_address" k then text co_WgAddress set_WgAddress
  else if is_field "wg_listen_port" k then x ← into_int v (co_WgListenPort c); Some (upd (set_WgListenPort x) r)
  else if is_field "wg_private_key" k then text co_WgPrivateKey set_WgPrivateKey
  else if is_field "peers" k then
    x ← into_slice (into_struct store_peer) peer0 v (rd_peers r);
    Some (mkReading (set_Peers x.1 c) x.2 (rd_routes r))
  else if is_field "routes" k then
    x ← into_slice into_string "" v (rd_routes r);
    Some (mkReading (set_Routes x.1 c) (rd_peers r) x.2)
  else Some r.

Definition UnmarshalConfig (data : string) : Config + error :=
  match parse data with
  | None => inr (New "json: syntax error")
  | Some v => match into_struct store_config v (mkReading config0 [] []) with
              | Some r => inl (rd_config r)
              | None => inr (New "json: cannot unmarshal")
              end
  end.

(** ** Calls to the outside *)

(** The parts of a Login or Sync request that are set. *)
Record Meta := mkMeta { me_Hostname : string; me_GoOS : string; me_NetbirdVersion : string; me_OS : string }.
Record LoginRequest := mkLoginRequest { lq_SetupKey : string; lq_WgPubKey : string; lq_Meta : Meta }.
Record SyncRequest := mkSyncRequest { sq_Meta : Meta }.
Record ServerKeyResponse := mkServerKeyResponse { sk_Key : string; sk_Version : Z }.

Inductive miniC : Set -> Type :=
  | Net {R : Set} (c : netC R) : miniC R
  | UserConfigDir : miniC (string + error)
  | MkdirAll (path : string) : miniC (option error)
  | ReadFile (path : string) : miniC (string + error)
  | WriteFile (path data : string) : miniC (option error)
  | Geteuid : miniC Z
  | Run (name : string) (args : list string) : miniC (option error)
  | Output (name : string) (args : list string) : miniC (string + error)
  | CreateTemp : miniC (string + error)   (* its name *)
  | WriteTemp (name data : string) : miniC (option error)
  | CloseTemp (name : string) : miniC (option error)
  | Remove (name : string) : miniC (option error)
  | Hostname : miniC (string + error)
  | Now : miniC Z   (* in seconds *)
  | Println (line : string) : miniC unit
  | RandRead : miniC (string + error)
  | GeneratePrivateKey : miniC (Key + error)
  | Dial (target : string) (tls : bool) : miniC (ref + error)
  | RpcIsHealthy (conn ctx : ref) : miniC (option error)
  | RpcGetServerKey (conn ctx : ref) : miniC (ServerKeyResponse + error)
  | RpcLogin (conn ctx : ref) (wgPubKey body : string) (version : Z) : miniC (string + error)
  | RpcSync (conn ctx : ref) (wgPubKey body : string) (version : Z) : miniC (ref + error)
  | StreamRecv (stream : ref) : miniC (string + error)
  | RpcSignalSend (conn ctx : ref) : miniC (option error).

#[export] Instance mini_net : HasNet miniC := @Net.

(** ** The state: the engine, with the configuration it shares with its client *)

Record ManagementClient := mkManagementClient {
  mc_url : string;
  mc_grpc : option ref;     (* the connection, and the service client on it *)
  mc_serverKey : Key; mc_version : Z; mc_priv : Key; mc_pub : Key
}.
Record SignalClient := mkSignalClient { sc_url : string }.

Record Engine := mkEngine {
  e_cfg : Config;           (* also the management client's, by the same pointer, which is never nil *)
  e_mgmt : option ManagementClient;
  e_signal : option SignalClient;
  e_started : bool;
  e_lastSync : option Z;    (* [None] is the zero time *)
  e_peerConfig : option (list Peer)
}.

Definition set_cfg (f : Config -> Config) (e : Engine) : Engine :=
  mkEngine (f (e_cfg e)) (e_mgmt e) (e_signal e) (e_started e) (e_lastSync e) (e_peerConfig e).
Definition set_mgmt (f : ManagementClient -> ManagementClient) (e : Engine) : Engine :=
  mkEngine (e_cfg e) (f <$> e_mgmt e) (e_signal e) (e_started e) (e_lastSync e) (e_peerConfig e).
Definition set_started (v : bool) (e : Engine) : Engine :=
  mkEngine (e_cfg e) (e_mgmt e) (e_signal e) v (e_lastSync e) (e_peerConfig e).
Definition set_lastSync (v : option Z) (e : Engine) : Engine :=
  mkEngine (e_cfg e) (e_mgmt e) (e_signal e) (e_started e) v (e_peerConfig e).
Definition set_peerConfig (v : option (list Peer)) (e : Engine) : Engine :=
  mkEngine (e_cfg e) (e_mgmt e) (e_signal e) (e_started e) (e_lastSync e) v.

Definition set_grpc (v : option ref) (m : ManagementClient) : ManagementClient :=
  mkManagementClient (mc_url m) v (mc_serverKey m) (mc_version m) (mc_priv m) (mc_pub m).
Definition set_server (k : Key) (v : Z) (m : ManagementClient) : ManagementClient :=
  mkManagementClient (mc_url m) (mc_grpc m) k v (mc_priv m) (mc_pub m).
Definition set_keys (priv pub : Key) (m : ManagementClient) : ManagementClient :=
  mkManagementClient (mc_url m) (mc_grpc m) (mc_serverKey m) (mc_version m) priv pub.

Definition zero_key : Key := Nat.iter 32 (String "000"%char) EmptyString.
Definition NewManagementClient (url : string) : ManagementClient :=
  mkManagementClient url None zero_key 0 zero_key zero_key.
Definition NewSignalClient (url : string) : SignalClient := mkSignalClient url.
Definition NewEngine (cfg : Config) (mgmt : ManagementClient) (sig : SignalClient) : Engine :=
  mkEngine cfg (Some mgmt) (Some sig) false None None.

(** [strings.Contains]. *)
Fixpoint Contains (s sub : string) : bool :=
  HasPrefix s sub || match s with EmptyString => false | String _ s' => Contains s' sub end.

Section mini.
Context {wt : WgTypes} {nb : NaclBox} {plr : Proto LoginRequest} {psr : Proto SyncRequest}.
Context {pls : Proto MgmtClient.LoginResponse} {pss : Proto SyncResponse}.
(** [runtime.GOOS], and a time as RFC 3339 text. *)
Context (GOOS : string) (RFC3339 : Z -> string).
Context {W : Type} `{!Handler miniC W}.

Definition EM := M miniC Engine W.

Definition mini_try {A} (r : A + error) : EM A := match r with inl a => ret a | inr err => fail err end.
Definition cfg : EM Config := let* e := get in ret (e_cfg e).
Definition update_cfg (f : Config -> Config) : EM unit := modify (set_cfg f).
Definition on_mgmt {A} (k : ManagementClient -> EM A) : EM A :=
  let* e := get in deref "mgmt" (e_mgmt e) k.

(** ** Files: config.go *)

Definition defaultConfigPath : EM string :=
  let* dir := check_val (call UserConfigDir) in
  ret (Join2 dir "netbird/mini-config.json").
Definition ensureDir (path : string) : EM unit := check (call (MkdirAll (Dir path))).
Definition loadConfig (path : string) : EM Config :=
  let* data := check_val (call (ReadFile path)) in
  mini_try (UnmarshalConfig data).
Definition saveConfig (path : string) (c : option Config) : EM unit :=
  match c with
  | None => fail (New "nil config")
  | Some c =>
      ensureDir path ;;;
      check (call (WriteFile path (MarshalIndent (json_config c))))
  end.

(** ** The tools: wg.go *)

Definition isRoot : EM bool := let* uid := call Geteuid in ret (uid =? 0).
Definition runCmd (name : string) (args : list string) : EM unit := check (call (Run name args)).
Definition generatePrivateKey : EM string :=
  let* out := check_val (call (Output "wg" ["genkey"])) in ret (TrimSpace out).

(** The arguments for one peer. *)
Definition peer_args (iface : string) (p : Peer) : list string :=
  ["set"; iface; "peer"; p_PublicKey p]
  ++ (if bool_decide (p_AllowedIPs p = "") then [] else ["allowed-ips"; p_AllowedIPs p])
  ++ (if bool_decide (p_Endpoint p = "") then [] else ["endpoint"; p_Endpoint p; "persistent-keepalive"; "25"]).

(** [Apply] from the temporary file on, with the configuration's values. *)
Definition apply_key (c : Config) (tmp : string) : EM unit :=
  let* w := try (check (call (WriteTemp tmp (co_WgPrivateKey c)))) in
  match w with
  | inr err => ignore (check (call (CloseTemp tmp))) ;;; fail err
  | inl _ =>
      ignore (check (call (CloseTemp tmp))) ;;;
      wrap (Wrap "wg set")
        (runCmd "wg" ["set"; co_WgIfaceName c; "private-key"; tmp; "listen-port"; itoa (co_WgListenPort c)])
  end.
Definition apply_peers (iface : string) (peers : list Peer) : EM unit :=
  for_each peers (fun p => wrap (Wrap ("wg set peer " +:+ p_ID p)) (runCmd "wg" (peer_args iface p))).
Definition apply_routes (iface : string) (routes : list string) : EM unit :=
  for_each routes (fun r => ignore (runCmd "ip" ["route"; "add"; r; "dev"; iface])).

(** What is missing in the configuration. *)
Definition fill_in : EM unit :=
  let* c := cfg in
  when (bool_decide (co_WgIfaceName c = "")) (update_cfg (set_WgIfaceName "wtnb0")) ;;;
  when (co_WgListenPort c =? 0) (update_cfg (set_WgListenPort 51820)) ;;;
  when (bool_decide (co_WgPrivateKey c = ""))
    (let* key := wrap (Wrap "generate wg private key") generatePrivateKey in
     update_cfg (set_WgPrivateKey key)).

Definition apply_link (c : Config) : EM unit :=
  ignore (runCmd "ip" ["link"; "add"; "dev"; co_WgIfaceName c; "type"; "wireguard"]) ;;;
  when (negb (bool_decide (co_WgAddress c = "")))
    (ignore (runCmd "ip" ["address"; "add"; co_WgAddress c; "dev"; co_WgIfaceName c])).

(** With the temporary file. *)
Definition apply_with (c : Config) (tmp : string) (peers : list Peer) (routes : list string) : EM unit :=
  apply_key c tmp ;;;
  apply_peers (co_WgIfaceName c) peers ;;;
  wrap (Wrap "ip link set up") (runCmd "ip" ["link"; "set"; "dev"; co_WgIfaceName c; "up"]) ;;;
  apply_routes (co_WgIfaceName c) routes.

Definition Apply (peers : list Peer) (routes : list string) : EM unit :=
  fill_in ;;;
  let* root := isRoot in
  if negb root then ret tt
  else
    let* c := cfg in
    apply_link c ;;;
    let* tmp := check_val (call CreateTemp) in
    with_defer (apply_with c tmp peers routes) (ignore (check (call (Remove tmp)))).

Definition Teardown : EM unit :=
  let* root := isRoot in
  if negb root then ret tt
  else
    let* c := cfg in
    if bool_decide (co_WgIfaceName c = "") then ret tt
    else runCmd "ip" ["link"; "del"; "dev"; co_WgIfaceName c].

(** ** The management client: management.go, mgmtgrpc.go, sync.go *)

Definition fallbackStub : EM (option (list Peer) * option (list string)) :=
  let* now := call Now in
  ret (Some [mkPeer ("peer-" +:+ itoa now) "PUBKEY_PLACEHOLDER" "100.64.0.0/16" "203.0.113.10:51820"], Some ["10.0.0.0/24"]).

Definition ensureKey : EM (Key * Key) :=
  let* c := cfg in
  when (bool_decide (co_WgPrivateKey c = ""))
    (let* k := check_val (call GeneratePrivateKey) in
     update_cfg (set_WgPrivateKey (Key_String k))) ;;;
  let* c := cfg in
  let* priv := mini_try (ParseKey (co_WgPrivateKey c)) in
  ret (priv, PublicKey priv).

(** [encryption.EncryptMessage]: the nonce is read once the message is marshalled. *)
Definition encrypt_message `{!Proto A} (remotePubKey ourPrivateKey : Key) (message : A) : EM string :=
  match Marshal message with
  | inr err => fail err
  | inl _ =>
      let* rnd := call RandRead in
      mini_try (MiniBox.EncryptMessage rnd remotePubKey ourPrivateKey message)
  end.
Definition decrypt_message `{!Proto A} (remotePubKey ourPrivateKey : Key) (body : string) : EM A :=
  let* rnd := call RandRead in
  mini_try (MiniBox.DecryptMessage rnd remotePubKey ourPrivateKey body).

Definition hostname : EM string :=
  let* h := call Hostname in
  ret (match h with inl h => h | inr _ => "unknown" end).

(** The target of a URL and whether to use TLS; [dialSignal] does the same. *)
Definition dial_target (url : string) : string * bool :=
  let target :=
    if HasPrefix url "https://" || HasPrefix url "http://" then TrimPrefix (TrimPrefix url "https://") "http://" else url in
  (target, HasPrefix url "https://" || Contains target ":443").

Definition dialManagement (url : string) : EM ref :=
  let '(target, tls) := dial_target url in check_val (call (Dial target tls)).

Definition managementHealth (ctx conn : ref) : EM unit :=
  with_timeout ctx (5 * second) (fun ctx => check (call (RpcIsHealthy conn ctx))).

Definition Close : EM unit :=
  on_mgmt (fun m => match mc_grpc m with
                    | Some conn => ignore (check (call (Net (CloseConn conn))))
                    | None => ret tt
                    end).

(** What an update says, as the peers and routes of the configuration: nil when there are none. *)
Definition sync_peer (rp : RemotePeerConfig) : Peer := mkPeer (rpc_WgPubKey rp) (rpc_WgPubKey rp) (Join (rpc_AllowedIps rp) ",") "".
Definition nil_slice {A} (l : list A) : option (list A) := match l with [] => None | _ => Some l end.
Definition sync_peers (nm : NetworkMap) : option (list Peer) := nil_slice (map sync_peer (nm_RemotePeers nm)).
Definition sync_routes (nm : NetworkMap) : option (list string) :=
  nil_slice (filter (fun n => n <> "") (map pr_Network (nm_Routes nm))).
Definition set_address (pc : option ProtoPeerConfig) : EM unit :=
  match pc with
  | Some pc => when (negb (bool_decide (ppc_Address pc = ""))) (update_cfg (set_WgAddress (ppc_Address pc)))
  | None => ret tt
  end.

Definition syncOnce : EM (option (list Peer) * option (list string)) :=
  on_mgmt (fun m =>
    match mc_grpc m with
    | None => fail (New "sync missing state")
    | Some conn =>
        if bool_decide (mc_serverKey m = zero_key) || bool_decide (mc_priv m = zero_key) then fail (New "sync missing state")
        else
          let* host := hostname in
          let* enc := wrap (Wrap "encrypt sync request")
                        (encrypt_message (mc_serverKey m) (mc_priv m) (mkSyncRequest (mkMeta host GOOS "mini" GOOS))) in
          let* background := call (Net CtxBackground) in
          with_timeout background (15 * second) (fun ctx =>
            let* stream := wrap (Wrap "sync call")
                             (check_val (call (RpcSync conn ctx (Key_String (mc_pub m)) enc (mc_version m)))) in
            let* body := wrap (Wrap "sync recv") (check_val (call (StreamRecv stream))) in
            let* resp := wrap (Wrap "sync decrypt") (decrypt_message (mc_serverKey m) (mc_priv m) body) in
            match sr_NetworkMap resp with
            | None => ret (None, None)
            | Some nm =>
                set_address (nm_PeerConfig nm) ;;;
                ret (sync_peers nm, sync_routes nm)
            end)
    end).

(** What [Register] takes from the answer to a login. *)
Definition apply_login (resp : MgmtClient.LoginResponse) : EM unit :=
  set_address (MgmtClient.lr_PeerConfig resp) ;;;
  match MgmtClient.lr_NetbirdConfig resp with
  | Some nc =>
      let uri := match nc_Signal nc with Some h => hc_Uri h | None => "" end in
      when (negb (bool_decide (uri = ""))) (update_cfg (set_SignalURL uri))
  | None => ret tt
  end ;;;
  let* c := cfg in
  when (co_WgListenPort c =? 0) (update_cfg (set_WgListenPort 51820)).

(** [Register] once there is a connection. *)
Definition register_on (conn : ref) (setupKey : string) : EM (option (list Peer) * option (list string)) :=
  let* background := call (Net CtxBackground) in
  with_timeout background (8 * second) (fun ctx =>
    let* r := call (RpcGetServerKey conn ctx) in
    match r with
    | inr _ => fallbackStub
    | inl keyResp =>
        let* serverKey := wrap (Wrap "parse server key") (mini_try (ParseKey (sk_Key keyResp))) in
        modify (set_mgmt (set_server serverKey (sk_Version keyResp))) ;;;
        let* keys := wrap (Wrap "ensure key") ensureKey in
        let '(priv, pub) := keys in
        let loginReq := mkLoginRequest setupKey (Key_String pub) (mkMeta "netbird-minimal-go" GOOS "mini" GOOS) in
        let* encBody := wrap (Wrap "encrypt login") (encrypt_message serverKey priv loginReq) in
        let* body := wrap (Wrap "login")
                       (check_val (call (RpcLogin conn ctx (Key_String pub) encBody (sk_Version keyResp)))) in
        let* resp := wrap (Wrap "decrypt login") (decrypt_message serverKey priv body) in
        modify (set_mgmt (set_server serverKey (sk_Version keyResp))) ;;;
        modify (set_mgmt (set_keys priv pub)) ;;;
        apply_login resp ;;;
        let* s := try syncOnce in
        ret (match s with inl r => r | inr _ => (None, None) end)
    end).

Definition Register (setupKey : string) : EM (option (list Peer) * option (list string)) :=
  on_mgmt (fun m =>
    match mc_grpc m with
    | Some _ => ret tt
    | None =>
        let* r := try (dialManagement (mc_url m)) in
        match r with
        | inl conn =>
            modify (set_mgmt (set_grpc (Some conn))) ;;;
            let* background := call (Net CtxBackground) in
            ignore (managementHealth background conn)
        | inr _ => ret tt
        end
    end) ;;;
  on_mgmt (fun m =>
    match mc_grpc m with
    | None => fallbackStub
    | Some conn => register_on conn setupKey
    end).

(** ** The signal client: signal.go, signalgrpc.go *)

Definition Subscribe (peerID : string) : EM unit :=
  if bool_decide (peerID = "") then fail (New "peer id is required") else ret tt.

Definition dialSignal (url : string) : EM ref :=
  let '(target, tls) := dial_target url in check_val (call (Dial target tls)).
Definition Ping (ctx conn : ref) : EM unit :=
  with_timeout ctx (5 * second) (fun ctx => check (call (RpcSignalSend conn ctx))).
Definition SignalGRPC_Close (conn : ref) : EM unit := ignore (check (call (Net (CloseConn conn)))).
Definition TryGRPC (c : SignalClient) : EM unit :=
  let* s := try (dialSignal (sc_url c)) in
  match s with
  | inr _ => ret tt
  | inl conn =>
      with_defer (let* background := call (Net CtxBackground) in ignore (Ping background conn)) (SignalGRPC_Close conn)
  end.

(** ** The engine: engine.go *)

Definition Start : EM unit :=
  let* e := get in
  if e_started e then ret tt
  else match e_mgmt e, e_signal e with
       | Some _, Some _ =>
           let* r := wrap (Wrap "management register failed") (Register (co_SetupKey (e_cfg e))) in
           let '(peers, routes) := r in
           modify (set_peerConfig peers) ;;;
           update_cfg (set_Peers peers) ;;;
           update_cfg (set_Routes routes) ;;;
           let* now := call Now in
           modify (set_lastSync (Some now)) ;;;
           modify (set_started true) ;;;
           wrap (Wrap "apply wireguard config") (Apply (default [] peers) (default [] routes))
       | _, _ => fail (New "engine missing clients")
       end.

Definition Stop : EM unit :=
  let* e := get in
  if negb (e_started e) then ret tt
  else ignore Teardown ;;; modify (set_started false).

Definition Status : EM unit :=
  let* e := get in
  call (Println ("status: " +:+ (if e_started e then "running" else "stopped"))) ;;;
  call (Println ("iface : " +:+ co_WgIfaceName (e_cfg e))) ;;;
  call (Println ("addr  : " +:+ co_WgAddress (e_cfg e))) ;;;
  call (Println ("peers : " +:+ itoa (Z.of_nat (length (default [] (e_peerConfig e)))))) ;;;
  call (Println ("routes: " +:+ itoa (Z.of_nat (length (default [] (co_Routes (e_cfg e))))))) ;;;
  match e_lastSync e with
  | Some t => call (Println ("last sync: " +:+ RFC3339 t))
  | None => ret tt
  end.

(** ** The command line: main.go *)

Definition loadOrDefault (path : string) : EM (Config * string) :=
  let* cfgPath := if bool_decide (path = "") then defaultConfigPath else ret path in
  let* r := try (loadConfig cfgPath) in
  ret (match r with inl c => c | inr _ => defaultConfig end, cfgPath).

(** A process makes one engine, which the state then is. *)
Definition make_engine (c : Config) : EM unit :=
  modify (fun _ => NewEngine c (NewManagementClient (co_ManagementURL c)) (NewSignalClient (co_SignalURL c))).

(** The settings given on the command line, where they are not empty. *)
Definition override (setupKey mgmtURL signalURL : string) (c : Config) : Config :=
  let set v f (c : Config) := if bool_decide (v = "") then c else f v c in
  set signalURL set_SignalURL (set mgmtURL set_ManagementURL (set setupKey set_SetupKey c)).

Definition runUp (path setupKey mgmtURL signalURL : string) : EM unit :=
  let* r := loadOrDefault path in
  let '(c, cfgPath) := r in
  make_engine (override setupKey mgmtURL signalURL c) ;;;
  Start ;;;
  let* c := cfg in
  wrap (Wrap "save config") (saveConfig cfgPath (Some c)) ;;;
  match co_Peers c with
  | Some (p :: _) => ignore (Subscribe (p_ID p))
  | _ => ret tt
  end.

Definition runDown (path : string) : EM unit :=
  let* r := loadOrDefault path in
  let '(c, cfgPath) := r in
  wrap (Wrap "save config") (saveConfig cfgPath (Some (set_Routes None (set_Peers None c)))).

Definition runStatus (path : string) : EM unit :=
  let* r := loadOrDefault path in
  make_engine r.1 ;;;
  Status.

(** *** [flag.FlagSet.Parse], for flags with string values *)

Inductive parsed := Values (vals : list (string * string)) | Help | Bad.

Definition flag_names : list string := ["setup-key"; "config"; "management-url"; "signal-url"].

(** The flag an argument names, with a value after the first [=] that is not its first byte. *)
Fixpoint cut_value (name : string) : string * option string :=
  match name with
  | EmptyString => ("", None)
  | String c s => if Ascii.eqb c "=" then ("", Some s) else let '(n, v) := cut_value s in (String c n, v)
  end.

Fixpoint parse_flags (args : list string) : parsed :=
  match args with
  | [] => Values []
  | s :: args' =>
      if (String.length s <? 2)%nat || negb (HasPrefix s "-") then Values []
      else if bool_decide (s = "--") then Values []
      else
        let name := if HasPrefix s "--" then slice_from 2 s else slice_from 1 s in
        if HasPrefix name "-" || HasPrefix name "=" then Bad
        else
          let '(name, value) := cut_value name in
          if negb (bool_decide (name ∈ flag_names)) then
            (if bool_decide (name = "help") || bool_decide (name = "h") then Help else Bad)
          else match value, args' with
               | Some v, _ => match parse_flags args' with Values l => Values ((name, v) :: l) | r => r end
               | None, v :: args'' => match parse_flags args'' with Values l => Values ((name, v) :: l) | r => r end
               | None, [] => Bad
               end
  end.

(** The last value given, or the default, which is empty. *)
Definition flag_value (name : string) (vals : list (string * string)) : string :=
  default "" (snd <$> last (filter (fun kv => kv.1 = name) vals)).

(** [os.Args[2:]] of fewer than two arguments is out of range. *)
Definition with_flags (args : list string) (k : list (string * string) -> EM unit) : EM Z :=
  match args with
  | _ :: _ :: rest =>
      match parse_flags rest with
      | Values vals =>
          let* r := try (k vals) in
          ret (match r with inl _ => 0 | inr _ => 1 end)
      | Help => ret 0
      | Bad => ret 2
      end
  | _ => panic "slice bounds out of range"
  end.

(** [main] with [os.Args], and the process's exit status. *)
Definition main_args (args : list string) : EM Z :=
  let cmd := match args with _ :: c :: _ => c | _ => "status" end in
  if bool_decide (cmd = "up") then
    with_flags args (fun v => runUp (flag_value "config" v) (flag_value "setup-key" v)
                                (flag_value "management-url" v) (flag_value "signal-url" v))
  else if bool_decide (cmd = "down") then with_flags args (fun v => runDown (flag_value "config" v))
  else if bool_decide (cmd = "status") then with_flags args (fun v => runStatus (flag_value "config" v))
  else ret 1.

End mini.
