(* ===== verification/MiniSpec.v ===== *)
(** * What the mini client does

    [loadConfig_saveConfig]: a saved configuration is read back. [Apply_spec]: the
    commands [Apply] runs, and that the file with the private key is removed.
    [runUp_keeps_private_key]: a configured key stays. [main_without_arguments_panics]
    and [runStatus_stopped]: two things the command line does not mean to do. *)

From Stdlib Require Import ZArith Lia Ascii.
From stdpp Require Import base tactics list strings gmap.
From S2P Require Import Prelude GoStrings Filepath Json Uapi Crypto Routes EngineData Grpc MiniClient.
From S2P Require MgmtClient.

(** ** A configuration as JSON *)

Definition clean_peer (p : Peer) : Peer :=
  mkPeer (to_valid (p_ID p)) (to_valid (p_PublicKey p)) (to_valid (p_AllowedIPs p)) (to_valid (p_Endpoint p)).
Definition clean_config (c : Config) : Config :=
  mkConfig (to_valid (co_ManagementURL c)) (to_valid (co_SignalURL c)) (to_valid (co_SetupKey c))
    (to_valid (co_WgIfaceName c)) (to_valid (co_WgAddress c)) (co_WgListenPort c) (to_valid (co_WgPrivateKey c))
    (map clean_peer <$> co_Peers c) (map to_valid <$> co_Routes c).

(** Not every member name a JSON text could have, but the ones written. *)
Lemma writable_slice {A} (f : A -> json) d o : d < max_depth - 1 ->
  (forall a, writable (d + 1) (f a)) -> writable d (json_slice f o).
Proof.
  intros Hd Hf. destruct o as [l|]; [|done]. cbn. split; [lia |]. induction l as [|a l IH]; [done |]. by split.
Qed.
Lemma writable_config c : writable 0 (json_config c).
Proof.
  split; [done |]. cbn [fold_right snd writable]. repeat split; try done; [by eexists | |].
  - apply writable_slice; [done |]. intros p. by repeat split.
  - by apply writable_slice.
Qed.

(** The written names as literals: what [clean] makes of them. *)
Ltac clean_names :=
  cbn [clean map fst snd];
  repeat match goal with |- context [to_valid ?s] => closed_term s; replace (to_valid s) with s by (by vm_compute) end.

Lemma into_peer a b c d :
  into_struct store_peer (JObj [("id", JStr a); ("public_key", JStr b); ("allowed_ips", JStr c); ("endpoint", JStr d)]) peer0
    = Some (mkPeer a b c d).
Proof. reflexivity. Qed.

Lemma into_clean_slice {A} (elem : json -> A -> option A) zero (f : A -> json) (g : A -> A) o :
  (forall a, elem (clean (f a)) zero = Some (g a)) ->
  exists back, into_slice elem zero (clean (json_slice f o)) [] = Some (map g <$> o, back).
Proof.
  intros Hf. destruct o as [l|]; [|by eexists]. cbn [json_slice clean].
  assert (He : into_elems elem zero (map clean (map f l)) [] = Some (map g l)).
  { induction l as [|a l IH]; [done |]. cbn. rewrite Hf. cbn. by rewrite IH. }
  unfold into_slice. destruct l as [|a l]; [by eexists |]. cbn [map] in *. rewrite He. by eexists.
Qed.

Lemma store_port v r :
  store_config "wg_listen_port" v r = (x ← into_int v (co_WgListenPort (rd_config r)); Some (upd (set_WgListenPort x) r)).
Proof. reflexivity. Qed.
Lemma store_peers v r :
  store_config "peers" v r = (x ← into_slice (into_struct store_peer) peer0 v (rd_peers r);
                              Some (mkReading (set_Peers x.1 (rd_config r)) x.2 (rd_routes r))).
Proof. reflexivity. Qed.
Lemma store_routes v r :
  store_config "routes" v r = (x ← into_slice into_string "" v (rd_routes r);
                               Some (mkReading (set_Routes x.1 (rd_config r)) (rd_peers r) x.2)).
Proof. reflexivity. Qed.

(** Store a text member. *)
Ltac store_text :=
  match goal with |- context [store_config ?k (JStr ?v) ?r] =>
    let r' := eval vm_compute in (store_config k (JStr v) r) in replace (store_config k (JStr v) r) with r' by (by vm_compute)
  end; cbn [mbind option_bind].

Lemma into_config m s k n a lit z w vp vr ps bp rs br :
  ParseInt lit = inl z ->
  into_slice (into_struct store_peer) peer0 vp [] = Some (ps, bp) -> into_slice into_string "" vr [] = Some (rs, br) ->
  rd_config <$> into_struct store_config
    (JObj [("management_url", JStr m); ("signal_url", JStr s); ("setup_key", JStr k); ("wg_iface_name", JStr n);
           ("wg_address", JStr a); ("wg_listen_port", JNum lit); ("wg_private_key", JStr w); ("peers", vp); ("routes", vr)])
    (mkReading config0 [] []) = Some (mkConfig m s k n a z w ps rs).
Proof.
  intros Hz Hp Hr. unfold into_struct at 1. cbn [foldl fst snd mbind option_bind].
  do 5 store_text. rewrite store_port. cbn [into_int]. rewrite Hz. cbn [mbind option_bind]. store_text.
  rewrite store_peers. cbn [rd_peers]. rewrite Hp. cbn [mbind option_bind fst snd].
  rewrite store_routes. cbn [rd_routes]. by rewrite Hr.
Qed.

Lemma UnmarshalConfig_MarshalIndent c :
  - 2 ^ 63 <= co_WgListenPort c < 2 ^ 63 ->
  UnmarshalConfig (MarshalIndent (json_config c)) = inl (clean_config c).
Proof.
  intros Hport. unfold UnmarshalConfig. rewrite parse_MarshalIndent by apply writable_config.
  destruct (into_clean_slice (into_struct store_peer) peer0 json_peer clean_peer (co_Peers c)) as [bp Hp].
  { intros p. unfold json_peer. clean_names. apply into_peer. }
  destruct (into_clean_slice into_string "" JStr to_valid (co_Routes c)) as [br Hr]; [done |].
  unfold json_config. clean_names.
  pose proof (into_config (to_valid (co_ManagementURL c)) (to_valid (co_SignalURL c)) (to_valid (co_SetupKey c))
    (to_valid (co_WgIfaceName c)) (to_valid (co_WgAddress c)) _ _ (to_valid (co_WgPrivateKey c)) _ _ _ _ _ _
    (ParseInt_itoa _ Hport) Hp Hr) as H.
  destruct (into_struct store_config _ _) as [r|]; [|discriminate H]. cbn in H. by injection H as ->.
Qed.

(** ** What the theorems assume of files: what is read is there, what is written is. *)
Class MiniWorld (W : Type) `{!Handler miniC W} := {
  file : W -> string -> option string;
  file_read : forall w p d, (handle (ReadFile p) w).1 = inl d -> file w p = Some d /\ file (handle (ReadFile p) w).2 p = Some d;
  file_write : forall w p d, (handle (WriteFile p d) w).1 = None -> file (handle (WriteFile p d) w).2 p = Some d
}.

(** The answers to reading files that a log holds. *)
Definition read_answer (ev : event miniC) : option (string + error) :=
  match ev with
  | @Event _ R c a =>
      match c in miniC R' return R' -> option (string + error) with
      | ReadFile _ => Some
      | _ => fun _ => None
      end a
  end.

Section files.
Context {W : Type} `{!Handler miniC W, !MiniWorld W}.
Notation St := (state miniC Engine W).

(** C35: a configuration that [saveConfig] stored without an error is what a following
    [loadConfig] of that path returns, unless the file cannot be read: every field, a nil
    slice as nil and an empty one as empty, with the bytes of strings that are no UTF-8
    replaced. *)
Theorem loadConfig_saveConfig path c (s s' : St) :
  - 2 ^ 63 <= co_WgListenPort c < 2 ^ 63 ->
  saveConfig path (Some c) s = (Ok tt, s') ->
  wp (loadConfig path) (fun r _ =>
    match r with
    | inl c' => c' = clean_config c
    | inr e => (handle (ReadFile path) (world s')).1 = inr e
    end) s'.
Proof.
  intros Hport Hs. assert (Hf : file (world s') path = Some (MarshalIndent (json_config c))).
  { refine (wp_run _ (fun r s' => r = inl tt -> file (world s') path = _) s tt s' Hs _ eq_refl).
    clear s' Hs. unfold saveConfig, ensureDir. generalize (MarshalIndent (json_config c)). intros text.
    wps. destruct r as [e|]; [done |]. cbn [wp_then]. wps. destruct r as [e|]; [done |]. cbn. intros _.
    pose proof (file_write w path text) as Hw. cbn in H0. rewrite H0 in Hw. by apply Hw. }
  unfold loadConfig. wps. pose proof (file_read (world s') path) as Hr. rewrite H in Hr |- *. cbn [fst snd] in *.
  destruct r as [d|e]; [|done]. destruct (Hr d eq_refl) as [Hd _]. rewrite Hf in Hd. injection Hd as <-.
  cbn [wp_then]. by rewrite UnmarshalConfig_MarshalIndent.
Qed.

End files.

(** ** The commands *)

Section commands.
Context {W : Type} `{!Handler miniC W}.
Notation St := (state miniC Engine W).

(** What a log says was done to the system, with the answers that matter: commands run,
    the temporary file made, written and removed, the user asked for. *)
Notation command := (string * list string)%type (only parsing).
Inductive act :=
  | Ran (c : command) (answer : option error)
  | Temp (answer : string + error)
  | Wrote (name data : string) (answer : option error)
  | Removed (name : string)
  | Uid (uid : Z).

Definition act_of (ev : event miniC) : option act :=
  match ev with
  | @Event _ R c a =>
      match c in miniC R' return R' -> option act with
      | Run name args => fun a => Some (Ran (name, args) a)
      | CreateTemp => fun a => Some (Temp a)
      | WriteTemp name data => fun a => Some (Wrote name data a)
      | Remove name => fun _ => Some (Removed name)
      | Geteuid => fun a => Some (Uid a)
      | _ => fun _ => None
      end a
  end.

(** Commands to run in order, each required ([true]) or one whose failure is ignored. *)
Notation step := (bool * command)%type (only parsing).

Inductive wraps (e : error) : error -> Prop :=
  | wraps_self : wraps e e
  | wraps_msg msg e' : wraps e e' -> wraps e (Wrap msg e').

(** The acts are the steps, each run once and in order, up to the first required one that
    failed, whose error is then the outcome; without one all are run and nothing fails. *)
Fixpoint follows (steps : list step) (acts : list act) (o : option error) : Prop :=
  match steps with
  | [] => acts = [] /\ o = None
  | (required, c) :: steps' =>
      match acts with
      | Ran c' answer :: acts' =>
          c' = c /\
          match required, answer with
          | true, Some e => acts' = [] /\ exists e', o = Some e' /\ wraps e e'
          | _, _ => follows steps' acts' o
          end
      | _ => False
      end
  end.

Definition failed {A} (r : A + error) : option error := match r with inl _ => None | inr e => Some e end.

Lemma follows_app s1 s2 a1 a2 o : follows s1 a1 None -> follows s2 a2 o -> follows (s1 ++ s2) (a1 ++ a2) o.
Proof.
  revert a1. induction s1 as [|[rq c] s1 IH]; intros a1; cbn [follows app].
  - by intros [-> _].
  - destruct a1 as [|[c' ans| | | |] a1]; try done. intros [-> H1] H2. split; [done |].
    destruct rq, ans; [by destruct H1 as (_ & e' & [=] & _) | | |]; by apply IH.
Qed.
Lemma follows_stop s1 s2 a1 e : follows s1 a1 (Some e) -> follows (s1 ++ s2) a1 (Some e).
Proof.
  revert a1. induction s1 as [|[rq c] s1 IH]; intros a1; cbn [follows app]; [by intros [_ [=]] |].
  destruct a1 as [|[c' ans| | | |] a1]; try done. intros [-> H1]. split; [done |].
  destruct rq, ans; [done | | |]; by apply IH.
Qed.
Lemma follows_wrap msg steps acts e : follows steps acts (Some e) -> follows steps acts (Some (Wrap msg e)).
Proof.
  revert acts. induction steps as [|[rq c] steps IH]; intros acts; cbn [follows]; [by intros [_ [=]] |].
  destruct acts as [|[c' ans| | | |] acts]; try done. intros [-> H]. split; [done |].
  destruct rq, ans as [e1|]; [| by apply IH | by apply IH | by apply IH].
  destruct H as (-> & e' & [= <-] & Hw). split; [done |]. eexists. split; [done |]. by constructor.
Qed.

(** [m] takes these steps, does nothing else to the system and leaves the state. *)
Definition runs {A} (m : M miniC Engine W A) (steps : list step) : Prop := forall s : St,
  wp m (fun r s' => loc s' = loc s /\ exists evs, calls s' = evs ++ calls s /\
    follows steps (logged act_of evs) (failed r)) s.

Lemma runs_ret {A} (a : A) : runs (ret a) [].
Proof. intros s. wps. split; [done |]. by exists []. Qed.
Lemma runs_bind {A B} (m : M miniC Engine W A) (k : A -> M miniC Engine W B) c1 c2 :
  runs m c1 -> (forall a, runs (k a) c2) -> runs (bind m k) (c1 ++ c2).
Proof.
  intros Hm Hk s. apply wp_bind. eapply wp_mono; [apply Hm |]. cbn beta. intros [a|e] s1 (L1 & e1 & C1 & H1).
  - cbn [wp_then]. eapply wp_mono; [apply Hk |]. cbn beta. intros r s2 (L2 & e2 & C2 & H2).
    split; [congruence |]. exists (e2 ++ e1). rewrite C2, C1, (assoc_L (++)), !logged_app.
    split; [done |]. by apply follows_app.
  - split; [done |]. exists e1. split; [done |]. by apply follows_stop.
Qed.
Lemma runs_wrap {A} msg (m : M miniC Engine W A) steps : runs m steps -> runs (wrap (Wrap msg) m) steps.
Proof.
  intros Hm s. apply wp_wrap. eapply wp_mono; [apply Hm |]. intros [a|e] s' (L & evs & C & H); [by eauto |].
  split; [done |]. exists evs. split; [done |]. by apply follows_wrap.
Qed.
Lemma runs_runCmd name args : runs (runCmd name args) [(true, (name, args))].
Proof.
  intros s. unfold runCmd. wps.
  destruct r as [e|]; (split; [done |]; eexists [_]; split; [done |]; cbn; split; [done |]); [|done].
  split; [done |]. exists e. split; [done |]. constructor.
Qed.
(** A command whose failure is ignored was run all the same. *)
Lemma runs_ignore_runCmd name args : runs (ignore (runCmd name args)) [(false, (name, args))].
Proof. intros s. unfold runCmd. wps. destruct r; (split; [done |]; eexists [_]; repeat split). Qed.
Lemma runs_for_each {A} (l : list A) (body : A -> M miniC Engine W unit) (f : A -> step) :
  (forall a, runs (body a) [f a]) -> runs (for_each l body) (map f l).
Proof.
  intros Hb. induction l as [|a l IH]; [apply runs_ret |]. cbn [for_each map].
  apply (runs_bind (body a) _ [f a]); [apply Hb | intros _; exact IH].
Qed.

(** The steps of the link, which may all fail, and those taken with the temporary file. *)
Definition link_steps (c : Config) : list step :=
  (false, ("ip", ["link"; "add"; "dev"; co_WgIfaceName c; "type"; "wireguard"]))
  :: (if bool_decide (co_WgAddress c = "") then []
      else [(false, ("ip", ["address"; "add"; co_WgAddress c; "dev"; co_WgIfaceName c]))]).
Definition key_step (c : Config) (tmp : string) : step :=
  (true, ("wg", ["set"; co_WgIfaceName c; "private-key"; tmp; "listen-port"; itoa (co_WgListenPort c)])).
(** A peer's key, its addresses unless they are empty, and its endpoint, kept alive every
    25 seconds, unless that is empty. *)
Definition peer_settings (p : Peer) : list string :=
  "peer" :: p_PublicKey p ::
  match p_AllowedIPs p with EmptyString => [] | ips => ["allowed-ips"; ips] end ++
  match p_Endpoint p with EmptyString => [] | endpoint => ["endpoint"; endpoint; "persistent-keepalive"; "25"] end.
Lemma peer_args_settings iface p : peer_args iface p = "set" :: iface :: peer_settings p.
Proof. unfold peer_args, peer_settings. by destruct (p_AllowedIPs p), (p_Endpoint p). Qed.

Definition device_steps (c : Config) (peers : list Peer) (routes : list string) : list step :=
  let iface := co_WgIfaceName c in
  map (fun p => (true, ("wg", "set" :: iface :: peer_settings p))) peers
  ++ (true, ("ip", ["link"; "set"; "dev"; iface; "up"]))
  :: map (fun r => (false, ("ip", ["route"; "add"; r; "dev"; iface]))) routes.

Lemma runs_apply_link c : runs (apply_link c) (link_steps c).
Proof.
  apply (runs_bind _ _ [_]); [apply runs_ignore_runCmd | intros _].
  destruct (bool_decide _); [apply runs_ret | apply runs_ignore_runCmd].
Qed.
Lemma apply_link_ok c (s : St) : exists s', apply_link c s = (Ok tt, s').
Proof.
  unfold apply_link, ignore, runCmd, check, bind, try, call.
  destruct (handle _ _) as [[?|] w]; cbn; (destruct (bool_decide _); cbn; [by eexists |]);
    destruct (handle _ _) as [[?|] w']; by eexists.
Qed.

(** With the temporary file: it is written first, and all ends when that fails. *)
Definition with_file (c : Config) (tmp : string) (peers : list Peer) (routes : list string) (acts : list act)
    (o : option error) : Prop :=
  match acts with
  | Wrote name data answer :: acts' =>
      name = tmp /\ data = co_WgPrivateKey c /\
      match answer with
      | Some e => acts' = [] /\ o = Some e
      | None => follows (key_step c tmp :: device_steps c peers routes) acts' o
      end
  | _ => False
  end.

Lemma apply_key_wp c tmp (s : St) :
  wp (apply_key c tmp) (fun r s' => loc s' = loc s /\ exists evs, calls s' = evs ++ calls s /\
    match logged act_of evs with
    | Wrote name data answer :: acts' => name = tmp /\ data = co_WgPrivateKey c /\
        match answer with
        | Some e => acts' = [] /\ failed r = Some e
        | None => follows [key_step c tmp] acts' (failed r)
        end
    | _ => False
    end) s.
Proof.
  unfold apply_key, runCmd. wps. destruct r as [e|]; cbn [wp_then]; wps.
  - destruct r; wps; (split; [done |]; eexists [_; _]; split; [done |]; by repeat split).
  - destruct r; cbn [wp_then]; wps; destruct r; (split; [done |]; eexists [_; _; _]; split; [done |]; cbn; repeat split);
      (eexists; split; [done |]; repeat constructor).
Qed.
Lemma apply_with_wp c tmp peers routes (s : St) :
  wp (apply_with c tmp peers routes) (fun r s' => loc s' = loc s /\ exists evs, calls s' = evs ++ calls s /\
    with_file c tmp peers routes (logged act_of evs) (failed r)) s.
Proof.
  assert (Hrest : runs (apply_peers (co_WgIfaceName c) peers ;;;
    wrap (Wrap "ip link set up") (runCmd "ip" ["link"; "set"; "dev"; co_WgIfaceName c; "up"]) ;;;
    apply_routes (co_WgIfaceName c) routes) (device_steps c peers routes)).
  { apply runs_bind; [|intros _; apply (runs_bind _ _ [_]); [apply runs_wrap, runs_runCmd | intros _]].
    - apply (runs_for_each peers _ (fun p => (true, ("wg", "set" :: co_WgIfaceName c :: peer_settings p)))).
      intros p. rewrite <- peer_args_settings. apply runs_wrap, runs_runCmd.
    - apply (runs_for_each routes _ (fun r => (false, ("ip", ["route"; "add"; r; "dev"; co_WgIfaceName c])))).
      intros r. apply runs_ignore_runCmd. }
  unfold apply_with. apply wp_bind. eapply wp_mono; [apply apply_key_wp |]. cbn beta. intros [[]|e] s1 (L1 & e1 & C1 & H1).
  - cbn [wp_then]. eapply wp_mono; [apply Hrest |]. cbn beta. intros r s2 (L2 & e2 & C2 & H2).
    split; [congruence |]. exists (e2 ++ e1). rewrite C2, C1, (assoc_L (++)), logged_app. split; [done |].
    destruct (logged act_of e1) as [|[| |name data ans| |] acts]; try done. cbn [app with_file].
    destruct H1 as (-> & -> & H1). split; [done |]. split; [done |]. destruct ans; [by destruct H1 |].
    by apply (follows_app [key_step c tmp]).
  - split; [done |]. exists e1. split; [done |]. destruct (logged act_of e1) as [|[| |name data ans| |] acts]; try done.
    cbn [with_file]. destruct H1 as (-> & -> & H1). split; [done |]. split; [done |]. destruct ans; [done |].
    by apply (follows_stop [key_step c tmp]).
Qed.

(** A configuration with what was missing, the private key being [key] then. *)
Definition with_defaults (key : string) (c : Config) : Config :=
  let c := if bool_decide (co_WgIfaceName c = "") then set_WgIfaceName "wtnb0" c else c in
  let c := if co_WgListenPort c =? 0 then set_WgListenPort 51820 c else c in
  if bool_decide (co_WgPrivateKey c = "") then set_WgPrivateKey key c else c.

Lemma fill_in_wp (s : St) (Q : unit + error -> St -> Prop) :
  (forall r key w evs, logged act_of evs = [] ->
     (forall e, r = inr e -> exists e', e = Wrap "generate wg private key" e') ->
     Q r (mkState (set_cfg (with_defaults key) (loc s)) w (evs ++ calls s))) ->
  wp fill_in Q s.
Proof.
  intros HQ. unfold fill_in, cfg, update_cfg, generatePrivateKey. destruct s as [[c m sg st ls pc] w cs].
  assert (Hend : forall r key w evs c', logged act_of evs = [] ->
    (forall e, r = inr e -> exists e', e = Wrap "generate wg private key" e') -> c' = with_defaults key c ->
    Q r (mkState (mkEngine c' m sg st ls pc) w (evs ++ cs))).
  { intros r key w' evs c' H1 H2 ->. by apply (HQ r key w' evs). }
  clear HQ. destruct c as [mu su sk ifc ad po pk ps rs].
  assert (Hdef : forall key, with_defaults key (mkConfig mu su sk ifc ad po pk ps rs) =
    mkConfig mu su sk (if bool_decide (ifc = "") then "wtnb0" else ifc) ad (if po =? 0 then 51820 else po)
      (if bool_decide (pk = "") then key else pk) ps rs).
  { intros key. unfold with_defaults. cbn. destruct (bool_decide (ifc = "")); cbn; destruct (po =? 0); cbn;
      by destruct (bool_decide (pk = "")). }
  wps; cbn in *; try (pose proof H1 as E%bool_decide_eq_true; rewrite E in *);
    try (destruct r as [out|e]; cbn [wp_then]; wps; cbn).
  all: match goal with
    | H : handle _ _ = (inl ?out, ?w0) |- _ => apply (Hend _ (TrimSpace out) w0 [_])
    | H : handle _ _ = (inr _, ?w0) |- _ => apply (Hend _ "" w0 [_])
    | _ => apply (Hend _ "" w [])
    end; try done; try (intros e' [= <-]; by eexists); rewrite Hdef; cbn;
    repeat match goal with H : ?b = true |- _ => rewrite H | H : ?b = false |- _ => rewrite H end; try done.
Qed.

(** What [Apply] does, where [c] is the configuration it leaves. *)
Inductive applied (c : Config) (peers : list Peer) (routes : list string) : list act -> option error -> Prop :=
  | no_key e : applied c peers routes [] (Some (Wrap "generate wg private key" e))
  | not_root uid : uid <> 0 -> applied c peers routes [Uid uid] None
  | no_file links e : follows (link_steps c) links None ->
      applied c peers routes (Uid 0 :: links ++ [Temp (inr e)]) (Some e)
  | ran links tmp acts o : follows (link_steps c) links None -> with_file c tmp peers routes acts o ->
      applied c peers routes (Uid 0 :: links ++ Temp (inl tmp) :: acts ++ [Removed tmp]) o.

(** C13: [Apply] fills in a missing interface name, port and private key; unless it runs as
    root it then changes nothing. As root it first adds the link and its address, whether
    or not that fails, and puts the private key in a temporary file. Then it sets the key
    and port, every peer in order, brings the link up, and adds every route: the first
    command of setting key, peers and link that fails is the last one it runs, and its
    error, wrapped, is what [Apply] returns; a route that cannot be added stops nothing. A
    key that cannot be generated, or a file that cannot be made or written, ends it before
    these commands, with that error. It returns no error exactly when none of these failed.
    The temporary file is always removed. *)
Theorem Apply_spec peers routes (s : St) :
  wp (Apply peers routes) (fun r s' => exists key evs,
    loc s' = set_cfg (with_defaults key) (loc s) /\
    calls s' = evs ++ calls s /\
    applied (e_cfg (loc s')) peers routes (logged act_of evs) (failed r)) s.
Proof.
  unfold Apply. wps. apply fill_in_wp. intros r key w evs Hc Hf. destruct r as [[]|e]; cbn [wp_then].
  2:{ destruct (Hf e eq_refl) as [e' ->]. exists key, evs. split; [done |]. split; [done |]. rewrite Hc. constructor. }
  set (c := with_defaults key (e_cfg (loc s))). unfold isRoot, cfg. wps.
  destruct (Z.eqb_spec r 0) as [->|Hne]; cbn [negb]; wps.
  2:{ exists key, (Event Geteuid r :: evs). split; [done |]. split; [done |].
      rewrite logged_cons, Hc. by constructor. }
  change (e_cfg (set_cfg (with_defaults key) (loc s))) with c.
  set (s1 := mkState _ _ _). destruct (apply_link_ok c s1) as [s2 E2].
  pose proof (wp_run _ _ _ _ _ E2 (runs_apply_link c s1)) as (L2 & e2 & C2 & H2). cbn [failed] in H2.
  unfold wp at 1. rewrite E2. cbn [wp_then]. wps.
  destruct r as [tmp|e]; cbn [wp_then].
  2:{ exists key, (Event CreateTemp (inr e) :: e2 ++ Event Geteuid 0 :: evs). cbn [loc calls].
      split; [by rewrite L2 |]. split; [by rewrite C2; cbn; rewrite <- (assoc_L (++)) |].
      rewrite L2, logged_cons, logged_app, logged_cons, Hc. by constructor. }
  apply wp_with_defer. eapply wp_mono; [apply apply_with_wp |]. cbn beta.
  intros r1 s3 (L3 & e3 & C3 & H3). cbn [loc calls] in L3, C3. wps.
  assert (Hend : forall a : option error,
    applied c peers routes (logged act_of (Event (Remove tmp) a :: e3 ++ Event CreateTemp (inl tmp) :: e2 ++ Event Geteuid 0 :: evs)) (failed r1)).
  { intros a. rewrite logged_cons, logged_app, logged_cons, logged_app, logged_cons, Hc. cbn [app act_of option_list].
    rewrite <- !(assoc_L (++)). by constructor. }
  assert (Hw : forall a : option error, Event (Remove tmp) a :: calls s3
    = (Event (Remove tmp) a :: e3 ++ Event CreateTemp (inl tmp) :: e2 ++ Event Geteuid 0 :: evs) ++ calls s).
  { intros a. rewrite C3, C2. unfold s1. cbn. rewrite <- !(assoc_L (++)). cbn. by rewrite <- !(assoc_L (++)). }
  destruct r; exists key; eexists; (split; [cbn; by rewrite L3, L2 |]; split; [apply Hw |]; cbn [loc]; rewrite L3, L2; apply Hend).
Qed.

End commands.

(** ** A private key stays *)

Section keys.
Context {wt : WgTypes} {nb : NaclBox} {plr : Proto LoginRequest} {psr : Proto SyncRequest}.
Context {pls : Proto MgmtClient.LoginResponse} {pss : Proto SyncResponse}.
Context (GOOS : string) (RFC3339 : Z -> string).
Context {W : Type} `{!Handler miniC W}.

(** An engine that [NewEngine] made, with the private key [k] unless that is empty. *)
Definition holds_key (k : string) (e : Engine) : Prop :=
  is_Some (e_mgmt e) /\ is_Some (e_signal e) /\ (k <> "" -> co_WgPrivateKey (e_cfg e) = k).
Notation keeps k := (safe (W := W) (C := miniC) (holds_key k)).

Lemma keeps_update_cfg k f : (forall c, co_WgPrivateKey (f c) = co_WgPrivateKey c) -> keeps k (update_cfg f).
Proof. intros Hf. apply safe_modify. intros e (Hm & Hs & Hk). split; [done |]. split; [done |]. cbn. by rewrite Hf. Qed.
Lemma keeps_new_key k v c : (k <> "" -> co_WgPrivateKey c = k) -> bool_decide (co_WgPrivateKey c = "") = true ->
  keeps k (update_cfg (set_WgPrivateKey v)).
Proof.
  intros Hc He%bool_decide_eq_true. apply safe_modify. intros e (Hm & Hs & _). split; [done |]. split; [done |].
  intros Hk. by rewrite <- Hc, He in Hk.
Qed.
Lemma keeps_set_mgmt k f : keeps k (modify (set_mgmt f)).
Proof. apply safe_modify. intros e (Hm & Hs & Hk). split; [|done]. by apply fmap_is_Some. Qed.
Lemma keeps_modify k f : (forall e, e_mgmt (f e) = e_mgmt e /\ e_signal (f e) = e_signal e /\ e_cfg (f e) = e_cfg e) -> keeps k (modify f).
Proof. intros Hf. apply safe_modify. intros e H. unfold holds_key. by destruct (Hf e) as (-> & -> & ->). Qed.
Lemma keeps_cfg {B} k (h : Config -> M miniC Engine W B) :
  (forall c, (k <> "" -> co_WgPrivateKey c = k) -> keeps k (h c)) -> keeps k (bind cfg h).
Proof. intros Hh s Hs. unfold cfg. do 2 apply wp_bind. by apply (Hh _ (proj2 (proj2 Hs))). Qed.
Lemma keeps_on_mgmt {B} k (h : ManagementClient -> M miniC Engine W B) : (forall m, keeps k (h m)) -> keeps k (on_mgmt h).
Proof. intros Hh. apply safe_bind_get. intros e ([m Hm] & _). rewrite Hm. apply Hh. Qed.
Lemma keeps_mini_try {A} k (r : A + error) : keeps k (mini_try r).
Proof. destruct r; eauto with go_inv. Qed.
Lemma keeps_with_timeout {A} k p t (h : ref -> M miniC Engine W A) : (forall c, keeps k (h c)) -> keeps k (with_timeout p t h).
Proof. intros Hh. apply safe_bind; [apply safe_call |]. intros c. apply safe_with_defer; [apply Hh | apply safe_call]. Qed.

#[local] Hint Resolve keeps_set_mgmt keeps_mini_try : go_inv.
#[local] Hint Extern 1 (safe _ (update_cfg _)) => apply keeps_update_cfg; by intros : go_inv.
#[local] Hint Extern 1 (safe _ (modify _)) => apply keeps_modify; by intros : go_inv.
#[local] Hint Extern 2 (safe _ (update_cfg (set_WgPrivateKey _))) => eapply keeps_new_key; eassumption : go_inv.
Ltac keeps :=
  repeat first [ progress intros | apply keeps_cfg | apply keeps_on_mgmt | apply keeps_with_timeout | safe_step ].

Lemma keeps_Apply k peers routes : keeps k (Apply peers routes).
Proof.
  unfold Apply, fill_in, apply_link, apply_with, apply_key, apply_peers, apply_routes, isRoot, runCmd, generatePrivateKey. keeps.
Qed.
Lemma keeps_fallbackStub k : keeps k fallbackStub.
Proof. unfold fallbackStub. keeps. Qed.
Lemma keeps_ensureKey k : keeps k ensureKey.
Proof. unfold ensureKey. keeps. Qed.
Lemma keeps_set_address k o : keeps k (set_address o).
Proof. unfold set_address. keeps. Qed.
Lemma keeps_encrypt_message `{!Proto A} k r o (a : A) : keeps k (encrypt_message r o a).
Proof. unfold encrypt_message. keeps. Qed.
Lemma keeps_decrypt_message `{!Proto A} k r o b : keeps k (decrypt_message (A := A) r o b).
Proof. unfold decrypt_message. keeps. Qed.
#[local] Hint Resolve keeps_Apply keeps_fallbackStub keeps_ensureKey keeps_set_address keeps_encrypt_message keeps_decrypt_message : go_inv.
#[local] Opaque Apply fallbackStub ensureKey set_address encrypt_message decrypt_message.

Lemma keeps_syncOnce k : keeps k (syncOnce GOOS).
Proof. unfold syncOnce, hostname. keeps. Qed.
Lemma keeps_apply_login k r : keeps k (apply_login r).
Proof. unfold apply_login. keeps. Qed.
#[local] Hint Resolve keeps_syncOnce keeps_apply_login : go_inv.
#[local] Opaque syncOnce apply_login.

Lemma keeps_register_on k conn key : keeps k (register_on GOOS conn key).
Proof. unfold register_on. keeps. Qed.
#[local] Hint Resolve keeps_register_on : go_inv.
#[local] Opaque register_on.

Lemma keeps_Register k key : keeps k (Register GOOS key).
Proof. unfold Register, dialManagement, managementHealth. keeps. Qed.
#[local] Hint Resolve keeps_Register : go_inv.
#[local] Opaque Register.

Lemma keeps_Start k : keeps k (Start GOOS).
Proof. unfold Start. keeps. Qed.

#[local] Opaque Start.

Lemma safe_loadOrDefault (I : Engine -> Prop) path : safe (W := W) I (loadOrDefault path).
Proof. unfold loadOrDefault, defaultConfigPath, loadConfig, mini_try. safe. Qed.
Lemma safe_saveConfig (I : Engine -> Prop) path o : safe (W := W) I (saveConfig path o).
Proof. unfold saveConfig, ensureDir. safe. Qed.
Lemma holds_key_NewEngine c : holds_key (co_WgPrivateKey c)
  (NewEngine c (NewManagementClient (co_ManagementURL c)) (NewSignalClient (co_SignalURL c))).
Proof. split; [by eexists |]. split; [by eexists |]. by intros _. Qed.
Lemma override_key k m u c : co_WgPrivateKey (override k m u c) = co_WgPrivateKey c.
Proof. unfold override. by repeat destruct (bool_decide _). Qed.

(** After the configuration is loaded. *)
Definition runUp_rest (c : Config) (cfgPath : string) : M miniC Engine W unit :=
  make_engine c ;;;
  Start GOOS ;;;
  let* c := cfg in
  wrap (Wrap "save config") (saveConfig cfgPath (Some c)) ;;;
  match co_Peers c with
  | Some (p :: _) => ignore (Subscribe (p_ID p))
  | _ => ret tt
  end.

Lemma runUp_rest_wp `{!MiniWorld W} c0 cfgPath (s : state miniC Engine W) :
  wp (runUp_rest c0 cfgPath) (fun r s' => r = inl tt ->
    exists c, file (world s') cfgPath = Some (MarshalIndent (json_config c)) /\
      (co_WgPrivateKey c0 <> "" -> co_WgPrivateKey c = co_WgPrivateKey c0)) s.
Proof.
  unfold runUp_rest, make_engine. wps. eapply wp_mono; [apply keeps_Start, holds_key_NewEngine |].
  cbn beta. intros [[]|e] s1 (_ & _ & Hk); cbn [wp_then]; [|done]. unfold cfg. wps. set (c := e_cfg (loc s1)) in *.
  unfold saveConfig, ensureDir. remember (MarshalIndent (json_config c)) as text eqn:Etext. wps. destruct r as [e|]; cbn [wp_then]; [done |]. wps. destruct r as [e|]; cbn [wp_then]; [done |].
  cbn in H0. pose proof (file_write w cfgPath text) as Hw. rewrite H0 in Hw. specialize (Hw eq_refl). cbn [snd] in Hw.
  assert (Hend : exists c, file w0 cfgPath = Some (MarshalIndent (json_config c)) /\
      (co_WgPrivateKey c0 <> "" -> co_WgPrivateKey c = co_WgPrivateKey c0)).
  { exists c. rewrite <- Etext. split; [exact Hw | exact Hk]. }
  destruct (co_Peers c) as [[|p l]|]; [by wps | | by wps]. unfold Subscribe. wps. by destruct (bool_decide _); wps.
Qed.

(** C14: a run of [up] that succeeds saves a configuration with the private key that was
    loaded, unless that was empty: neither the registration nor [Apply] replaces a key. *)
Theorem runUp_keeps_private_key `{!MiniWorld W} path setupKey mgmtURL signalURL c0 cfgPath (s s1 s' : state miniC Engine W) :
  loadOrDefault path s = (Ok (c0, cfgPath), s1) -> co_WgPrivateKey c0 <> "" ->
  runUp GOOS path setupKey mgmtURL signalURL s = (Ok tt, s') ->
  exists c, file (world s') cfgPath = Some (MarshalIndent (json_config c)) /\
    co_WgPrivateKey c = co_WgPrivateKey c0.
Proof.
  intros Hl Hk Hr. unfold runUp in Hr. rewrite (bind_run _ _ _ _ _ Hl) in Hr.
  destruct (wp_run _ _ _ _ _ Hr (runUp_rest_wp (override setupKey mgmtURL signalURL c0) cfgPath s1) eq_refl) as (c & Hf & Hc).
  rewrite override_key in Hc. eauto.
Qed.

(** ** The command line *)

Lemma no_panic_runUp path k m u (s : state miniC Engine W) : wp (runUp GOOS path k m u) (fun _ _ => True) s.
Proof.
  unfold runUp. wps. eapply wp_mono; [apply no_panic_wp, safe_loadOrDefault |].
  intros [[c p]|e] s1 _; cbn [wp_then]; [|done].
  unfold make_engine. wps. eapply wp_mono; [apply keeps_Start, holds_key_NewEngine |].
  cbn beta. intros [[]|e] s2 _; cbn [wp_then]; [|done]. unfold cfg. wps.
  eapply wp_mono; [apply no_panic_wp, safe_saveConfig |]. intros [[]|e] s3 _; cbn [wp_then]; [|done].
  destruct (co_Peers _) as [[|q l]|]; [by wps | | by wps]. unfold Subscribe. wps. by destruct (bool_decide _); wps.
Qed.
Lemma no_panic_runDown path : no_panic (W := W) (runDown path).
Proof.
  apply safe_bind; [apply safe_loadOrDefault |]. intros [c p]. apply safe_wrap, safe_saveConfig.
Qed.
Lemma no_panic_runStatus path : no_panic (W := W) (runStatus RFC3339 path).
Proof.
  apply safe_bind; [apply safe_loadOrDefault |]. intros [c p].
  apply safe_bind; [by apply safe_modify |]. intros []. unfold Status. safe.
Qed.
#[local] Opaque runUp runDown runStatus.

(** C38: [main] panics exactly when the program is run without a command: the default
    command is status, but its flags are looked for behind a second argument. *)
Theorem main_panics_iff args (s : state miniC Engine W) :
  (exists why s', main_args GOOS RFC3339 args s = (Panic why, s')) <-> (length args < 2)%nat.
Proof.
  split.
  - intros (why & s' & E). destruct args as [|prog [|c rest]]; cbn [length]; [lia | lia |]. exfalso.
    assert (Hk : forall vals (h : list (string * string) -> M miniC Engine W unit),
      wp (h vals) (fun _ _ => True) s ->
      wp (let* r := try (h vals) in ret (match r with inl _ => 0 | inr _ => 1 end)) (fun _ _ => True) s).
    { intros vals h Hh. wps. eapply wp_mono; [exact Hh |]. intros r s2 _. by wps. }
    assert (Hf : forall h : list (string * string) -> M miniC Engine W unit, (forall vals, wp (h vals) (fun _ _ => True) s) ->
      wp (with_flags (prog :: c :: rest) h) (fun _ _ => True) s).
    { intros h Hh. unfold with_flags. destruct (parse_flags rest); [by apply Hk | by wps | by wps]. }
    apply (wp_no_panic (main_args GOOS RFC3339 (prog :: c :: rest)) (fun _ _ => True) s) with (p := why); [|by rewrite E].
    unfold main_args. destruct (bool_decide (c = "up")); [apply Hf; intros; apply no_panic_runUp |].
    destruct (bool_decide (c = "down")); [apply Hf; intros; apply no_panic_wp, no_panic_runDown |].
    destruct (bool_decide (c = "status")); [apply Hf; intros; apply no_panic_wp, no_panic_runStatus | by wps].
  - destruct args as [|prog [|c rest]]; cbn [length]; [| |lia]; intros _; by do 2 eexists.
Qed.

End keys.

(** ** A sample: no server answers *)

Module SampleMini.
Import Keys SampleBox.

(** No message is ever sent. *)
Definition silent {A} : Proto A.
Proof. by refine {| Marshal _ := inr (New "not needed"); Unmarshal _ := inr (New "not needed") |}. Defined.
#[export] Instance login_proto : Proto LoginRequest := silent.
#[export] Instance sync_proto : Proto SyncRequest := silent.
#[export] Instance response_proto : Proto MgmtClient.LoginResponse := silent.
#[export] Instance update_proto : Proto SyncResponse := silent.

Record World := mkWorld { files : gmap string string; uid : Z; wg_works : bool }.

#[export] Instance handler : Handler miniC World := fun R c w =>
  match c in miniC R return R * World with
  | Net n =>
      match n in netC R return R * World with
      | CreateConnection _ _ _ _ => (inl 1, w)
      | GetState _ => (Ready, w)
      | WaitForStateChange _ _ _ => (true, w)
      | CloseConn _ => (None, w)
      | CtxWithCancel _ | CtxWithTimeout _ _ | CtxBackground => (1, w)
      | CtxCancel _ | MarkDisconnected _ _ | MarkConnected _ => (tt, w)
      end
  | UserConfigDir => (inl "/root/.config", w)
  | MkdirAll _ => (None, w)
  | ReadFile p => (match files w !! p with Some d => inl d | None => inr (Errno 2) end, w)
  | WriteFile p d => (None, mkWorld (<[p := d]> (files w)) (uid w) (wg_works w))
  | Geteuid => (uid w, w)
  | Run name _ => (if wg_works w || negb (bool_decide (name = "wg")) then None else Some (New "exit status 1"), w)
  | Output _ _ => (inl (key_B +:+ nl), w)
  | CreateTemp => (inl "/tmp/nb-wg-key-1", w)
  | WriteTemp _ _ | CloseTemp _ | Remove _ => (None, w)
  | Hostname => (inl "host", w)
  | Now => (1700000000, w)
  | Println _ => (tt, w)
  | RandRead => (inl nonce, w)
  | GeneratePrivateKey => (inl (key "A"), w)
  | Dial _ _ => (inr (New "refused"), w)
  | RpcIsHealthy _ _ | RpcSignalSend _ _ => (None, w)
  | RpcGetServerKey _ _ => (inr (New "unavailable"), w)
  | RpcLogin _ _ _ _ _ | StreamRecv _ => (inr (New "unavailable"), w)
  | RpcSync _ _ _ _ _ => (inl 7, w)
  end.

#[export] Instance mini_world : MiniWorld World.
Proof.
  refine {| file w p := files w !! p |}.
  - intros w p d. cbn. destruct (files w !! p); [by intros [= <-] | done].
  - intros w p d _. cbn. by rewrite lookup_insert_eq.
Defined.

Definition stored : Config := set_WgPrivateKey key_A defaultConfig.
Definition process (uid : Z) (wg_works : bool) : state miniC Engine World :=
  mkState (NewEngine defaultConfig (NewManagementClient "") (NewSignalClient ""))
    (mkWorld {["/m.json" := MarshalIndent (json_config stored)]} uid wg_works) [].

End SampleMini.

Import Keys SampleBox SampleMini.

(** As root and without a server, the demo peer is set up. *)
Definition command_of (a : act) : option (list string) := match a with Ran c _ => Some (c.1 :: c.2) | _ => None end.
Example up_runs_these :
  let '(r, s) := runUp "linux" "/m.json" "" "" "" (process 0 true) in
  r = Ok tt /\ omap command_of (logged act_of (calls s)) =
    [["ip"; "link"; "add"; "dev"; "wtnb0"; "type"; "wireguard"];
     ["ip"; "address"; "add"; "100.64.0.50/32"; "dev"; "wtnb0"];
     ["wg"; "set"; "wtnb0"; "private-key"; "/tmp/nb-wg-key-1"; "listen-port"; "51820"];
     ["wg"; "set"; "wtnb0"; "peer"; "PUBKEY_PLACEHOLDER"; "allowed-ips"; "100.64.0.0/16"; "endpoint"; "203.0.113.10:51820";
      "persistent-keepalive"; "25"];
     ["ip"; "link"; "set"; "dev"; "wtnb0"; "up"];
     ["ip"; "route"; "add"; "10.0.0.0/24"; "dev"; "wtnb0"]].
Proof. by vm_compute. Qed.

(** When wg refuses the key, the rest is left, and the key file is removed. *)
Example wg_refuses :
  let '(r, s) := Apply [] ["10.0.0.0/24"] (process 0 false) in
  r = Err (Wrap "wg set" (New "exit status 1")) /\ last (logged act_of (calls s)) = Some (Removed "/tmp/nb-wg-key-1") /\
  length (omap command_of (logged act_of (calls s))) = 3%nat.
Proof. by vm_compute. Qed.

(** [status] says stopped after a successful [up]. *)
Definition printed (ev : event miniC) : option string :=
  match ev with Event (Println line) _ => Some line | _ => None end.
Example status_after_up :
  let '(_, s) := runUp "linux" "/m.json" "" "" "" (process 0 true) in
  let '(_, s') := main_args "linux" (fun _ => "") ["mini"; "status"; "--config=/m.json"] s in
  logged printed (calls s') = ["status: stopped"; "iface : wtnb0"; "addr  : 100.64.0.50/32"; "peers : 0"; "routes: 1"].
Proof. by vm_compute. Qed.

Lemma loadConfig_saveConfig_witness :
  let '(r, s) := saveConfig "/m.json" (Some stored) (process 0 true) in
  r = Ok tt /\ wp (loadConfig "/m.json") (fun r _ =>
    match r with
    | inl c' => c' = clean_config stored
    | inr e => (handle (ReadFile "/m.json") (world s)).1 = inr e
    end) s.
Proof.
  assert (Hr : (saveConfig "/m.json" (Some stored) (process 0 true)).1 = Ok tt) by (by vm_compute).
  destruct (saveConfig "/m.json" (Some stored) (process 0 true)) as [r s] eqn:E. cbn [fst] in Hr. rewrite Hr in E.
  split; [exact Hr |]. apply (loadConfig_saveConfig "/m.json" stored (process 0 true) s); [by vm_compute | exact E].
Defined.

Lemma runUp_keeps_private_key_witness :
  exists s', runUp "linux" "/m.json" "K" "" "" (process 0 true) = (Ok tt, s') /\
  exists c, file (world s') "/m.json" = Some (MarshalIndent (json_config c)) /\ co_WgPrivateKey c = key_A.
Proof.
  assert (Hr : (runUp "linux" "/m.json" "K" "" "" (process 0 true)).1 = Ok tt) by (by vm_compute).
  destruct (runUp "linux" "/m.json" "K" "" "" (process 0 true)) as [r s'] eqn:E. cbn [fst] in Hr. rewrite Hr in E.
  exists s'. split; [by rewrite Hr |].
  assert (Hl : (loadOrDefault "/m.json" (process 0 true)).1 = Ok (stored, "/m.json")) by (by vm_compute).
  destruct (loadOrDefault "/m.json" (process 0 true)) as [r1 s1] eqn:E1. cbn [fst] in Hl. rewrite Hl in E1.
  exact (runUp_keeps_private_key "linux" "/m.json" "K" "" "" stored "/m.json" (process 0 true) s1 s' E1 ltac:(by vm_compute) E).
Defined.
