(* ===== verification/Command.v ===== *)
(** * The command line: [go/cmd]

    The commands up, down and status, from the flags to the calls of the daemon. The
    package's variables are the state, as the command line and the environment leave
    them; the parsing of flags, the profile manager, the daemon and what the commands
    print with are not in the repository. [Flag] names the flags by the constants the
    code uses. *)

From Stdlib Require Import ZArith Lia Ascii.
From stdpp Require Import base tactics list strings sets.
From S2P Require Import Prelude GoStrings Netip Uapi WgIface Grpc.
From S2P Require MgmtClient.

(** ** Flags and variables *)

Inductive Flag :=
  | enableRosenpassFlag | rosenpassPermissiveFlag | serverSSHAllowedFlag | enableSSHRootFlag | enableSSHSFTPFlag
  | enableSSHLocalPortForwardFlag | enableSSHRemotePortForwardFlag | disableSSHAuthFlag | sshJWTCacheTTLFlag
  | interfaceNameFlag | wireguardPortFlag | mtuFlag | networkMonitorFlag | preSharedKeyFlag | disableAutoConnectFlag
  | dnsRouteIntervalFlag | disableClientRoutesFlag | disableServerRoutesFlag | disableDNSFlag | disableFirewallFlag
  | blockLANAccessFlag | blockInboundFlag | enableLazyConnectionFlag | dnsResolverAddress | configFlag.

(** The variables behind the flags that the requests only pass on. *)
Record Switches := mkSwitches {
  v_rosenpassEnabled : bool; v_rosenpassPermissive : bool; v_serverSSHAllowed : bool; v_enableSSHRoot : bool;
  v_enableSSHSFTP : bool; v_enableSSHLocalPortForward : bool; v_enableSSHRemotePortForward : bool;
  v_disableSSHAuth : bool; v_networkMonitor : bool; v_autoConnectDisabled : bool; v_disableClientRoutes : bool;
  v_disableServerRoutes : bool; v_disableDNS : bool; v_disableFirewall : bool; v_blockLANAccess : bool;
  v_blockInbound : bool; v_lazyConnEnabled : bool
}.

(** The variables; a slice is nil ([None]) or has elements; the maps of status's
    filters are their keys. *)
Record Vars := mkVars {
  changed : Flag -> bool;
  switches : Switches;
  interfaceName : string; wireguardPort : Z; mtu : Z;   (* uint16 *)
  sshJWTCacheTTL : Z; dnsRouteInterval : Z;
  managementURL : string; adminURL : string; hostName : string; preSharedKey : string; daemonAddr : string;
  logLevel : string; logFiles : list string;
  natExternalIPs : option (list string); extraIFaceBlackList : option (list string); customDNSAddress : string;
  foregroundMode : bool; profileName : string; configPath : string;
  dnsLabels : option (list string); dnsLabelsValidated : option (list string);
  detailFlag : bool; ipv4Flag : bool; jsonFlag : bool; yamlFlag : bool; anonymizeFlag : bool;
  ipsFilter : list string; prefixNamesFilter : list string; statusFilter : string; connectionTypeFilter : string;
  ipsFilterMap : list string; prefixNamesFilterMap : list string
}.

Definition set_dnsLabelsValidated (l : option (list string)) (v : Vars) : Vars :=
  mkVars (changed v) (switches v) (interfaceName v) (wireguardPort v) (mtu v) (sshJWTCacheTTL v) (dnsRouteInterval v)
    (managementURL v) (adminURL v) (hostName v) (preSharedKey v) (daemonAddr v) (logLevel v) (logFiles v)
    (natExternalIPs v) (extraIFaceBlackList v) (customDNSAddress v) (foregroundMode v) (profileName v) (configPath v)
    (dnsLabels v) l (detailFlag v) (ipv4Flag v) (jsonFlag v) (yamlFlag v) (anonymizeFlag v) (ipsFilter v)
    (prefixNamesFilter v) (statusFilter v) (connectionTypeFilter v) (ipsFilterMap v) (prefixNamesFilterMap v).
Definition set_filters (detail : bool) (ips names : list string) (v : Vars) : Vars :=
  mkVars (changed v) (switches v) (interfaceName v) (wireguardPort v) (mtu v) (sshJWTCacheTTL v) (dnsRouteInterval v)
    (managementURL v) (adminURL v) (hostName v) (preSharedKey v) (daemonAddr v) (logLevel v) (logFiles v)
    (natExternalIPs v) (extraIFaceBlackList v) (customDNSAddress v) (foregroundMode v) (profileName v) (configPath v)
    (dnsLabels v) (dnsLabelsValidated v) detail (ipv4Flag v) (jsonFlag v) (yamlFlag v) (anonymizeFlag v) (ipsFilter v)
    (prefixNamesFilter v) (statusFilter v) (connectionTypeFilter v) ips names.

(** ** The requests

    [SetConfigRequest], [LoginRequest] and [ConfigInput] share the settings of which a
    flag was given. *)
Record Settings := mkSettings {
  s_RosenpassEnabled : option bool; s_RosenpassPermissive : option bool; s_ServerSSHAllowed : option bool;
  s_EnableSSHRoot : option bool; s_EnableSSHSFTP : option bool; s_EnableSSHLocalPortForwarding : option bool;
  s_EnableSSHRemotePortForwarding : option bool; s_DisableSSHAuth : option bool; s_SshJWTCacheTTL : option Z;
  s_InterfaceName : option string; s_WireguardPort : option Z; s_Mtu : option Z; s_NetworkMonitor : option bool;
  s_PreSharedKey : option string; s_DisableAutoConnect : option bool; s_DnsRouteInterval : option Z;
  s_DisableClientRoutes : option bool; s_DisableServerRoutes : option bool; s_DisableDns : option bool;
  s_DisableFirewall : option bool; s_BlockLanAccess : option bool; s_BlockInbound : option bool;
  s_LazyConnectionEnabled : option bool
}.

Record SetConfigRequest := mkSetConfigRequest {
  sc_ProfileName : string; sc_Username : string; sc_ManagementUrl : string; sc_AdminURL : string;
  sc_NatExternalIPs : option (list string); sc_CustomDNSAddress : option string;
  sc_ExtraIFaceBlacklist : option (list string); sc_DnsLabels : list string;
  sc_CleanDNSLabels : bool; sc_CleanNATExternalIPs : bool; sc_Settings : Settings
}.
Record LoginRequest := mkLoginRequest {
  lq_SetupKey : string; lq_ManagementUrl : string; lq_NatExternalIPs : option (list string); lq_CleanNATExternalIPs : bool;
  lq_CustomDNSAddress : option string; lq_IsUnixDesktopClient : bool; lq_Hostname : string;
  lq_ExtraIFaceBlacklist : option (list string); lq_DnsLabels : option (list string); lq_CleanDNSLabels : bool;
  lq_Settings : Settings;
  lq_ProfileName : option string; lq_Username : option string; lq_Hint : option string
}.
Record ConfigInput := mkConfigInput {
  ic_ManagementURL : string; ic_ConfigPath : string; ic_NATExternalIPs : option (list string);
  ic_CustomDNSAddress : option string; ic_ExtraIFaceBlackList : option (list string);
  ic_DNSLabels : option (list string); ic_Settings : Settings
}.

(** What is read of the daemon's answers. *)
Record StatusResponse := mkStatusResponse { st_Status : string; st_IP : string }.
Record LoginResponse := mkLoginResponse { lr_NeedsSSOLogin : bool }.

Inductive OutputFormat := FullDetail | JsonFormat | YamlFormat | GeneralSummary.

Inductive cmdC : Set -> Type :=
  | Net {R : Set} (c : netC R) : cmdC R
  | InitLog (level : string) : cmdC (option error)
  | CtxInitState (hostName : string) : cmdC ref   (* with the device name, when there is one *)
  | CurrentUser : cmdC (string + error)
  | DaemonSwitchProfile (profile username : string) : cmdC (option error)
  | PmSwitchProfile (profile : string) : cmdC (option error)
  | PmGetActiveProfile : cmdC (string + error)
  | PmProfileState (profile : string) : cmdC (string + error)   (* its email *)
  | ProfileFilePath (profile : string) : cmdC (string + error)
  | NewServiceManager (configPath : string) : cmdC unit
  | HandleRebrand : cmdC (option error)
  | GetSetupKey : cmdC (string + error)
  | IsUnixRunningDesktop : cmdC bool
  | UpdateOrCreateConfig (ic : ConfigInput) : cmdC (ref + error)
  | UpdateOldManagementURL (ctx config : ref) (path : string) : cmdC unit
  | ForegroundLogin (ctx config : ref) (setupKey profile : string) : cmdC (option error)
  | SetupHandlers (ctx config : ref) : cmdC unit
  | RunClient (ctx config : ref) : cmdC (option error)   (* [NewConnectClient] and its [Run] *)
  | DialDaemon (ctx : ref) (addr : string) : cmdC (ref + error)
  | DaemonStatus (conn ctx : ref) : cmdC (StatusResponse + error)
  | DaemonDown (conn ctx : ref) : cmdC (option error)
  | DaemonSetConfig (conn ctx : ref) (req : option SetConfigRequest) : cmdC (option error)
  | DaemonLogin (conn ctx : ref) (req : LoginRequest) : cmdC (LoginResponse + error)
  | HandleSSOLogin (conn ctx : ref) : cmdC (option error)
  | DaemonUp (conn ctx : ref) (profile username : string) : cmdC (option error)
  | NetInterfaces : cmdC (list string + error)   (* their names *)
  | FindFirstLogPath (files : list string) : cmdC string
  | FormatStatus (format : OutputFormat) (resp : StatusResponse) (filters : Vars) (profile : string) : cmdC (string + error)
  | Print (text : string) : cmdC unit.

#[export] Instance cmd_net : HasNet cmdC := @Net.

Definition InvalidArgument : Z := 3.
Definition NotFound : Z := 5.
Definition Unimplemented : Z := 12.

(** The names of [internal.StatusType], and [domain.ValidateDomains] with [List.ToPunycodeList]. *)
Class CmdLib := {
  StatusConnected : string; StatusNeedsLogin : string; StatusLoginFailed : string; StatusSessionExpired : string;
  ValidateDomains : list string -> list string + error;
  ToPunycodeList : list string -> list string
}.

(** [netip.ParseAddrPort], whether it succeeds. *)
Definition ParseAddrPort (s : string) : bool :=
  match split_last ":" s with
  | None => false
  | Some (ip, port) =>
      if bool_decide (ip = "") || bool_decide (port = "") then false
      else
        let bracketed := HasPrefix ip "[" in
        if bracketed && negb ((2 <=? String.length ip)%nat && HasPrefix (srev ip) "]") then false
        else
          let ip := if bracketed then TrimSuffix (TrimPrefix ip "[") "]" else ip in
          match parse_nat port, ParseAddr ip with
          | Some p, inl a => (p <=? 65535) && negb (xorb bracketed (addr_BitLen a =? 128))
          | _, _ => false
          end
  end.

Inductive InputType := invalidInputType | ipInputType | interfaceInputType.

#[export] Instance InputType_eq_dec : EqDecision InputType.
Proof. solve_decision. Defined.

Section command.
Context {gl : GrpcLib} {bl : BackoffLib} {lib : CmdLib} (GOOS : string).
Context {W : Type} `{!Handler cmdC W}.

Definition CM := M cmdC Vars W.

Definition cmd_try {A} (r : A + error) : CM A := match r with inl a => ret a | inr err => fail err end.
(** [fmt.Errorf] with [%v], which hides its cause. *)
Definition say {A} (what : string) (m : CM A) : CM A := wrap (Opaque what) m.

(** ** Checking the flags *)

Definition isValidIP (ip : string) : bool := bool_decide (is_Some (ParseIP ip)).

Definition isValidInterface (name : string) : CM bool :=
  let* netInterfaces := check_val (call NetInterfaces) in
  ret (bool_decide (name ∈ netInterfaces)).

Definition validateElement (element : string) : CM InputType :=
  if isValidIP element then ret ipInputType
  else
    let* validIface := wrap (Opaque "unable to validate the network interface name") (isValidInterface element) in
    if validIface : bool then ret interfaceInputType
    else fail (New "invalid IP or network interface name not found").

(** The loop over the parts of one element; [last] is the type of the part before. *)
Fixpoint validate_parts (last : InputType) (parts : list string) : CM unit :=
  match parts with
  | [] => ret tt
  | part :: parts' =>
      let* inputType := wrap (fun _ => New "it should be an IP string or a network name") (validateElement part) in
      if bool_decide (last = interfaceInputType) && bool_decide (inputType = interfaceInputType)
      then fail (New "it should not contain two interface names")
      else validate_parts inputType parts'
  end.

Definition validateNATExternalIPs (l : list string) : CM unit :=
  for_each l (fun element =>
    if bool_decide (element = "") then fail (New "empty string is not a valid input")
    else
      let subElements := Split "/" element in
      if (2 <? length subElements)%nat then fail (New "it should be formatted as String or String/String")
      else if (length subElements =? 1)%nat && negb (isValidIP (default "" (head subElements)))
           then fail (New "it should be formatted as IP or IP/IP, or IP/Interface Name")
      else validate_parts invalidInputType subElements).

Definition parseInterfaceName (name : string) : option error :=
  if negb (bool_decide (GOOS = "darwin")) then None
  else if HasPrefix name "utun" then None
  else Some (New "invalid interface name").

Definition isValidAddrPort (input : string) : bool :=
  if bool_decide (input = "") then true else ParseAddrPort input.

Definition parseCustomDNSAddress (modified : bool) : CM (option string) :=
  if negb modified then ret None
  else
    let* v := get in
    if negb (isValidAddrPort (customDNSAddress v)) then fail (New "it should be formatted as IP:Port string")
    else if bool_decide (customDNSAddress v = "") then
      let* path := call (FindFirstLogPath (logFiles v)) in
      ret (Some (if bool_decide (path = "") then "" else "empty"))
    else ret (Some (customDNSAddress v)).

Definition validateDnsLabels (labels : option (list string)) : CM (option (list string)) :=
  match labels with
  | None => ret None
  | Some [] => ret None
  | Some labels => let* domains := say "failed to validate dns labels" (cmd_try (ValidateDomains labels)) in ret (Some domains)
  end.

(** ** The requests *)

(** [if cmd.Flag(flag).Changed { req.Field = &value }]. *)
Definition when_changed {A} (v : Vars) (f : Flag) (value : A) : option A := if changed v f then Some value else None.

(** [x != nil && len(x) == 0]. *)
Definition is_cleared {A} (l : option (list A)) : bool := match l with Some [] => true | _ => false end.

Definition setupSetConfigReq (v : Vars) (customDNSAddressConverted : option string) (profile username : string) : option SetConfigRequest :=
  let sw := switches v in
  match (if changed v interfaceNameFlag then parseInterfaceName (interfaceName v) else None) with
  | Some _ => None
  | None =>
      Some (mkSetConfigRequest profile username (managementURL v) (adminURL v) (natExternalIPs v) customDNSAddressConverted
        (extraIFaceBlackList v) (ToPunycodeList (default [] (dnsLabelsValidated v)))
        (is_cleared (dnsLabels v)) (is_cleared (natExternalIPs v))
        {| s_RosenpassEnabled := when_changed v enableRosenpassFlag (v_rosenpassEnabled sw);
           s_RosenpassPermissive := when_changed v rosenpassPermissiveFlag (v_rosenpassPermissive sw);
           s_ServerSSHAllowed := when_changed v serverSSHAllowedFlag (v_serverSSHAllowed sw);
           s_EnableSSHRoot := when_changed v enableSSHRootFlag (v_enableSSHRoot sw);
           s_EnableSSHSFTP := when_changed v enableSSHSFTPFlag (v_enableSSHSFTP sw);
           s_EnableSSHLocalPortForwarding := when_changed v enableSSHLocalPortForwardFlag (v_enableSSHLocalPortForward sw);
           s_EnableSSHRemotePortForwarding := when_changed v enableSSHRemotePortForwardFlag (v_enableSSHRemotePortForward sw);
           s_DisableSSHAuth := when_changed v disableSSHAuthFlag (v_disableSSHAuth sw);
           s_SshJWTCacheTTL := when_changed v sshJWTCacheTTLFlag (wraps 32 (sshJWTCacheTTL v));
           s_InterfaceName := when_changed v interfaceNameFlag (interfaceName v);
           s_WireguardPort := when_changed v wireguardPortFlag (wireguardPort v);
           s_Mtu := when_changed v mtuFlag (mtu v);
           s_NetworkMonitor := when_changed v networkMonitorFlag (v_networkMonitor sw);
           s_PreSharedKey := when_changed v preSharedKeyFlag (preSharedKey v);
           s_DisableAutoConnect := when_changed v disableAutoConnectFlag (v_autoConnectDisabled sw);
           s_DnsRouteInterval := when_changed v dnsRouteIntervalFlag (dnsRouteInterval v);
           s_DisableClientRoutes := when_changed v disableClientRoutesFlag (v_disableClientRoutes sw);
           s_DisableServerRoutes := when_changed v disableServerRoutesFlag (v_disableServerRoutes sw);
           s_DisableDns := when_changed v disableDNSFlag (v_disableDNS sw);
           s_DisableFirewall := when_changed v disableFirewallFlag (v_disableFirewall sw);
           s_BlockLanAccess := when_changed v blockLANAccessFlag (v_blockLANAccess sw);
           s_BlockInbound := when_changed v blockInboundFlag (v_blockInbound sw);
           s_LazyConnectionEnabled := when_changed v enableLazyConnectionFlag (v_lazyConnEnabled sw) |})
  end.

(** The checks of the interface name and the MTU, in that order. *)
Definition check_name_mtu (v : Vars) : option error :=
  match (if changed v interfaceNameFlag then parseInterfaceName (interfaceName v) else None) with
  | Some err => Some err
  | None => if changed v mtuFlag then ValidateMTU (mtu v) else None
  end.

(** What [setupConfig] prints is about auto-connect. *)
Definition print_autoconnect (v : Vars) : CM unit :=
  when (changed v disableAutoConnectFlag)
    (call (Print (if v_autoConnectDisabled (switches v) then "Autoconnect has been disabled." else "Autoconnect has been enabled."))).

Definition setupConfig (v : Vars) (customDNSAddressConverted : option string) (configFilePath : string) : CM ConfigInput :=
  let sw := switches v in
  match check_name_mtu v with
  | Some err => fail err
  | None =>
      print_autoconnect v ;;;
      ret (mkConfigInput (managementURL v) configFilePath (natExternalIPs v) customDNSAddressConverted
        (extraIFaceBlackList v) (dnsLabelsValidated v)
        {| s_RosenpassEnabled := when_changed v enableRosenpassFlag (v_rosenpassEnabled sw);
           s_RosenpassPermissive := when_changed v rosenpassPermissiveFlag (v_rosenpassPermissive sw);
           s_ServerSSHAllowed := when_changed v serverSSHAllowedFlag (v_serverSSHAllowed sw);
           s_EnableSSHRoot := when_changed v enableSSHRootFlag (v_enableSSHRoot sw);
           s_EnableSSHSFTP := when_changed v enableSSHSFTPFlag (v_enableSSHSFTP sw);
           s_EnableSSHLocalPortForwarding := when_changed v enableSSHLocalPortForwardFlag (v_enableSSHLocalPortForward sw);
           s_EnableSSHRemotePortForwarding := when_changed v enableSSHRemotePortForwardFlag (v_enableSSHRemotePortForward sw);
           s_DisableSSHAuth := when_changed v disableSSHAuthFlag (v_disableSSHAuth sw);
           s_SshJWTCacheTTL := when_changed v sshJWTCacheTTLFlag (sshJWTCacheTTL v);
           s_InterfaceName := when_changed v interfaceNameFlag (interfaceName v);
           s_WireguardPort := when_changed v wireguardPortFlag (wireguardPort v);
           s_Mtu := when_changed v mtuFlag (mtu v);
           s_NetworkMonitor := when_changed v networkMonitorFlag (v_networkMonitor sw);
           s_PreSharedKey := when_changed v preSharedKeyFlag (preSharedKey v);
           s_DisableAutoConnect := when_changed v disableAutoConnectFlag (v_autoConnectDisabled sw);
           s_DnsRouteInterval := when_changed v dnsRouteIntervalFlag (dnsRouteInterval v);
           s_DisableClientRoutes := when_changed v disableClientRoutesFlag (v_disableClientRoutes sw);
           s_DisableServerRoutes := when_changed v disableServerRoutesFlag (v_disableServerRoutes sw);
           s_DisableDns := when_changed v disableDNSFlag (v_disableDNS sw);
           s_DisableFirewall := when_changed v disableFirewallFlag (v_disableFirewall sw);
           s_BlockLanAccess := when_changed v blockLANAccessFlag (v_blockLANAccess sw);
           s_BlockInbound := when_changed v blockInboundFlag (v_blockInbound sw);
           s_LazyConnectionEnabled := when_changed v enableLazyConnectionFlag (v_lazyConnEnabled sw) |})
  end.

Definition setupLoginRequest (v : Vars) (providedSetupKey : string) (customDNSAddressConverted : option string) : CM LoginRequest :=
  let sw := switches v in
  let* desktop := call IsUnixRunningDesktop in
  match check_name_mtu v with
  | Some err => fail err
  | None =>
      ret (mkLoginRequest providedSetupKey (managementURL v) (natExternalIPs v) (is_cleared (natExternalIPs v))
        customDNSAddressConverted desktop (hostName v) (extraIFaceBlackList v) (dnsLabels v) (is_cleared (dnsLabels v))
        {| s_PreSharedKey := when_changed v preSharedKeyFlag (preSharedKey v);
           s_RosenpassEnabled := when_changed v enableRosenpassFlag (v_rosenpassEnabled sw);
           s_RosenpassPermissive := when_changed v rosenpassPermissiveFlag (v_rosenpassPermissive sw);
           s_ServerSSHAllowed := when_changed v serverSSHAllowedFlag (v_serverSSHAllowed sw);
           s_EnableSSHRoot := when_changed v enableSSHRootFlag (v_enableSSHRoot sw);
           s_EnableSSHSFTP := when_changed v enableSSHSFTPFlag (v_enableSSHSFTP sw);
           s_EnableSSHLocalPortForwarding := when_changed v enableSSHLocalPortForwardFlag (v_enableSSHLocalPortForward sw);
           s_EnableSSHRemotePortForwarding := when_changed v enableSSHRemotePortForwardFlag (v_enableSSHRemotePortForward sw);
           s_DisableSSHAuth := when_changed v disableSSHAuthFlag (v_disableSSHAuth sw);
           s_SshJWTCacheTTL := when_changed v sshJWTCacheTTLFlag (wraps 32 (sshJWTCacheTTL v));
           s_DisableAutoConnect := when_changed v disableAutoConnectFlag (v_autoConnectDisabled sw);
           s_InterfaceName := when_changed v interfaceNameFlag (interfaceName v);
           s_WireguardPort := when_changed v wireguardPortFlag (wireguardPort v);
           s_Mtu := when_changed v mtuFlag (mtu v);
           s_NetworkMonitor := when_changed v networkMonitorFlag (v_networkMonitor sw);
           s_DnsRouteInterval := when_changed v dnsRouteIntervalFlag (dnsRouteInterval v);
           s_DisableClientRoutes := when_changed v disableClientRoutesFlag (v_disableClientRoutes sw);
           s_DisableServerRoutes := when_changed v disableServerRoutesFlag (v_disableServerRoutes sw);
           s_DisableDns := when_changed v disableDNSFlag (v_disableDNS sw);
           s_DisableFirewall := when_changed v disableFirewallFlag (v_disableFirewall sw);
           s_BlockLanAccess := when_changed v blockLANAccessFlag (v_blockLANAccess sw);
           s_BlockInbound := when_changed v blockInboundFlag (v_blockInbound sw);
           s_LazyConnectionEnabled := when_changed v enableLazyConnectionFlag (v_lazyConnEnabled sw) |}
        None None None)
  end.

(** ** up *)

(** The login request with the profile's data. *)
Definition with_profile (profile username : string) (hint : option string) (q : LoginRequest) : LoginRequest :=
  mkLoginRequest (lq_SetupKey q) (lq_ManagementUrl q) (lq_NatExternalIPs q) (lq_CleanNATExternalIPs q)
    (lq_CustomDNSAddress q) (lq_IsUnixDesktopClient q) (lq_Hostname q) (lq_ExtraIFaceBlacklist q) (lq_DnsLabels q)
    (lq_CleanDNSLabels q) (lq_Settings q) (Some profile) (Some username) hint.

(** The codes after which login is not retried. *)
Definition is_final (err : error) : bool :=
  is_status (Some err) InvalidArgument || is_status (Some err) PermissionDenied
  || is_status (Some err) NotFound || is_status (Some err) Unimplemented.

(** The retried closure, with the variables [loginResp] and [loginErr] that it assigns. *)
Definition daemon_login (conn ctx : ref) (req : LoginRequest)
    : M cmdC (Vars * (option LoginResponse * option error)) W unit :=
  let* r := call (DaemonLogin conn ctx req) in
  modify (fun '(v, (_, e)) => (v, (match r with inl resp => Some resp | inr _ => None end, e))) ;;;
  match r with
  | inl _ => ret tt
  | inr err =>
      if is_final err then modify (fun '(v, (resp, _)) => (v, (resp, Some err)))
      else fail err
  end.

(** [WithBackOff], which is not in the repository, is taken to be [backoff.Retry]. *)
Definition doDaemonUp (ctx conn : ref) (activeProf : string) (customDNSAddressConverted : option string)
    (username : string) : CM unit :=
  let* providedSetupKey := say "get setup key" (check_val (call GetSetupKey)) in
  let* v := get in
  let* loginRequest := say "setup login request" (setupLoginRequest v providedSetupKey customDNSAddressConverted) in
  let* state := call (PmProfileState activeProf) in
  let hint := match state with inl email => if bool_decide (email = "") then None else Some email | inr _ => None end in
  let loginRequest := with_profile activeProf username hint loginRequest in
  let* r := say "login backoff cycle failed" (local_var (None, None) (Retry (daemon_login conn ctx loginRequest))) in
  let '(_, (loginResp, loginErr)) := r in
  match loginErr with
  | Some err => fail (Opaque "login failed" err)
  | None =>
      deref "loginResp" loginResp (fun resp =>
        when (lr_NeedsSSOLogin resp) (say "sso login failed" (check (call (HandleSSOLogin conn ctx)))) ;;;
        say "call service up method" (check (call (DaemonUp conn ctx activeProf username))))
  end.

(** The end of [runInDaemonMode]: the configuration is set, then the client brought up. *)
Definition set_and_up (ctx conn : ref) (activeProf : string) (v : Vars) (customDNSAddressConverted : option string)
    (username : string) : CM unit :=
  let req := setupSetConfigReq v customDNSAddressConverted activeProf username in
  let* r := call (DaemonSetConfig conn ctx req) in
  match r with
  | Some err => if is_status (Some err) Unavailable then ret tt
                else fail (Opaque "call service setConfig method" err)
  | None => ret tt
  end ;;;
  say "daemon up failed" (doDaemonUp ctx conn activeProf customDNSAddressConverted username) ;;;
  call (Print "Connected").

Definition runInDaemonMode (ctx : ref) (activeProf : string) (profileSwitched : bool) : CM unit :=
  let* v := get in
  when (changed v configFlag && negb (bool_decide (configPath v = ""))) (call (Print "Warning: Config flag is deprecated")) ;;;
  let* customDNSAddressConverted := say "parse custom DNS address" (parseCustomDNSAddress (changed v dnsResolverAddress)) in
  let* conn := say "failed to connect to daemon" (check_val (call (DialDaemon ctx (daemonAddr v)))) in
  with_defer
    (let* status := say "unable to get daemon status" (check_val (call (DaemonStatus conn ctx))) in
     let connected := bool_decide (st_Status status = StatusConnected) in
     if connected && negb profileSwitched then call (Print "Already connected")
     else
       when connected (check (call (DaemonDown conn ctx))) ;;;
       let* username := say "get current user" (check_val (call CurrentUser)) in
       set_and_up ctx conn activeProf v customDNSAddressConverted username)
    (ignore (check (call (Net (CloseConn conn))))).

Definition runInForegroundMode (ctx : ref) (activeProf : string) : CM unit :=
  let* v := get in
  when (negb (bool_decide (configPath v = ""))) (call (NewServiceManager (configPath v))) ;;;
  check (call HandleRebrand) ;;;
  let* customDNSAddressConverted := parseCustomDNSAddress (changed v dnsResolverAddress) in
  let* configFilePath := say "get active profile file path" (check_val (call (ProfileFilePath activeProf))) in
  let* ic := say "setup config" (setupConfig v customDNSAddressConverted configFilePath) in
  let* providedSetupKey := check_val (call GetSetupKey) in
  let* config := say "get config file" (check_val (call (UpdateOrCreateConfig ic))) in
  call (UpdateOldManagementURL ctx config configFilePath) ;;;
  say "foreground login failed" (check (call (ForegroundLogin ctx config providedSetupKey activeProf))) ;;;
  let* ctx := call (Net (CtxWithCancel ctx)) in
  call (SetupHandlers ctx config) ;;;
  check (call (RunClient ctx config)).

Definition upFunc : CM unit :=
  let* v := get in
  say "failed initializing log" (check (call (InitLog (logLevel v)))) ;;;
  validateNATExternalIPs (default [] (natExternalIPs v)) ;;;
  let* labels := validateDnsLabels (dnsLabels v) in
  modify (set_dnsLabelsValidated labels) ;;;
  let* ctx := call (CtxInitState (hostName v)) in
  let* username := say "get current user" (check_val (call CurrentUser)) in
  let profileSwitched := negb (bool_decide (profileName v = "")) in
  when profileSwitched
    (say "switch profile" (check (call (DaemonSwitchProfile (profileName v) username))) ;;;
     say "switch profile" (check (call (PmSwitchProfile (profileName v))))) ;;;
  let* activeProf := say "get active profile" (check_val (call PmGetActiveProfile)) in
  if foregroundMode v then runInForegroundMode ctx activeProf
  else runInDaemonMode ctx activeProf profileSwitched.

(** ** down *)

Definition downFunc : CM unit :=
  let* v := get in
  check (call (InitLog (logLevel v))) ;;;
  let* background := call (Net CtxBackground) in
  with_timeout background (20 * second) (fun ctx =>
    let* conn := check_val (call (DialDaemon ctx (daemonAddr v))) in
    with_defer
      (check (call (DaemonDown conn ctx)) ;;;
       call (Print "Disconnected"))
      (ignore (check (call (Net (CloseConn conn)))))).

(** ** status *)

(** [enableDetailFlagWhenFilterFlag] on the flags. *)
Definition detail_with_filter (v : Vars) : bool := detailFlag v || (negb (jsonFlag v) && negb (yamlFlag v)).
Definition enableDetailFlagWhenFilterFlag : CM unit :=
  modify (fun v => set_filters (detail_with_filter v) (ipsFilterMap v) (prefixNamesFilterMap v) v).

Definition check_status_filter (text : string) (allowed : list string) : CM unit :=
  if bool_decide (text ∈ allowed) then when (negb (bool_decide (text = ""))) enableDetailFlagWhenFilterFlag
  else fail (New ("wrong filter, got: " +:+ text)).

Definition parseFilters : CM unit :=
  let* v := get in
  check_status_filter (ToLower (statusFilter v)) [""; "idle"; "connecting"; "connected"] ;;;
  for_each (ipsFilter v) (fun addr =>
    wrap (Opaque "got an invalid IP address in the filter") (cmd_try (ParseAddr addr)) ;;;
    modify (fun v => set_filters (detailFlag v) (ipsFilterMap v ++ [addr]) (prefixNamesFilterMap v) v) ;;;
    enableDetailFlagWhenFilterFlag) ;;;
  when (negb (bool_decide (prefixNamesFilter v = [])))
    (modify (fun v => set_filters (detailFlag v) (ipsFilterMap v)
                        (prefixNamesFilterMap v ++ map ToLower (prefixNamesFilter v)) v) ;;;
     enableDetailFlagWhenFilterFlag) ;;;
  check_status_filter (ToLower (connectionTypeFilter v)) [""; "p2p"; "relayed"].

Definition parseInterfaceIP (interfaceIP : string) : string :=
  match ParseCIDR interfaceIP with
  | inr _ => ""
  | inl (ip, _) => ip_String ip +:+ nl
  end.

(** [status.Convert(err).Message()] is the error's text. *)
Definition getStatus (ctx : ref) : CM StatusResponse :=
  let* v := get in
  let* conn := say "failed to connect to daemon" (check_val (call (DialDaemon ctx (daemonAddr v)))) in
  with_defer
    (say "status failed" (check_val (call (DaemonStatus conn ctx))))
    (ignore (check (call (Net (CloseConn conn))))).

Definition output_format (v : Vars) : OutputFormat :=
  if detailFlag v then FullDetail else if jsonFlag v then JsonFormat else if yamlFlag v then YamlFormat else GeneralSummary.

Definition statusFunc : CM unit :=
  parseFilters ;;;
  let* v := get in
  say "failed initializing log" (check (call (InitLog (logLevel v)))) ;;;
  let* ctx := call (CtxInitState "") in
  let* resp := getStatus ctx in
  if bool_decide (st_Status resp ∈ [StatusNeedsLogin; StatusLoginFailed; StatusSessionExpired])
  then call (Print ("Daemon status: " +:+ st_Status resp))
  else if ipv4Flag v then call (Print (parseInterfaceIP (st_IP resp)))
  else
    let* prof := call PmGetActiveProfile in
    let profName := match prof with inl name => name | inr _ => "" end in
    let* text := check_val (call (FormatStatus (output_format v) resp v profName)) in
    call (Print text).

End command.
