(* ===== verification/CommandSpec.v ===== *)
(** * What the command line does

    [runInDaemonMode_order]: up talks to the daemon in a fixed order, over a connection
    that it closes. [settings_agree]: what the three requests that carry the flags hold, and
    when they are refused. [validateNATExternalIPs_spec]: which mappings are accepted.
    [invalid_mtu_reaches_daemon]: an MTU that up refuses has been stored before. *)

From Stdlib Require Import ZArith Lia Ascii.
From stdpp Require Import base tactics list strings sets.
From S2P Require Import Prelude GoStrings Netip Uapi WgIface Grpc Command.

(** ** The requests *)

Section requests.
Context {lib : CmdLib} (GOOS : string).
Context {W : Type} `{!Handler cmdC W}.
Notation St := (state cmdC Vars W).

(** The time to live as the requests' int32. *)
Definition ttl32 (s : Settings) : Settings :=
  mkSettings (s_RosenpassEnabled s) (s_RosenpassPermissive s) (s_ServerSSHAllowed s) (s_EnableSSHRoot s)
    (s_EnableSSHSFTP s) (s_EnableSSHLocalPortForwarding s) (s_EnableSSHRemotePortForwarding s) (s_DisableSSHAuth s)
    (wraps 32 <$> s_SshJWTCacheTTL s) (s_InterfaceName s) (s_WireguardPort s) (s_Mtu s) (s_NetworkMonitor s)
    (s_PreSharedKey s) (s_DisableAutoConnect s) (s_DnsRouteInterval s) (s_DisableClientRoutes s)
    (s_DisableServerRoutes s) (s_DisableDns s) (s_DisableFirewall s) (s_BlockLanAccess s) (s_BlockInbound s)
    (s_LazyConnectionEnabled s).

(** C37: how the flags go out in up's three ways. When the login request can be made, so
    can the request that sets the daemon's configuration and the configuration of the
    foreground mode; the three hold the same settings, addresses, resolver, management URL
    and blacklisted interfaces (the cache's time to live is an int32 in the requests), the
    foreground configuration holds the validated DNS labels, the configuration request their
    Punycode, and the login request the labels as they were given. When the login request is
    refused, the foreground configuration is for the same reason; the request that sets the
    configuration is refused for the name of the interface, but not for the MTU: it is made,
    and holds the MTU that the other two refuse. *)
Theorem settings_agree v dns profile user setupKey path (s : St) :
  let setConfig := setupSetConfigReq GOOS v dns profile user in
  match (setupLoginRequest GOOS v setupKey dns s).1 with
  | Ok l => exists q ic s2,
      setConfig = Some q /\ setupConfig GOOS v dns path s = (Ok ic, s2) /\
      lq_Settings l = ttl32 (ic_Settings ic) /\ lq_NatExternalIPs l = ic_NATExternalIPs ic /\
      lq_CustomDNSAddress l = ic_CustomDNSAddress ic /\ lq_ManagementUrl l = ic_ManagementURL ic /\
      lq_ExtraIFaceBlacklist l = ic_ExtraIFaceBlackList ic /\
      sc_Settings q = lq_Settings l /\ sc_NatExternalIPs q = lq_NatExternalIPs l /\
      sc_CustomDNSAddress q = lq_CustomDNSAddress l /\ sc_ManagementUrl q = lq_ManagementUrl l /\
      sc_ExtraIFaceBlacklist q = lq_ExtraIFaceBlacklist l /\
      sc_CleanDNSLabels q = lq_CleanDNSLabels l /\ sc_CleanNATExternalIPs q = lq_CleanNATExternalIPs l /\
      ic_DNSLabels ic = dnsLabelsValidated v /\ sc_DnsLabels q = ToPunycodeList (default [] (ic_DNSLabels ic)) /\
      lq_DnsLabels l = dnsLabels v
  | Err e =>
      (setupConfig GOOS v dns path s).1 = Err e /\
      (changed v interfaceNameFlag = true /\ parseInterfaceName GOOS (interfaceName v) = Some e /\ setConfig = None \/
       changed v mtuFlag = true /\ ValidateMTU (mtu v) = Some e /\
       exists q, setConfig = Some q /\ s_Mtu (sc_Settings q) = Some (mtu v))
  | Panic _ => False
  end.
Proof.
  unfold setupLoginRequest, setupConfig, setupSetConfigReq, check_name_mtu, print_autoconnect, when_changed.
  unfold bind at 1, call at 1. destruct (handle IsUnixRunningDesktop (world s)) as [desktop w].
  destruct (changed v interfaceNameFlag) eqn:Ei; [destruct (parseInterfaceName GOOS (interfaceName v)) |].
  { cbn. split; [done |]. by left. }
  all: destruct (changed v mtuFlag) eqn:Em; [destruct (ValidateMTU (mtu v)) |].
  1,4: split; [done |]; right; do 2 (split; [done |]); by eexists.
  all: cbn [fst ret]; unfold when, bind, call; destruct (changed v disableAutoConnectFlag) eqn:E; [destruct (handle _ _) as [u w'] |];
    do 3 eexists; (split; [reflexivity |]); (split; [reflexivity |]); cbn; rewrite ?E, ?Ei, ?Em; unfold ttl32; cbn;
    by destruct (changed v sshJWTCacheTTLFlag).
Qed.

End requests.

(** ** External addresses *)

(** What a mapping says: nothing that up takes, addresses only, or an address and the name
    of an interface, in either order. *)
Inductive MappingForm :=
  | NoMapping
  | Addresses
  | AddressAndName (name : string).

Definition is_ip (s : string) : bool := match ParseIP s with Some _ => true | None => false end.

Definition form (element : string) : MappingForm :=
  match Split "/" element with
  | [ip] => if is_ip ip then Addresses else NoMapping
  | [a; b] =>
      if is_ip a then if is_ip b then Addresses else AddressAndName b
      else if is_ip b then AddressAndName a else NoMapping
  | _ => NoMapping
  end.
Definition mapping (element : string) : Prop := form element <> NoMapping.
Definition named (element : string) : option string :=
  match form element with AddressAndName name => Some name | _ => None end.

(** The answers to [net.Interfaces]. *)
Definition ifaces_answered (ev : event cmdC) : option (list string + error) :=
  match ev with
  | @Event _ R c a => match c in cmdC R' return R' -> option (list string + error) with NetInterfaces => Some | _ => fun _ => None end a
  end.

(** The answer has the name. *)
Definition has_name (name : string) (answer : list string + error) : Prop :=
  match answer with inl names => name ∈ names | inr _ => False end.

(** Every element is a mapping, and each of the names in them was asked about once, in
    order, and found. *)
Definition accepted (l : list string) (answers : list (list string + error)) : Prop :=
  Forall mapping l /\ Forall2 has_name (omap named l) answers.

(** The elements up to one are accepted, and that one is no mapping, or the answer about its
    name, the last, is an error or does not have it. *)
Definition refused (l : list string) (answers : list (list string + error)) : Prop :=
  exists seen e rest before last, l = seen ++ e :: rest /\ answers = before ++ last /\ accepted seen before /\
    match form e with
    | NoMapping => (length last <= 2)%nat
    | Addresses => False
    | AddressAndName name => exists answer, last = [answer] /\ ~ has_name name answer
    end.

Section addresses.
Context {W : Type} `{!Handler cmdC W}.
Notation St := (state cmdC Vars W).

Lemma isValidIP_is_ip s : isValidIP s = is_ip s.
Proof. unfold isValidIP, is_ip. by destruct (ParseIP s). Qed.

Lemma accepted_snoc seen e before last : accepted seen before ->
  match form e with
  | NoMapping => False
  | Addresses => last = []
  | AddressAndName name => exists answer, last = [answer] /\ has_name name answer
  end -> accepted (seen ++ [e]) (before ++ last).
Proof.
  unfold accepted, mapping, named. intros [Hm Hn] He. rewrite omap_app. cbn.
  destruct (form e) as [| |name] eqn:E; [done | |].
  - subst last. rewrite !app_nil_r. split; [|done]. apply Forall_app. repeat constructor; [done |]. by rewrite E.
  - destruct He as (answer & -> & He). split; [|by apply Forall2_app; repeat constructor].
    apply Forall_app. repeat constructor; [done |]. by rewrite E.
Qed.

Lemma validateElement_wp element (Q : InputType + error -> St -> Prop) s :
  (if is_ip element then Q (inl ipInputType) s
   else forall answer w r,
     (match r with inl t => t = interfaceInputType /\ has_name element answer | inr _ => ~ has_name element answer end) ->
     Q r (mkState (loc s) w (Event NetInterfaces answer :: calls s))) ->
  wp (validateElement element) Q s.
Proof.
  intros HQ. unfold validateElement, isValidInterface. rewrite isValidIP_is_ip. destruct (is_ip element); [by wps |].
  wps. destruct r as [names|e]; cbn [wp_then]; [|by apply HQ; intros []].
  wps. case_bool_decide; wps; by apply HQ.
Qed.

(** The parts of one element, and what was asked about them. *)
Lemma element_wp e (Q : unit + error -> St -> Prop) s :
  bool_decide (e = "") = false -> (2 <? length (Split "/" e))%nat = false ->
  ((length (Split "/" e) =? 1)%nat && negb (isValidIP (default "" (head (Split "/" e))))) = false ->
  (forall r w evs,
     match r, form e with
     | inl _, Addresses => logged ifaces_answered evs = []
     | inl _, AddressAndName name => exists answer, logged ifaces_answered evs = [answer] /\ has_name name answer
     | inr _, NoMapping => (length (logged ifaces_answered evs) <= 2)%nat
     | inr _, AddressAndName name => exists answer, logged ifaces_answered evs = [answer] /\ ~ has_name name answer
     | _, _ => False
     end -> Q r (mkState (loc s) w (evs ++ calls s))) ->
  wp (validate_parts invalidInputType (Split "/" e)) Q s.
Proof.
  intros _ H2 H1 HQ. unfold form in HQ. destruct s as [l w cs].
  destruct (Split "/" e) as [|a [|b [|c parts]]] eqn:E; [by apply Split_nonempty in E | | |done]; cbn [validate_parts].
  - cbn in H1. rewrite isValidIP_is_ip in H1. apply negb_false_iff in H1. rewrite H1 in HQ. apply wp_bind, wp_wrap, validateElement_wp.
    rewrite H1. wps. by apply (HQ (inl tt) w []).
  - apply wp_bind, wp_wrap, validateElement_wp. destruct (is_ip a) eqn:Ea; cbn [wp_then].
    + apply wp_bind, wp_wrap, validateElement_wp. destruct (is_ip b); cbn [wp_then]; [wps; by apply (HQ (inl tt) w []) |].
      intros answer w' [t|err] Ha; cbn [wp_then loc calls].
      * destruct Ha as [-> Ha]. wps. apply (HQ (inl tt) w' [Event NetInterfaces answer]). by exists answer.
      * apply (HQ (inr _) w' [Event NetInterfaces answer]). by exists answer.
    + intros answer w' [t|err] Ha; cbn [wp_then loc calls].
      2: { apply (HQ (inr _) w' [Event NetInterfaces answer]). destruct (is_ip b); [by exists answer | cbn; lia]. }
      destruct Ha as [-> Ha]. apply wp_bind, wp_wrap, validateElement_wp. destruct (is_ip b) eqn:Eb; cbn [wp_then].
      * wps. apply (HQ (inl tt) w' [Event NetInterfaces answer]). by exists answer.
      * intros answer2 w2 [t|err] Hb; cbn [wp_then loc calls].
        -- destruct Hb as [-> _]. wps. apply (HQ (inr _) w2 [Event NetInterfaces answer2; Event NetInterfaces answer]). cbn. lia.
        -- apply (HQ (inr _) w2 [Event NetInterfaces answer2; Event NetInterfaces answer]). cbn. lia.
Qed.

Lemma form_nothing e :
  bool_decide (e = "") = true \/ (2 <? length (Split "/" e))%nat = true \/
  ((length (Split "/" e) =? 1)%nat && negb (isValidIP (default "" (head (Split "/" e))))) = true -> form e = NoMapping.
Proof.
  unfold form. intros [H|[H|H]].
  - apply bool_decide_eq_true_1 in H as ->. done.
  - by destruct (Split "/" e) as [|? [|? [|? ?]]].
  - destruct (Split "/" e) as [|a [|? ?]]; cbn in H; [done | | done].
    rewrite isValidIP_is_ip in H. apply negb_true_iff in H. by rewrite H.
Qed.

(** C36: whatever [net.Interfaces] answers each time it is asked, [validateNATExternalIPs]
    never panics and leaves the variables alone. It accepts a list when every element is an
    address, two addresses, or an address and a name in either order, and each of the names,
    asked about once and in order, is in the list of interfaces answered for it. It refuses a
    list at the first element that is none of these or whose name is not in the list
    answered, or cannot be looked up because [net.Interfaces] fails. (The message to the user
    speaks of an address followed by the name only.) *)
Theorem validateNATExternalIPs_spec l (s : St) :
  wp (validateNATExternalIPs l) (fun r s' =>
    loc s' = loc s /\ exists evs, calls s' = evs ++ calls s /\
    match r with
    | inl _ => accepted l (logged ifaces_answered evs)
    | inr _ => refused l (logged ifaces_answered evs)
    end) s.
Proof.
  unfold validateNATExternalIPs.
  apply (wp_for_each (fun rest s' => loc s' = loc s /\ exists seen evs, l = seen ++ rest /\ calls s' = evs ++ calls s /\
    accepted seen (logged ifaces_answered evs))).
  - split; [done |]. exists [], []. by repeat constructor.
  - intros e rest s' (L & seen & evs & -> & C & Hs).
    assert (Hbad : form e = NoMapping -> refused (seen ++ e :: rest) (logged ifaces_answered evs)).
    { intros H. exists seen, e, rest, (logged ifaces_answered evs), []. by rewrite app_nil_r, H; split_and!; [..| cbn; lia]. }
    case_match eqn:E0; [wps; split; [done |]; exists evs; split; [done |]; apply Hbad, form_nothing; auto |].
    case_match eqn:E2; [wps; split; [done |]; exists evs; split; [done |]; apply Hbad, form_nothing; auto |].
    case_match eqn:E1; [wps; split; [done |]; exists evs; split; [done |]; apply Hbad, form_nothing; auto |].
    apply element_wp; [done.. |]. intros [[]|err] w evs' H; cbn [loc calls]; (split; [done |]); rewrite C, (assoc_L (++)).
    + exists (seen ++ [e]), (evs' ++ evs). rewrite <- (assoc_L (++)), logged_app. split; [done |]. split; [done |].
      apply accepted_snoc; [done |]. by destruct (form e).
    + exists (evs' ++ evs). rewrite logged_app. split; [done |].
      exists seen, e, rest, (logged ifaces_answered evs), (logged ifaces_answered evs'). by destruct (form e).
  - intros s' (L & seen & evs & -> & C & Hs). split; [done |]. exists evs. by rewrite app_nil_r.
Qed.

End addresses.

(** ** The daemon's calls *)

Inductive rpc := RStatus | RDown | RSetConfig | RLogin | RSSO | RUp.

Definition rpc_of (ev : event cmdC) : option rpc :=
  match ev with
  | Event (DaemonStatus _ _) _ => Some RStatus
  | Event (DaemonDown _ _) _ => Some RDown
  | Event (DaemonSetConfig _ _ _) _ => Some RSetConfig
  | Event (DaemonLogin _ _ _) _ => Some RLogin
  | Event (HandleSSOLogin _ _) _ => Some RSSO
  | Event (DaemonUp _ _ _ _) _ => Some RUp
  | _ => None
  end.
Definition dialed (ev : event cmdC) : option ref :=
  match ev with
  | @Event _ R c a =>
      match c in cmdC R' return R' -> option ref with
      | DialDaemon _ _ => fun r => match r with inl conn => Some conn | inr _ => None end
      | _ => fun _ => None
      end a
  end.
Definition closed (ev : event cmdC) : option ref :=
  match ev with Event (Net (CloseConn conn)) _ => Some conn | _ => None end.

Section order.
Context {gl : GrpcLib} {bl : BackoffLib} {lib : CmdLib} (GOOS : string).
Context {W : Type} `{!Handler cmdC W}.

(** [m] calls the daemon as a word of [P] says, or fails within one. *)
Definition does {L A} (m : M cmdC L W A) (P : list rpc -> Prop) : Prop := forall s,
  wp m (fun r s' => exists evs, calls s' = evs ++ calls s /\ logged dialed evs = [] /\ logged closed evs = [] /\
    match r with inl _ => P (logged rpc_of evs) | inr _ => exists rest, P (logged rpc_of evs ++ rest) end) s.
Definition quiet : list rpc -> Prop := fun l => l = [].
Definition one (r : rpc) : list rpc -> Prop := fun l => l = [r].
Definition optional (r : rpc) : list rpc -> Prop := fun l => l = [] \/ l = [r].
Definition after (P Q : list rpc -> Prop) : list rpc -> Prop := fun l => exists a b, l = a ++ b /\ P a /\ Q b.

Lemma does_mono {L A} (m : M cmdC L W A) (P Q : list rpc -> Prop) : (forall l, P l -> Q l) -> does m P -> does m Q.
Proof.
  intros Hpq Hm s. eapply wp_mono; [apply Hm |]. intros [a|e] s' (evs & C & D & K & H); exists evs; (do 3 (split; [done |])); [auto |].
  destruct H as [rest H]. eauto.
Qed.
Lemma does_ret {L A} (a : A) : does (L := L) (ret a) quiet.
Proof. intros s. wps. by exists []. Qed.
Lemma does_fail {L A} e (P : list rpc -> Prop) w : P w -> does (L := L) (A := A) (fail e) P.
Proof. intros H s. wps. exists []. do 3 (split; [done |]). by exists w. Qed.
Lemma does_get {L} : does (L := L) get quiet.
Proof. intros s. wps. by exists []. Qed.
Lemma does_modify {L} (f : L -> L) : does (modify f) quiet.
Proof. intros s. wps. by exists []. Qed.
Lemma does_call {L} {R : Set} (c : cmdC R) (o : option rpc) :
  (forall a, rpc_of (Event c a) = o /\ dialed (Event c a) = None /\ closed (Event c a) = None) ->
  does (L := L) (call c) (fun l => l = option_list o).
Proof.
  intros Hc s. wps. destruct (Hc r) as (H1 & H2 & H3). exists [Event c r]. split; [done |].
  rewrite !logged_cons, H1, H2, H3. by destruct o.
Qed.
Lemma wp_and {L A} (m : M cmdC L W A) (Q1 Q2 : A + error -> state cmdC L W -> Prop) s :
  wp m Q1 s -> wp m Q2 s -> wp m (fun r s' => Q1 r s' /\ Q2 r s') s.
Proof. unfold wp. by destruct (m s) as [[]?]. Qed.
(** [V] holds of what [m] returns. *)
Lemma does_bind_value {L A B} (V : A -> Prop) (m : M cmdC L W A) (k : A -> M cmdC L W B) (P Q : list rpc -> Prop) :
  (forall s, wp m (fun r _ => match r with inl a => V a | inr _ => True end) s) ->
  does m P -> (forall a, V a -> does (k a) Q) -> (exists w, Q w) -> does (bind m k) (after P Q).
Proof.
  intros Hv Hm Hk [w Hw] s. apply wp_bind. eapply wp_mono; [apply wp_and; [apply Hv | apply Hm] |]. cbn beta.
  intros [a|e] s1 (Ha & e1 & C1 & D1 & K1 & H1); cbn [wp_then].
  - eapply wp_mono; [by apply Hk |]. cbn beta. intros r s2 (e2 & C2 & D2 & K2 & H2). exists (e2 ++ e1).
    rewrite C2, C1, (assoc_L (++)), !logged_app, D1, D2, K1, K2. do 3 (split; [done |]).
    destruct r; [by do 2 eexists |]. destruct H2 as [rest H2]. exists rest, (logged rpc_of e1), (logged rpc_of e2 ++ rest).
    by rewrite (assoc_L (++)).
  - exists e1. do 3 (split; [done |]). destruct H1 as [rest H1]. exists (rest ++ w), (logged rpc_of e1 ++ rest), w.
    by rewrite (assoc_L (++)).
Qed.
Lemma does_bind {L A B} (m : M cmdC L W A) (k : A -> M cmdC L W B) (P Q : list rpc -> Prop) :
  does m P -> (forall a, does (k a) Q) -> (exists w, Q w) -> does (bind m k) (after P Q).
Proof.
  intros Hm Hk Hw. apply (does_bind_value (fun _ => True)); [|done | auto | done].
  intros s. eapply wp_mono; [apply Hm |]. by intros [] ? _.
Qed.
(** A step that calls nothing of the daemon. *)
Lemma does_then {L A B} (m : M cmdC L W A) (k : A -> M cmdC L W B) (Q : list rpc -> Prop) :
  does m quiet -> (forall a, does (k a) Q) -> (exists w, Q w) -> does (bind m k) Q.
Proof.
  intros Hm Hk Hw. eapply does_mono; [|by apply (does_bind m k quiet Q)]. by intros l (a & b & -> & -> & H).
Qed.
Lemma does_wrap {L A} f (m : M cmdC L W A) P : does m P -> does (wrap f m) P.
Proof. intros Hm s. apply wp_wrap. eapply wp_mono; [apply Hm |]. intros [a|e] s' H; exact H. Qed.
Lemma does_check {L} (m : M cmdC L W (option error)) P : does m P -> does (check m) P.
Proof.
  intros Hm s. apply wp_check. eapply wp_mono; [apply Hm |]. intros [[e|]|e] s' (evs & H & D & K & HP); exists evs; do 3 (split; [done |]); try done.
  exists []. by rewrite app_nil_r.
Qed.
Lemma does_check_val {L A} (m : M cmdC L W (A + error)) P : does m P -> does (check_val m) P.
Proof.
  intros Hm s. apply wp_check_val. eapply wp_mono; [apply Hm |]. intros [[a|e]|e] s' (evs & H & D & K & HP); exists evs; do 3 (split; [done |]); try done.
  exists []. by rewrite app_nil_r.
Qed.
Lemma does_when {L} b (m : M cmdC L W unit) r : does m (one r) -> does (when b m) (optional r).
Proof.
  intros Hm. destruct b; cbn; [apply (does_mono _ (one r)); [by right | done] | apply (does_mono _ quiet); [by left | apply does_ret]].
Qed.

Definition some (r : rpc) : list rpc -> Prop := fun l => exists n, l = replicate (S n) r.

Lemma does_Retry {L} (op : M cmdC L W unit) r : does op (one r) -> does (Retry op) (some r).
Proof.
  intros Hop s0.
  set (I (s : state cmdC L W) := exists evs n, calls s = evs ++ calls s0 /\ logged dialed evs = [] /\ logged closed evs = [] /\
    logged rpc_of evs = replicate n r).
  apply (Retry_wp I); [|by exists [], 0%nat].
  intros s (evs & n & C & D & K & H). eapply wp_mono; [apply Hop |]. cbn beta.
  intros [[]|e] s' (e' & C' & D' & K' & H').
  - exists (e' ++ evs). rewrite C', C, (assoc_L (++)), !logged_app, D, D', K, K', H, H'. do 3 (split; [done |]).
    exists n. by rewrite <- replicate_cons_app.
  - assert (Hn : exists n', logged rpc_of (e' ++ evs) = replicate n' r).
    { rewrite logged_app, H. destruct H' as [rest H']. destruct (logged rpc_of e') as [|x l]; [exists n; by rewrite app_nil_r |].
      injection H' as -> H'. apply app_eq_nil in H' as [-> _]. exists (S n). by rewrite <- replicate_cons_app. }
    assert (Hc : calls s' = (e' ++ evs) ++ calls s0) by by rewrite C', C, (assoc_L (++)).
    assert (Hd : logged dialed (e' ++ evs) = [] /\ logged closed (e' ++ evs) = []) by by rewrite !logged_app, D, D', K, K'.
    destruct Hn as [n' Hn], Hd as [Hd Hk].
    assert (Hend : exists evs, calls s' = evs ++ calls s0 /\ logged dialed evs = [] /\ logged closed evs = [] /\
      exists rest, some r (logged rpc_of evs ++ rest)).
    { exists (e' ++ evs). do 3 (split; [done |]). exists [r], n'. by rewrite Hn, <- replicate_cons_app. }
    destruct (as_permanent e); [exact Hend |]. intros w. split; [|intros _ _; exact Hend].
    by exists (e' ++ evs), n'.
Qed.

Lemma does_local_var {L V A} (v : V) (m : M cmdC (L * V) W A) P : does m P -> does (local_var v m) P.
Proof.
  intros Hm s. apply wp_local_var. eapply wp_mono; [apply Hm |]. cbn beta. intros [a|e] s' H; exact H.
Qed.

Lemma does_daemon_login conn ctx req : does (daemon_login conn ctx req) (one RLogin).
Proof.
  eapply does_mono; [|apply (does_bind _ _ (one RLogin) quiet); [by apply (does_call _ (Some RLogin)) | |by exists []]].
  { intros l (a & b & -> & -> & ->). done. }
  intros r. apply does_then; [apply does_modify | intros _ | by exists []].
  destruct r; [apply does_ret |]. destruct (is_final e); [apply does_modify | by apply (does_fail _ _ [])].
Qed.

(** The words of a run of up over the daemon, once it has a status. *)
Definition login_up : list rpc -> Prop := after (some RLogin) (after (optional RSSO) (one RUp)).
Definition set_up : list rpc -> Prop := after (optional RDown) (after (one RSetConfig) login_up).

Lemma login_up_word : exists w, login_up w.
Proof. exists [RLogin; RUp], [RLogin], [RUp]. split; [done |]. split; [by exists 0%nat |]. exists [], [RUp]. split; [done |]. by split; [left |]. Qed.
Lemma set_login_word : exists w, after (one RSetConfig) login_up w.
Proof. destruct login_up_word as [w Hl]. exists (RSetConfig :: w). by exists [RSetConfig], w. Qed.
Lemma set_up_word : exists w, set_up w.
Proof. destruct set_login_word as [w Hw]. exists w, [], w. split; [done |]. by split; [left |]. Qed.

(** Calls that are none of the daemon's. *)
Lemma does_other {L} {R : Set} (c : cmdC R) :
  (forall a, rpc_of (Event c a) = None /\ dialed (Event c a) = None /\ closed (Event c a) = None) -> does (L := L) (call c) quiet.
Proof. exact (does_call c None). Qed.

#[local] Hint Extern 1 (does (call _) quiet) => apply does_other; by intros : go_inv.
#[local] Hint Resolve does_ret does_get does_modify : go_inv.
Ltac quietly_then := apply does_then; [solve [repeat first [apply does_wrap | apply does_check | apply does_check_val]; eauto with go_inv] | intros ? |].

Lemma does_setupLoginRequest v key dns : does (setupLoginRequest GOOS v key dns) quiet.
Proof.
  unfold setupLoginRequest. quietly_then; [|by exists []]. destruct (check_name_mtu GOOS v); [by apply (does_fail _ _ []) | apply does_ret].
Qed.
Lemma does_parseCustomDNSAddress b : does (parseCustomDNSAddress b) quiet.
Proof.
  unfold parseCustomDNSAddress. destruct b; cbn; [|apply does_ret]. quietly_then; [|by exists []].
  destruct (negb _); [by apply (does_fail _ _ []) |]. destruct (bool_decide _); [|apply does_ret].
  quietly_then; [apply does_ret | by exists []].
Qed.
#[local] Hint Resolve does_setupLoginRequest : go_inv.

(** When the retries end well, there is an answer or an error that is final. *)
Lemma login_answers conn ctx req (s : state cmdC Vars W) :
  wp (local_var (None, None) (Retry (daemon_login conn ctx req))) (fun r _ =>
    match r with inl (_, (resp, loginErr)) => loginErr = None -> is_Some resp | inr _ => True end) s.
Proof.
  apply wp_local_var, (Retry_wp (fun _ => True)); [|done]. intros [[v [o e]] w cs] _. unfold daemon_login. wps. cbn [loc].
  destruct r as [resp|err]; wps; [by intros _ |]. destruct (is_final err); wps; [done |].
  by destruct (as_permanent err).
Qed.

Lemma does_doDaemonUp ctx conn prof dns user : does (doDaemonUp GOOS ctx conn prof dns user) login_up.
Proof.
  pose proof login_up_word as Hw. unfold doDaemonUp, say. do 4 (quietly_then; [|done]).
  assert (Hw2 : after (optional RSSO) (one RUp) [RUp]) by (exists [], [RUp]; split; [done |]; by split; [left |]).
  apply (does_bind_value (fun r => r.2.2 = None -> is_Some r.2.1)); [|apply does_wrap, does_local_var, does_Retry, does_daemon_login | |by eexists].
  { intros s. apply wp_wrap. eapply wp_mono; [apply login_answers |]. by intros [[[] [? ?]]|?]. }
  intros [[] [resp loginErr]] Hr. cbn [fst snd] in Hr. destruct loginErr as [e|]; [by apply (does_fail _ _ [RUp]) |].
  destruct (Hr eq_refl) as [x ->]. cbn [deref].
  apply does_bind; [apply does_when, does_wrap, does_check; by apply (does_call _ (Some RSSO)) | intros _ | by exists [RUp]].
  apply does_wrap, does_check. by apply (does_call _ (Some RUp)).
Qed.

Lemma does_set_and_up ctx conn prof v dns user : does (set_and_up GOOS ctx conn prof v dns user) (after (one RSetConfig) login_up).
Proof.
  apply does_bind; [by apply (does_call _ (Some RSetConfig)) | intros r | apply login_up_word].
  apply does_then; [|intros _ | apply login_up_word].
  { destruct r as [err|]; [destruct (is_status _ _); [|by apply (does_fail _ _ [])] |]; apply does_ret. }
  eapply does_mono; [|apply (does_bind _ _ login_up quiet); [apply does_wrap, does_doDaemonUp | intros _; by apply does_other | by exists []]].
  by intros l (x & y & -> & Hx & ->); rewrite app_nil_r.
Qed.

(** The same for what opens connections to the daemon and closes them all. *)
Definition closes {A} (m : CM (W := W) A) (P : list rpc -> Prop) : Prop := forall s,
  wp m (fun r s' => exists evs, calls s' = evs ++ calls s /\ logged closed evs = logged dialed evs /\
    match r with inl _ => P (logged rpc_of evs) | inr _ => exists rest, P (logged rpc_of evs ++ rest) end) s.

Lemma closes_then {A B} (m : CM (W := W) A) (k : A -> CM B) (P : list rpc -> Prop) :
  does m quiet -> (forall a, closes (k a) P) -> (exists w, P w) -> closes (bind m k) P.
Proof.
  intros Hm Hk [w Hw] s. apply wp_bind. eapply wp_mono; [apply Hm |]. cbn beta.
  intros [a|e] s1 (e1 & C1 & D1 & K1 & H1); cbn [wp_then].
  - eapply wp_mono; [apply Hk |]. cbn beta. intros r s2 (e2 & C2 & D2 & H2). exists (e2 ++ e1).
    by rewrite C2, C1, (assoc_L (++)), !logged_app, D1, D2, K1, H1.
  - exists e1. rewrite D1, K1. split; [done |]. split; [done |]. destruct H1 as [rest H1].
    apply app_eq_nil in H1 as [-> _]. by exists w.
Qed.

Definition with_daemon {A} (ctx : ref) (addr : string) (f : error -> error) (body : ref -> CM (W := W) A) : CM A :=
  let* conn := wrap f (check_val (call (DialDaemon ctx addr))) in
  with_defer (body conn) (ignore (check (call (Net (CloseConn conn))))).

Lemma closes_with_daemon {A} ctx addr f (body : ref -> CM (W := W) A) (P : list rpc -> Prop) :
  (forall conn, does (body conn) P) -> (exists w, P w) -> closes (with_daemon ctx addr f body) P.
Proof.
  intros Hb [w Hw] s. unfold with_daemon. wps.
  destruct r as [conn|e]; cbn [wp_then]; [|by exists [Event (DialDaemon ctx addr) (inr e)]; split; [done |]; split; [done |]; exists w].
  apply wp_with_defer. eapply wp_mono; [apply Hb |]. cbn beta. intros r s' (evs & C & D & K & HP). cbn [calls] in C. wps.
  assert (Hend : forall o, logged closed (Event (Net (CloseConn conn)) o :: evs ++ [Event (DialDaemon ctx addr) (inl conn)])
    = logged dialed (Event (Net (CloseConn conn)) o :: evs ++ [Event (DialDaemon ctx addr) (inl conn)]) /\
    logged rpc_of (Event (Net (CloseConn conn)) o :: evs ++ [Event (DialDaemon ctx addr) (inl conn)]) = logged rpc_of evs).
  { intros o. rewrite !logged_cons, !logged_app, D, K. cbn. by rewrite app_nil_r. }
  assert (Hc : forall o, Event (Net (CloseConn conn)) o :: calls s' =
    (Event (Net (CloseConn conn)) o :: evs ++ [Event (DialDaemon ctx addr) (inl conn)]) ++ calls s).
  { intros o. rewrite C. cbn. by rewrite <- (assoc_L (++)). }
  destruct r0 as [e|]; (eexists; split; [apply Hc |]; destruct (Hend (Some e)) as [H1 H2] || destruct (Hend None) as [H1 H2];
    split; [exact H1 |]; cbn [app]; rewrite H2; exact HP).
Qed.

(** C10: a run of up over the daemon calls it in a fixed order: the status; then, unless it
    is connected and no profile was switched (the run ends there), at most one Down, the
    configuration, one or more logins, at most one interactive login, and Up; a run that
    fails stops within that order. It never panics, and every connection to the daemon
    that it opened it has closed. *)
Theorem runInDaemonMode_order ctx prof switched (s : state cmdC Vars W) :
  wp (runInDaemonMode GOOS ctx prof switched) (fun r s' => exists evs,
    calls s' = evs ++ calls s /\
    logged closed evs = logged dialed evs /\
    match r with
    | inl _ => (logged rpc_of evs = [RStatus] /\ switched = false) \/ after (one RStatus) set_up (logged rpc_of evs)
    | inr _ => exists rest, after (one RStatus) set_up (logged rpc_of evs ++ rest)
    end) s.
Proof.
  set (P := fun l => (l = [RStatus] /\ switched = false) \/ after (one RStatus) set_up l).
  cut (closes (runInDaemonMode GOOS ctx prof switched) P); [intros H; eapply wp_mono; [apply H |] |].
  { intros [[]|e] s' (evs & C & D & HP); exists evs; (split; [done |]; split; [done |]); [exact HP |].
    destruct HP as [rest [[E _]|HP]]; [|by exists rest]. destruct set_up_word as [w Hw]. exists (rest ++ w).
    rewrite (assoc_L (++)), E. by exists [RStatus], w. }
  pose proof set_up_word as Hw.
  assert (HP : exists w, P w) by (destruct Hw as [w Hw]; exists (RStatus :: w); right; by exists [RStatus], w).
  unfold runInDaemonMode. apply closes_then; [apply does_get | intros v | done].
  apply closes_then; [destruct (changed v configFlag && _); cbn; eauto with go_inv | intros _ | done].
  apply closes_then; [apply does_wrap, does_parseCustomDNSAddress | intros dns | done].
  apply (closes_with_daemon ctx (daemonAddr v) (Opaque _)); [|done]. intros conn.
  apply (does_mono _ (after (one RStatus) (fun l => (l = [] /\ switched = false) \/ set_up l))).
  { intros l (x & y & -> & -> & [[-> Hs]|Hy]); [by left | right]. by exists [RStatus], y. }
  apply does_bind; [apply does_wrap, does_check_val; by apply (does_call _ (Some RStatus)) | intros status |].
  2:{ destruct Hw as [w Hw]. exists w. by right. }
  assert (Hrest : forall b, does (when b (check (call (DaemonDown conn ctx))) ;;;
      let* username := say "get current user" (check_val (call CurrentUser)) in
      set_and_up GOOS ctx conn prof v dns username) set_up).
  { intros b. apply does_bind; [apply does_when, does_check; by apply (does_call _ (Some RDown)) | intros _ | exact set_login_word].
    quietly_then; [apply does_set_and_up | exact set_login_word]. }
  destruct (bool_decide _), switched; cbn [andb negb];
    first [apply (does_mono _ set_up); [by right | by apply Hrest]
          | apply (does_mono _ quiet); [by left | by apply does_other]].
Qed.

End order.

(** ** A daemon *)

Module SampleCommand.

#[export] Instance cmdlib : CmdLib.
Proof.
  refine {| StatusConnected := "Connected"; StatusNeedsLogin := "NeedsLogin"; StatusLoginFailed := "LoginFailed";
            StatusSessionExpired := "SessionExpired"; ValidateDomains l := inl l; ToPunycodeList l := l |}.
Defined.

(** The world is the daemon's status. *)
#[export] Instance handler : Handler cmdC string := fun R c w =>
  match c in cmdC R return R * string with
  | Net n =>
      match n in netC R return R * string with
      | CreateConnection _ _ _ _ => (inl 1, w)
      | GetState _ => (Ready, w)
      | WaitForStateChange _ _ _ => (true, w)
      | CloseConn _ => (None, w)
      | CtxWithCancel _ | CtxWithTimeout _ _ | CtxBackground => (1, w)
      | CtxCancel _ | MarkDisconnected _ _ | MarkConnected _ => (tt, w)
      end
  | InitLog _ => (None, w)
  | CtxInitState _ => (1, w)
  | CurrentUser => (inl "user", w)
  | DaemonSwitchProfile _ _ | PmSwitchProfile _ => (None, w)
  | PmGetActiveProfile => (inl "default", w)
  | PmProfileState _ => (inl "a@b", w)
  | ProfileFilePath _ => (inl "/p", w)
  | NewServiceManager _ => (tt, w)
  | HandleRebrand => (None, w)
  | GetSetupKey => (inl "key", w)
  | IsUnixRunningDesktop => (false, w)
  | UpdateOrCreateConfig _ => (inl 3, w)
  | UpdateOldManagementURL _ _ _ => (tt, w)
  | ForegroundLogin _ _ _ _ => (None, w)
  | SetupHandlers _ _ => (tt, w)
  | RunClient _ _ => (None, w)
  | DialDaemon _ _ => (inl 5, w)
  | DaemonStatus _ _ => (inl (mkStatusResponse w "100.64.0.2/16"), w)
  | DaemonDown _ _ => (None, "Idle")
  | DaemonSetConfig _ _ _ => (None, w)
  | DaemonLogin _ _ _ => (inl (mkLoginResponse false), w)
  | HandleSSOLogin _ _ => (None, w)
  | DaemonUp _ _ _ _ => (None, "Connected")
  | NetInterfaces => (inl ["lo"; "eth0"], w)
  | FindFirstLogPath _ => ("", w)
  | FormatStatus _ _ _ _ => (inl "status", w)
  | Print _ => (tt, w)
  end.

Definition sample_vars (mtu : Z) : Vars :=
  mkVars (fun f => match f with mtuFlag => true | _ => false end)
    (mkSwitches false false false false false false false false false false false false false false false false false)
    "wt0" 51820 mtu 0 60 "https://m" "" "" "" "unix:///d" "info" [] (Some ["192.0.2.1/eth0"]) None "" false "" "" None None
    false false false false false [] [] "" "" [] [].
Definition command (mtu : Z) (daemon : string) : state cmdC Vars string := mkState (sample_vars mtu) daemon [].

Definition sent_mtu (ev : event cmdC) : option (option Z) :=
  match ev with Event (DaemonSetConfig _ _ (Some q)) _ => Some (s_Mtu (sc_Settings q)) | _ => None end.

End SampleCommand.

Import SampleGrpc SampleCommand.

Example up_connects :
  let '(r, s) := upFunc "linux" (command 1280 "Idle") in
  r = Ok tt /\ world s = "Connected" /\ logged rpc_of (calls s) = [RStatus; RSetConfig; RLogin; RUp].
Proof. by vm_compute. Qed.

(** An MTU that up refuses has been stored by the daemon before. *)
Example invalid_mtu_reaches_daemon :
  let '(r, s) := upFunc "linux" (command 100 "Idle") in
  (exists e, r = Err e) /\ logged rpc_of (calls s) = [RStatus; RSetConfig] /\ logged sent_mtu (calls s) = [Some 100].
Proof. vm_compute. split; [by eexists | done]. Qed.

Example mappings :
  map form ["192.0.2.1"; "192.0.2.1/192.0.2.2"; "192.0.2.1/eth0"; "eth0/192.0.2.1"; "eth0/lo"; "eth0"; "a/b/c"; ""] =
  [Addresses; Addresses; AddressAndName "eth0"; AddressAndName "eth0"; NoMapping; NoMapping; NoMapping; NoMapping].
Proof. by vm_compute. Qed.
Example accepted_mapping :
  let '(r, s) := validateNATExternalIPs ["192.0.2.1/192.0.2.2"; "eth0/192.0.2.1"] (command 1280 "Idle") in
  r = Ok tt /\ logged ifaces_answered (calls s) = [inl ["lo"; "eth0"]].
Proof. by vm_compute. Qed.
Example refused_mapping :
  let '(r, s) := validateNATExternalIPs ["192.0.2.1/wt0"] (command 1280 "Idle") in
  (exists e, r = Err e) /\ logged ifaces_answered (calls s) = [inl ["lo"; "eth0"]].
Proof. vm_compute. split; [by eexists | done]. Qed.
