(* ===== verification/Rest.v ===== *)
(** * The REST client: [go/management/client/rest]

    A client makes HTTP requests through an [HttpClient], which is another package's
    or the repository's own [impersonatedHttpClient]. The latter is a shared object:
    the state holds its account, and a client refers to it. Every method of the API
    follows one of three patterns, [fetch], [send] and [perform]; the methods are
    grouped in a module per resource. The API's types are generated: a method works
    for every type with a JSON encoding. *)

From Stdlib Require Import ZArith Lia Ascii.
From stdpp Require Import base tactics list strings gmap fin_maps.
From S2P Require Import Prelude GoStrings.

(** ** Requests and responses *)

(** A [url.URL]: its query, a [url.Values], and the rest. *)
Record URL := mkURL { u_rest : string; u_query : gmap string (list string) }.

(** [Values.Add] and [Values.Set]. *)
Definition values_Add (k v : string) (q : gmap string (list string)) : gmap string (list string) :=
  <[k := default [] (q !! k) ++ [v]]> q.
Definition values_Set (k v : string) (q : gmap string (list string)) : gmap string (list string) := <[k := [v]]> q.

(** [url.Parse] of a text, and of the text of a URL, which is that URL unless it fails. *)
Class UrlLib := {
  url_Parse : string -> URL + error;
  url_reparse : URL -> URL + error;
  url_reparse_same : forall u v, url_reparse u = inl v -> v = u
}.

Record Request := mkRequest {
  rq_method : string; rq_url : URL; rq_headers : list (string * string); rq_body : option string
}.
Record Response := mkResponse { rs_StatusCode : Z; rs_Body : option ref }.

(** The JSON encoding of a request's type, and the reading of a response's. *)
Class Encode (A : Type) := json_Marshal : A -> string + error.
Class Decode (A : Type) := json_Unmarshal : string -> A + error.

(** [util.ErrorResponse], as far as it is read. *)
Record ErrorResponse := mkErrorResponse { er_Message : string }.

Inductive restC : Set -> Type :=
  | HttpDo (client ctx : ref) (req : Request) : restC (Response + error)
  | ReadAll (body : ref) : restC (string + error)
  | CloseBody (body : ref) : restC (option error).

(** ** Clients *)

(** An HTTP client of another package, or an object [impersonatedHttpClient]. *)
Inductive HttpClient := External (client : ref) | Impersonated (cell : ref).

Record impersonatedHttpClient := mkImpersonated { im_baseClient : ref; im_account : string }.

Notation Cells := (gmap ref impersonatedHttpClient).

Record Client := mkClient { managementURL : string; authHeader : string; httpClient : HttpClient }.

(** [http.DefaultClient]. *)
Definition DefaultClient : ref := 0.

(** *** options.go *)

Definition option_ := Client -> Client.
Definition WithHttpClient (client : HttpClient) : option_ := fun c => mkClient (managementURL c) (authHeader c) client.
Definition WithAuthHeader (value : string) : option_ := fun c => mkClient (managementURL c) value (httpClient c).
Definition WithBearerToken (token : string) : option_ := WithAuthHeader ("Bearer " +:+ token).
Definition WithPAT (token : string) : option_ := WithAuthHeader ("Token " +:+ token).
Definition WithManagementURL (url : string) : option_ := fun c => mkClient url (authHeader c) (httpClient c).

(** *** client.go *)

Definition NewWithOptions (opts : list option_) : Client :=
  foldl (fun c o => o c) (mkClient "" "" (External DefaultClient)) opts.
Definition New_Client (managementURL token : string) : Client := NewWithOptions [WithManagementURL managementURL; WithPAT token].
Definition NewWithBearerToken (managementURL token : string) : Client :=
  NewWithOptions [WithManagementURL managementURL; WithBearerToken token].

Section client.
Context {ul : UrlLib} {de : Decode ErrorResponse}.
Context {W : Type} `{!Handler restC W}.

Definition RM := M restC Cells W.

Definition rest_try {A} (r : A + error) : RM A := match r with inl a => ret a | inr err => fail err end.

(** *** impersonation.go *)

(** A client that impersonates is changed; for another one an object is made. *)
Definition newImpersonatedHttpClient (c : Client) (account : string) : RM HttpClient :=
  let* cells := get in
  match httpClient c with
  | Impersonated cell =>
      deref "hc" (cells !! cell) (fun hc =>
        modify (insert cell (mkImpersonated (im_baseClient hc) account)) ;;;
        ret (Impersonated cell))
  | External base =>
      let cell := fresh (dom cells) in
      modify (insert cell (mkImpersonated base account)) ;;;
      ret (Impersonated cell)
  end.

Definition Impersonate (c : Client) (account : string) : RM Client :=
  let* h := newImpersonatedHttpClient c account in
  ret (NewWithOptions [WithManagementURL (managementURL c); WithAuthHeader (authHeader c); WithHttpClient h]).

(** [Do] of the object sets the account and hands the request on. *)
Definition impersonated_Do (hc : impersonatedHttpClient) (ctx : ref) (req : Request) : RM Response :=
  let* parsedURL := rest_try (url_reparse (rq_url req)) in
  let url := mkURL (u_rest parsedURL) (values_Set "account" (im_account hc) (u_query parsedURL)) in
  check_val (call (HttpDo (im_baseClient hc) ctx (mkRequest (rq_method req) url (rq_headers req) (rq_body req)))).

Definition Do (h : HttpClient) (ctx : ref) (req : Request) : RM Response :=
  match h with
  | External client => check_val (call (HttpDo client ctx req))
  | Impersonated cell => let* cells := get in deref "httpClient" (cells !! cell) (fun hc => impersonated_Do hc ctx req)
  end.

(** *** Requests *)

(** An error of the decoder says the status code. *)
Definition parseResponse {T} `{!Decode T} (resp : Response) : RM T :=
  match rs_Body resp with
  | None => fail (New ("Body missing, HTTP Error code " +:+ itoa (rs_StatusCode resp)))
  | Some body =>
      let* bs := check_val (call (ReadAll body)) in
      wrap (Wrap ("Error code " +:+ itoa (rs_StatusCode resp) +:+ ", error unmarshalling body")) (rest_try (json_Unmarshal bs))
  end.

Definition headers (c : Client) (body : option string) : list (string * string) :=
  [("Authorization", authHeader c); ("Accept", "application/json")]
  ++ match body with Some _ => [("Content-Type", "application/json")] | None => [] end.

(** [query] is a map of strings; nil is the empty one. *)
Definition NewRequest (c : Client) (ctx : ref) (method path : string) (body : option string) (query : gmap string string) : RM Response :=
  let* url := rest_try (url_Parse (managementURL c +:+ path)) in
  let url := mkURL (u_rest url) (map_fold values_Add (u_query url) query) in
  let* resp := Do (httpClient c) ctx (mkRequest method url (headers c body) body) in
  if 299 <? rs_StatusCode resp then
    let* parsedErr := parseResponse (T := ErrorResponse) resp in
    fail (New (er_Message parsedErr))
  else ret resp.

(** [if resp.Body != nil { defer resp.Body.Close() }]. *)
Definition with_body {A} (resp : Response) (m : RM A) : RM A :=
  match rs_Body resp with
  | Some body => with_defer m (ignore (check (call (CloseBody body))))
  | None => m
  end.

(** The three patterns: read a value, send a value and read the answer, only perform. *)
Definition fetch {T} `{!Decode T} (c : Client) (ctx : ref) (path : string) (query : gmap string string) : RM T :=
  let* resp := NewRequest c ctx "GET" path None query in
  with_body resp (parseResponse resp).
Definition send {R T} `{!Encode R, !Decode T} (c : Client) (ctx : ref) (method path : string) (request : R) : RM T :=
  let* requestBytes := rest_try (json_Marshal request) in
  let* resp := NewRequest c ctx method path (Some requestBytes) ∅ in
  with_body resp (parseResponse resp).
Definition perform (c : Client) (ctx : ref) (method path : string) : RM unit :=
  let* resp := NewRequest c ctx method path None ∅ in
  with_body resp (ret tt).

End client.

(** ** The methods of the API

    A module has the methods of one resource, for a client and a context; those of a
    network's resources and routers are for a network too. *)

Module Accounts.
Section api.
Context {ul : UrlLib} {de : Decode ErrorResponse} {W : Type} `{!Handler restC W} (c : Client) (ctx : ref).
Definition List {T} `{!Decode (list T)} : RM (W := W) (list T) := fetch c ctx "/api/accounts" ∅.
Definition Update {R T} `{!Encode R, !Decode T} (accountID : string) (request : R) : RM (W := W) T := send c ctx "PUT" ("/api/accounts/" +:+ accountID) request.
Definition Delete (accountID : string) : RM (W := W) unit := perform c ctx "DELETE" ("/api/accounts/" +:+ accountID).
End api.
End Accounts.

Module Users.
Section api.
Context {ul : UrlLib} {de : Decode ErrorResponse} {W : Type} `{!Handler restC W} (c : Client) (ctx : ref).
Definition List {T} `{!Decode (list T)} : RM (W := W) (list T) := fetch c ctx "/api/users" ∅.
Definition Create {R T} `{!Encode R, !Decode T} (request : R) : RM (W := W) T := send c ctx "POST" "/api/users" request.
Definition Update {R T} `{!Encode R, !Decode T} (userID : string) (request : R) : RM (W := W) T := send c ctx "PUT" ("/api/users/" +:+ userID) request.
Definition Delete (userID : string) : RM (W := W) unit := perform c ctx "DELETE" ("/api/users/" +:+ userID).
Definition ResendInvitation (userID : string) : RM (W := W) unit := perform c ctx "POST" ("/api/users/" +:+ userID +:+ "/invite").
Definition Current {T} `{!Decode T} : RM (W := W) T := fetch c ctx "/api/users/current" ∅.
End api.
End Users.

Module Tokens.
Section api.
Context {ul : UrlLib} {de : Decode ErrorResponse} {W : Type} `{!Handler restC W} (c : Client) (ctx : ref).
Definition List {T} `{!Decode (list T)} (userID : string) : RM (W := W) (list T) := fetch c ctx ("/api/users/" +:+ userID +:+ "/tokens") ∅.
Definition Get {T} `{!Decode T} (userID tokenID : string) : RM (W := W) T := fetch c ctx ("/api/users/" +:+ userID +:+ "/tokens/" +:+ tokenID) ∅.
Definition Create {R T} `{!Encode R, !Decode T} (userID : string) (request : R) : RM (W := W) T := send c ctx "POST" ("/api/users/" +:+ userID +:+ "/tokens") request.
Definition Delete (userID tokenID : string) : RM (W := W) unit := perform c ctx "DELETE" ("/api/users/" +:+ userID +:+ "/tokens/" +:+ tokenID).
End api.
End Tokens.

(** The options of [Peers.List]. *)
Definition PeerNameFilter (name : string) : string * string := ("name", name).
Definition PeerIPFilter (ip : string) : string * string := ("ip", ip).

Module Peers.
Section api.
Context {ul : UrlLib} {de : Decode ErrorResponse} {W : Type} `{!Handler restC W} (c : Client) (ctx : ref).
Definition List {T} `{!Decode (list T)} (opts : list (string * string)) : RM (W := W) (list T) :=
  fetch c ctx "/api/peers" (foldl (fun q o => <[o.1 := o.2]> q) ∅ opts).
Definition Get {T} `{!Decode T} (peerID : string) : RM (W := W) T := fetch c ctx ("/api/peers/" +:+ peerID) ∅.
Definition Update {R T} `{!Encode R, !Decode T} (peerID : string) (request : R) : RM (W := W) T := send c ctx "PUT" ("/api/peers/" +:+ peerID) request.
Definition Delete (peerID : string) : RM (W := W) unit := perform c ctx "DELETE" ("/api/peers/" +:+ peerID).
Definition ListAccessiblePeers {T} `{!Decode (list T)} (peerID : string) : RM (W := W) (list T) := fetch c ctx ("/api/peers/" +:+ peerID +:+ "/accessible-peers") ∅.
End api.
End Peers.

Module SetupKeys.
Section api.
Context {ul : UrlLib} {de : Decode ErrorResponse} {W : Type} `{!Handler restC W} (c : Client) (ctx : ref).
Definition List {T} `{!Decode (list T)} : RM (W := W) (list T) := fetch c ctx "/api/setup-keys" ∅.
Definition Get {T} `{!Decode T} (setupKeyID : string) : RM (W := W) T := fetch c ctx ("/api/setup-keys/" +:+ setupKeyID) ∅.
Definition Create {R T} `{!Encode R, !Decode T} (request : R) : RM (W := W) T := send c ctx "POST" "/api/setup-keys" request.
Definition Update {R T} `{!Encode R, !Decode T} (setupKeyID : string) (request : R) : RM (W := W) T := send c ctx "PUT" ("/api/setup-keys/" +:+ setupKeyID) request.
Definition Delete (setupKeyID : string) : RM (W := W) unit := perform c ctx "DELETE" ("/api/setup-keys/" +:+ setupKeyID).
End api.
End SetupKeys.

Module Groups.
Section api.
Context {ul : UrlLib} {de : Decode ErrorResponse} {W : Type} `{!Handler restC W} (c : Client) (ctx : ref).
Definition List {T} `{!Decode (list T)} : RM (W := W) (list T) := fetch c ctx "/api/groups" ∅.
Definition Get {T} `{!Decode T} (groupID : string) : RM (W := W) T := fetch c ctx ("/api/groups/" +:+ groupID) ∅.
Definition Create {R T} `{!Encode R, !Decode T} (request : R) : RM (W := W) T := send c ctx "POST" "/api/groups" request.
Definition Update {R T} `{!Encode R, !Decode T} (groupID : string) (request : R) : RM (W := W) T := send c ctx "PUT" ("/api/groups/" +:+ groupID) request.
Definition Delete (groupID : string) : RM (W := W) unit := perform c ctx "DELETE" ("/api/groups/" +:+ groupID).
End api.
End Groups.

Module Policies.
Section api.
Context {ul : UrlLib} {de : Decode ErrorResponse} {W : Type} `{!Handler restC W} (c : Client) (ctx : ref).
Definition List {T} `{!Decode (list T)} : RM (W := W) (list T) := fetch c ctx "/api/policies" ∅.
Definition Get {T} `{!Decode T} (policyID : string) : RM (W := W) T := fetch c ctx ("/api/policies/" +:+ policyID) ∅.
Definition Create {R T} `{!Encode R, !Decode T} (request : R) : RM (W := W) T := send c ctx "POST" "/api/policies" request.
Definition Update {R T} `{!Encode R, !Decode T} (policyID : string) (request : R) : RM (W := W) T := send c ctx "PUT" ("/api/policies/" +:+ policyID) request.
Definition Delete (policyID : string) : RM (W := W) unit := perform c ctx "DELETE" ("/api/policies/" +:+ policyID).
End api.
End Policies.

Module PostureChecks.
Section api.
Context {ul : UrlLib} {de : Decode ErrorResponse} {W : Type} `{!Handler restC W} (c : Client) (ctx : ref).
Definition List {T} `{!Decode (list T)} : RM (W := W) (list T) := fetch c ctx "/api/posture-checks" ∅.
Definition Get {T} `{!Decode T} (postureCheckID : string) : RM (W := W) T := fetch c ctx ("/api/posture-checks/" +:+ postureCheckID) ∅.
Definition Create {R T} `{!Encode R, !Decode T} (request : R) : RM (W := W) T := send c ctx "POST" "/api/posture-checks" request.
Definition Update {R T} `{!Encode R, !Decode T} (postureCheckID : string) (request : R) : RM (W := W) T := send c ctx "PUT" ("/api/posture-checks/" +:+ postureCheckID) request.
Definition Delete (postureCheckID : string) : RM (W := W) unit := perform c ctx "DELETE" ("/api/posture-checks/" +:+ postureCheckID).
End api.
End PostureChecks.

Module Networks.
Section api.
Context {ul : UrlLib} {de : Decode ErrorResponse} {W : Type} `{!Handler restC W} (c : Client) (ctx : ref).
Definition List {T} `{!Decode (list T)} : RM (W := W) (list T) := fetch c ctx "/api/networks" ∅.
Definition Get {T} `{!Decode T} (networkID : string) : RM (W := W) T := fetch c ctx ("/api/networks/" +:+ networkID) ∅.
Definition Create {R T} `{!Encode R, !Decode T} (request : R) : RM (W := W) T := send c ctx "POST" "/api/networks" request.
Definition Update {R T} `{!Encode R, !Decode T} (networkID : string) (request : R) : RM (W := W) T := send c ctx "PUT" ("/api/networks/" +:+ networkID) request.
Definition Delete (networkID : string) : RM (W := W) unit := perform c ctx "DELETE" ("/api/networks/" +:+ networkID).
End api.
End Networks.

Module NetworkResources.
Section api.
Context {ul : UrlLib} {de : Decode ErrorResponse} {W : Type} `{!Handler restC W} (c : Client) (networkID : string) (ctx : ref).
Definition List {T} `{!Decode (list T)} : RM (W := W) (list T) := fetch c ctx ("/api/networks/" +:+ networkID +:+ "/resources") ∅.
Definition Get {T} `{!Decode T} (networkResourceID : string) : RM (W := W) T := fetch c ctx ("/api/networks/" +:+ networkID +:+ "/resources/" +:+ networkResourceID) ∅.
Definition Create {R T} `{!Encode R, !Decode T} (request : R) : RM (W := W) T := send c ctx "POST" ("/api/networks/" +:+ networkID +:+ "/resources") request.
Definition Update {R T} `{!Encode R, !Decode T} (networkResourceID : string) (request : R) : RM (W := W) T := send c ctx "PUT" ("/api/networks/" +:+ networkID +:+ "/resources/" +:+ networkResourceID) request.
Definition Delete (networkResourceID : string) : RM (W := W) unit := perform c ctx "DELETE" ("/api/networks/" +:+ networkID +:+ "/resources/" +:+ networkResourceID).
End api.
End NetworkResources.

Module NetworkRouters.
Section api.
Context {ul : UrlLib} {de : Decode ErrorResponse} {W : Type} `{!Handler restC W} (c : Client) (networkID : string) (ctx : ref).
Definition List {T} `{!Decode (list T)} : RM (W := W) (list T) := fetch c ctx ("/api/networks/" +:+ networkID +:+ "/routers") ∅.
Definition Get {T} `{!Decode T} (networkRouterID : string) : RM (W := W) T := fetch c ctx ("/api/networks/" +:+ networkID +:+ "/routers/" +:+ networkRouterID) ∅.
Definition Create {R T} `{!Encode R, !Decode T} (request : R) : RM (W := W) T := send c ctx "POST" ("/api/networks/" +:+ networkID +:+ "/routers") request.
Definition Update {R T} `{!Encode R, !Decode T} (networkRouterID : string) (request : R) : RM (W := W) T := send c ctx "PUT" ("/api/networks/" +:+ networkID +:+ "/routers/" +:+ networkRouterID) request.
Definition Delete (networkRouterID : string) : RM (W := W) unit := perform c ctx "DELETE" ("/api/networks/" +:+ networkID +:+ "/routers/" +:+ networkRouterID).
End api.
End NetworkRouters.

Module Routes.
Section api.
Context {ul : UrlLib} {de : Decode ErrorResponse} {W : Type} `{!Handler restC W} (c : Client) (ctx : ref).
Definition List {T} `{!Decode (list T)} : RM (W := W) (list T) := fetch c ctx "/api/routes" ∅.
Definition Get {T} `{!Decode T} (routeID : string) : RM (W := W) T := fetch c ctx ("/api/routes/" +:+ routeID) ∅.
Definition Create {R T} `{!Encode R, !Decode T} (request : R) : RM (W := W) T := send c ctx "POST" "/api/routes" request.
Definition Update {R T} `{!Encode R, !Decode T} (routeID : string) (request : R) : RM (W := W) T := send c ctx "PUT" ("/api/routes/" +:+ routeID) request.
Definition Delete (routeID : string) : RM (W := W) unit := perform c ctx "DELETE" ("/api/routes/" +:+ routeID).
End api.
End Routes.

Module DNS.
Section api.
Context {ul : UrlLib} {de : Decode ErrorResponse} {W : Type} `{!Handler restC W} (c : Client) (ctx : ref).
Definition ListNameserverGroups {T} `{!Decode (list T)} : RM (W := W) (list T) := fetch c ctx "/api/dns/nameservers" ∅.
Definition GetNameserverGroup {T} `{!Decode T} (nameserverGroupID : string) : RM (W := W) T := fetch c ctx ("/api/dns/nameservers/" +:+ nameserverGroupID) ∅.
Definition CreateNameserverGroup {R T} `{!Encode R, !Decode T} (request : R) : RM (W := W) T := send c ctx "POST" "/api/dns/nameservers" request.
Definition UpdateNameserverGroup {R T} `{!Encode R, !Decode T} (nameserverGroupID : string) (request : R) : RM (W := W) T := send c ctx "PUT" ("/api/dns/nameservers/" +:+ nameserverGroupID) request.
Definition DeleteNameserverGroup (nameserverGroupID : string) : RM (W := W) unit := perform c ctx "DELETE" ("/api/dns/nameservers/" +:+ nameserverGroupID).
Definition GetSettings {T} `{!Decode T} : RM (W := W) T := fetch c ctx "/api/dns/settings" ∅.
Definition UpdateSettings {R T} `{!Encode R, !Decode T} (request : R) : RM (W := W) T := send c ctx "PUT" "/api/dns/settings" request.
End api.
End DNS.

Module GeoLocation.
Section api.
Context {ul : UrlLib} {de : Decode ErrorResponse} {W : Type} `{!Handler restC W} (c : Client) (ctx : ref).
Definition ListCountries {T} `{!Decode (list T)} : RM (W := W) (list T) := fetch c ctx "/api/locations/countries" ∅.
Definition ListCountryCities {T} `{!Decode (list T)} (countryCode : string) : RM (W := W) (list T) := fetch c ctx ("/api/locations/countries/" +:+ countryCode +:+ "/cities") ∅.
End api.
End GeoLocation.

Module Events.
Section api.
Context {ul : UrlLib} {de : Decode ErrorResponse} {W : Type} `{!Handler restC W} (c : Client) (ctx : ref).
Definition List {T} `{!Decode (list T)} : RM (W := W) (list T) := fetch c ctx "/api/events" ∅.
End api.
End Events.
