(* ===== verification/RestSpec.v ===== *)
(** * What the REST client does

    [rest_calls_spec]: the request every method makes, and what becomes of the answer;
    the body of an answer that reports an error is not closed. [Impersonate_spec]:
    whose account a client speaks for, and that impersonating twice changes the first. *)

From Stdlib Require Import ZArith Lia Ascii.
From stdpp Require Import base tactics list strings gmap fin_maps.
From S2P Require Import Prelude GoStrings Rest.

(** The requests a log holds with their answers, the bodies read and those closed. *)
Definition sent (ev : event restC) : option (ref * Request * (Response + error)) :=
  match ev with
  | @Event _ R c a =>
      match c in restC R' return R' -> option (ref * Request * (Response + error)) with
      | HttpDo client _ req => fun r => Some (client, req, r)
      | _ => fun _ => None
      end a
  end.
Definition read (ev : event restC) : option (ref * (string + error)) :=
  match ev with
  | @Event _ R c a =>
      match c in restC R' return R' -> option (ref * (string + error)) with
      | ReadAll body => fun r => Some (body, r)
      | _ => fun _ => None
      end a
  end.
Definition closed (ev : event restC) : option ref :=
  match ev with Event (CloseBody body) _ => Some body | _ => None end.

Section spec.
Context {ul : UrlLib} {de : Decode ErrorResponse}.
Context {W : Type} `{!Handler restC W}.
Notation St := (state restC Cells W).

(** A client that was made: its object is there. *)
Definition known (cells : Cells) (h : HttpClient) : Prop :=
  match h with External _ => True | Impersonated cell => is_Some (cells !! cell) end.

(** Where a request to a URL goes, and with which URL. *)
Definition via (cells : Cells) (h : HttpClient) (url : URL) : option (ref * URL) :=
  match h with
  | External client => Some (client, url)
  | Impersonated cell =>
      hc ← cells !! cell;
      match url_reparse url with
      | inl _ => Some (im_baseClient hc, mkURL (u_rest url) (values_Set "account" (im_account hc) (u_query url)))
      | inr _ => None
      end
  end.

(** The request of a client, when its URL is one. *)
Definition request_of (cells : Cells) (c : Client) (method path : string) (body : option string)
    (query : gmap string string) : option (ref * Request) :=
  match url_Parse (managementURL c +:+ path) with
  | inl url =>
      '(client, url) ← via cells (httpClient c) (mkURL (u_rest url) (map_fold values_Add (u_query url) query));
      Some (client, mkRequest method url (headers c body) body)
  | inr _ => None
  end.

(** From [s] to [s'] one request was made, and its answer was treated well. *)
Definition exchange {A} (okay : Response -> list (event restC) -> A + error -> Prop) (s : St) (c : Client) (method path : string)
    (body : option string) (query : gmap string string) (r : A + error) (s' : St) : Prop :=
  loc s' = loc s /\ exists evs, calls s' = evs ++ calls s /\
  match request_of (loc s) c method path body query with
  | None => (exists e, r = inr e) /\ evs = []
  | Some (client, req) => exists answer,
      logged sent evs = [(client, req, answer)] /\
      match answer with
      | inr e => r = inr e /\ logged closed evs = []
      | inl resp =>
          if 299 <? rs_StatusCode resp then (exists e, r = inr e) /\ logged closed evs = []
          else logged closed evs = option_list (rs_Body resp) /\ okay resp evs r
      end
  end.

(** A value is what the body's text decodes to; there is an error when there is none. *)
Definition decoded {T} `{!Decode T} (resp : Response) (evs : list (event restC)) (r : T + error) : Prop :=
  match rs_Body resp with
  | None => logged read evs = [] /\ exists e, r = inr e
  | Some b => exists text, logged read evs = [(b, text)] /\
      match text with
      | inl text => match json_Unmarshal text with inl v => r = inl v | inr _ => exists e, r = inr e end
      | inr e => r = inr e
      end
  end.

(** Later events that make no request. *)
Definition calm (s s' : St) (evs : list (event restC)) : Prop :=
  loc s' = loc s /\ calls s' = evs ++ calls s /\ logged sent evs = [].

Lemma parseResponse_wp {T} `{!Decode T} resp (Q : T + error -> St -> Prop) s :
  (forall r s' evs, calm s s' evs -> logged closed evs = [] -> decoded resp evs r -> Q r s') ->
  wp (parseResponse resp) Q s.
Proof.
  intros HQ. unfold parseResponse, decoded in *. destruct (rs_Body resp) as [b|].
  2:{ wps. apply (HQ _ s []); [done | done |]. by split; [|eexists]. }
  wps. destruct r as [bs|e]; cbn [wp_then]; wps.
  2:{ apply (HQ _ _ [Event (ReadAll b) (inr e)]); [done | done |]. by exists (inr e). }
  unfold rest_try. destruct (json_Unmarshal bs) as [v|e] eqn:E; wps; (apply (HQ _ _ [Event (ReadAll b) (inl bs)]); [done | done |]);
    exists (inl bs); (split; [done |]); rewrite E; first [done | by eexists].
Qed.

(** What a method does with an answer that reports no error. *)
Definition handles {A} (k : Response -> RM (W := W) A) (okay : Response -> list (event restC) -> A + error -> Prop) : Prop :=
  forall resp s, wp (k resp) (fun r s' => exists evs, calm s s' evs /\ logged closed evs = [] /\ okay resp evs r) s.

(** What is okay does not depend on requests and closed bodies. *)
Definition steady {A} (okay : Response -> list (event restC) -> A + error -> Prop) : Prop :=
  forall resp evs evs' r, logged read evs = logged read evs' -> okay resp evs r -> okay resp evs' r.

Lemma with_body_wp {A} (k : Response -> RM (W := W) A) okay resp (Q : A + error -> St -> Prop) s :
  handles k okay -> steady okay ->
  (forall r s' evs, calm s s' evs -> logged closed evs = option_list (rs_Body resp) -> okay resp evs r -> Q r s') ->
  wp (with_body resp (k resp)) Q s.
Proof.
  intros Hk Ho HQ. unfold with_body. destruct (rs_Body resp) as [b|].
  - apply wp_with_defer. eapply wp_mono; [apply Hk |]. cbn beta. intros r s' (evs & (L & C & D) & K & Hr). wps.
    assert (Hend : forall o w, Q r (mkState (loc s') w (Event (CloseBody b) o :: calls s'))).
    { intros o w'. apply (HQ r _ (Event (CloseBody b) o :: evs)).
      - split; [exact L |]. split; [cbn; by rewrite C |]. by rewrite logged_cons, D.
      - by rewrite logged_cons, K.
      - apply (Ho resp evs); [|done]. by rewrite logged_cons, app_nil_r. }
    destruct r0; apply Hend.
  - eapply wp_mono; [apply Hk |]. cbn beta. intros r s' (evs & Hc & K & Hr). by apply (HQ r s' evs).
Qed.

Lemma Do_wp h ctx req (Q : Response + error -> St -> Prop) s :
  known (loc s) h ->
  (via (loc s) h (rq_url req) = None -> forall e, Q (inr e) s) ->
  (forall client url ans w, via (loc s) h (rq_url req) = Some (client, url) ->
     Q ans (mkState (loc s) w (Event (HttpDo client ctx (mkRequest (rq_method req) url (rq_headers req) (rq_body req))) ans :: calls s))) ->
  wp (Do h ctx req) Q s.
Proof.
  intros Hk Hno HQ. unfold Do, via in *. destruct h as [client|cell].
  { destruct req as [m u hs b]. wps. cbn [rq_method rq_url rq_headers rq_body] in HQ.
    destruct r as [resp|e]; [by apply (HQ client u (inl resp) w) | by apply (HQ client u (inr e) w)]. }
  wps. destruct Hk as [hc Hc]. rewrite Hc in *. cbn [deref mbind option_bind] in *. unfold impersonated_Do, rest_try.
  destruct (url_reparse (rq_url req)) as [u|e] eqn:E; [|wps; by apply Hno].
  apply url_reparse_same in E as ->. wps.
  destruct r as [resp|e]; [by eapply (HQ _ _ (inl resp) w) | by eapply (HQ _ _ (inr e) w)].
Qed.

Lemma exchange_wp {A} (k : Response -> RM (W := W) A) okay c ctx method path body query (s : St) :
  known (loc s) (httpClient c) -> handles k okay -> steady okay ->
  wp (let* resp := NewRequest c ctx method path body query in with_body resp (k resp))
     (exchange okay s c method path body query) s.
Proof.
  intros Hc Hk Ho. unfold NewRequest, exchange, request_of, rest_try.
  destruct (url_Parse _) as [url|e]; [|wps; split; [done |]; exists []; by repeat split; eexists].
  do 2 apply wp_bind. apply wp_ret. cbn [wp_then]. apply wp_bind, Do_wp; [done | |].
  { cbn [rq_url]. intros -> e. cbn [wp_then mbind option_bind]. split; [done |]. exists []. by repeat split; eexists. }
  cbn [rq_url rq_method rq_headers rq_body]. intros client u ans w ->. cbn [mbind option_bind].
  set (req := mkRequest method u (headers c body) body).
  set (s1 := mkState (loc s) w (Event (HttpDo client ctx req) ans :: calls s)).
  destruct ans as [resp|e]; cbn [wp_then].
  2:{ split; [done |]. exists [Event (HttpDo client ctx req) (inr e)]. split; [done |]. by exists (inr e). }
  destruct (299 <? rs_StatusCode resp) eqn:Es.
  - wps. apply parseResponse_wp. intros r s' evs (L & C & D) K Hd.
    assert (Hend : forall e : error, loc s' = loc s /\ exists evs, calls s' = evs ++ calls s /\ exists answer,
        logged sent evs = [(client, req, answer)] /\
        match answer with
        | inr e' => @inr A error e = inr e' /\ logged closed evs = []
        | inl resp =>
            if 299 <? rs_StatusCode resp then (exists e', @inr A error e = inr e') /\ logged closed evs = []
            else logged closed evs = option_list (rs_Body resp) /\ okay resp evs (inr e)
        end).
    { intros e. split; [exact L |]. exists (evs ++ [Event (HttpDo client ctx req) (inl resp)]).
      split; [by rewrite C, <- (assoc_L (++)) |]. exists (inl resp). rewrite !logged_app, D, K, Es. by repeat split; eexists. }
    destruct r as [err|e]; cbn [wp_then]; wps; apply Hend.
  - wps. apply (with_body_wp _ okay); [done | done |]. intros r s' evs (L & C & D) K Hr. split; [exact L |].
    exists (evs ++ [Event (HttpDo client ctx req) (inl resp)]). split; [by rewrite C, <- (assoc_L (++)) |].
    exists (inl resp). rewrite !logged_app, D, K, Es. split; [done |]. split; [done |].
    apply (Ho resp evs); [|done]. by rewrite logged_app.
Qed.

Lemma handles_parseResponse {T} `{!Decode T} : handles (parseResponse (T := T)) decoded.
Proof. intros resp s. apply parseResponse_wp. intros r s' evs Hc K Hd. by exists evs. Qed.
Lemma steady_decoded {T} `{!Decode T} : steady (decoded (T := T)).
Proof. intros resp evs evs' r E. unfold decoded. by rewrite E. Qed.

(** C39: what the methods of the API do, by their pattern. Each makes exactly one request,
    to the client's URL and its path, with the client's authorization, or fails before:
    when the URL is none, or the value to send cannot be encoded. An answer with a status
    above 299 is an error, and its body is never closed; otherwise the body is closed,
    however the method ends, and it returns what the body's text decodes to, or nothing
    for a method that only performs. *)
Theorem rest_calls_spec {R T} `{!Encode R, !Decode T} c ctx method path query (request : R) (s : St) :
  known (loc s) (httpClient c) ->
  wp (fetch c ctx path query) (exchange (decoded (T := T)) s c "GET" path None query) s /\
  wp (send c ctx method path request) (fun r s' =>
    match json_Marshal request with
    | inl text => exchange (decoded (T := T)) s c method path (Some text) ∅ r s'
    | inr e => r = inr e /\ s' = s
    end) s /\
  wp (perform c ctx method path) (exchange (fun _ evs r => logged read evs = [] /\ r = inl tt) s c method path None ∅) s.
Proof.
  intros Hk. split; [|split].
  - by apply (exchange_wp parseResponse decoded), steady_decoded; [|apply handles_parseResponse].
  - unfold send, rest_try. destruct (json_Marshal request) as [text|e]; [|by wps].
    apply wp_bind, wp_ret. cbn [wp_then].
    by apply (exchange_wp parseResponse decoded), steady_decoded; [|apply handles_parseResponse].
  - apply (exchange_wp (fun _ => ret tt)); [done | |].
    + intros resp s'. wps. by exists [].
    + intros resp evs evs' r E. by rewrite E.
Qed.

(** *** Impersonation *)

(** The client of another package behind a client, and the account it speaks for. *)
Definition base_of (cells : Cells) (h : HttpClient) : option ref :=
  match h with External client => Some client | Impersonated cell => im_baseClient <$> cells !! cell end.
Definition account_of (cells : Cells) (h : HttpClient) : option string :=
  match h with External _ => None | Impersonated cell => im_account <$> cells !! cell end.

(** C40: [Impersonate] gives a client with the same URL, authorization and underlying
    client, whose requests carry the account; it sends nothing. When the client itself
    impersonates no one, no other client is affected; when it does, it is switched to the
    new account too, since both refer to one object. *)
Theorem Impersonate_spec c account (s : St) :
  known (loc s) (httpClient c) ->
  wp (Impersonate c account) (fun r s' => exists c',
    r = inl c' /\ calls s' = calls s /\
    managementURL c' = managementURL c /\ authHeader c' = authHeader c /\
    base_of (loc s') (httpClient c') = base_of (loc s) (httpClient c) /\
    account_of (loc s') (httpClient c') = Some account /\
    match httpClient c with
    | External _ => forall h, known (loc s) h -> forall url, via (loc s') h url = via (loc s) h url
    | Impersonated _ => c' = c
    end) s.
Proof.
  intros Hk. unfold Impersonate, newImpersonatedHttpClient. wps. destruct c as [url auth [base|cell]]; cbn [httpClient] in *.
  - wps. eexists. split; [reflexivity |]. cbn [httpClient managementURL authHeader NewWithOptions foldl].
    unfold base_of, account_of. cbn -[insert lookup fresh]. rewrite !lookup_insert_eq. do 5 (split; [done |]).
    intros [client|cell] Hh u; [done |]. cbn -[insert lookup fresh]. rewrite lookup_insert_ne; [done |]. intros <-.
    destruct Hh as [hc Hh]. apply (is_fresh (dom (loc s))), elem_of_dom. by exists hc.
  - destruct Hk as [hc Hc]. rewrite Hc. cbn [deref]. wps. eexists. split; [reflexivity |]. cbn -[insert lookup].
    by rewrite !lookup_insert_eq, Hc.
Qed.

End spec.

(** ** A sample *)

Module SampleRest.

(** URLs are not parsed; every text is one. *)
#[export] Instance urls : UrlLib.
Proof. refine {| url_Parse s := inl (mkURL s ∅); url_reparse u := inl u |}. by intros u v [= <-]. Defined.
#[export] Instance text : Decode string := fun s => inl s.
#[export] Instance text_out : Encode string := fun s => inl s.
#[export] Instance error_text : Decode ErrorResponse := fun s => inl (mkErrorResponse s).

(** The world is the status that is answered. *)
#[export] Instance handler : Handler restC Z := fun R c w =>
  match c in restC R return R * Z with
  | HttpDo _ _ req => (inl (mkResponse w (Some 7)), w)
  | ReadAll _ => (inl "text", w)
  | CloseBody _ => (None, w)
  end.

Definition me : Client := New_Client "https://m" "T".
Definition server (status : Z) : state restC Cells Z := mkState ∅ status [].

End SampleRest.

Import SampleRest.

(** The answer's body is closed; that of an error is not. *)
Example body_closed : logged closed (calls (Peers.Get (T := string) me 1 "p" (server 200)).2) = [7].
Proof. by vm_compute. Qed.
Example error_body_not_closed :
  let '(r, s) := Peers.Delete me 1 "p" (server 404) in r = Err (New "text") /\ logged closed (calls s) = [].
Proof. by vm_compute. Qed.

(** The first impersonated client then speaks for the account of the second. *)
Definition account_sent (ev : event restC) : option (option (list string)) :=
  match ev with Event (HttpDo _ _ req) _ => Some (u_query (rq_url req) !! "account") | _ => None end.
Example impersonating_twice :
  let m := (let* a := Impersonate me "A" in let* b := Impersonate a "B" in Users.Current (T := string) a 1) in
  logged account_sent (calls (m (server 200)).2) = [Some ["B"]].
Proof. by vm_compute. Qed.

Lemma rest_calls_spec_witness :
  wp (fetch me 1 "/p" ∅) (exchange (decoded (T := string)) (server 200) me "GET" "/p" None ∅) (server 200) /\
  wp (send me 1 "PUT" "/p" "v") (fun r s' =>
    match json_Marshal "v" with
    | inl text => exchange (decoded (T := string)) (server 200) me "PUT" "/p" (Some text) ∅ r s'
    | inr e => r = inr e /\ s' = server 200
    end) (server 200) /\
  wp (perform me 1 "PUT" "/p") (exchange (fun _ evs r => logged read evs = [] /\ r = inl tt) (server 200) me "PUT" "/p" None ∅) (server 200).
Proof. by apply (rest_calls_spec me 1 "PUT" "/p" ∅ "v" (server 200)). Defined.

Lemma Impersonate_spec_witness :
  wp (Impersonate me "A") (fun r s' => exists c',
    r = inl c' /\ calls s' = calls (server 200) /\
    managementURL c' = managementURL me /\ authHeader c' = authHeader me /\
    base_of (loc s') (httpClient c') = base_of (loc (server 200)) (httpClient me) /\
    account_of (loc s') (httpClient c') = Some "A" /\
    match httpClient me with
    | External _ => forall h, known (loc (server 200)) h -> forall url, via (loc s') h url = via (loc (server 200)) h url
    | Impersonated _ => c' = me
    end) (server 200).
Proof. by apply (Impersonate_spec me "A" (server 200)). Defined.
