(* ===== verification/Engine.v ===== *)
(** * The client engine: [go/internal/engine.go]

    [Engine] holds the connection to every component of the client. Each exported
    operation and each message handler runs under the engine's mutex [syncMsgMux]
    from start to end, so it is one computation here; the goroutines the engine
    starts are operations of their own, that run between those. What an object
    behind a field does is a call ([engC]); a field is the identity of its object,
    or nil. A method call on a nil interface value panics; a nil pointer is passed
    on to the method. Contexts handed on as arguments are left out. *)

From Stdlib Require Import ZArith Lia Ascii.
From stdpp Require Import base tactics list strings gmap.
From S2P Require Import Prelude GoStrings Netip Uapi Configurer Routes WgIface EngineData.

Definition PeerConnectionTimeoutMax : Z := 45000.
Definition PeerConnectionTimeoutMin : Z := 30000.
Definition ErrResetConnection : error := Sentinel "ErrResetConnection".
Definition ContextCanceled : error := Sentinel "context.Canceled".

(** ** Data *)

Record EngineConfig := mkEngineConfig {
  WgPort : Z; WgIfaceName : string; WgAddr : string; WgPrivateKey : Key; NetworkMonitor : bool;
  IFaceBlackList : list string; DisableIPv6Discovery : bool; PreSharedKey : option Key;
  UDPMuxPort : Z; UDPMuxSrflxPort : Z; SSHKey : string; NATExternalIPs : list string;
  CustomDNSAddress : string; RosenpassEnabled : bool; RosenpassPermissive : bool;
  ServerSSHAllowed : bool; EnableSSHRoot : option bool; EnableSSHSFTP : option bool;
  EnableSSHLocalPortForwarding : option bool; EnableSSHRemotePortForwarding : option bool;
  DisableSSHAuth : option bool; DNSRouteInterval : Z; DisableClientRoutes : bool;
  DisableServerRoutes : bool; DisableDNS : bool; DisableFirewall : bool; BlockLANAccess : bool;
  BlockInbound : bool; LazyConnectionEnabled : bool; cfg_MTU : Z   (* a uint16 *)
}.

(** The arguments of [system.Info.SetFlags], in order. *)
Record InfoFlags := mkInfoFlags {
  if_RosenpassEnabled : bool; if_RosenpassPermissive : bool; if_ServerSSHAllowed : bool;
  if_DisableClientRoutes : bool; if_DisableServerRoutes : bool; if_DisableDNS : bool;
  if_DisableFirewall : bool; if_BlockLANAccess : bool; if_BlockInbound : bool;
  if_LazyConnectionEnabled : bool; if_SSH : list (option bool)
}.

Record ConnConfig := mkConnConfig {
  cc_Key : string; cc_LocalKey : string; cc_AgentVersion : string; cc_Timeout : Z; cc_LocalWgPort : Z;
  cc_WgListenPort : Z; cc_WgInterface : option ref; cc_AllowedIps : list Prefix;
  cc_PreSharedKey : option Key; cc_RosenpassPubKey : option string; cc_RosenpassAddr : string;
  cc_PermissiveMode : bool
}.

Record LocalPeerState := mkLocalPeerState {
  lps_IP : string; lps_PubKey : string; lps_KernelInterface : bool; lps_FQDN : string; lps_rest : string
}.
Record NSGroupState := mkNSGroupState { nss_ID : string; nss_Enabled : bool; nss_Error : option error }.
Record ProbeResult := mkProbeResult { pres_URI : string; pres_Err : option error }.

Record RouteManagerConfig := mkRouteManagerConfig {
  rmc_PublicKey : string; rmc_DNSRouteInterval : Z; rmc_WGInterface : option ref;
  rmc_InitialRoutes : list Route; rmc_DNSServer : ref; rmc_DNSFeatureFlag : bool;
  rmc_DisableClientRoutes : bool; rmc_DisableServerRoutes : bool
}.

(** A [net.Addr] of an interface: a [net.IPNet] or something else. *)
Inductive NetAddr := NetIPNet (n : IPNet) | NetOther.

(** ** The calls the engine makes *)

Inductive engC `{!EngLib} : Set -> Type :=
  (* contexts, goroutines, random numbers, the file system *)
  | WithCancel : engC ref
  | CancelCtx (c : ref) : engC unit
  | CtxErr (c : ref) : engC bool
  | CtxSetConnecting (c : option ref) : engC unit
  | CtxWrapReset (c : option ref) : engC unit
  | ClientCancel : engC unit
  | Go (what : string) : engC unit
  | ShutdownDone (timeout : Z) : engC bool
  | RandIntn (n : Z) : engC Z
  | OsStat (path : string) : engC (option error)
  | OsCreate (path : string) : engC (ref + error)
  | FileClose (f : ref) : engC (option error)
  | NetInterfaces : engC (list string + error)
  | NetInterfaceByName (name : string) : engC (string + error)
  | IfaceAddrs (name : string) : engC (list NetAddr + error)
  (* connection manager, peer store, peer connections *)
  | NewConnMgr (wg : ref) : engC ref
  | CmStart (m : option ref) : engC unit
  | CmClose (m : ref) : engC unit
  | CmAddPeerConn (m : option ref) (key : string) (conn : ref) : engC bool
  | CmRemovePeerConn (m : option ref) (key : string) : engC unit
  | CmUpdatedRemoteFeatureFlag (m : option ref) (lazy : bool) : engC (option error)
  | CmUpdateRouteHAMap (m : ref) (routes : HAMap) : engC unit
  | CmSetExcludeList (m : option ref) (peers : gmap string bool) : engC unit
  | CmActivatePeer (m : option ref) (conn : ref) : engC unit
  | CmDeactivatePeer (m : option ref) (conn : ref) : engC unit
  | PsPeerConn (key : string) : engC (option ref)
  | PsPeersPubKey : engC (list string)
  | PsAllowedIPs (key : string) : engC (option (list Prefix))
  | NewConn (cfg : ConnConfig) : engC (ref + error)
  | ConnAgentVersion (c : ref) : engC string
  | ConnClose (c : ref) : engC unit
  | ConnSetRosenpass (c rp : ref) : engC unit
  | ConnOnRemoteOffer (c : ref) (oa : OfferAnswer) : engC unit
  | ConnOnRemoteAnswer (c : ref) (oa : OfferAnswer) : engC unit
  | GoConnOnRemoteCandidate (c candidate : ref) (routes : HAMap) : engC unit
  | UnmarshalCandidate (payload : string) : engC (ref + error)
  (* status recorder *)
  | SrReplaceOfflinePeers (l : list PeerState) : engC unit
  | SrGetDNSStates : engC (list NSGroupState)
  | SrUpdateDNSStates (l : list NSGroupState) : engC unit
  | SrUpdateRelayStates (l : list ProbeResult) : engC unit
  | SrSetWgIface (wg : option ref) : engC unit
  | SrSetIngressGwMgr (m : option ref) : engC unit
  | SrAddPeer (key fqdn ip : string) : engC (option error)
  | SrRemovePeer (key : string) : engC (option error)
  | SrUpdatePeerFQDN (key fqdn : string) : engC (option error)
  | SrUpdateWireGuardPeerState (key : string) (st : WGStats) : engC (option error)
  | SrGetLocalPeerState : engC LocalPeerState
  | SrUpdateLocalPeerState (st : LocalPeerState) : engC unit
  | SrFinishPeerListModifications : engC unit
  | SrPublishEvent (msg : string) : engC unit
  (* the WireGuard interface *)
  | NewStdNet : engC (option ref)
  | WgNew (opts : WGIFaceOpts) : engC (ref + error)
  | WgCreate (w : ref) : engC (option error)
  | WgCreateOnAndroid (w : ref) (routes : list string) (dnsIP : string) (domains : list string) : engC (option error)
  | WgUp (w : ref) : engC (ref + error)
  | WgName (w : ref) : engC string
  | WgAddress (w : ref) : engC Address
  | WgGetStats (w : ref) : engC (gmap string WGStats + error)
  | WgRenewTun (w : ref) (fd : Z) : engC (option error)
  | WgGetNet (w : ref) : engC (option ref)
  | WgClose (w : ref) : engC (option error)
  | WgModuleIsLoaded : engC bool
  | ListenerSetInterfaceIP (ip : string) : engC unit
  | NewWGIfaceMonitor : engC ref
  | WgMonitorStart (m : option ref) (name : string) : engC (bool * option error)
  (* DNS server and forwarder *)
  | NewDnsServer (wg : option ref) (custom : string) (disable : bool) : engC (ref + error)
  | NewDnsServerPermanent (wg : option ref) (cfg : DnsConfig) (disable : bool) : engC ref
  | NewDnsServerIos (wg : option ref) (disable : bool) : engC ref
  | DnsInitialize (d : ref) : engC (option error)
  | DnsStop (d : ref) : engC unit
  | DnsUpdateDNSServer (d : ref) (serial : Z) (cfg : DnsConfig) : engC (option error)
  | DnsPopulateManagementDomain (d : ref) (url : string) : engC (option error)
  | DnsUpdateServerConfig (d : ref) (cfg : NetbirdConfig) : engC (option error)
  | DnsProbeAvailability (d : ref) : engC unit
  | DnsServerIP (d : ref) : engC Addr
  | DnsSearchDomains (d : ref) : engC (list string)
  | NewDnsForwarder (fw wg : option ref) : engC ref
  | DnsForwarderStart (f : ref) (entries : list ForwarderEntry) : engC (option error)
  | DnsForwarderUpdateDomains (f : ref) (entries : list ForwarderEntry) : engC unit
  | DnsForwarderStop (f : ref) : engC (option error)
  (* routes, firewall, access control, ingress, flows *)
  | NewRouteManager (cfg : RouteManagerConfig) : engC ref
  | RmInit (r : ref) : engC (option error)
  | RmSetRouteChangeListener (r : ref) : engC unit
  | RmSetFirewall (r fw : ref) : engC (option error)
  | RmStop (r : ref) : engC unit
  | RmSetDNSForwarderPort (r : ref) (port : Z) : engC unit
  | RmClassifyRoutes (r : ref) (routes : list Route) : engC (gmap string Route * HAMap)
  | RmUpdateRoutes (r : ref) (serial : Z) (server : gmap string Route) (client : HAMap) (dns : bool) : engC (option error)
  | RmGetClientRoutes (r : ref) : engC HAMap
  | RmInitialRouteRange (r : ref) : engC (list string)
  | NewFirewall (wg : option ref) (flowLogger : ref) (disableServerRoutes : bool) (mtu : Z) : engC (option ref * option error)
  | FwAddPeerFiltering (fw : ref) (port : Z) : engC (option error)
  | FwDropRoute (fw : ref) (source destination : Prefix) : engC (option error)
  | FwUpdateLocalIPs (fw : ref) : engC (option (option error))
  | FwSetLegacyManagement (fw : ref) (legacy : bool) : engC (option error)
  | FwClose (fw : ref) : engC (option error)
  | NewAclManager (fw : ref) : engC ref
  | AclApplyFiltering (a : ref) (nm : NetworkMap) (dns : bool) : engC unit
  | NewIngressGw (fw : ref) : engC ref
  | IngressUpdate (m : ref) (rules : list ForwardRule) : engC (option error)
  | IngressClose (m : ref) : engC (option error)
  | NewFlowManager (wg : ref) (publicKey : Key) : engC ref
  | FlowUpdate (f : ref) (cfg : NfFlowConfig) : engC (option error)
  | FlowGetLogger (f : ref) : engC ref
  | FlowClose (f : ref) : engC unit
  (* rosenpass, relay, signal, management, system information, state, monitors, SSH *)
  | NewRosenpass (psk : option Key) (name : string) : engC (ref + error)
  | RpRun (r : ref) : engC (option error)
  | RpGetAddress (r : ref) : engC UDPAddr
  | RpGetPubKey (r : ref) : engC string
  | RpClose (r : ref) : engC (option error)
  | RelayUpdateToken (payload signature : string) : engC (option error)
  | RelayUpdateServerURLs (urls : list string) : engC unit
  | RelayServe : engC (option error)
  | SignalReceive : engC (option error)
  | SignalWaitStreamConnected : engC unit
  | SignalIsHealthy : engC bool
  | MgmSync (info : ref) : engC (option error)
  | MgmSyncMeta (info : ref) : engC (option error)
  | MgmGetNetworkMap (info : ref) : engC (NetworkMap + error)
  | MgmIsHealthy : engC bool
  | GetInfoWithChecks (checks : list Checks) : engC (ref + error)
  | GetInfo : engC ref
  | InfoSetFlags (info : ref) (flags : InfoFlags) : engC unit
  | GetStatePath : engC string
  | NewStateManager (path : string) : engC unit
  | StateManagerStart : engC unit
  | StateManagerStop (timeout : Z) : engC (option error)
  | StateManagerPersist : engC (option error)
  | NewSRWatcher : engC ref
  | SRWatcherStart (w : ref) : engC unit
  | SRWatcherClose (w : ref) : engC unit
  | NewNetworkMonitor : engC ref
  | NetworkMonitorListen (m : option ref) : engC (option error)
  | NetworkMonitorStop (m : ref) : engC unit
  | StopSSHServer : engC (option error)
  | CleanupSSHConfig : engC unit
  | UpdateSSH (cfg : string) : engC (option error)
  | UpdatePeerSSHHostKeys (peers : list RemotePeerConfig) : engC unit
  | UpdateSSHClientConfig (peers : list RemotePeerConfig) : engC (option error)
  | ProbeAll (wait : bool) (stuns turns : list URI) : engC (list ProbeResult).

(** ** State *)

Record Engine `{!EngLib} := mkEngine {
  e_config : EngineConfig;
  e_connMgr : option ref;
  e_rpManager : option ref;
  e_STUNs : list URI;
  e_TURNs : list URI;
  e_stunTurn : list URI;
  e_cancel : option ref;
  e_wgInterface : option ref;
  e_udpMux : option ref;
  e_networkSerial : Z;
  e_networkMonitor : option ref;
  e_firewall : option ref;
  e_routeManager : option ref;
  e_acl : option ref;
  e_dnsForwardMgr : option ref;
  e_ingressGatewayMgr : option ref;
  e_dnsServer : option ref;
  e_checks : list Checks;
  e_srWatcher : option ref;
  e_persistSyncResponse : bool;
  e_latestSyncResponse : option SyncResponse;
  e_flowManager : option ref;
  e_wgIfaceMonitor : option ref;
  e_shutdownWg : Z
}.

Section setters.
Context {el : EngLib}.
Definition set_connMgr (v : option ref) (e : Engine) : Engine :=
  mkEngine _ (e_config e) v (e_rpManager e) (e_STUNs e) (e_TURNs e) (e_stunTurn e) (e_cancel e)
    (e_wgInterface e) (e_udpMux e) (e_networkSerial e) (e_networkMonitor e) (e_firewall e) (e_routeManager
    e) (e_acl e) (e_dnsForwardMgr e) (e_ingressGatewayMgr e) (e_dnsServer e) (e_checks e) (e_srWatcher e)
    (e_persistSyncResponse e) (e_latestSyncResponse e) (e_flowManager e) (e_wgIfaceMonitor e) (e_shutdownWg
    e).
Definition set_rpManager (v : option ref) (e : Engine) : Engine :=
  mkEngine _ (e_config e) (e_connMgr e) v (e_STUNs e) (e_TURNs e) (e_stunTurn e) (e_cancel e) (e_wgInterface
    e) (e_udpMux e) (e_networkSerial e) (e_networkMonitor e) (e_firewall e) (e_routeManager e) (e_acl e)
    (e_dnsForwardMgr e) (e_ingressGatewayMgr e) (e_dnsServer e) (e_checks e) (e_srWatcher e)
    (e_persistSyncResponse e) (e_latestSyncResponse e) (e_flowManager e) (e_wgIfaceMonitor e) (e_shutdownWg
    e).
Definition set_STUNs (v : list URI) (e : Engine) : Engine :=
  mkEngine _ (e_config e) (e_connMgr e) (e_rpManager e) v (e_TURNs e) (e_stunTurn e) (e_cancel e)
    (e_wgInterface e) (e_udpMux e) (e_networkSerial e) (e_networkMonitor e) (e_firewall e) (e_routeManager
    e) (e_acl e) (e_dnsForwardMgr e) (e_ingressGatewayMgr e) (e_dnsServer e) (e_checks e) (e_srWatcher e)
    (e_persistSyncResponse e) (e_latestSyncResponse e) (e_flowManager e) (e_wgIfaceMonitor e) (e_shutdownWg
    e).
Definition set_TURNs (v : list URI) (e : Engine) : Engine :=
  mkEngine _ (e_config e) (e_connMgr e) (e_rpManager e) (e_STUNs e) v (e_stunTurn e) (e_cancel e)
    (e_wgInterface e) (e_udpMux e) (e_networkSerial e) (e_networkMonitor e) (e_firewall e) (e_routeManager
    e) (e_acl e) (e_dnsForwardMgr e) (e_ingressGatewayMgr e) (e_dnsServer e) (e_checks e) (e_srWatcher e)
    (e_persistSyncResponse e) (e_latestSyncResponse e) (e_flowManager e) (e_wgIfaceMonitor e) (e_shutdownWg
    e).
Definition set_stunTurn (v : list URI) (e : Engine) : Engine :=
  mkEngine _ (e_config e) (e_connMgr e) (e_rpManager e) (e_STUNs e) (e_TURNs e) v (e_cancel e)
    (e_wgInterface e) (e_udpMux e) (e_networkSerial e) (e_networkMonitor e) (e_firewall e) (e_routeManager
    e) (e_acl e) (e_dnsForwardMgr e) (e_ingressGatewayMgr e) (e_dnsServer e) (e_checks e) (e_srWatcher e)
    (e_persistSyncResponse e) (e_latestSyncResponse e) (e_flowManager e) (e_wgIfaceMonitor e) (e_shutdownWg
    e).
Definition set_cancel (v : option ref) (e : Engine) : Engine :=
  mkEngine _ (e_config e) (e_connMgr e) (e_rpManager e) (e_STUNs e) (e_TURNs e) (e_stunTurn e) v
    (e_wgInterface e) (e_udpMux e) (e_networkSerial e) (e_networkMonitor e) (e_firewall e) (e_routeManager
    e) (e_acl e) (e_dnsForwardMgr e) (e_ingressGatewayMgr e) (e_dnsServer e) (e_checks e) (e_srWatcher e)
    (e_persistSyncResponse e) (e_latestSyncResponse e) (e_flowManager e) (e_wgIfaceMonitor e) (e_shutdownWg
    e).
Definition set_wgInterface (v : option ref) (e : Engine) : Engine :=
  mkEngine _ (e_config e) (e_connMgr e) (e_rpManager e) (e_STUNs e) (e_TURNs e) (e_stunTurn e) (e_cancel e)
    v (e_udpMux e) (e_networkSerial e) (e_networkMonitor e) (e_firewall e) (e_routeManager e) (e_acl e)
    (e_dnsForwardMgr e) (e_ingressGatewayMgr e) (e_dnsServer e) (e_checks e) (e_srWatcher e)
    (e_persistSyncResponse e) (e_latestSyncResponse e) (e_flowManager e) (e_wgIfaceMonitor e) (e_shutdownWg
    e).
Definition set_udpMux (v : option ref) (e : Engine) : Engine :=
  mkEngine _ (e_config e) (e_connMgr e) (e_rpManager e) (e_STUNs e) (e_TURNs e) (e_stunTurn e) (e_cancel e)
    (e_wgInterface e) v (e_networkSerial e) (e_networkMonitor e) (e_firewall e) (e_routeManager e) (e_acl e)
    (e_dnsForwardMgr e) (e_ingressGatewayMgr e) (e_dnsServer e) (e_checks e) (e_srWatcher e)
    (e_persistSyncResponse e) (e_latestSyncResponse e) (e_flowManager e) (e_wgIfaceMonitor e) (e_shutdownWg
    e).
Definition set_networkSerial (v : Z) (e : Engine) : Engine :=
  mkEngine _ (e_config e) (e_connMgr e) (e_rpManager e) (e_STUNs e) (e_TURNs e) (e_stunTurn e) (e_cancel e)
    (e_wgInterface e) (e_udpMux e) v (e_networkMonitor e) (e_firewall e) (e_routeManager e) (e_acl e)
    (e_dnsForwardMgr e) (e_ingressGatewayMgr e) (e_dnsServer e) (e_checks e) (e_srWatcher e)
    (e_persistSyncResponse e) (e_latestSyncResponse e) (e_flowManager e) (e_wgIfaceMonitor e) (e_shutdownWg
    e).
Definition set_networkMonitor (v : option ref) (e : Engine) : Engine :=
  mkEngine _ (e_config e) (e_connMgr e) (e_rpManager e) (e_STUNs e) (e_TURNs e) (e_stunTurn e) (e_cancel e)
    (e_wgInterface e) (e_udpMux e) (e_networkSerial e) v (e_firewall e) (e_routeManager e) (e_acl e)
    (e_dnsForwardMgr e) (e_ingressGatewayMgr e) (e_dnsServer e) (e_checks e) (e_srWatcher e)
    (e_persistSyncResponse e) (e_latestSyncResponse e) (e_flowManager e) (e_wgIfaceMonitor e) (e_shutdownWg
    e).
Definition set_firewall (v : option ref) (e : Engine) : Engine :=
  mkEngine _ (e_config e) (e_connMgr e) (e_rpManager e) (e_STUNs e) (e_TURNs e) (e_stunTurn e) (e_cancel e)
    (e_wgInterface e) (e_udpMux e) (e_networkSerial e) (e_networkMonitor e) v (e_routeManager e) (e_acl e)
    (e_dnsForwardMgr e) (e_ingressGatewayMgr e) (e_dnsServer e) (e_checks e) (e_srWatcher e)
    (e_persistSyncResponse e) (e_latestSyncResponse e) (e_flowManager e) (e_wgIfaceMonitor e) (e_shutdownWg
    e).
Definition set_routeManager (v : option ref) (e : Engine) : Engine :=
  mkEngine _ (e_config e) (e_connMgr e) (e_rpManager e) (e_STUNs e) (e_TURNs e) (e_stunTurn e) (e_cancel e)
    (e_wgInterface e) (e_udpMux e) (e_networkSerial e) (e_networkMonitor e) (e_firewall e) v (e_acl e)
    (e_dnsForwardMgr e) (e_ingressGatewayMgr e) (e_dnsServer e) (e_checks e) (e_srWatcher e)
    (e_persistSyncResponse e) (e_latestSyncResponse e) (e_flowManager e) (e_wgIfaceMonitor e) (e_shutdownWg
    e).
Definition set_acl (v : option ref) (e : Engine) : Engine :=
  mkEngine _ (e_config e) (e_connMgr e) (e_rpManager e) (e_STUNs e) (e_TURNs e) (e_stunTurn e) (e_cancel e)
    (e_wgInterface e) (e_udpMux e) (e_networkSerial e) (e_networkMonitor e) (e_firewall e) (e_routeManager
    e) v (e_dnsForwardMgr e) (e_ingressGatewayMgr e) (e_dnsServer e) (e_checks e) (e_srWatcher e)
    (e_persistSyncResponse e) (e_latestSyncResponse e) (e_flowManager e) (e_wgIfaceMonitor e) (e_shutdownWg
    e).
Definition set_dnsForwardMgr (v : option ref) (e : Engine) : Engine :=
  mkEngine _ (e_config e) (e_connMgr e) (e_rpManager e) (e_STUNs e) (e_TURNs e) (e_stunTurn e) (e_cancel e)
    (e_wgInterface e) (e_udpMux e) (e_networkSerial e) (e_networkMonitor e) (e_firewall e) (e_routeManager
    e) (e_acl e) v (e_ingressGatewayMgr e) (e_dnsServer e) (e_checks e) (e_srWatcher e)
    (e_persistSyncResponse e) (e_latestSyncResponse e) (e_flowManager e) (e_wgIfaceMonitor e) (e_shutdownWg
    e).
Definition set_ingressGatewayMgr (v : option ref) (e : Engine) : Engine :=
  mkEngine _ (e_config e) (e_connMgr e) (e_rpManager e) (e_STUNs e) (e_TURNs e) (e_stunTurn e) (e_cancel e)
    (e_wgInterface e) (e_udpMux e) (e_networkSerial e) (e_networkMonitor e) (e_firewall e) (e_routeManager
    e) (e_acl e) (e_dnsForwardMgr e) v (e_dnsServer e) (e_checks e) (e_srWatcher e) (e_persistSyncResponse
    e) (e_latestSyncResponse e) (e_flowManager e) (e_wgIfaceMonitor e) (e_shutdownWg e).
Definition set_dnsServer (v : option ref) (e : Engine) : Engine :=
  mkEngine _ (e_config e) (e_connMgr e) (e_rpManager e) (e_STUNs e) (e_TURNs e) (e_stunTurn e) (e_cancel e)
    (e_wgInterface e) (e_udpMux e) (e_networkSerial e) (e_networkMonitor e) (e_firewall e) (e_routeManager
    e) (e_acl e) (e_dnsForwardMgr e) (e_ingressGatewayMgr e) v (e_checks e) (e_srWatcher e)
    (e_persistSyncResponse e) (e_latestSyncResponse e) (e_flowManager e) (e_wgIfaceMonitor e) (e_shutdownWg
    e).
Definition set_checks (v : list Checks) (e : Engine) : Engine :=
  mkEngine _ (e_config e) (e_connMgr e) (e_rpManager e) (e_STUNs e) (e_TURNs e) (e_stunTurn e) (e_cancel e)
    (e_wgInterface e) (e_udpMux e) (e_networkSerial e) (e_networkMonitor e) (e_firewall e) (e_routeManager
    e) (e_acl e) (e_dnsForwardMgr e) (e_ingressGatewayMgr e) (e_dnsServer e) v (e_srWatcher e)
    (e_persistSyncResponse e) (e_latestSyncResponse e) (e_flowManager e) (e_wgIfaceMonitor e) (e_shutdownWg
    e).
Definition set_srWatcher (v : option ref) (e : Engine) : Engine :=
  mkEngine _ (e_config e) (e_connMgr e) (e_rpManager e) (e_STUNs e) (e_TURNs e) (e_stunTurn e) (e_cancel e)
    (e_wgInterface e) (e_udpMux e) (e_networkSerial e) (e_networkMonitor e) (e_firewall e) (e_routeManager
    e) (e_acl e) (e_dnsForwardMgr e) (e_ingressGatewayMgr e) (e_dnsServer e) (e_checks e) v
    (e_persistSyncResponse e) (e_latestSyncResponse e) (e_flowManager e) (e_wgIfaceMonitor e) (e_shutdownWg
    e).
Definition set_persistSyncResponse (v : bool) (e : Engine) : Engine :=
  mkEngine _ (e_config e) (e_connMgr e) (e_rpManager e) (e_STUNs e) (e_TURNs e) (e_stunTurn e) (e_cancel e)
    (e_wgInterface e) (e_udpMux e) (e_networkSerial e) (e_networkMonitor e) (e_firewall e) (e_routeManager
    e) (e_acl e) (e_dnsForwardMgr e) (e_ingressGatewayMgr e) (e_dnsServer e) (e_checks e) (e_srWatcher e) v
    (e_latestSyncResponse e) (e_flowManager e) (e_wgIfaceMonitor e) (e_shutdownWg e).
Definition set_latestSyncResponse (v : option SyncResponse) (e : Engine) : Engine :=
  mkEngine _ (e_config e) (e_connMgr e) (e_rpManager e) (e_STUNs e) (e_TURNs e) (e_stunTurn e) (e_cancel e)
    (e_wgInterface e) (e_udpMux e) (e_networkSerial e) (e_networkMonitor e) (e_firewall e) (e_routeManager
    e) (e_acl e) (e_dnsForwardMgr e) (e_ingressGatewayMgr e) (e_dnsServer e) (e_checks e) (e_srWatcher e)
    (e_persistSyncResponse e) v (e_flowManager e) (e_wgIfaceMonitor e) (e_shutdownWg e).
Definition set_flowManager (v : option ref) (e : Engine) : Engine :=
  mkEngine _ (e_config e) (e_connMgr e) (e_rpManager e) (e_STUNs e) (e_TURNs e) (e_stunTurn e) (e_cancel e)
    (e_wgInterface e) (e_udpMux e) (e_networkSerial e) (e_networkMonitor e) (e_firewall e) (e_routeManager
    e) (e_acl e) (e_dnsForwardMgr e) (e_ingressGatewayMgr e) (e_dnsServer e) (e_checks e) (e_srWatcher e)
    (e_persistSyncResponse e) (e_latestSyncResponse e) v (e_wgIfaceMonitor e) (e_shutdownWg e).
Definition set_wgIfaceMonitor (v : option ref) (e : Engine) : Engine :=
  mkEngine _ (e_config e) (e_connMgr e) (e_rpManager e) (e_STUNs e) (e_TURNs e) (e_stunTurn e) (e_cancel e)
    (e_wgInterface e) (e_udpMux e) (e_networkSerial e) (e_networkMonitor e) (e_firewall e) (e_routeManager
    e) (e_acl e) (e_dnsForwardMgr e) (e_ingressGatewayMgr e) (e_dnsServer e) (e_checks e) (e_srWatcher e)
    (e_persistSyncResponse e) (e_latestSyncResponse e) (e_flowManager e) v (e_shutdownWg e).
Definition set_shutdownWg (v : Z) (e : Engine) : Engine :=
  mkEngine _ (e_config e) (e_connMgr e) (e_rpManager e) (e_STUNs e) (e_TURNs e) (e_stunTurn e) (e_cancel e)
    (e_wgInterface e) (e_udpMux e) (e_networkSerial e) (e_networkMonitor e) (e_firewall e) (e_routeManager
    e) (e_acl e) (e_dnsForwardMgr e) (e_ingressGatewayMgr e) (e_dnsServer e) (e_checks e) (e_srWatcher e)
    (e_persistSyncResponse e) (e_latestSyncResponse e) (e_flowManager e) (e_wgIfaceMonitor e) v.
End setters.


Section engine.
Context {wg : WgTypes} {rl : RouteLib} {el : EngLib} {mo : MapOrder} {me : MultiError}.
Context {W : Type} `{!Handler engC W}.

Definition E := M engC Engine W.

(** The fields that are interface values: a method call on nil panics. *)
Definition with_wg {A} (k : ref -> E A) : E A := let* e := get in deref "wgInterface" (e_wgInterface e) k.
Definition with_dns {A} (k : ref -> E A) : E A := let* e := get in deref "dnsServer" (e_dnsServer e) k.
Definition with_routes {A} (k : ref -> E A) : E A := let* e := get in deref "routeManager" (e_routeManager e) k.
Definition with_firewall {A} (k : ref -> E A) : E A := let* e := get in deref "firewall" (e_firewall e) k.
Definition with_flow {A} (k : ref -> E A) : E A := let* e := get in deref "flowManager" (e_flowManager e) k.

(** [if x != nil { ... }]. *)
Definition if_some {B} (o : option B) (k : B -> E unit) : E unit :=
  match o with Some r => k r | None => ret tt end.

Definition conf {A} (f : EngineConfig -> A) : E A := let* e := get in ret (f (e_config e)).

Definition infoFlags (c : EngineConfig) : InfoFlags :=
  mkInfoFlags (RosenpassEnabled c) (RosenpassPermissive c) (ServerSSHAllowed c) (DisableClientRoutes c)
    (DisableServerRoutes c) (DisableDNS c) (DisableFirewall c) (BlockLANAccess c) (BlockInbound c)
    (LazyConnectionEnabled c)
    [EnableSSHRoot c; EnableSSHSFTP c; EnableSSHLocalPortForwarding c; EnableSSHRemotePortForwarding c; DisableSSHAuth c].

(** ** Construction *)

Definition newEngine0 (config : EngineConfig) (checks : list Checks) : Engine :=
  mkEngine _ config None None [] [] [] None None None 0 None None None None None None None checks
    None false None None None 0.

(** [os.IsNotExist] of what [os.Stat] answers. *)
Definition ErrNotExist : error := Sentinel "os.ErrNotExist".
Definition fileExists (path : string) : E bool :=
  let* err := call (OsStat path) in
  ret (match err with Some e => negb (errors_Is e ErrNotExist) | None => true end).

Definition createFile (path : string) : E unit :=
  let* file := check_val (call (OsCreate path)) in
  check (call (FileClose file)).

(** The effects of [NewEngine], whose object starts as [newEngine0]. *)
Definition NewEngine (stateFilePath : string) : E unit :=
  let* path := call GetStatePath in
  let* path' :=
    if bool_decide (GOOS = "ios") || bool_decide (GOOS = "android") then
      let* ex := fileExists stateFilePath in
      when (negb ex) (ignore (createFile stateFilePath)) ;;;
      ret stateFilePath
    else ret path in
  call (NewStateManager path').

(** ** Closing *)

Definition close : E unit :=
  let* e := get in
  if_some (e_wgInterface e) (fun w =>
    ignore (check (call (WgClose w))) ;;;
    modify (set_wgInterface None) ;;;
    call (SrSetWgIface None)) ;;;
  if_some (e_firewall e) (fun fw => ignore (check (call (FwClose fw)))) ;;;
  if_some (e_rpManager e) (fun rp => ignore (check (call (RpClose rp)))).

Definition stopDNSForwarder : E unit :=
  let* e := get in
  if_some (e_dnsForwardMgr e) (fun f =>
    ignore (check (call (DnsForwarderStop f))) ;;;
    modify (set_dnsForwardMgr None)).

Definition dns_stopped (st : NSGroupState) : NSGroupState :=
  mkNSGroupState (nss_ID st) false (Some (New "DNS server stopped")).

Definition stopDNSServer : E unit :=
  let* e := get in
  if_some (e_dnsServer e) (fun d =>
    call (DnsStop d) ;;;
    modify (set_dnsServer None) ;;;
    let* nsGroupStates := call SrGetDNSStates in
    call (SrUpdateDNSStates (map dns_stopped nsGroupStates))).

(** ** Peers *)

Definition removePeer (peerKey : string) : E unit :=
  let* e := get in
  call (CmRemovePeerConn (e_connMgr e) peerKey) ;;;
  ignore (check (call (SrRemovePeer peerKey))).

Definition removeAllPeers : E unit :=
  let* keys := call PsPeersPubKey in
  for_each keys removePeer.

Definition removePeers (peersUpdate : list RemotePeerConfig) : E unit :=
  let newPeers := map rpc_WgPubKey peersUpdate in
  let* keys := call PsPeersPubKey in
  for_each (SliceDiff keys newPeers) removePeer.

Definition getRosenpassPubKey : E (option string) :=
  let* e := get in
  match e_rpManager e with
  | Some rp => let* k := call (RpGetPubKey rp) in ret (Some k)
  | None => ret None
  end.

Definition getRosenpassAddr : E string :=
  let* e := get in
  match e_rpManager e with
  | Some rp => let* a := call (RpGetAddress rp) in ret (udp_String a)
  | None => ret EmptyString
  end.

Definition createPeerConn (pubKey : string) (allowedIPs : list Prefix) (agentVersion : string) : E ref :=
  let* e := get in
  let c := e_config e in
  let* r := call (RandIntn (PeerConnectionTimeoutMax - PeerConnectionTimeoutMin)) in
  let timeout := (r + PeerConnectionTimeoutMin) * millisecond in
  let* rosenpassPubKey := getRosenpassPubKey in
  let* rosenpassAddr := getRosenpassAddr in
  let* peerConn := check_val (call (NewConn
    (mkConnConfig pubKey (Key_String (PublicKey (WgPrivateKey c))) agentVersion timeout (WgPort c)
       (WgPort c) (e_wgInterface e) allowedIPs (PreSharedKey c) rosenpassPubKey rosenpassAddr
       (RosenpassPermissive c)))) in
  if_some (e_rpManager e) (fun rp => call (ConnSetRosenpass peerConn rp)) ;;;
  ret peerConn.

(** The allowed addresses, up to the first that does not parse. *)
Fixpoint parse_prefixes (ips : list string) : list Prefix + error :=
  match ips with
  | [] => inl []
  | s :: ips' =>
      match ParsePrefix s with
      | inr err => inr err
      | inl p => match parse_prefixes ips' with inl ps => inl (p :: ps) | inr err => inr err end
      end
  end.

Definition errPeerExists : error := New "peer already exists".

Definition addNewPeer (peerConfig : RemotePeerConfig) : E unit :=
  let peerKey := rpc_WgPubKey peerConfig in
  let* known := call (PsPeerConn peerKey) in
  match known with
  | Some _ => ret tt
  | None =>
      match parse_prefixes (rpc_AllowedIps peerConfig) with
      | inr err => fail err
      | inl peerIPs =>
          let* conn := wrap (Wrap "create peer connection")
                         (createPeerConn peerKey peerIPs (rpc_AgentVersion peerConfig)) in
          match peerIPs with
          | [] => panic "index out of range: peerIPs[0]"
          | ip :: _ =>
              ignore (check (call (SrAddPeer peerKey (rpc_Fqdn peerConfig) (addr_String (prefix_ip ip))))) ;;;
              let* e := get in
              let* exists_ := call (CmAddPeerConn (e_connMgr e) peerKey conn) in
              match exists_ with
              | true => call (ConnClose conn) ;;; fail errPeerExists
              | false => ret tt
              end
          end
      end
  end.

Definition addNewPeers (peersUpdate : list RemotePeerConfig) : E unit := for_each peersUpdate addNewPeer.

(** Whether a known peer must be replaced; if not, its name is updated. *)
Definition check_modified (p : RemotePeerConfig) : E (option RemotePeerConfig) :=
  let peerPubKey := rpc_WgPubKey p in
  let* currentPeer := call (PsPeerConn peerPubKey) in
  match currentPeer with
  | None => ret None
  | Some conn =>
      let* version := call (ConnAgentVersion conn) in
      if bool_decide (version <> rpc_AgentVersion p) then ret (Some p)
      else
        let* allowedIPs := call (PsAllowedIPs peerPubKey) in
        match allowedIPs with
        | None => ret None
        | Some ips =>
            if negb (compareNetIPLists ips (rpc_AllowedIps p)) then ret (Some p)
            else ignore (check (call (SrUpdatePeerFQDN peerPubKey (rpc_Fqdn p)))) ;;; ret None
        end
  end.

Definition modifyPeers (peersUpdate : list RemotePeerConfig) : E unit :=
  let* modified := for_collect peersUpdate check_modified in
  for_each modified (fun p => removePeer (rpc_WgPubKey p)) ;;;
  for_each modified addNewPeer.

Definition updateOfflinePeers (offlinePeers : list RemotePeerConfig) : E unit :=
  call (SrReplaceOfflinePeers (map offlineState offlinePeers)).

(** ** Forwarded domains and ports *)

Definition startDNSForwarder (fwdEntries : list ForwarderEntry) : E unit :=
  let* e := get in
  let* mgr := call (NewDnsForwarder (e_firewall e) (e_wgInterface e)) in
  modify (set_dnsForwardMgr (Some mgr)) ;;;
  let* r := try (check (call (DnsForwarderStart mgr fwdEntries))) in
  match r with
  | inr _ => modify (set_dnsForwardMgr None)
  | inl _ => ret tt
  end.

Definition updateDNSForwarder (enabled : bool) (fwdEntries : list ForwarderEntry) : E unit :=
  let* e := get in
  if DisableServerRoutes (e_config e) then ret tt
  else if negb enabled then stopDNSForwarder
  else match fwdEntries with
       | _ :: _ =>
           match e_dnsForwardMgr e with
           | None => startDNSForwarder fwdEntries
           | Some f => call (DnsForwarderUpdateDomains f fwdEntries)
           end
       | [] =>
           match e_dnsForwardMgr e with
           | Some _ => stopDNSForwarder
           | None => ret tt
           end
       end.

Definition convert_rule (rule : ForwardingRule) : ForwardRule + error :=
  match convertToFirewallProtocol (fr_Protocol rule) with
  | inr err => inr (Wrap "failed to convert protocol" err)
  | inl proto =>
      match convertPortInfo (fr_DestinationPort rule) with
      | inr err => inr (Wrap "invalid destination port" err)
      | inl dst =>
          match convertToIP (fr_TranslatedAddress rule) with
          | inr err => inr (Wrap "failed to convert translated address" err)
          | inl ip =>
              match convertPortInfo (fr_TranslatedPort rule) with
              | inr err => inr (Wrap "invalid translate port" err)
              | inl port => inl (mkForwardRule proto dst ip port)
              end
          end
      end
  end.

(** The rules that convert, and the errors of the others. *)
Fixpoint convert_rules (rules : list ForwardingRule) : list ForwardRule * list error :=
  match rules with
  | [] => ([], [])
  | r :: rules' =>
      let '(rs, errs) := convert_rules rules' in
      match convert_rule r with inl x => (x :: rs, errs) | inr err => (rs, err :: errs) end
  end.

(** Both results: the rules and the error. *)
Definition updateForwardRules (rules : list ForwardingRule) : E (list ForwardRule * option error) :=
  let* e := get in
  match e_firewall e with
  | None => ret ([], None)
  | Some fw =>
      match rules with
      | [] =>
          match e_ingressGatewayMgr e with
          | None => ret ([], None)
          | Some m =>
              let* err := call (IngressClose m) in
              modify (set_ingressGatewayMgr None) ;;;
              call (SrSetIngressGwMgr None) ;;;
              ret ([], err)
          end
      | _ =>
          let* m :=
            match e_ingressGatewayMgr e with
            | Some m => ret m
            | None =>
                let* m := call (NewIngressGw fw) in
                modify (set_ingressGatewayMgr (Some m)) ;;;
                call (SrSetIngressGwMgr (Some m)) ;;;
                ret m
            end in
          let '(forwardingRules, errs) := convert_rules rules in
          ignore (check (call (IngressUpdate m forwardingRules))) ;;;
          ret (forwardingRules, FormatErrorOrNil errs)
      end
  end.

(** ** The network map *)

Definition updateConfig (pc : ProtoPeerConfig) : E unit :=
  let* e := get in
  match e_wgInterface e with
  | None => fail (New "wireguard interface is not initialized")
  | Some w =>
      let* addr := call (WgAddress w) in
      (if bool_decide (Address_String addr <> ppc_Address pc) then let* _ := call (WgAddress w) in ret tt else ret tt) ;;;
      match ppc_SshConfig pc with Some ssh => ignore (check (call (UpdateSSH ssh))) | None => ret tt end ;;;
      let* state := call SrGetLocalPeerState in
      let* addr2 := call (WgAddress w) in
      let* kernel := call WgModuleIsLoaded in
      call (SrUpdateLocalPeerState
              (mkLocalPeerState (Address_String addr2) (Key_String (PublicKey (WgPrivateKey (e_config e)))) kernel
                 (ppc_Fqdn pc) (lps_rest state)))
  end.

Definition lazy_flag (nm : NetworkMap) : bool :=
  match nm_PeerConfig nm with Some pc => ppc_LazyConnectionEnabled pc | None => false end.

Definition isLegacy (nm : NetworkMap) : bool :=
  Nat.eqb (nm_NumRoutesFirewallRules nm) 0 && negb (nm_RoutesFirewallRulesIsEmpty nm).

Definition prepare_firewall (nm : NetworkMap) : E unit :=
  let* e := get in
  if_some (e_firewall e) (fun fw =>
    let* _ := call (FwUpdateLocalIPs fw) in
    ignore (check (call (FwSetLegacyManagement fw (isLegacy nm))))).

Definition apply_dns (nm : NetworkMap) : E unit :=
  let protoDNSConfig := default protoDNSConfig0 (nm_DNSConfig nm) in
  let* addr := with_wg (fun w => call (WgAddress w)) in
  let* dnsConfig := lift (toDNSConfig protoDNSConfig (wa_Network addr)) in
  ignore (with_dns (fun d => check (call (DnsUpdateDNSServer d (nm_Serial nm) dnsConfig)))) ;;;
  with_routes (fun r => call (RmSetDNSForwarderPort r (dc_ForwarderPort dnsConfig))).

Definition apply_routes (nm : NetworkMap) : E unit :=
  let routes := toRoutes (nm_Routes nm) in
  let* p := with_routes (fun r => call (RmClassifyRoutes r routes)) in
  let '(serverRoutes, clientRoutes) := (p : gmap string Route * HAMap) in
  let* e := get in
  if_some (e_connMgr e) (fun m => call (CmUpdateRouteHAMap m clientRoutes)) ;;;
  let dnsRouteFeatureFlag := toDNSFeatureFlag nm in
  ignore (with_routes (fun r =>
    check (call (RmUpdateRoutes r (nm_Serial nm) serverRoutes clientRoutes dnsRouteFeatureFlag)))) ;;;
  let* e' := get in
  if_some (e_acl e') (fun a => call (AclApplyFiltering a nm dnsRouteFeatureFlag)) ;;;
  updateDNSForwarder dnsRouteFeatureFlag
    (toRouteDomains (Key_String (PublicKey (WgPrivateKey (e_config e')))) routes).

Definition apply_peers (nm : NetworkMap) : E unit :=
  if nm_RemotePeersIsEmpty nm then
    let* r := try removeAllPeers in
    call SrFinishPeerListModifications ;;;
    match r with inr err => fail err | inl _ => ret tt end
  else
    removePeers (nm_RemotePeers nm) ;;;
    modifyPeers (nm_RemotePeers nm) ;;;
    addNewPeers (nm_RemotePeers nm) ;;;
    call SrFinishPeerListModifications ;;;
    call (UpdatePeerSSHHostKeys (nm_RemotePeers nm)) ;;;
    ignore (check (call (UpdateSSHClientConfig (nm_RemotePeers nm)))).

(** What a map that is not outdated changes. *)
Definition apply_map (nm : NetworkMap) : E unit :=
  let* e := get in
  ignore (check (call (CmUpdatedRemoteFeatureFlag (e_connMgr e) (lazy_flag nm)))) ;;;
  prepare_firewall nm ;;;
  apply_dns nm ;;;
  apply_routes nm ;;;
  let* fr := updateForwardRules (nm_ForwardingRules nm) in
  let forwardingRules := fst fr in
  updateOfflinePeers (nm_OfflinePeers nm) ;;;
  apply_peers nm ;;;
  let excludedLazyPeers := toExcludedLazyPeers forwardingRules (nm_RemotePeers nm) in
  let* e' := get in
  call (CmSetExcludeList (e_connMgr e') excludedLazyPeers) ;;;
  modify (set_networkSerial (nm_Serial nm)) ;;;
  with_dns (fun d => call (DnsProbeAvailability d)).

Definition updateNetworkMap (nm : NetworkMap) : E unit :=
  match nm_PeerConfig nm with Some pc => updateConfig pc | None => ret tt end ;;;
  let* e := get in
  if nm_Serial nm <? e_networkSerial e then ret tt
  else apply_map nm.

(** ** The sync message *)

Definition updateSTUNs (stuns : list HostConfig) : E unit :=
  match stuns with
  | [] => ret tt
  | _ =>
      let* newSTUNs := lift (map_panic (fun s =>
        match ParseURI (hc_Uri s) with inl url => Ok url | inr err => Err err end) stuns) in
      modify (set_STUNs newSTUNs)
  end.

Definition turn_uri (turn : ProtectedHostConfig) : outcome URI :=
  match ph_HostConfig turn with
  | None => Panic "turn.HostConfig: nil pointer dereference"
  | Some h =>
      match ParseURI (hc_Uri h) with
      | inl url => Ok (with_credentials url (ph_User turn) (ph_Password turn))
      | inr err => Err err
      end
  end.

Definition updateTURNs (turns : list ProtectedHostConfig) : E unit :=
  match turns with
  | [] => ret tt
  | _ =>
      let* newTURNs := lift (map_panic turn_uri turns) in
      modify (set_TURNs newTURNs)
  end.

Definition handleRelayUpdate (update : option RelayConfig) : E unit :=
  match update with
  | Some u =>
      wrap (Wrap "update relay token") (check (call (RelayUpdateToken (rc_TokenPayload u) (rc_TokenSignature u)))) ;;;
      call (RelayUpdateServerURLs (rc_Urls u)) ;;;
      ignore (check (call RelayServe))
  | None => call (RelayUpdateServerURLs [])
  end.

Definition handleFlowUpdate (config : option FlowConfig) : E unit :=
  match config with
  | None => ret tt
  | Some c =>
      match toFlowLoggerConfig c with
      | inr err => fail err
      | inl flowConfig => with_flow (fun f => check (call (FlowUpdate f flowConfig)))
      end
  end.

Definition PopulateNetbirdConfig (netbirdConfig : option NetbirdConfig) (mgmtURL : option string) : E unit :=
  let* e := get in
  match e_dnsServer e with
  | None => ret tt
  | Some d =>
      match mgmtURL with
      | Some url => ignore (check (call (DnsPopulateManagementDomain d url)))
      | None => ret tt
      end ;;;
      match netbirdConfig with
      | Some c => wrap (Wrap "update DNS server config from NetbirdConfig") (check (call (DnsUpdateServerConfig d c)))
      | None => ret tt
      end
  end.

(** System information with the given checks, or without on failure, and the flags set. *)
Definition get_info (checks : list Checks) : E ref :=
  let* r := call (GetInfoWithChecks checks) in
  let* info := match r with inl i => ret i | inr _ => call GetInfo end in
  let* c := conf id in
  call (InfoSetFlags info (infoFlags c)) ;;;
  ret info.

Definition updateChecksIfNew (checks : list Checks) : E unit :=
  let* e := get in
  if isChecksEqual (e_checks e) checks then ret tt
  else
    modify (set_checks checks) ;;;
    let* info := get_info checks in
    check (call (MgmSyncMeta info)).

Definition handle_netbird_config (wCfg : NetbirdConfig) : E unit :=
  wrap (Wrap "update TURNs") (updateTURNs (nc_Turns wCfg)) ;;;
  wrap (Wrap "update STUNs") (updateSTUNs (nc_Stuns wCfg)) ;;;
  modify (fun e => set_stunTurn (e_STUNs e ++ e_TURNs e) e) ;;;
  handleRelayUpdate (nc_Relay wCfg) ;;;
  wrap (Wrap "handle the flow configuration") (handleFlowUpdate (nc_Flow wCfg)) ;;;
  ignore (PopulateNetbirdConfig (Some wCfg) None).

Definition handleSync (update : SyncResponse) : E unit :=
  match sr_NetbirdConfig update with Some wCfg => handle_netbird_config wCfg | None => ret tt end ;;;
  updateChecksIfNew (sr_Checks update) ;;;
  match sr_NetworkMap update with
  | None => ret tt
  | Some nm =>
      let* e := get in
      when (e_persistSyncResponse e) (modify (set_latestSyncResponse (Some update))) ;;;
      updateNetworkMap nm ;;;
      call (SrPublishEvent "Network map updated")
  end.

(** ** Signal messages *)

(** One message of the signal stream. *)
Definition handleSignal (msg : Message) : E unit :=
  let* known := call (PsPeerConn (m_Key msg)) in
  match known with
  | None => fail (New ("wrongly addressed message " +:+ m_Key msg))
  | Some conn =>
      let* e := get in
      when (bool_decide (b_Type (GetBody msg) <> GO_IDLE)) (call (CmActivatePeer (e_connMgr e) conn)) ;;;
      match m_Body msg with
      | None => panic "msg.GetBody().Type: nil pointer dereference"
      | Some body =>
          match b_Type body with
          | OFFER | ANSWER =>
              match convertToOfferAnswer msg with
              | inr err => fail err
              | inl offerAnswer =>
                  if bool_decide (b_Type body = OFFER) then call (ConnOnRemoteOffer conn offerAnswer)
                  else call (ConnOnRemoteAnswer conn offerAnswer)
              end
          | CANDIDATE =>
              let* candidate := check_val (call (UnmarshalCandidate (b_Payload body))) in
              let* routes := with_routes (fun r => call (RmGetClientRoutes r)) in
              call (GoConnOnRemoteCandidate conn candidate routes)
          | MODE => ret tt
          | GO_IDLE => call (CmDeactivatePeer (e_connMgr e) conn)
          end
      end
  end.

(** ** Goroutines *)

Definition shutdown_add (n : Z) : E unit := modify (fun e => set_shutdownWg (e_shutdownWg e + n) e).

(** What a stream goroutine does when its stream ends. *)
Definition stream_ended (r : unit + error) : E unit :=
  match r with
  | inr _ =>
      let* e := get in
      call (CtxWrapReset (e_cancel e)) ;;;
      call ClientCancel
  | inl _ => ret tt
  end.

Definition signal_goroutine : E unit :=
  with_defer (let* r := try (check (call SignalReceive)) in stream_ended r) (shutdown_add (-1)).

Definition receiveSignalEvents : E unit :=
  shutdown_add 1 ;;;
  call (Go "signal") ;;;
  call SignalWaitStreamConnected.

Definition management_goroutine : E unit :=
  with_defer
    (let* e := get in
     let* info := get_info (e_checks e) in
     let* r := try (check (call (MgmSync info))) in
     stream_ended r) (shutdown_add (-1)).

Definition receiveManagementEvents : E unit :=
  shutdown_add 1 ;;;
  call (Go "management").

Definition triggerClientRestart : E unit :=
  let* e := get in
  deref "ctx" (e_cancel e) (fun ctx =>
    let* done := call (CtxErr ctx) in
    match done with
    | true => ret tt
    | false =>
        call (CtxSetConnecting (Some ctx)) ;;;
        call (CtxWrapReset (Some ctx)) ;;;
        call ClientCancel
    end).

Definition startNetworkMonitor : E unit :=
  let* e := get in
  if negb (NetworkMonitor (e_config e)) then ret tt
  else
    let* m := call NewNetworkMonitor in
    modify (set_networkMonitor (Some m)) ;;;
    shutdown_add 1 ;;;
    call (Go "network monitor").

Definition network_monitor_goroutine : E unit :=
  with_defer
    (let* e := get in
     let* err := call (NetworkMonitorListen (e_networkMonitor e)) in
     match err with
     | Some _ => ret tt
     | None => triggerClientRestart
     end) (shutdown_add (-1)).

Definition wg_monitor_goroutine : E unit :=
  with_defer
    (let* e := get in
     let* name := with_wg (fun w => call (WgName w)) in
     let* r := call (WgMonitorStart (e_wgIfaceMonitor e) name) in
     if (fst r : bool) then triggerClientRestart else ret tt) (shutdown_add (-1)).

(** ** Start *)

Definition addrViaRoutes (IsAddrRouted : Addr -> list Prefix -> bool * Prefix) (addr : Addr) : E (bool * Prefix) :=
  let* m := with_routes (fun r => call (RmGetClientRoutes r)) in
  let vpnRoutes := omap (fun kv : string * list Route =>
                           match kv.2 with r :: _ => Some (r_Network r) | [] => None end) (map_order m) in
  let '(isVpn, prefix) := IsAddrRouted addr vpnRoutes in
  if (isVpn : bool) then ret (true, prefix) else ret (false, PrefixZero).

Record MobileDependency := mkMobileDependency {
  md_TunAdapter : option ref; md_FileDescriptor : Z; md_HostDNSAddresses : list string
}.

Definition newWgIface (mobileDep : MobileDependency) : E ref :=
  let* transportNet := call NewStdNet in
  let* c := conf id in
  let mobileArgs :=
    if bool_decide (GOOS = "android")
    then Some (mkMobileArgs (md_TunAdapter mobileDep) (md_FileDescriptor mobileDep))
    else if bool_decide (GOOS = "ios") then Some (mkMobileArgs None (md_FileDescriptor mobileDep))
    else None in
  check_val (call (WgNew (mkWGIFaceOpts (WgIfaceName c) (WgAddr c) (WgPort c) (Key_String (WgPrivateKey c))
                            (cfg_MTU c) mobileArgs transportNet (Some FilterAddrViaRoutes) (DisableDNS c)))).

Definition wgInterfaceCreate : E unit :=
  if bool_decide (GOOS = "android") then
    with_wg (fun w =>
      let* routes := with_routes (fun r => call (RmInitialRouteRange r)) in
      let* ip := with_dns (fun d => call (DnsServerIP d)) in
      let* domains := with_dns (fun d => call (DnsSearchDomains d)) in
      check (call (WgCreateOnAndroid w routes (addr_String ip) domains)))
  else if bool_decide (GOOS = "ios") then
    let* c := conf id in
    call (ListenerSetInterfaceIP (WgAddr c)) ;;;
    with_wg (fun w => check (call (WgCreate w)))
  else with_wg (fun w => check (call (WgCreate w))).

Definition readInitialSettings : E (list Route * option DnsConfig * bool) :=
  if negb (bool_decide (GOOS = "android")) then ret ([], None, false)
  else
    let* info := call GetInfo in
    let* c := conf id in
    call (InfoSetFlags info (infoFlags c)) ;;;
    let* netMap := check_val (call (MgmGetNetworkMap info)) in
    let routes := toRoutes (nm_Routes netMap) in
    let* addr := with_wg (fun w => call (WgAddress w)) in
    let* dnsCfg := lift (toDNSConfig (default protoDNSConfig0 (nm_DNSConfig netMap)) (wa_Network addr)) in
    ret (routes, Some dnsCfg, toDNSFeatureFlag netMap).

Definition newDnsServer (dnsConfig : option DnsConfig) : E ref :=
  let* e := get in
  match e_dnsServer e with
  | Some d => ret d
  | None =>
      if bool_decide (GOOS = "android") then
        deref "dnsConfig" dnsConfig (fun c =>
          let* d := call (NewDnsServerPermanent (e_wgInterface e) c (DisableDNS (e_config e))) in
          call (Go "OnReady") ;;;
          ret d)
      else if bool_decide (GOOS = "ios") then
        call (NewDnsServerIos (e_wgInterface e) (DisableDNS (e_config e)))
      else
        check_val (call (NewDnsServer (e_wgInterface e) (CustomDNSAddress (e_config e)) (DisableDNS (e_config e))))
  end.

(** [net.Interfaces] and the addresses of each: the IPv4 networks to block, and the
    errors met. *)
Fixpoint addr_prefixes (addrs : list NetAddr) : list Prefix * list error :=
  match addrs with
  | [] => ([], [])
  | a :: addrs' =>
      let '(ps, errs) := addr_prefixes addrs' in
      match a with
      | NetOther => (ps, New "cast address to IPNet" :: errs)
      | NetIPNet n =>
          match lan_prefix n with
          | inr err => (ps, err :: errs)
          | inl None => (ps, errs)
          | inl (Some p) => (p :: ps, errs)
          end
      end
  end.

Fixpoint iface_prefixes (ifaces : list string) : E (list Prefix * list error) :=
  match ifaces with
  | [] => ret ([], [])
  | name :: ifaces' =>
      let* r := call (IfaceAddrs name) in
      let '(ps, errs) := match r with
                         | inr err => ([], [Wrap "get addresses for interface" err])
                         | inl addrs => addr_prefixes addrs
                         end in
      let* rest := iface_prefixes ifaces' in
      ret (ps ++ fst rest, errs ++ snd rest)
  end.

(** Both results: the prefixes and the error. *)
Definition getInterfacePrefixes : E (list Prefix * option error) :=
  let* r := call NetInterfaces in
  match r with
  | inr err => ret ([], Some (Wrap "get interfaces" err))
  | inl ifaces =>
      let* p := iface_prefixes ifaces in
      ret (fst p, FormatErrorOrNil (snd p))
  end.

Definition v4_all : Prefix := PrefixFrom (Addr4 0) 0.

Definition blockLanAccess : E unit :=
  let* c := conf id in
  if BlockInbound c then ret tt
  else
    let* r := getInterfacePrefixes in
    for_each (fst r) (fun network =>
      with_firewall (fun fw => ignore (check (call (FwDropRoute fw v4_all network))))).

Definition initFirewall : E unit :=
  let* e := get in
  deref "firewall" (e_firewall e) (fun fw =>
    let* r := try (with_routes (fun r => check (call (RmSetFirewall r fw)))) in
    match r with
    | inr err => close ;;; fail (Wrap "set firewall" err)
    | inl _ =>
        when (BlockLANAccess (e_config e)) blockLanAccess ;;;
        match e_rpManager e with
        | None => ret tt
        | Some rp =>
            if negb (RosenpassEnabled (e_config e)) then ret tt
            else
              let* a := call (RpGetAddress rp) in
              ignore (check (call (FwAddPeerFiltering fw (wrapu 16 (udp_Port a)))))
        end
    end).

Definition createFirewall : E unit :=
  let* e := get in
  if DisableFirewall (e_config e) then ret tt
  else
    let* logger := with_flow (fun f => call (FlowGetLogger f)) in
    let* r := call (NewFirewall (e_wgInterface e) logger (DisableServerRoutes (e_config e)) (cfg_MTU (e_config e))) in
    let '(fw, err) := (r : option ref * option error) in
    modify (set_firewall fw) ;;;
    match err, fw with
    | None, Some _ => initFirewall
    | _, _ => ret tt
    end.

(** A step of [Start] whose failure closes the engine. *)
Definition or_close {A} (msg : string) (m : E A) : E A :=
  let* r := try m in
  match r with
  | inl a => ret a
  | inr err => close ;;; fail (Wrap msg err)
  end.

Definition start_rosenpass : E unit :=
  let* c := conf id in
  if RosenpassEnabled c then
    let* r := call (NewRosenpass (PreSharedKey c) (WgIfaceName c)) in
    match r with
    | inr err => modify (set_rpManager None) ;;; fail (Wrap "create rosenpass manager" err)
    | inl rp =>
        modify (set_rpManager (Some rp)) ;;;
        wrap (Wrap "run rosenpass manager") (check (call (RpRun rp)))
    end
  else ret tt.

Definition start_interface (mobileDep : MobileDependency) : E ref :=
  let* c := conf id in
  match ValidateMTU (cfg_MTU c) with
  | Some err => fail (Wrap "invalid MTU configuration" err)
  | None =>
      let* e := get in
      if_some (e_cancel e) (fun ctx => call (CancelCtx ctx)) ;;;
      let* ctx := call WithCancel in
      modify (set_cancel (Some ctx)) ;;;
      let* wgIface := wrap (Wrap "new wg interface") (newWgIface mobileDep) in
      modify (set_wgInterface (Some wgIface)) ;;;
      call (SrSetWgIface (Some wgIface)) ;;;
      let* flow := call (NewFlowManager wgIface (PublicKey (WgPrivateKey c))) in
      modify (set_flowManager (Some flow)) ;;;
      ret wgIface
  end.

Definition start_routes (dnsServer : ref) (initialRoutes : list Route) (dnsFeatureFlag : bool) : E unit :=
  let* e := get in
  let c := e_config e in
  let* rm := call (NewRouteManager
    (mkRouteManagerConfig (Key_String (PublicKey (WgPrivateKey c))) (DNSRouteInterval c) (e_wgInterface e)
       initialRoutes dnsServer dnsFeatureFlag (DisableClientRoutes c) (DisableServerRoutes c))) in
  modify (set_routeManager (Some rm)) ;;;
  ignore (check (call (RmInit rm))) ;;;
  call (RmSetRouteChangeListener rm).

Definition start_streams (wgIface : ref) : E unit :=
  let* m := call (NewConnMgr wgIface) in
  modify (set_connMgr (Some m)) ;;;
  call (CmStart (Some m)) ;;;
  let* sw := call NewSRWatcher in
  modify (set_srWatcher (Some sw)) ;;;
  call (SRWatcherStart sw) ;;;
  receiveSignalEvents ;;;
  receiveManagementEvents ;;;
  startNetworkMonitor ;;;
  let* wm := call NewWGIfaceMonitor in
  modify (set_wgIfaceMonitor (Some wm)) ;;;
  shutdown_add 1 ;;;
  call (Go "wg monitor").

(** Access control, unless inbound connections are blocked anyway. *)
Definition start_acl : E unit :=
  let* e := get in
  match e_firewall e with
  | Some fw => if BlockInbound (e_config e) then ret tt
               else let* a := call (NewAclManager fw) in modify (set_acl (Some a))
  | None => ret tt
  end.

(** The interface is created and brought up, then everything that runs on it. *)
Definition start_device (wgIface : ref) : E unit :=
  or_close "create wg interface" wgInterfaceCreate ;;;
  createFirewall ;;;
  let* mux := or_close "up wg interface" (with_wg (fun w => check_val (call (WgUp w)))) in
  modify (set_udpMux (Some mux)) ;;;
  start_acl ;;;
  or_close "initialize dns server" (with_dns (fun d => check (call (DnsInitialize d)))) ;;;
  start_streams wgIface.

Definition Start (mobileDep : MobileDependency) (netbirdConfig : option NetbirdConfig) (mgmtURL : option string) : E unit :=
  let* wgIface := start_interface mobileDep in
  start_rosenpass ;;;
  call StateManagerStart ;;;
  let* settings := or_close "read initial settings" readInitialSettings in
  let '(initialRoutes, dnsConfig, dnsFeatureFlag) := (settings : list Route * option DnsConfig * bool) in
  let* dnsServer := or_close "create dns server" (newDnsServer dnsConfig) in
  modify (set_dnsServer (Some dnsServer)) ;;;
  ignore (PopulateNetbirdConfig netbirdConfig mgmtURL) ;;;
  start_routes dnsServer initialRoutes dnsFeatureFlag ;;;
  start_device wgIface.

(** ** Stop *)

Definition waitWithContext (timeout : Z) : E unit :=
  let* done := call (ShutdownDone timeout) in
  match done with
  | true => ret tt
  | false => fail (Sentinel "context.DeadlineExceeded")
  end.

Definition Stop : E unit :=
  let* e := get in
  if_some (e_connMgr e) (fun m => call (CmClose m)) ;;;
  if_some (e_networkMonitor e) (fun m => call (NetworkMonitorStop m)) ;;;
  ignore (check (call StopSSHServer)) ;;;
  call CleanupSSHConfig ;;;
  stopDNSServer ;;;
  if_some (e_ingressGatewayMgr e) (fun m =>
    ignore (check (call (IngressClose m))) ;;; modify (set_ingressGatewayMgr None)) ;;;
  stopDNSForwarder ;;;
  if_some (e_routeManager e) (fun r => call (RmStop r)) ;;;
  if_some (e_srWatcher e) (fun w => call (SRWatcherClose w)) ;;;
  call (SrReplaceOfflinePeers []) ;;;
  call (SrUpdateDNSStates []) ;;;
  call (SrUpdateRelayStates []) ;;;
  wrap (Opaque "failed to remove all peers") removeAllPeers ;;;
  if_some (e_cancel e) (fun ctx => call (CancelCtx ctx)) ;;;
  close ;;;
  if_some (e_flowManager e) (fun f => call (FlowClose f)) ;;;
  wrap (Wrap "failed to stop state manager") (check (call (StateManagerStop (3 * second)))) ;;;
  ignore (check (call StateManagerPersist)) ;;;
  let* keys := call PsPeersPubKey in
  ignore (waitWithContext (calculateShutdownTimeout (Z.of_nat (length keys)))).

(** ** Probes, getters and settings *)

Definition update_wg_states (stats : gmap string WGStats) (keys : list string) : E unit :=
  for_each keys (fun key =>
    match stats !! key with
    | Some st => ignore (check (call (SrUpdateWireGuardPeerState key st)))
    | None => ret tt
    end).

Definition RunHealthProbes (waitForResult : bool) : E bool :=
  let* signalHealthy := call SignalIsHealthy in
  let* managementHealthy := call MgmIsHealthy in
  let* e := get in
  let* stats := match e_wgInterface e with
                | Some w => let* r := call (WgGetStats w) in
                            ret (match r with inl m => inl (Some m) | inr err => inr err end)
                | None => ret (inl None)
                end in
  match (stats : option (gmap string WGStats) + error) with
  | inr _ => ret false
  | inl o =>
      match o with
      | Some m => let* keys := call PsPeersPubKey in update_wg_states m keys
      | None => ret tt
      end ;;;
      let* results := call (ProbeAll waitForResult (e_STUNs e) (e_TURNs e)) in
      call (SrUpdateRelayStates results) ;;;
      let relayHealthy := forallb (fun r => match pres_Err r with None => true | Some _ => false end) results in
      ret ((signalHealthy : bool) && (managementHealthy : bool) && relayHealthy)
  end.

Definition SetSyncResponsePersistence (enabled : bool) : E unit :=
  let* e := get in
  if Bool.eqb enabled (e_persistSyncResponse e) then ret tt
  else
    modify (set_persistSyncResponse enabled) ;;;
    when (negb enabled) (modify (set_latestSyncResponse None)).

Definition GetLatestSyncResponse : E (option SyncResponse) :=
  let* e := get in
  if negb (e_persistSyncResponse e) then fail (New "sync response persistence is disabled")
  else ret (e_latestSyncResponse e).

Definition GetRouteManager : E (option ref) := let* e := get in ret (e_routeManager e).
Definition GetFirewallManager : E (option ref) := let* e := get in ret (e_firewall e).

Definition errNoInterface : error := New "wireguard interface not initialized".

Definition GetWgAddr : E Addr :=
  let* e := get in
  match e_wgInterface e with
  | None => ret AddrZero
  | Some w => let* a := call (WgAddress w) in ret (wa_IP a)
  end.

Definition engine_RenewTun (fd : Z) : E unit :=
  let* e := get in
  match e_wgInterface e with
  | None => fail errNoInterface
  | Some w => check (call (WgRenewTun w fd))
  end.

Definition engine_GetNet : E ref :=
  let* e := get in
  match e_wgInterface e with
  | None => fail errNoInterface
  | Some w =>
      let* n := call (WgGetNet w) in
      match n with None => fail (New "failed to get netstack") | Some n => ret n end
  end.

Definition engine_Address : E Addr :=
  let* e := get in
  match e_wgInterface e with
  | None => fail errNoInterface
  | Some w => with_wg (fun w => let* a := call (WgAddress w) in ret (wa_IP a))
  end.

(** ** NAT mappings *)

Fixpoint first_ip4 (addrs : list NetAddr) : outcome (option string) :=
  match addrs with
  | [] => Ok None
  | NetOther :: _ => Panic "addr.(*net.IPNet)"
  | NetIPNet n :: addrs' =>
      match ip_To4 (ipnet_IP n) with
      | Some v => Ok (Some (be_bytes 4 v))
      | None => first_ip4 addrs'
      end
  end.

Definition findIPFromInterface (name : string) : E string :=
  let* ifaceAddrs := check_val (call (IfaceAddrs name)) in
  let* r := lift (first_ip4 ifaceAddrs) in
  match r with
  | Some ip => ret ip
  | None => fail (New ("interface " +:+ name +:+ " don't have an ipv4 address"))
  end.

Definition findIPFromInterfaceName (ifaceName : string) : E string :=
  let* iface := check_val (call (NetInterfaceByName ifaceName)) in
  findIPFromInterface iface.

(** The internal address of a mapping: [Some None] when it has none, [None] when it
    is refused. *)
Definition internal_ip (blacklist : list string) (split : list string) : E (option (option string)) :=
  match split with
  | _ :: internal :: _ =>
      match ParseIP internal with
      | Some ip => ret (Some (Some ip))
      | None =>
          if bool_decide (internal ∈ blacklist) then ret None
          else
            let* r := try (findIPFromInterfaceName internal) in
            ret (match r with inl ip => Some (Some ip) | inr _ => None end)
      end
  | _ => ret (Some None)
  end.

(** The mappings parsed, up to the first that is refused. *)
Fixpoint parse_mappings (blacklist : list string) (l : list string) : E (list string) :=
  match l with
  | [] => ret []
  | mapping :: l' =>
      let split := Split "/" mapping in
      if (2 <? length split)%nat then ret []
      else
        let* internal := internal_ip blacklist split in
        match internal with
        | None => ret []
        | Some internalIP =>
            match ParseIP (default EmptyString (head split)) with
            | None => ret []
            | Some externalIP =>
                let mappedIP := match internalIP with
                                | Some ip => ip_String externalIP +:+ "/" +:+ ip_String ip
                                | None => ip_String externalIP
                                end in
                let* rest := parse_mappings blacklist l' in
                ret (mappedIP :: rest)
            end
        end
  end.

Definition parseNATExternalIPMappings : E (list string) :=
  let* c := conf id in
  let* mappedIPs := parse_mappings (IFaceBlackList c) (NATExternalIPs c) in
  ret (if negb (Nat.eqb (length mappedIPs) (length (NATExternalIPs c))) then [] else mappedIPs).

End engine.
