(* ===== verification/EnginePeers.v ===== *)
(** * The engine keeps its peers in step with the network map

    [PeerWorld] is what the engine relies on of the packages that hold its peer
    connections (the peer store, the connection manager, the connections; none is
    in the repository): the store maps keys to connections, a connection keeps the
    configuration it was made with. Against that interface the file proves the
    engine's main property: a network map that is not outdated leaves exactly its
    remote peers in the store, each with the allowed addresses and agent version
    the map gives it. *)

From Stdlib Require Import ZArith Lia Ascii.
From stdpp Require Import base tactics list strings gmap fin_maps fin_map_dom.
From S2P Require Import Prelude GoStrings Netip Uapi Configurer Routes WgIface EngineData Engine.

(** The calls that may change the store or the connections. *)
Definition peer_call `{!EngLib} {R} (c : engC R) : bool :=
  match c with
  | CmAddPeerConn _ _ _ | CmRemovePeerConn _ _ | CmClose _ | NewConn _ => true
  | _ => false
  end.

Class PeerWorld (W : Type) {el : EngLib} `{!Handler engC W} := {
  store : W -> gmap string ref;
  conns : W -> gmap ref ConnConfig;
  peers_frame : forall R (c : engC R) w, peer_call c = false ->
    store (handle c w).2 = store w /\ conns (handle c w).2 = conns w;
  PsPeersPubKey_store : forall w k, k ∈ (handle PsPeersPubKey w).1 <-> is_Some (store w !! k);
  PsPeerConn_store : forall w k, (handle (PsPeerConn k) w).1 = store w !! k;
  PsAllowedIPs_store : forall w k,
    (handle (PsAllowedIPs k) w).1 = (cc_AllowedIps <$> (store w !! k ≫= fun c => conns w !! c) : option (list Prefix));
  ConnAgentVersion_conns : forall w c cfg, conns w !! c = Some cfg ->
    (handle (ConnAgentVersion c) w).1 = cc_AgentVersion cfg;
  NewConn_conns : forall w cfg,
    store (handle (NewConn cfg) w).2 = store w /\
    match (handle (NewConn cfg) w).1 with
    | inl c => conns w !! c = None /\ conns (handle (NewConn cfg) w).2 = <[c := cfg]> (conns w)
    | inr _ => conns (handle (NewConn cfg) w).2 = conns w
    end;
  CmAddPeerConn_store : forall w m k c,
    let '(known, w') := handle (CmAddPeerConn (Some m) k c) w in
    known = bool_decide (is_Some (store w !! k)) /\ conns w' = conns w /\
    store w' = if known then store w else <[k := c]> (store w);
  CmRemovePeerConn_store : forall w m k,
    let '(_, w') := handle (CmRemovePeerConn (Some m) k) w in
    conns w' = conns w /\ store w' = delete k (store w)
}.

Section peers.
Context {wg : WgTypes} {rl : RouteLib} {el : EngLib} {mo : MapOrder} {me : MultiError}.
Context {W : Type} `{!Handler engC W, !PeerWorld W}.
Notation St := (state engC Engine W).

(** ** The parts of the engine that leave the peers alone *)

(** What those parts keep. *)
Definition same (s s' : St) : Prop :=
  store (world s') = store (world s) /\ conns (world s') = conns (world s) /\
  e_connMgr (loc s') = e_connMgr (loc s) /\ e_wgInterface (loc s') = e_wgInterface (loc s) /\
  e_dnsServer (loc s') = e_dnsServer (loc s) /\ e_routeManager (loc s') = e_routeManager (loc s) /\
  e_networkSerial (loc s') = e_networkSerial (loc s).

Lemma same_refl s : same s s.
Proof. by repeat split. Qed.
Lemma same_trans s1 s2 s3 : same s1 s2 -> same s2 s3 -> same s1 s3.
Proof. unfold same. intros (?&?&?&?&?&?&?) (?&?&?&?&?&?&?). repeat split; congruence. Qed.

(** The interface values a network map needs are there. *)
Definition ready (s : St) : Prop :=
  is_Some (e_wgInterface (loc s)) /\ is_Some (e_dnsServer (loc s)) /\ is_Some (e_routeManager (loc s)).

Lemma same_ready s s' : same s s' -> ready s -> ready s'.
Proof. unfold same, ready. intros (_&_&_&->&->&->&_). done. Qed.

(** [m] does not panic in a ready engine and leaves the peers alone; with [ok], it
    returns no error. *)
Definition quiet {A} (ok : bool) (m : E A) : Prop :=
  forall s, ready s -> wp m (fun r s' => same s s' /\ match r with inl _ => True | inr _ => ok = false end) s.

Lemma quiet_wp {A} ok (m : E A) s (Q : A + error -> St -> Prop) :
  quiet ok m -> ready s ->
  (forall a s', same s s' -> Q (inl a) s') ->
  (forall e s', same s s' -> ok = false -> Q (inr e) s') ->
  wp m Q s.
Proof.
  intros Hm Hs H1 H2. eapply wp_mono; [by apply Hm |]. intros [a|e] s' [Hr Ho]; [by apply H1 | by apply H2].
Qed.

Lemma quiet_ret {A} ok (a : A) : quiet ok (ret a).
Proof. intros s _. apply wp_ret. split; [apply same_refl | done]. Qed.
Lemma quiet_fail {A} e : quiet false (@fail engC Engine W A e).
Proof. intros s _. apply wp_fail. split; [apply same_refl | done]. Qed.
Lemma quiet_get ok : quiet ok get.
Proof. intros s _. apply wp_get. split; [apply same_refl | done]. Qed.
Lemma quiet_call ok {R} (c : engC R) : peer_call c = false -> quiet ok (call c).
Proof.
  intros Hc s _. apply wp_call. intros r w Hw. split; [| done].
  destruct (peers_frame R c (world s) Hc) as [H1 H2]. rewrite Hw in H1, H2. by repeat split.
Qed.
Lemma quiet_modify ok f :
  (forall e, e_connMgr (f e) = e_connMgr e /\ e_wgInterface (f e) = e_wgInterface e /\
     e_dnsServer (f e) = e_dnsServer e /\ e_routeManager (f e) = e_routeManager e /\
     e_networkSerial (f e) = e_networkSerial e) -> quiet ok (modify f).
Proof.
  intros Hf s _. apply wp_modify. split; [| done]. destruct (Hf (loc s)) as (?&?&?&?&?). by repeat split.
Qed.
Lemma quiet_bind {A B} ok (m : E A) (k : A -> E B) :
  quiet ok m -> (forall a, quiet ok (k a)) -> quiet ok (bind m k).
Proof.
  intros Hm Hk s Hs. apply wp_bind. apply (quiet_wp ok); [done | done | |].
  - intros a s1 H1. cbn [wp_then]. apply (quiet_wp ok); [apply Hk | by eapply same_ready | |].
    + intros b s2 H2. split; [by eapply same_trans | done].
    + intros e s2 H2 Ho. split; [by eapply same_trans | done].
  - intros e s1 H1 Ho. by split.
Qed.
Lemma quiet_ignore {A} ok (m : E A) : quiet false m -> quiet ok (ignore m).
Proof.
  intros Hm s Hs. apply wp_ignore. by apply (quiet_wp false).
Qed.
Lemma quiet_try {A} ok (m : E A) : quiet false m -> quiet ok (try m).
Proof. intros Hm s Hs. apply wp_try. by apply (quiet_wp false). Qed.
Lemma quiet_check ok (m : E (option error)) : quiet ok m -> quiet false (check m).
Proof.
  intros Hm s Hs. apply wp_check. apply (quiet_wp ok); [done | done | |].
  - intros [e|] s1 H1; by split.
  - intros e s1 H1 _. by split.
Qed.
Lemma quiet_if_some {B} ok (o : option B) k : (forall r, quiet ok (k r)) -> quiet ok (if_some o k).
Proof. intros Hk. destruct o; [apply Hk | apply quiet_ret]. Qed.
Lemma quiet_with_wg {A} ok (k : ref -> E A) : (forall r, quiet ok (k r)) -> quiet ok (with_wg k).
Proof.
  intros Hk s Hs. unfold with_wg. wps. apply wp_deref; [apply Hs |]. intros r _. by apply Hk.
Qed.
Lemma quiet_with_dns {A} ok (k : ref -> E A) : (forall r, quiet ok (k r)) -> quiet ok (with_dns k).
Proof.
  intros Hk s Hs. unfold with_dns. wps. apply wp_deref; [apply Hs |]. intros r _. by apply Hk.
Qed.
Lemma quiet_with_routes {A} ok (k : ref -> E A) : (forall r, quiet ok (k r)) -> quiet ok (with_routes k).
Proof.
  intros Hk s Hs. unfold with_routes. wps. apply wp_deref; [apply Hs |]. intros r _. by apply Hk.
Qed.

Ltac quiet :=
  repeat first
    [ progress intros
    | apply quiet_ignore | apply quiet_try | apply quiet_if_some | apply quiet_with_wg
    | apply quiet_with_dns | apply quiet_with_routes
    | apply (quiet_check true) | apply quiet_ret | apply quiet_fail | apply quiet_get
    | apply quiet_call; reflexivity
    | apply quiet_modify; by repeat split | apply quiet_bind
    | match goal with
      | |- quiet _ (match ?x with _ => _ end) => destruct x
      | |- quiet _ (let '_ := ?x in _) => destruct x
      end ].

Lemma quiet_prepare_firewall nm : quiet true (prepare_firewall nm).
Proof. unfold prepare_firewall. quiet. Qed.

Lemma quiet_updateDNSForwarder b es : quiet true (updateDNSForwarder b es).
Proof.
  unfold updateDNSForwarder, stopDNSForwarder, startDNSForwarder. quiet.
Qed.

Lemma quiet_apply_routes nm : quiet true (apply_routes nm).
Proof. unfold apply_routes. quiet; apply quiet_updateDNSForwarder. Qed.

Lemma quiet_updateForwardRules rules : quiet true (updateForwardRules rules).
Proof. unfold updateForwardRules. quiet. Qed.

(** Name servers that all have an address cannot make the DNS conversion panic. *)
Definition dns_ok (nm : NetworkMap) : Prop :=
  Forall (fun ns => exists a, ParseAddr (pns_IP ns) = inl a)
    (nameservers (default protoDNSConfig0 (nm_DNSConfig nm))).

Lemma toDNSConfig_ok c network :
  Forall (fun ns => exists a, ParseAddr (pns_IP ns) = inl a) (nameservers c) ->
  exists d, toDNSConfig c network = Ok d.
Proof.
  intros Hc. rewrite Forall_forall in Hc. unfold toDNSConfig.
  pose proof (map_panic_ok toNSGroup (pd_NameServerGroups c)) as H.
  destruct (map_panic toNSGroup (pd_NameServerGroups c)) as [gs|e|p]; [by eexists | |];
    destruct H as (g & Hg & E); pose proof (toNSGroup_spec g) as Hs; rewrite E in Hs; [done |].
  destruct Hs as (ns & e & Hns & He). destruct (Hc ns) as [a Ha]; [| congruence].
  unfold nameservers. apply list_elem_of_bind. by exists g.
Qed.

Lemma quiet_apply_dns nm : dns_ok nm -> quiet true (apply_dns nm).
Proof.
  intros Hd. unfold apply_dns. apply quiet_bind; [quiet |]. intros addr.
  destruct (toDNSConfig_ok _ (wa_Network addr) Hd) as [d Ed]. rewrite Ed. apply quiet_bind.
  - intros s _. apply wp_lift. split; [apply same_refl | done].
  - quiet.
Qed.

Lemma quiet_updateConfig pc : quiet true (updateConfig pc).
Proof.
  intros s Hs. unfold updateConfig. wps. destruct Hs as ([w Hw] & Hd & Hr). rewrite Hw.
  match goal with |- wp ?m _ _ => cut (quiet true m); [intros Hq; apply Hq; by split |] end.
  quiet.
Qed.

(** ** One peer *)

(** A store whose connections all exist, behind a connection manager. *)
Definition wf (s : St) : Prop :=
  is_Some (e_connMgr (loc s)) /\ map_Forall (fun _ c => is_Some (conns (world s) !! c)) (store (world s)).

(** A connection made for what the map says of a peer. *)
Definition serves (cfg : ConnConfig) (p : RemotePeerConfig) : Prop :=
  cc_AgentVersion cfg = rpc_AgentVersion p /\
  exists ps, Forall2 (fun s p => ParsePrefix s = inl p) (rpc_AllowedIps p) ps /\
    map prefix_String (cc_AllowedIps cfg) ≡ₚ map prefix_String ps.

Definition connected (w : W) (p : RemotePeerConfig) : Prop :=
  exists c cfg, store w !! rpc_WgPubKey p = Some c /\ conns w !! c = Some cfg /\ serves cfg p.

(** A peer of a map: some allowed address, as many as a slice can hold. *)
Definition peer_ok (p : RemotePeerConfig) : Prop :=
  rpc_AllowedIps p <> [] /\ Z.of_nat (length (rpc_AllowedIps p)) < 2 ^ 63.

(** Why adding a peer can fail: an address that is no prefix, a connection that
    cannot be made. *)
Definition add_failed (ps : list RemotePeerConfig) (s : St) : Prop :=
  (exists p ip e, p ∈ ps /\ ip ∈ rpc_AllowedIps p /\ ParsePrefix ip = inr e) \/
  (exists cfg e, saw (Event (NewConn cfg) (inr e)) s).

Lemma parse_prefixes_spec ips :
  match parse_prefixes ips with
  | inl ps => Forall2 (fun s p => ParsePrefix s = inl p) ips ps
  | inr e => exists ip, ip ∈ ips /\ ParsePrefix ip = inr e
  end.
Proof.
  induction ips as [|s ips IH]; cbn [parse_prefixes]; [constructor |].
  destruct (ParsePrefix s) as [p|e] eqn:E; [| exists s; split; [left | done]].
  destruct (parse_prefixes ips) as [ps|e]; [by constructor |].
  destruct IH as (ip & Hip & He). exists ip. split; [by right | done].
Qed.

(** The engine's fields stay as they are. *)
Definition same_loc (s s' : St) : Prop := loc s' = loc s.

(** A call whose effect on the peers is known. *)
Lemma wp_peer_call {R} (c : engC R) (Q : R + error -> St -> Prop) s :
  peer_call c = false ->
  (forall r w, store w = store (world s) -> conns w = conns (world s) ->
     handle c (world s) = (r, w) -> Q (inl r) (mkState (loc s) w (Event c r :: calls s))) ->
  wp (call c) Q s.
Proof.
  intros Hc HQ. apply wp_call. intros r w Hw. destruct (peers_frame R c (world s) Hc) as [H1 H2].
  rewrite Hw in H1, H2. by apply HQ.
Qed.

Definition peers_of (s : St) : gmap string ref * gmap ref ConnConfig := (store (world s), conns (world s)).

Definition still {A} (ok : bool) (m : E A) : Prop :=
  forall s, wp m (fun r s' => loc s' = loc s /\ peers_of s' = peers_of s /\
                             match r with inl _ => True | inr _ => ok = false end) s.

Lemma still_call ok {R} (c : engC R) : peer_call c = false -> still ok (call c).
Proof.
  intros Hc s. apply wp_peer_call; [done |]. intros r w H1 H2 _. unfold peers_of. cbn. by rewrite H1, H2.
Qed.

Lemma still_log (m : E (option error)) : still true m -> still true (ignore (check m)).
Proof.
  intros Hm s. apply wp_ignore, wp_check. eapply wp_mono; [apply Hm |].
  intros [[e|]|e] s' (H1 & H2 & H3); by repeat split.
Qed.

Lemma still_getRosenpassPubKey : still true getRosenpassPubKey.
Proof.
  intros s. unfold getRosenpassPubKey. wps. destruct (e_rpManager (loc s)) as [rp|]; wps; [| done].
  pose proof (peers_frame _ (RpGetPubKey rp) (world s) eq_refl) as [H1 H2]. rewrite H in H1, H2.
  unfold peers_of. cbn in *. by rewrite H1, H2.
Qed.

Lemma still_getRosenpassAddr : still true getRosenpassAddr.
Proof.
  intros s. unfold getRosenpassAddr. wps. destruct (e_rpManager (loc s)) as [rp|]; wps; [| done].
  pose proof (peers_frame _ (RpGetAddress rp) (world s) eq_refl) as [H1 H2]. rewrite H in H1, H2.
  unfold peers_of. cbn in *. by rewrite H1, H2.
Qed.

Lemma still_wp {A} (m : E A) s (Q : A + error -> St -> Prop) :
  still true m -> (forall a s', loc s' = loc s -> peers_of s' = peers_of s -> Q (inl a) s') -> wp m Q s.
Proof.
  intros Hm HQ. eapply wp_mono; [apply Hm |]. intros [a|e] s' (H1 & H2 & H3); [by apply HQ | done].
Qed.

Lemma createPeerConn_wp key ips version s (Q : ref + error -> St -> Prop) :
  (forall c cfg s', loc s' = loc s -> store (world s') = store (world s) ->
     conns (world s) !! c = None -> conns (world s') = <[c := cfg]> (conns (world s)) ->
     cc_AgentVersion cfg = version -> cc_AllowedIps cfg = ips -> Q (inl c) s') ->
  (forall e s', (exists cfg e, saw (Event (NewConn cfg) (inr e)) s') -> Q (inr e) s') ->
  wp (createPeerConn key ips version) Q s.
Proof.
  intros H1 H2. unfold createPeerConn. apply wp_bind, wp_get. cbn [wp_then].
  apply wp_bind, still_wp; [by apply still_call |]. intros r s1 L1 P1. cbn [wp_then].
  apply wp_bind, still_wp; [apply still_getRosenpassPubKey |]. intros k s2 L2 P2. cbn [wp_then].
  apply wp_bind, still_wp; [apply still_getRosenpassAddr |]. intros a s3 L3 P3. cbn [wp_then].
  assert (P : peers_of s3 = peers_of s) by congruence. unfold peers_of in P. injection P as Ps Pc.
  set (cfg := mkConnConfig _ _ _ _ _ _ _ _ _ _ _ _). wps.
  pose proof (NewConn_conns (world s3) cfg) as [Hs Hc]. rewrite H in Hs, Hc. cbn [fst snd] in Hs, Hc.
  destruct r0 as [c|e]; cbn [wp_then].
  - destruct Hc as [Hn Hc]. set (s4 := mkState _ _ _).
    assert (E4 : loc s4 = loc s) by (cbn; congruence).
    assert (Hq : still true (if_some (e_rpManager (loc s)) (fun rp => call (ConnSetRosenpass c rp)))).
    { destruct (e_rpManager (loc s)); [by apply still_call | by intros s']. }
    wps. apply still_wp; [exact Hq |]. intros [] s5 L5 P5. cbn [wp_then]. wps.
    unfold peers_of in P5. injection P5 as P5s P5c. cbn in P5s, P5c.
    apply (H1 c cfg); [congruence | congruence | congruence | | done | done]. by rewrite P5c, Hc, Pc.
  - apply H2. exists cfg, e. left.
Qed.

(** Adding a peer: a known key is left as it is, a new one gets a fresh connection. *)
Definition added (p : RemotePeerConfig) (s s' : St) : Prop :=
  loc s' = loc s /\
  match store (world s) !! rpc_WgPubKey p with
  | Some _ => peers_of s' = peers_of s
  | None => exists c cfg, conns (world s) !! c = None /\ serves cfg p /\
      peers_of s' = (<[rpc_WgPubKey p := c]> (store (world s)), <[c := cfg]> (conns (world s)))
  end.

Lemma addNewPeer_wp p s (Q : unit + error -> St -> Prop) :
  is_Some (e_connMgr (loc s)) -> peer_ok p ->
  (forall s', added p s s' -> Q (inl tt) s') ->
  (forall e s', add_failed [p] s' -> Q (inr e) s') ->
  wp (addNewPeer p) Q s.
Proof.
  intros [m Hm] [Hne Hlen] H1 H2. unfold addNewPeer.
  apply wp_bind, wp_peer_call; [done |]. intros known w0 Hs0 Hc0 Hw. cbn [wp_then].
  pose proof (PsPeerConn_store (world s) (rpc_WgPubKey p)) as Hk. rewrite Hw in Hk. cbn in Hk. subst known.
  set (s0 := mkState _ _ _). destruct (store (world s) !! rpc_WgPubKey p) as [c|] eqn:Ek.
  { wps. apply H1. split; [done |]. rewrite Ek. unfold peers_of. cbn. by rewrite Hs0, Hc0. }
  pose proof (parse_prefixes_spec (rpc_AllowedIps p)) as Hp.
  destruct (parse_prefixes (rpc_AllowedIps p)) as [ips|e].
  2:{ wps. destruct Hp as (ip & Hip & He). apply H2. left. exists p, ip, e. split; [by left | done]. }
  wps. apply createPeerConn_wp.
  2:{ intros e s' He. cbn [wp_then]. apply H2. by right. }
  intros c cfg s1 L1 S1 Hfresh C1 Hv Hi. cbn [wp_then].
  assert (Hserves : serves cfg p) by (split; [done |]; exists ips; by rewrite Hi).
  destruct ips as [|ip ips]; [apply Forall2_nil_inv_r in Hp; by rewrite Hp in Hne |].
  apply wp_bind, still_wp; [by apply still_log, still_call |]. intros [] s2 L2 P2. cbn [wp_then].
  injection P2 as P2s P2c. apply wp_bind, wp_get. cbn [wp_then].
  assert (E2 : e_connMgr (loc s2) = Some m) by (by rewrite L2, L1). rewrite E2.
  apply wp_bind, wp_call. intros known w3 Hw3. cbn [wp_then].
  pose proof (CmAddPeerConn_store (world s2) m (rpc_WgPubKey p) c) as Ha. rewrite Hw3 in Ha.
  destruct Ha as (-> & Hc3 & Hs3).
  assert (Es : store (world s2) = store (world s)) by (rewrite P2s, S1; exact Hs0).
  rewrite bool_decide_eq_false_2 in Hs3 |- * by (rewrite Es, Ek; by intros [? ?]).
  apply wp_ret, H1. split; [by cbn; rewrite L2 |]. rewrite Ek. exists c, cfg.
  split; [by rewrite <- Hc0 |]. split; [done |]. unfold peers_of. cbn. rewrite Hs3, Hc3, Es, P2c, C1.
  cbn. by rewrite Hc0.
Qed.

(** ** Lists of peers *)

Notation keys_of ps := (map rpc_WgPubKey ps).

(** Nothing the engine held is lost. *)
Definition extends (s s' : St) : Prop :=
  loc s' = loc s /\ store (world s) ⊆ store (world s') /\ conns (world s) ⊆ conns (world s').

Lemma extends_refl s : extends s s.
Proof. by split. Qed.
Lemma extends_trans s1 s2 s3 : extends s1 s2 -> extends s2 s3 -> extends s1 s3.
Proof. intros (H1 & H2 & H3) (H4 & H5 & H6). split; [congruence |]. split; by etrans. Qed.

Lemma connected_mono s s' p : extends s s' -> connected (world s) p -> connected (world s') p.
Proof.
  intros (_ & H2 & H3) (c & cfg & Hc & Hcfg & Hs). exists c, cfg.
  split; [by eapply lookup_weaken |]. split; [by eapply lookup_weaken | done].
Qed.

Lemma added_spec p s s' :
  added p s s' ->
  extends s s' /\ (forall k, is_Some (store (world s') !! k) <-> is_Some (store (world s) !! k) \/ k = rpc_WgPubKey p) /\
  (store (world s) !! rpc_WgPubKey p = None -> connected (world s') p).
Proof.
  intros [Hl H]. destruct (store (world s) !! rpc_WgPubKey p) as [c|] eqn:E.
  - injection H as Hs Hc. unfold extends. rewrite Hs, Hc. split; [done |]. split; [| done].
    intros k. split; [by left |]. intros [Hk| ->]; [done | by eexists].
  - destruct H as (c & cfg & Hn & Hv & Hp). injection Hp as Hs Hc. unfold extends. rewrite Hs, Hc.
    split; [split; [done | split; by apply insert_subseteq] |]. split.
    + intros k. rewrite lookup_insert_is_Some'. naive_solver.
    + intros _. exists c, cfg. rewrite Hs, Hc, !lookup_insert_eq. done.
Qed.

(** What adding a list of peers does. *)
Definition all_added (l : list RemotePeerConfig) (s s' : St) : Prop :=
  extends s s' /\
  (forall k, is_Some (store (world s') !! k) <-> is_Some (store (world s) !! k) \/ k ∈ keys_of l) /\
  (forall p, p ∈ l -> store (world s) !! rpc_WgPubKey p = None -> connected (world s') p).

Lemma add_failed_mono l l' s : (forall p, p ∈ l -> p ∈ l') -> add_failed l s -> add_failed l' s.
Proof. unfold add_failed. naive_solver. Qed.

Lemma addNewPeers_wp l s (Q : unit + error -> St -> Prop) :
  is_Some (e_connMgr (loc s)) -> Forall peer_ok l -> NoDup (keys_of l) ->
  (forall s', all_added l s s' -> Q (inl tt) s') ->
  (forall e s', add_failed l s' -> Q (inr e) s') ->
  wp (for_each l addNewPeer) Q s.
Proof.
  revert s Q. induction l as [|p l IH]; intros s Q Hm Hok Hnd H1 H2; cbn [for_each].
  { apply wp_ret, H1. split; [apply extends_refl |]. split; [| by intros p ?%elem_of_nil].
    intros k. cbn. rewrite elem_of_nil. naive_solver. }
  inversion_clear Hok as [|? ? Hp Hl]. cbn in Hnd. apply NoDup_cons in Hnd as [Hnin Hnd].
  apply wp_bind, addNewPeer_wp; [done | done | |].
  2:{ intros e s1 He. cbn [wp_then]. apply H2. eapply add_failed_mono; [| exact He].
      intros q ->%list_elem_of_singleton. by left. }
  intros s1 Ha. cbn [wp_then]. destruct (added_spec p s s1 Ha) as (He & Hk & Hc). apply IH; [| done | done | |].
  - destruct He as [-> _]. done.
  - intros s2 (He2 & Hk2 & Hc2). apply H1. split; [by eapply extends_trans |]. split.
    + intros k. rewrite Hk2, Hk. cbn. rewrite elem_of_cons. naive_solver.
    + intros q [->|Hq]%elem_of_cons Hn; [by eapply connected_mono, Hc |]. apply Hc2; [done |].
      destruct (store (world s1) !! rpc_WgPubKey q) eqn:E; [| done]. exfalso.
      assert (Hs : is_Some (store (world s1) !! rpc_WgPubKey q)) by (by eexists).
      apply Hk in Hs as [[? ?]|Heq]; [congruence |]. apply Hnin. rewrite <- Heq. by apply list_elem_of_fmap_2.
  - intros e s2 He2. apply H2. eapply add_failed_mono; [| exact He2]. by right.
Qed.

(** What removing a list of keys does. *)
Definition all_removed (ks : list string) (s s' : St) : Prop :=
  loc s' = loc s /\ conns (world s') = conns (world s) /\
  forall k, store (world s') !! k = if decide (k ∈ ks) then None else store (world s) !! k.

Lemma removePeers_loop_wp ks s (Q : unit + error -> St -> Prop) :
  is_Some (e_connMgr (loc s)) ->
  (forall s', all_removed ks s s' -> Q (inl tt) s') ->
  wp (for_each ks removePeer) Q s.
Proof.
  revert s Q. induction ks as [|k ks IH]; intros s Q [m Hm] HQ; cbn [for_each].
  { apply wp_ret, HQ. split; [done |]. split; [done |]. intros k. by rewrite decide_False by apply not_elem_of_nil. }
  apply wp_bind. unfold removePeer. apply wp_bind, wp_get. cbn [wp_then]. rewrite Hm.
  apply wp_bind, wp_call. intros [] w Hw. cbn [wp_then].
  pose proof (CmRemovePeerConn_store (world s) m k) as Hr. rewrite Hw in Hr. destruct Hr as [Hc Hs].
  apply still_wp; [by apply still_log, still_call |]. intros [] s1 L1 P1. cbn [wp_then].
  injection P1 as P1s P1c. cbn in L1, P1s, P1c. apply IH; [rewrite L1; by exists m |].
  intros s2 (L2 & C2 & S2). apply HQ. split; [congruence |]. split; [congruence |].
  intros k'. rewrite S2, P1s, Hs. destruct (decide (k' = k)) as [->|Hne].
  - rewrite lookup_delete_eq. rewrite (decide_True (P := k ∈ k :: ks)) by left. by case_decide.
  - rewrite lookup_delete_ne by done.
    destruct (decide (k' ∈ ks)), (decide (k' ∈ k :: ks)) as [H|H]; try done.
    + destruct H. by right.
    + by apply elem_of_cons in H as [?|?].
Qed.

Lemma keys_call_wp s (Q : list string + error -> St -> Prop) :
  (forall l s', loc s' = loc s -> peers_of s' = peers_of s ->
     (forall k, k ∈ l <-> is_Some (store (world s) !! k)) -> Q (inl l) s') ->
  wp (call PsPeersPubKey) Q s.
Proof.
  intros HQ. apply wp_peer_call; [done |]. intros l w Hs Hc Hw. apply HQ; [done | |].
  - unfold peers_of. cbn. by rewrite Hs, Hc.
  - intros k. pose proof (PsPeersPubKey_store (world s) k) as H. by rewrite Hw in H.
Qed.

Lemma removeAllPeers_wp s (Q : unit + error -> St -> Prop) :
  is_Some (e_connMgr (loc s)) ->
  (forall s', loc s' = loc s -> store (world s') = ∅ -> Q (inl tt) s') ->
  wp removeAllPeers Q s.
Proof.
  intros Hm HQ. unfold removeAllPeers. apply wp_bind, keys_call_wp. intros l s1 L1 P1 Hk. cbn [wp_then].
  injection P1 as P1s P1c. apply removePeers_loop_wp; [by rewrite L1 |]. intros s2 (L2 & _ & S2).
  apply HQ; [congruence |]. apply map_eq. intros k. rewrite S2, lookup_empty, P1s. case_decide as Hd; [done |].
  destruct (store (world s) !! k) eqn:E; [| done]. destruct Hd. apply Hk. by eexists.
Qed.

Lemma removePeers_wp ps s (Q : unit + error -> St -> Prop) :
  is_Some (e_connMgr (loc s)) ->
  (forall s', loc s' = loc s -> conns (world s') = conns (world s) ->
     (forall k, store (world s') !! k = if decide (k ∈ keys_of ps) then store (world s) !! k else None) ->
     Q (inl tt) s') ->
  wp (removePeers ps) Q s.
Proof.
  intros Hm HQ. unfold removePeers. apply wp_bind, keys_call_wp. intros l s1 L1 P1 Hk. cbn [wp_then].
  injection P1 as P1s P1c. apply removePeers_loop_wp; [by rewrite L1 |]. intros s2 (L2 & C2 & S2).
  apply HQ; [congruence | congruence |]. intros k. rewrite S2, P1s.
  destruct (decide (k ∈ SliceDiff l (keys_of ps))) as [Hd|Hd]; destruct (decide (k ∈ keys_of ps)) as [Hi|Hi].
  - by apply SliceDiff_spec in Hd as [_ Hd].
  - done.
  - done.
  - destruct (store (world s) !! k) eqn:E; [| done]. destruct Hd. apply SliceDiff_spec. split; [| done].
    apply Hk. by eexists.
Qed.

(** ** Replacing changed peers *)

Definition known (s : St) (p : RemotePeerConfig) : Prop := is_Some (store (world s) !! rpc_WgPubKey p).

Lemma compare_serves cfg p :
  cc_AgentVersion cfg = rpc_AgentVersion p -> peer_ok p ->
  compareNetIPLists (cc_AllowedIps cfg) (rpc_AllowedIps p) = true -> serves cfg p.
Proof.
  intros Hv [_ Hl] Hc. split; [done |].
  assert (E : length (cc_AllowedIps cfg) = length (rpc_AllowedIps p)).
  { unfold compareNetIPLists in Hc. by destruct (Nat.eqb_spec (length (cc_AllowedIps cfg)) (length (rpc_AllowedIps p))). }
  apply compareNetIPLists_iff in Hc; [done | lia].
Qed.

Lemma check_modified_wp p s (Q : option RemotePeerConfig + error -> St -> Prop) :
  wf s -> peer_ok p ->
  (forall r s', loc s' = loc s -> peers_of s' = peers_of s ->
     match r with
     | Some q => q = p /\ known s p
     | None => known s p -> connected (world s) p
     end -> Q (inl r) s') ->
  wp (check_modified p) Q s.
Proof.
  intros [_ Hwf] Hok HQ. unfold check_modified.
  apply wp_bind, wp_peer_call; [done |]. intros kn w0 Hs0 Hc0 Hw. cbn [wp_then].
  pose proof (PsPeerConn_store (world s) (rpc_WgPubKey p)) as Hk. rewrite Hw in Hk. cbn in Hk. subst kn.
  set (s0 := mkState _ _ _). assert (P0 : peers_of s0 = peers_of s) by (unfold peers_of; cbn; by rewrite Hs0, Hc0).
  destruct (store (world s) !! rpc_WgPubKey p) as [c|] eqn:Ek.
  2:{ wps. apply HQ; [done | done |]. intros [? ?]. congruence. }
  assert (Hknown : known s p) by (by exists c). destruct (Hwf _ _ Ek) as [cfg Hcfg].
  apply wp_bind, wp_peer_call; [done |]. intros version w1 Hs1 Hc1 Hw1. cbn [wp_then].
  assert (Ev : version = cc_AgentVersion cfg).
  { pose proof (ConnAgentVersion_conns w0 c cfg) as Hv. cbn in Hw1. rewrite Hw1 in Hv. apply Hv. by rewrite Hc0. }
  set (s1 := mkState _ _ _). assert (P1 : peers_of s1 = peers_of s).
  { unfold peers_of. cbn in *. by rewrite Hs1, Hc1, Hs0, Hc0. }
  case_bool_decide as Hd; [wps; by apply HQ |].
  apply wp_bind, wp_peer_call; [done |]. intros ips w2 Hs2 Hc2 Hw2. cbn [wp_then].
  assert (Ei : ips = Some (cc_AllowedIps cfg)).
  { pose proof (PsAllowedIPs_store w1 (rpc_WgPubKey p)) as Hi. cbn in Hw2, Hs1, Hc1. rewrite Hw2 in Hi.
    cbn in Hi. rewrite Hs1, Hs0, Ek in Hi. cbn in Hi. rewrite Hc1, Hc0, Hcfg in Hi. done. }
  subst ips. set (s2 := mkState _ _ _). assert (P2 : peers_of s2 = peers_of s).
  { unfold peers_of in *. cbn in *. by rewrite Hs2, Hc2. }
  destruct (compareNetIPLists (cc_AllowedIps cfg) (rpc_AllowedIps p)) eqn:Ecmp; cbn [negb]; [| wps; by apply HQ].
  apply wp_bind, still_wp; [by apply still_log, still_call |]. intros [] s3 L3 P3. cbn [wp_then].
  wps. apply HQ; [exact L3 | congruence |]. intros _. exists c, cfg. split; [done |]. split; [done |].
  apply compare_serves; [| done | done]. apply dec_stable. congruence.
Qed.

(** What the first pass finds: every peer that is known and not found to be modified
    is connected as the map says. *)
Lemma check_loop_wp ps s (Q : list RemotePeerConfig + error -> St -> Prop) :
  wf s -> Forall peer_ok ps ->
  (forall l s', loc s' = loc s -> peers_of s' = peers_of s -> sublist l ps ->
     (forall p, p ∈ l -> known s p) ->
     (forall p, p ∈ ps -> known s p -> p ∈ l \/ connected (world s) p) -> Q (inl l) s') ->
  wp (for_collect ps check_modified) Q s.
Proof.
  intros Hwf Hok HQ.
  apply (wp_for_collect (fun rest acc s' => exists done, ps = done ++ rest /\ sublist acc done /\
    loc s' = loc s /\ peers_of s' = peers_of s /\ (forall p, p ∈ acc -> known s p) /\
    forall p, p ∈ done -> known s p -> p ∈ acc \/ connected (world s) p)).
  - exists []. repeat split; try done; by intros p ?%elem_of_nil.
  - intros p rest acc s1 (done & -> & Hsub & L1 & P1 & Hacc & Hdone).
    injection P1 as P1s P1c. apply check_modified_wp.
    + destruct Hwf as [Hm Hw]. split; [by rewrite L1 |]. by rewrite P1s, P1c.
    + apply Forall_app in Hok as [_ Hok]. by inversion Hok.
    + intros r s2 L2 P2 Hr. injection P2 as P2s P2c. exists (done ++ [p]). rewrite <- (assoc_L (++)).
      assert (Hkn : known s1 p <-> known s p) by (unfold known; by rewrite P1s).
      assert (Hcn : connected (world s1) p <-> connected (world s) p).
      { unfold connected. by setoid_rewrite P1s; setoid_rewrite P1c. }
      split; [done |]. split.
      { apply sublist_app; [done |]. destruct r as [q|]; [| apply sublist_nil_l].
        by destruct Hr as [-> _]. }
      split; [congruence |]. split; [unfold peers_of; congruence |]. split.
      * intros q [Hq|Hq]%elem_of_app; [by apply Hacc |]. destruct r as [q'|]; [| by apply elem_of_nil in Hq].
        destruct Hr as [-> Hk]. apply list_elem_of_singleton in Hq as ->. by apply Hkn.
      * intros q [Hq|Hq]%elem_of_app Hk.
        -- destruct (Hdone q Hq Hk) as [?|?]; [left; apply elem_of_app; by left | by right].
        -- apply list_elem_of_singleton in Hq as ->. destruct r as [q'|].
           ++ destruct Hr as [-> _]. left. apply elem_of_app. right. by apply list_elem_of_singleton.
           ++ right. by apply Hcn, Hr, Hkn.
  - intros acc s' (done & Hd & Hsub & L & P & Hacc & Hdone). rewrite app_nil_r in Hd. subst done. by apply HQ.
Qed.

Lemma sublist_keys l ps : sublist l ps -> sublist (keys_of l) (keys_of ps).
Proof. intros H. induction H; cbn; by constructor. Qed.

Lemma modifyPeers_wp ps s (Q : unit + error -> St -> Prop) :
  wf s -> Forall peer_ok ps -> NoDup (keys_of ps) ->
  (forall s', loc s' = loc s ->
     (forall k, is_Some (store (world s') !! k) <-> is_Some (store (world s) !! k)) ->
     (forall p, p ∈ ps -> known s p -> connected (world s') p) -> Q (inl tt) s') ->
  (forall e s', add_failed ps s' -> Q (inr e) s') ->
  wp (modifyPeers ps) Q s.
Proof.
  intros Hwf Hok Hnd H1 H2. pose proof (proj1 Hwf) as Hm. unfold modifyPeers.
  apply wp_bind, check_loop_wp; [done | done |]. intros l s1 L1 P1 Hsub Hl Hps. cbn [wp_then].
  injection P1 as P1s P1c.
  assert (Hin : forall p, p ∈ l -> p ∈ ps) by (intros p Hp; by eapply sublist_In).
  assert (Hndl : NoDup (keys_of l)).
  { apply sublist_keys in Hsub. by eapply sublist_no_dup. }
  assert (Hrm : for_each l (fun p => removePeer (rpc_WgPubKey p)) = for_each (keys_of l) removePeer).
  { clear. induction l as [|p l IH]; cbn; [done |]. by rewrite IH. }
  rewrite Hrm. apply wp_bind, removePeers_loop_wp; [by rewrite L1 |]. intros s2 (L2 & C2 & S2). cbn [wp_then].
  apply addNewPeers_wp; [by rewrite L2, L1 | | done | |].
  { apply Forall_forall. intros p Hp. rewrite Forall_forall in Hok. by apply Hok, Hin. }
  2:{ intros e s3 He. apply H2. by eapply add_failed_mono. }
  intros s3 ((L3 & Hs3 & Hc3) & Hk3 & Hn3). apply H1; [congruence | |].
  - intros k. rewrite Hk3, S2, P1s. case_decide as Hd; [| naive_solver]. split.
    + intros _. apply list_elem_of_fmap in Hd as (p & -> & Hp). by apply Hl.
    + intros _. by right.
  - intros p Hp Hkn. destruct (Hps p Hp Hkn) as [Hpl|Hc].
    + apply Hn3; [done |]. rewrite S2, decide_True; [done |]. by apply list_elem_of_fmap_2.
    + destruct (decide (rpc_WgPubKey p ∈ keys_of l)) as [Hd|Hd].
      * apply list_elem_of_fmap in Hd as (q & Hq & Hql). assert (p = q) as ->.
        { apply list_elem_of_lookup in Hp as [i Hi]. pose proof (Hin q Hql) as Hj.
          apply list_elem_of_lookup in Hj as [j Hj].
          assert (i = j) as ->; [| congruence].
          eapply (NoDup_lookup _ _ _ (rpc_WgPubKey p)); [exact Hnd | |]; rewrite list_lookup_fmap.
          - by rewrite Hi.
          - rewrite Hj. cbn. by rewrite Hq. }
        apply Hn3; [done |]. rewrite S2, decide_True; [done |]. by apply list_elem_of_fmap_2.
      * destruct Hc as (c & cfg & Hc & Hcfg & Hsv). exists c, cfg. split; [| split; [| done]].
        -- eapply lookup_weaken; [| exact Hs3]. by rewrite S2, decide_False, P1s.
        -- eapply lookup_weaken; [| exact Hc3]. by rewrite C2, P1c.
Qed.

(** ** The whole map *)

Definition map_ok (nm : NetworkMap) : Prop :=
  dns_ok nm /\ Forall peer_ok (nm_RemotePeers nm) /\ NoDup (keys_of (nm_RemotePeers nm)).

(** The peers of a map: none when it says so. *)
Definition map_peers (nm : NetworkMap) : list RemotePeerConfig :=
  if nm_RemotePeersIsEmpty nm then [] else nm_RemotePeers nm.

(** The store holds the map's peers, each connected as the map says. *)
Definition in_step (w : W) (nm : NetworkMap) : Prop :=
  (forall k, is_Some (store w !! k) <-> k ∈ keys_of (map_peers nm)) /\
  forall p, p ∈ map_peers nm -> connected w p.

Lemma quiet_then {A} (m : E unit) (k : unit -> E A) s Q :
  quiet true m -> ready s -> (forall s', same s s' -> wp (k tt) Q s') -> wp (bind m k) Q s.
Proof.
  intros Hm Hr Hk. apply wp_bind, (quiet_wp true); [done | done | |].
  - intros [] s' Hs'. by apply Hk.
  - done.
Qed.

Lemma apply_peers_wp nm s (Q : unit + error -> St -> Prop) :
  wf s -> map_ok nm ->
  (forall s', loc s' = loc s -> in_step (world s') nm -> Q (inl tt) s') ->
  (forall e s', add_failed (nm_RemotePeers nm) s' -> Q (inr e) s') ->
  wp (apply_peers nm) Q s.
Proof.
  intros Hwf (_ & Hok & Hnd) H1 H2. pose proof (proj1 Hwf) as Hm. unfold apply_peers.
  assert (Hcase : nm_RemotePeersIsEmpty nm = true \/ map_peers nm = nm_RemotePeers nm).
  { unfold map_peers. destruct (nm_RemotePeersIsEmpty nm); auto. }
  destruct (nm_RemotePeersIsEmpty nm) eqn:Ee.
  - apply wp_bind, wp_try, removeAllPeers_wp; [done |]. intros s1 L1 S1. cbn [wp_then].
    apply wp_bind, still_wp; [by apply still_call |]. intros [] s2 L2 P2. cbn [wp_then].
    injection P2 as P2s P2c. apply wp_ret, H1; [congruence |]. unfold in_step, map_peers. rewrite Ee. split.
    + intros k. rewrite P2s, S1, lookup_empty. cbn. rewrite elem_of_nil. split; [by intros [? ?] | done].
    + by intros p ?%elem_of_nil.
  - destruct Hcase as [?|Hcase]; [done |].
    apply wp_bind, removePeers_wp; [done |]. intros s1 L1 C1 S1. cbn [wp_then].
    apply wp_bind, modifyPeers_wp; [| done | done | |].
    + destruct Hwf as [_ Hw]. split; [by rewrite L1 |]. intros k c Hc. rewrite S1 in Hc. case_decide; [| done].
      rewrite C1. by apply (Hw k).
    + intros s2 L2 K2 M2. cbn [wp_then]. apply wp_bind, addNewPeers_wp; [by rewrite L2, L1 | done | done | |].
      * intros s3 ((L3 & Hs3 & Hc3) & K3 & N3). cbn [wp_then].
        assert (Hst : in_step (world s3) nm).
        { unfold in_step. rewrite Hcase. split.
          - intros k. rewrite K3, K2, S1. case_decide; naive_solver.
          - intros p Hp. destruct (store (world s2) !! rpc_WgPubKey p) eqn:E.
            + apply (connected_mono s2); [by split |]. apply M2; [done |].
              unfold known. apply K2. rewrite E. by eexists.
            + by apply N3. }
        apply wp_bind, still_wp; [by apply still_call |]. intros [] s4 L4 P4. cbn [wp_then].
        apply wp_bind, still_wp; [by apply still_call |]. intros [] s5 L5 P5. cbn [wp_then].
        apply still_wp; [by apply still_log, still_call |]. intros [] s6 L6 P6.
        assert (P : peers_of s6 = peers_of s3) by congruence. injection P as Ps Pc.
        apply H1; [congruence |]. unfold in_step, connected in *. rewrite Ps, Pc. exact Hst.
      * intros e s3 He. cbn [wp_then]. by apply H2.
    + intros e s2 He. cbn [wp_then]. by apply H2.
Qed.

(** C1: in an engine that has its interface, DNS server, route manager and connection
    manager, and whose store's connections exist ([ready], [wf]), a network map that is not
    older than the one the engine has, whose name servers parse and whose remote peers have
    distinct keys and some allowed address each ([map_ok]; the code panics without these
    last conditions on name servers and addresses), brings the peers in step with it:
    [updateNetworkMap] does not panic; when it returns no error the store holds exactly the
    map's remote peers, each connected with the agent version and the allowed addresses of
    the map, whatever was there before, and the map's serial is recorded; it returns an error
    only when some allowed address does not parse or a connection could not be made. *)
Theorem updateNetworkMap_in_step nm s :
  wf s -> ready s -> map_ok nm -> e_networkSerial (loc s) <= nm_Serial nm ->
  wp (updateNetworkMap nm) (fun r s' =>
    match r with
    | inl _ => in_step (world s') nm /\ e_networkSerial (loc s') = nm_Serial nm
    | inr _ => add_failed (nm_RemotePeers nm) s'
    end) s.
Proof.
  intros Hwf Hr Hok Hserial. unfold updateNetworkMap.
  apply quiet_then; [destruct (nm_PeerConfig nm); [apply quiet_updateConfig | apply quiet_ret] | done |].
  intros s1 H1. apply wp_bind, wp_get. cbn [wp_then].
  pose proof H1 as (_ & _ & _ & _ & _ & _ & E1). rewrite E1. destruct (Z.ltb_spec (nm_Serial nm) (e_networkSerial (loc s))); [lia |].
  assert (Hr1 : ready s1) by (by eapply same_ready). unfold apply_map.
  apply wp_bind, wp_get. cbn [wp_then].
  apply quiet_then; [quiet | done |]. intros s2 H2.
  apply quiet_then; [apply quiet_prepare_firewall | by eapply same_ready |]. intros s3 H3.
  assert (H13 : same s1 s3) by (by eapply same_trans).
  apply quiet_then; [apply quiet_apply_dns, Hok | by eapply same_ready |]. intros s4 H4.
  assert (H14 : same s1 s4) by (by eapply same_trans).
  apply quiet_then; [apply quiet_apply_routes | by eapply same_ready |]. intros s5 H5.
  assert (H15 : same s1 s5) by (by eapply same_trans).
  apply wp_bind, (quiet_wp true); [apply quiet_updateForwardRules | by eapply same_ready | | done].
  intros fr s6 H6. cbn [wp_then]. assert (H16 : same s1 s6) by (by eapply same_trans).
  apply quiet_then; [apply (quiet_call true); done | by eapply same_ready |]. intros s7 H7.
  assert (H07 : same s s7) by (eapply same_trans; [exact H1 |]; by eapply same_trans).
  apply wp_bind, apply_peers_wp; [| done | |].
  - destruct Hwf as [Hm Hw]. destruct H07 as (Es & Ecs & Ec & _). unfold wf. by rewrite Es, Ecs, Ec.
  - intros s8 L8 Hst. cbn [wp_then]. apply wp_bind, wp_get. cbn [wp_then].
    apply wp_bind, still_wp; [by apply still_call |]. intros [] s9 L9 P9. cbn [wp_then].
    apply wp_bind, wp_modify. cbn [wp_then]. unfold with_dns. apply wp_bind, wp_get. cbn [wp_then loc].
    apply wp_deref.
    + cbn. rewrite L9, L8. destruct H07 as (_ & _ & _ & _ & -> & _). apply Hr.
    + intros d _. apply wp_peer_call; [done |]. intros [] w Hs Hc _. injection P9 as P9s P9c. cbn in Hs, Hc.
      split; [| done]. unfold in_step, connected in *. cbn. by rewrite Hs, Hc, P9s, P9c.
  - intros e s8 He. cbn [wp_then]. exact He.
Qed.

End peers.

(** ** A world to run the engine in: every call succeeds *)
Module SampleEngine.

Import Keys SampleRoutes SampleData.

Record World := mkWorld { w_store : gmap string ref; w_conns : gmap ref ConnConfig; next : Z }.

Definition fresh_conn (m : gmap ref ConnConfig) : ref := fresh (dom m : gset Z).

#[export] Instance handler : Handler engC World := fun R c w =>
  match c in engC R return R * World with
  | PsPeerConn k => (w_store w !! k, w)
  | PsPeersPubKey => ((map_to_list (w_store w)).*1, w)
  | PsAllowedIPs k => (cc_AllowedIps <$> (w_store w !! k ≫= fun c => w_conns w !! c), w)
  | ConnAgentVersion c => (default EmptyString (cc_AgentVersion <$> w_conns w !! c), w)
  | NewConn cfg =>
      let c := fresh_conn (w_conns w) in
      (inl c, mkWorld (w_store w) (<[c := cfg]> (w_conns w)) (next w))
  | CmAddPeerConn m k c =>
      match m with
      | Some _ => let known := bool_decide (is_Some (w_store w !! k)) in
                  (known, mkWorld (if known then w_store w else <[k := c]> (w_store w)) (w_conns w) (next w))
      | None => (true, w)
      end
  | CmRemovePeerConn m k =>
      match m with
      | Some _ => (tt, mkWorld (delete k (w_store w)) (w_conns w) (next w))
      | None => (tt, w)
      end
  | WithCancel | NewConnMgr _ | NewWGIfaceMonitor | NewDnsServerPermanent _ _ _ | NewDnsServerIos _ _
  | NewDnsForwarder _ _ | NewRouteManager _ | NewAclManager _ | NewIngressGw _ | NewFlowManager _ _
  | FlowGetLogger _ | GetInfo | NewSRWatcher | NewNetworkMonitor => (next w, mkWorld (w_store w) (w_conns w) (next w + 1))
  | CancelCtx _ | CtxSetConnecting _ | CtxWrapReset _ | ClientCancel | Go _ | CmStart _ | CmClose _
  | CmUpdateRouteHAMap _ _ | CmSetExcludeList _ _ | CmActivatePeer _ _ | CmDeactivatePeer _ _ | ConnClose _
  | ConnSetRosenpass _ _ | ConnOnRemoteOffer _ _ | ConnOnRemoteAnswer _ _ | GoConnOnRemoteCandidate _ _ _
  | SrReplaceOfflinePeers _ | SrUpdateDNSStates _ | SrUpdateRelayStates _ | SrSetWgIface _
  | SrSetIngressGwMgr _ | SrUpdateLocalPeerState _ | SrFinishPeerListModifications | SrPublishEvent _
  | ListenerSetInterfaceIP _ | DnsStop _ | DnsProbeAvailability _ | DnsForwarderUpdateDomains _ _
  | RmSetRouteChangeListener _ | RmStop _ | RmSetDNSForwarderPort _ _ | AclApplyFiltering _ _ _
  | FlowClose _ | RelayUpdateServerURLs _ | SignalWaitStreamConnected | InfoSetFlags _ _
  | NewStateManager _ | StateManagerStart | SRWatcherStart _ | SRWatcherClose _ | NetworkMonitorStop _
  | CleanupSSHConfig | UpdatePeerSSHHostKeys _ => (tt, w)
  | CtxErr _ => (false, w)
  | ShutdownDone _ | WgModuleIsLoaded | SignalIsHealthy | MgmIsHealthy => (true, w)
  | RandIntn _ => (0, w)
  | OsStat _ | FileClose _ | CmUpdatedRemoteFeatureFlag _ _ | SrAddPeer _ _ _ | SrRemovePeer _
  | SrUpdatePeerFQDN _ _ | SrUpdateWireGuardPeerState _ _ | WgCreate _ | WgCreateOnAndroid _ _ _ _
  | WgRenewTun _ _ | WgClose _ | DnsInitialize _ | DnsUpdateDNSServer _ _ _ | DnsPopulateManagementDomain _ _
  | DnsUpdateServerConfig _ _ | DnsForwarderStart _ _ | DnsForwarderStop _ | RmInit _ | RmSetFirewall _ _
  | RmUpdateRoutes _ _ _ _ _ | FwAddPeerFiltering _ _ | FwDropRoute _ _ _ | FwSetLegacyManagement _ _
  | FwClose _ | IngressUpdate _ _ | IngressClose _ | FlowUpdate _ _ | RpRun _ | RpClose _
  | RelayUpdateToken _ _ | RelayServe | SignalReceive | MgmSync _ | MgmSyncMeta _ | StateManagerStop _
  | StateManagerPersist | NetworkMonitorListen _ | StopSSHServer | UpdateSSH _ | UpdateSSHClientConfig _ => (None, w)
  | OsCreate _ | UnmarshalCandidate _ | WgNew _ | WgUp _ | NewDnsServer _ _ _ | NewRosenpass _ _
  | GetInfoWithChecks _ => (inl (next w), mkWorld (w_store w) (w_conns w) (next w + 1))
  | NetInterfaces => (inl [], w)
  | NetInterfaceByName n => (inl n, w)
  | IfaceAddrs _ => (inl [], w)
  | SrGetDNSStates => ([], w)
  | SrGetLocalPeerState => (mkLocalPeerState "" "" false "" "", w)
  | NewStdNet => (None, w)
  | WgName _ => ("wt0", w)
  | WgAddress _ => (mkAddress (Addr4 1681915906) (mkPrefix (Addr4 1681915904) 16), w)
  | WgGetStats _ => (inl ∅, w)
  | WgGetNet _ => (None, w)
  | WgMonitorStart _ _ => ((false, None), w)
  | DnsServerIP _ => (AddrZero, w)
  | DnsSearchDomains _ | RmInitialRouteRange _ => ([], w)
  | RmClassifyRoutes _ _ => ((∅, ∅), w)
  | RmGetClientRoutes _ => (∅, w)
  | NewFirewall _ _ _ _ => ((Some (next w), None), mkWorld (w_store w) (w_conns w) (next w + 1))
  | FwUpdateLocalIPs _ => (None, w)
  | RpGetAddress _ => (mkUDPAddr "" 0 "", w)
  | RpGetPubKey _ | GetStatePath => ("", w)
  | MgmGetNetworkMap _ => (inr (New "unavailable"), w)
  | ProbeAll _ _ _ => ([], w)
  end.

#[export] Instance peer_world : PeerWorld World.
Proof.
  refine {| store := w_store; conns := w_conns |}.
  - intros R c w H. destruct c; try discriminate H; split; reflexivity.
  - intros w k. cbn. rewrite list_elem_of_fmap. split.
    + intros ([k' c] & -> & Hin). apply elem_of_map_to_list in Hin. by exists c.
    + intros [c Hc]. exists (k, c). split; [done | by apply elem_of_map_to_list].
  - done.
  - done.
  - intros w c cfg H. cbn. by rewrite H.
  - intros w cfg. split; [done |]. cbn. split; [| done]. apply (not_elem_of_dom (D := gset Z) (w_conns w)). exact (is_fresh (dom (w_conns w) : gset Z)).
  - intros w m k c. cbn. done.
  - intros w m k. done.
Defined.

Definition engine_config : EngineConfig :=
  mkEngineConfig 51820 "wt0" "100.64.0.2/16" (key "k") false [] false None 0 0 "" [] "" false false false
    None None None None None 0 false false false false false false false 1280.

(** A started engine that knows two peers; the map changes one, drops the other and
    brings a third. *)
Definition start_map : NetworkMap :=
  mkNetworkMap 1 None [mkRemotePeerConfig "a" ["100.64.0.1/32"] "a.example" "0.1";
                       mkRemotePeerConfig "b" ["100.64.0.3/32"] "b.example" "0.1"] false [] None [] 0 true [].
Definition next_map : NetworkMap :=
  mkNetworkMap 2 None [mkRemotePeerConfig "c" ["100.64.0.4/32"] "c.example" "0.2";
                       mkRemotePeerConfig "a" ["10.0.0.0/8"; "100.64.0.1/32"] "a.example" "0.1"] false [] None [] 0 true [].

Definition running : state engC Engine World :=
  (updateNetworkMap start_map
     ((Start (mkMobileDependency None 0 []) None None)
        (mkState (newEngine0 engine_config []) (mkWorld ∅ ∅ 1) [])).2).2.

End SampleEngine.

Import Keys SampleRoutes SampleData SampleEngine.

Lemma updateNetworkMap_in_step_witness :
  (updateNetworkMap next_map running).1 = Ok tt /\
  wp (updateNetworkMap next_map) (fun r s' =>
    match r with
    | inl _ => in_step (world s') next_map /\ e_networkSerial (loc s') = 2
    | inr _ => add_failed (nm_RemotePeers next_map) s'
    end) running.
Proof.
  split; [by vm_compute |]. apply (updateNetworkMap_in_step next_map running).
  - split; [by eexists; vm_compute |]. apply map_Forall_to_list.
    vm_compute. repeat constructor; by eexists.
  - split; [by eexists; vm_compute | split; by eexists; vm_compute].
  - split; [constructor |]. split.
    + repeat constructor; by vm_compute.
    + by apply (bool_decide_unpack (NoDup (map rpc_WgPubKey (nm_RemotePeers next_map)))); vm_compute.
  - vm_compute. discriminate.
Defined.
