(* ===== verification/EngineSpec.v ===== *)
(** * What the engine's operations promise

    [op] lists the operations of the engine that run one after the other under its
    mutex: the exported methods, the handlers of its two streams and the goroutines'
    last steps. [reachable] closes a new engine under them, the outside world being
    free to change in between; invariants are proved by rule induction. Then the
    start, the stop, and the single operations with a contract of their own. *)

From Stdlib Require Import ZArith Lia Ascii.
From stdpp Require Import base tactics list strings gmap fin_maps.
From S2P Require Import Prelude GoStrings Netip Uapi Configurer Routes WgIface EngineData Engine EnginePeers.

Section spec.
Context {wg : WgTypes} {rl : RouteLib} {el : EngLib} {mo : MapOrder} {me : MultiError}.
Context {W : Type} `{!Handler engC W}.
Notation St := (state engC Engine W).

(** ** Operations and reachable states *)

Inductive op :=
  | OpStart (md : MobileDependency) (cfg : option NetbirdConfig) (url : option string)
  | OpStop
  | OpSync (update : SyncResponse)
  | OpSignal (msg : Message)
  | OpSignalEnd
  | OpManagementEnd
  | OpNetworkMonitor
  | OpWgMonitor
  | OpProbes (wait : bool)
  | OpPersist (enabled : bool)
  | OpRenewTun (fd : Z).

Definition run_op (o : op) : E unit :=
  match o with
  | OpStart md cfg url => Start md cfg url
  | OpStop => Stop
  | OpSync update => handleSync update
  | OpSignal msg => handleSignal msg
  | OpSignalEnd => signal_goroutine
  | OpManagementEnd => management_goroutine
  | OpNetworkMonitor => network_monitor_goroutine
  | OpWgMonitor => wg_monitor_goroutine
  | OpProbes wait => let* _ := RunHealthProbes wait in ret tt
  | OpPersist enabled => SetSyncResponsePersistence enabled
  | OpRenewTun fd => engine_RenewTun fd
  end.

(** The state an operation leaves, the outside world having become [w] before it. *)
Definition after (o : op) (w : W) (s : St) : St := (run_op o (mkState (loc s) w (calls s))).2.

(** However an operation ends, the next one finds the state it left. *)
Inductive reachable (config : EngineConfig) (checks : list Checks) : St -> Prop :=
  | reach_new w cs : reachable config checks (mkState (newEngine0 config checks) w cs)
  | reach_op o w s : reachable config checks s ->
      reachable config checks (after o w s).

(** ** The serial only grows; a stored response needs the setting *)

Definition inv (n : Z) (e : Engine) : Prop :=
  n <= e_networkSerial e /\ (e_persistSyncResponse e = false -> e_latestSyncResponse e = None).

Definition Inv (n : Z) (s : St) : Prop := inv n (loc s).

Lemma inv_call n {R} (c : engC R) : preserves (Inv n) (call c).
Proof. intros s Hs. unfold call. destruct (handle c (world s)). exact Hs. Qed.

Lemma inv_modify n f :
  (forall e, e_networkSerial (f e) = e_networkSerial e /\
     e_persistSyncResponse (f e) = e_persistSyncResponse e /\
     e_latestSyncResponse (f e) = e_latestSyncResponse e) -> preserves (Inv n) (modify f).
Proof.
  intros Hf s [H1 H2]. unfold Inv, inv. cbn. destruct (Hf (loc s)) as (-> & -> & ->). by split.
Qed.

Lemma inv_if_some n {B} (o : option B) k : (forall r, preserves (Inv n) (k r)) -> preserves (Inv n) (if_some o k).
Proof. intros Hk. destruct o; [apply Hk | apply preserves_ret]. Qed.
Lemma inv_with_wg n {A} (k : ref -> E A) : (forall r, preserves (Inv n) (k r)) -> preserves (Inv n) (with_wg k).
Proof. intros Hk. unfold with_wg. preserves; try apply Hk. Qed.
Lemma inv_with_dns n {A} (k : ref -> E A) : (forall r, preserves (Inv n) (k r)) -> preserves (Inv n) (with_dns k).
Proof. intros Hk. unfold with_dns. preserves; try apply Hk. Qed.
Lemma inv_with_routes n {A} (k : ref -> E A) : (forall r, preserves (Inv n) (k r)) -> preserves (Inv n) (with_routes k).
Proof. intros Hk. unfold with_routes. preserves; try apply Hk. Qed.
Lemma inv_with_firewall n {A} (k : ref -> E A) : (forall r, preserves (Inv n) (k r)) -> preserves (Inv n) (with_firewall k).
Proof. intros Hk. unfold with_firewall. preserves; try apply Hk. Qed.
Lemma inv_with_flow n {A} (k : ref -> E A) : (forall r, preserves (Inv n) (k r)) -> preserves (Inv n) (with_flow k).
Proof. intros Hk. unfold with_flow. preserves; try apply Hk. Qed.

Ltac keeps_step :=
  match goal with
  | |- forall _, _ => intros ?
  | |- preserves _ (bind _ _) => apply preserves_bind
  | |- preserves _ (ret _) => apply preserves_ret
  | |- preserves _ (fail _) => apply preserves_fail
  | |- preserves _ (panic _) => apply preserves_panic
  | |- preserves _ get => apply preserves_get
  | |- preserves _ (call _) => apply inv_call
  | |- preserves _ (modify _) => apply inv_modify; by repeat split
  | |- preserves _ (if_some _ _) => apply inv_if_some
  | |- preserves _ (with_wg _) => apply inv_with_wg
  | |- preserves _ (with_dns _) => apply inv_with_dns
  | |- preserves _ (with_routes _) => apply inv_with_routes
  | |- preserves _ (with_firewall _) => apply inv_with_firewall
  | |- preserves _ (with_flow _) => apply inv_with_flow
  | |- preserves _ (ignore _) => apply preserves_ignore
  | |- preserves _ (try _) => apply preserves_try
  | |- preserves _ (wrap _ _) => apply preserves_wrap
  | |- preserves _ (when _ _) => apply preserves_when
  | |- preserves _ (check _) => apply preserves_check
  | |- preserves _ (check_val _) => apply preserves_check_val
  | |- preserves _ (with_defer _ _) => apply preserves_with_defer
  | |- preserves _ (deref _ _ _) => apply preserves_deref
  | |- preserves _ (lift _) => apply preserves_lift
  | |- preserves _ (for_each _ _) => apply preserves_for_each
  | |- preserves _ (for_collect _ _) => apply preserves_for_collect
  | |- preserves _ (match ?x with _ => _ end) => destruct x
  | |- preserves _ (let '_ := ?x in _) => destruct x
  | |- preserves _ _ => solve [eauto with go_inv]
  end.
Ltac keeps := repeat keeps_step.

Lemma inv_conf n {A} (f : EngineConfig -> A) : preserves (Inv n) (conf f).
Proof. unfold conf. keeps. Qed.
#[local] Hint Resolve inv_conf : go_inv.
Lemma inv_close n : preserves (Inv n) close.
Proof. unfold close. keeps. Qed.
#[local] Hint Resolve inv_close : go_inv.
Lemma inv_removePeer n k : preserves (Inv n) (removePeer k).
Proof. unfold removePeer. keeps. Qed.
#[local] Hint Resolve inv_removePeer : go_inv.
Lemma inv_removeAllPeers n : preserves (Inv n) removeAllPeers.
Proof. unfold removeAllPeers. keeps. Qed.
#[local] Hint Resolve inv_removeAllPeers : go_inv.
Lemma inv_createPeerConn n k ips v : preserves (Inv n) (createPeerConn k ips v).
Proof. unfold createPeerConn, getRosenpassPubKey, getRosenpassAddr. keeps. Qed.
#[local] Hint Resolve inv_createPeerConn : go_inv.
Lemma inv_addNewPeer n p : preserves (Inv n) (addNewPeer p).
Proof. unfold addNewPeer. keeps. Qed.
#[local] Hint Resolve inv_addNewPeer : go_inv.
Lemma inv_modifyPeers n ps : preserves (Inv n) (modifyPeers ps).
Proof. unfold modifyPeers, check_modified. keeps. Qed.
#[local] Hint Resolve inv_modifyPeers : go_inv.
Lemma inv_apply_peers n nm : preserves (Inv n) (apply_peers nm).
Proof. unfold apply_peers, removePeers, addNewPeers. keeps. Qed.
#[local] Hint Resolve inv_apply_peers : go_inv.
Lemma inv_updateDNSForwarder n b es : preserves (Inv n) (updateDNSForwarder b es).
Proof. unfold updateDNSForwarder, startDNSForwarder, stopDNSForwarder. keeps. Qed.
#[local] Hint Resolve inv_updateDNSForwarder : go_inv.
Lemma inv_updateForwardRules n rules : preserves (Inv n) (updateForwardRules rules).
Proof. unfold updateForwardRules. keeps. Qed.
#[local] Hint Resolve inv_updateForwardRules : go_inv.

Lemma inv_apply_map n nm : n <= nm_Serial nm -> preserves (Inv n) (apply_map nm).
Proof.
  intros Hn. unfold apply_map, prepare_firewall, apply_dns, apply_routes, updateOfflinePeers. keeps.
  all: intros s [H1 H2]; by split.
Qed.

Lemma inv_updateConfig n pc : preserves (Inv n) (updateConfig pc).
Proof. unfold updateConfig. keeps. Qed.

Lemma inv_updateNetworkMap n nm : preserves (Inv n) (updateNetworkMap nm).
Proof.
  unfold updateNetworkMap. apply preserves_bind; [destruct (nm_PeerConfig nm); [apply inv_updateConfig | keeps] |].
  intros [] s Hs. unfold bind, get. destruct (Z.ltb_spec (nm_Serial nm) (e_networkSerial (loc s))); [exact Hs |].
  apply inv_apply_map; [| exact Hs]. destruct Hs as [Hs _]. lia.
Qed.
#[local] Hint Resolve inv_updateNetworkMap : go_inv.

Lemma inv_get_info n cs : preserves (Inv n) (get_info cs).
Proof. unfold get_info. keeps. Qed.
#[local] Hint Resolve inv_get_info : go_inv.

Lemma inv_populate n c u : preserves (Inv n) (PopulateNetbirdConfig c u).
Proof. unfold PopulateNetbirdConfig. keeps. Qed.
#[local] Hint Resolve inv_populate : go_inv.

Lemma inv_handleSync n u : preserves (Inv n) (handleSync u).
Proof.
  unfold handleSync. apply preserves_bind.
  { unfold handle_netbird_config, updateTURNs, updateSTUNs, handleRelayUpdate, handleFlowUpdate. keeps. }
  intros []. apply preserves_bind; [unfold updateChecksIfNew; keeps |]. intros [].
  destruct (sr_NetworkMap u) as [nm|]; [| keeps].
  intros s Hs. unfold bind at 1, get at 1.
  assert (Hrest : preserves (Inv n) (updateNetworkMap nm ;;; call (SrPublishEvent "Network map updated"))) by keeps.
  destruct (e_persistSyncResponse (loc s)) eqn:Ep; apply Hrest; [| exact Hs].
  destruct Hs as [H1 _]. unfold Inv, inv. cbn. by rewrite Ep.
Qed.

Lemma inv_SetPersistence n b : preserves (Inv n) (SetSyncResponsePersistence b).
Proof.
  intros s [H1 H2]. unfold SetSyncResponsePersistence, bind, get.
  destruct (Bool.eqb b (e_persistSyncResponse (loc s))); [by split |]. by destruct b.
Qed.

Lemma inv_Start n md c u : preserves (Inv n) (Start md c u).
Proof.
  unfold Start, start_device, start_acl, start_interface, newWgIface, start_rosenpass, or_close, readInitialSettings, newDnsServer,
    start_routes, wgInterfaceCreate, createFirewall, initFirewall, blockLanAccess, getInterfacePrefixes,
    start_streams, receiveSignalEvents, receiveManagementEvents, startNetworkMonitor, shutdown_add.
  assert (Hi : forall l, preserves (Inv n) (iface_prefixes l)).
  { intros l. induction l as [|x l IH]; cbn [iface_prefixes]; keeps; apply IH. }
  keeps; apply Hi.
Qed.

Lemma inv_Stop n : preserves (Inv n) Stop.
Proof. unfold Stop, stopDNSServer, stopDNSForwarder, waitWithContext. keeps. Qed.

Lemma inv_op n o : preserves (Inv n) (run_op o).
Proof.
  destruct o; cbn [run_op];
    [apply inv_Start | apply inv_Stop | apply inv_handleSync | .. | apply inv_SetPersistence |].
  - unfold handleSignal. keeps.
  - unfold signal_goroutine, stream_ended, shutdown_add. keeps.
  - unfold management_goroutine, stream_ended, shutdown_add. keeps.
  - unfold network_monitor_goroutine, triggerClientRestart, shutdown_add. keeps.
  - unfold wg_monitor_goroutine, triggerClientRestart, shutdown_add. keeps.
  - unfold RunHealthProbes, update_wg_states. keeps.
  - unfold engine_RenewTun. keeps.
Qed.

(** C3: over every sequence of the engine's operations, however each of them ends and
    whatever the outside world does in between: a sync response is only kept while its
    persistence is on, and no operation lowers the network serial. *)
Theorem engine_invariant config checks s :
  reachable config checks s ->
  (e_persistSyncResponse (loc s) = false -> e_latestSyncResponse (loc s) = None) /\
  forall o w, e_networkSerial (loc s) <= e_networkSerial (loc (after o w s)).
Proof.
  intros Hr. assert (Hi : exists n, Inv n s).
  { induction Hr as [w cs|o w s Hr [n IH]].
    - exists 0. split; [done |]. done.
    - exists n. apply inv_op. exact IH. }
  destruct Hi as [n [_ Hi]]. split; [exact Hi |]. intros o w.
  apply (inv_op (e_networkSerial (loc s)) o (mkState (loc s) w (calls s))). split; [cbn; lia | exact Hi].
Qed.

(** A network map older than the one applied last is ignored: beyond the local
    peer's own configuration, which is always taken, it changes nothing and calls
    nothing. *)
Theorem updateNetworkMap_outdated nm s :
  nm_Serial nm < e_networkSerial (loc s) ->
  match nm_PeerConfig nm with
  | None => updateNetworkMap nm s = (Ok tt, s)
  | Some pc => updateNetworkMap nm s = updateConfig pc s /\ loc (updateConfig pc s).2 = loc s
  end.
Proof.
  intros Hs. unfold updateNetworkMap.
  destruct (nm_PeerConfig nm) as [pc|].
  - assert (Hloc : forall s, loc (updateConfig pc s).2 = loc s).
    { intros s1. assert (Hp : preserves (fun s' => loc s' = loc s1) (updateConfig pc)); [| by apply Hp].
      assert (Hc : forall R (c : engC R), preserves (fun s' : St => loc s' = loc s1) (call c)).
      { intros R c s2 H2. unfold call. destruct (handle c (world s2)). exact H2. }
      unfold updateConfig. preserves; try apply Hc. }
    split; [| apply Hloc]. unfold bind at 1. specialize (Hloc s). destruct (updateConfig pc s) as [[[]|e|p] s1]; try done.
    unfold bind, get. cbn in Hloc. rewrite Hloc. by rewrite (proj2 (Z.ltb_lt _ _) Hs).
  - unfold bind, ret, get. by rewrite (proj2 (Z.ltb_lt _ _) Hs).
Qed.

(** ** STUN and TURN servers *)

(** The URI a TURN entry stands for. *)
Definition turn_of (t : ProtectedHostConfig) (u : URI) : Prop :=
  exists h v, ph_HostConfig t = Some h /\ ParseURI (hc_Uri h) = inl v /\
    u = with_credentials v (ph_User t) (ph_Password t).

Lemma turn_uri_spec t :
  match turn_uri t with
  | Ok u => turn_of t u
  | Err e => exists h, ph_HostConfig t = Some h /\ ParseURI (hc_Uri h) = inr e
  | Panic _ => ph_HostConfig t = None
  end.
Proof.
  unfold turn_uri, turn_of. destruct (ph_HostConfig t) as [h|]; [| done].
  destruct (ParseURI (hc_Uri h)) as [v|e] eqn:E; [by exists h, v | by exists h].
Qed.

(** The server lists are replaced as a whole or not at all: an update with an
    unreadable URI fails and leaves the engine as it was, an empty one changes
    nothing, and otherwise the new list holds the sent servers in order, with their
    credentials; only a TURN entry without a host can panic. *)
Theorem updateTURNs_updateSTUNs_atomic turns stuns (s : St) :
  match updateTURNs turns s with
  | (Ok _, s') => s' = s /\ turns = [] \/
      exists l, Forall2 turn_of turns l /\ s' = mkState (set_TURNs l (loc s)) (world s) (calls s)
  | (Err _, s') => s' = s /\ exists t h e, t ∈ turns /\ ph_HostConfig t = Some h /\ ParseURI (hc_Uri h) = inr e
  | (Panic _, s') => s' = s /\ exists t, t ∈ turns /\ ph_HostConfig t = None
  end /\
  match updateSTUNs stuns s with
  | (Ok _, s') => s' = s /\ stuns = [] \/
      exists l, Forall2 (fun h u => ParseURI (hc_Uri h) = inl u) stuns l /\
        s' = mkState (set_STUNs l (loc s)) (world s) (calls s)
  | (Err _, s') => s' = s /\ exists h e, h ∈ stuns /\ ParseURI (hc_Uri h) = inr e
  | (Panic _, _) => False
  end.
Proof.
  split.
  - unfold updateTURNs. destruct turns as [|t0 turns']; [by left |]. set (turns := t0 :: turns').
    pose proof (map_panic_ok turn_uri turns) as H. unfold bind, lift.
    destruct (map_panic turn_uri turns) as [l|e|p].
    + right. exists l. split; [| done]. eapply Forall2_impl; [exact H |]. intros t u E.
      pose proof (turn_uri_spec t) as Ht. by rewrite E in Ht.
    + split; [done |]. destruct H as (t & Ht & E). pose proof (turn_uri_spec t) as Hs. rewrite E in Hs.
      destruct Hs as (h & Hh & He). by exists t, h, e.
    + split; [done |]. destruct H as (t & Ht & E). pose proof (turn_uri_spec t) as Hs. rewrite E in Hs. by exists t.
  - unfold updateSTUNs. destruct stuns as [|h0 stuns']; [by left |]. set (stuns := h0 :: stuns').
    set (f := fun s : HostConfig => match ParseURI (hc_Uri s) with inl url => Ok url | inr err => Err err end).
    pose proof (map_panic_ok f stuns) as H. unfold bind, lift. destruct (map_panic f stuns) as [l|e|p].
    + right. exists l. split; [| done]. eapply Forall2_impl; [exact H |]. intros h u E. unfold f in E.
      destruct (ParseURI (hc_Uri h)); by simplify_eq.
    + split; [done |]. destruct H as (h & Hh & E). exists h, e. split; [done |]. unfold f in E.
      destruct (ParseURI (hc_Uri h)); by simplify_eq.
    + destruct H as (h & Hh & E). unfold f in E. by destruct (ParseURI (hc_Uri h)).
Qed.

(** ** The DNS forwarder *)

(** The forwarder runs exactly while it has something to do: with server routes
    allowed, after [updateDNSForwarder] it runs only if the feature is on and there are
    entries, and then it is either the one that ran, given the new entries, or a new
    one that started with them; a forwarder that fails to start is dropped. Nothing
    else of the engine changes. *)
Theorem updateDNSForwarder_spec enabled entries (s : St) :
  wp (updateDNSForwarder enabled entries) (fun r s' =>
    r = inl tt /\ loc s' = set_dnsForwardMgr (e_dnsForwardMgr (loc s')) (loc s) /\
    if DisableServerRoutes (e_config (loc s)) then s' = s
    else match e_dnsForwardMgr (loc s') with
         | None => enabled = false \/ entries = [] \/ exists f e, saw (Event (DnsForwarderStart f entries) (Some e)) s'
         | Some f => enabled = true /\ entries <> [] /\
             (e_dnsForwardMgr (loc s) = Some f /\ saw (Event (DnsForwarderUpdateDomains f entries) tt) s' \/
              e_dnsForwardMgr (loc s) = None /\ saw (Event (DnsForwarderStart f entries) None) s')
         end) s.
Proof.
  assert (Hid : forall e, e = set_dnsForwardMgr (e_dnsForwardMgr e) e) by (by intros []).
  assert (Hstop : forall Q : unit + error -> St -> Prop,
    (forall s', loc s' = set_dnsForwardMgr None (loc s) -> Q (inl tt) s') -> wp stopDNSForwarder Q s).
  { intros Q HQ. unfold stopDNSForwarder, if_some. wps. destruct (e_dnsForwardMgr (loc s)) eqn:E; wps.
    - destruct r as [e|]; wps; by apply HQ.
    - apply HQ. rewrite <- E. apply Hid. }
  unfold updateDNSForwarder. wps. destruct (DisableServerRoutes (e_config (loc s))); [wps; by split |].
  destruct enabled; cbn [negb].
  2:{ apply Hstop. intros s' ->. split; [done |]. split; [done |]. by left. }
  destruct entries as [|e0 es].
  - destruct (e_dnsForwardMgr (loc s)) eqn:E; [| wps; split; [done |]; split; [apply Hid |]; rewrite E; by right; left].
    apply Hstop. intros s' ->. split; [done |]. split; [done |]. right. by left.
  - destruct (e_dnsForwardMgr (loc s)) as [f|] eqn:E.
    + wps. destruct r. split; [done |]. cbn. split; [apply Hid |]. rewrite E. split; [done |]. split; [done |].
      left. split; [done |]. left.
    + unfold startDNSForwarder. wps. destruct r0 as [e|]; wps; (split; [done |]; split; [done |]); cbn.
      * right. right. exists r, e. left.
      * split; [done |]. split; [done |]. right. split; [done |]. left.
Qed.

(** ** Local networks to block *)

Definition is_lan (p : Prefix) : Prop :=
  addr_Is4 (prefix_ip p) = true /\ addr_IsLoopback (prefix_ip p) = false /\
  addr_IsMulticast (prefix_ip p) = false /\ addr_IsLinkLocalUnicast (prefix_ip p) = false /\
  addr_IsLinkLocalMulticast (prefix_ip p) = false /\ prefix_Masked p = p.

Lemma lan_prefix_spec n p : lan_prefix n = inl (Some p) -> is_lan p.
Proof.
  unfold lan_prefix. destruct (AddrFromSlice (ipnet_IP n)) as [a|]; [| done]. cbn zeta.
  set (q := prefix_Masked _). intros H. destruct (negb (addr_Is4 (prefix_ip q)) || _ || _ || _ || _) eqn:E; [done |].
  injection H as <-. rewrite !orb_false_iff, negb_false_iff in E. destruct E as ((((?&?)&?)&?)&?).
  repeat (split; [done |]). apply prefix_Masked_idemp.
Qed.

Lemma addr_prefixes_lan addrs : Forall is_lan (addr_prefixes addrs).1.
Proof.
  induction addrs as [|a addrs IH]; cbn [addr_prefixes]; [constructor |].
  destruct (addr_prefixes addrs) as [ps errs]. cbn in *. destruct a as [n|]; [| done].
  destruct (lan_prefix n) as [[p|]|e] eqn:E; cbn; try done. constructor; [by eapply lan_prefix_spec | done].
Qed.

(** The networks [blockLanAccess] drops traffic to are local IPv4 networks:
    masked, and never loopback, multicast or link-local, whatever addresses the
    interfaces report. *)
Theorem getInterfacePrefixes_lan (s : St) :
  wp getInterfacePrefixes (fun r _ =>
    match r with inl (ps, _) => Forall is_lan ps | inr _ => False end) s.
Proof.
  unfold getInterfacePrefixes. wps. destruct r as [ifaces|e]; wps; [| constructor].
  cut (forall l s, wp (iface_prefixes l) (fun r _ => match r with inl (ps, _) => Forall is_lan ps | inr _ => False end) s).
  { intros H1. eapply wp_mono; [apply H1 |]. intros [[ps errs]|e] s' H2; [| done]. cbn [wp_then]. wps. exact H2. }
  clear. induction l as [|x l IH]; intros s; cbn [iface_prefixes]; wps; [constructor |].
  destruct r as [addrs|e].
  - destruct (addr_prefixes addrs) as [ps errs] eqn:E. wps. eapply wp_mono; [apply IH |].
    intros [[ps' errs']|e] s' H2; [| done]. cbn [wp_then]. wps. cbn. apply Forall_app. split; [| exact H2].
    pose proof (addr_prefixes_lan addrs) as Hl. by rewrite E in Hl.
  - wps. eapply wp_mono; [apply IH |]. intros [[ps' errs']|e'] s' H2; [| done]. cbn [wp_then]. wps. exact H2.
Qed.

End spec.

Import Keys SampleRoutes SampleData SampleEngine.

Lemma engine_invariant_witness :
  let w := mkWorld ∅ ∅ 1 in
  let s0 := mkState (newEngine0 engine_config []) w [] in
  let s1 := after (OpStart (mkMobileDependency None 0 []) None None) w s0 in
  let s2 := after (OpSync (mkSyncResponse None (Some start_map) [])) w s1 in
  e_networkSerial (loc s2) = 1 /\
  e_networkSerial (loc s2) <= e_networkSerial (loc (after (OpSync (mkSyncResponse None (Some next_map) [])) w s2)).
Proof.
  intros w s0 s1 s2. split; [by vm_compute |].
  apply (engine_invariant engine_config [] s2).
  apply reach_op, reach_op, reach_new.
Defined.

Lemma updateNetworkMap_outdated_witness :
  updateNetworkMap (mkNetworkMap 0 None [] true [] None [] 0 true []) running = (Ok tt, running).
Proof.
  apply (updateNetworkMap_outdated (mkNetworkMap 0 None [] true [] None [] 0 true []) running).
  by vm_compute.
Defined.
