(* ===== verification/EngineLife.v ===== *)
(** * Starting and stopping the engine

    [Start] either hands over a running engine or, unless Rosenpass is what failed,
    has closed the interface it opened; [Stop] leaves no interface, no DNS server or
    forwarder and no peer. That an interface is closed is read off the log: the
    interfaces made and the [Close] calls match ([ledger]). *)

From Stdlib Require Import ZArith Lia Ascii.
From stdpp Require Import base tactics list strings gmap fin_maps.
From S2P Require Import Prelude GoStrings Netip Uapi Configurer Routes WgIface EngineData Engine EnginePeers.

Section stays.
Context {wg : WgTypes} {rl : RouteLib} {el : EngLib} {mo : MapOrder} {me : MultiError}.
Context {W : Type} `{!Handler engC W}.
Notation St := (state engC Engine W).

(** ** Steps that leave the engine's fields alone *)

Definition stays {A} (ok : bool) (m : E A) : Prop :=
  forall s : St, wp m (fun r (s' : St) => loc s' = loc s /\ match r with inl _ => True | inr _ => ok = false end) s.

Lemma stays_wp {A} ok (m : E A) s (Q : A + error -> St -> Prop) :
  stays ok m ->
  (forall a s', loc s' = loc s -> Q (inl a) s') ->
  (forall e s', loc s' = loc s -> ok = false -> Q (inr e) s') -> wp m Q s.
Proof. intros Hm H1 H2. eapply wp_mono; [apply Hm |]. intros [a|e] s' [Hl Ho]; auto. Qed.

Lemma stays_call ok {R} (c : engC R) : stays ok (call c).
Proof. intros s. by apply wp_call. Qed.
Lemma stays_ret {A} ok (a : A) : stays ok (ret a).
Proof. by intros s. Qed.
Lemma stays_fail {A} e : stays false (@fail engC Engine W A e).
Proof. by intros s. Qed.
Lemma stays_get ok : stays ok get.
Proof. by intros s. Qed.
Lemma stays_bind {A B} ok (m : E A) (k : A -> E B) :
  stays ok m -> (forall a, stays ok (k a)) -> stays ok (bind m k).
Proof.
  intros Hm Hk s. apply wp_bind, (stays_wp ok); [done | |].
  - intros a s1 H1. cbn [wp_then]. apply (stays_wp ok); [apply Hk | |]; intros ? s2 H2; rewrite H2; by split.
  - intros e s1 H1 Ho. by split.
Qed.
Lemma stays_ignore {A} ok (m : E A) : stays false m -> stays ok (ignore m).
Proof. intros Hm s. apply wp_ignore. by apply (stays_wp false). Qed.
Lemma stays_try {A} ok (m : E A) : stays false m -> stays ok (try m).
Proof. intros Hm s. apply wp_try. by apply (stays_wp false). Qed.
Lemma stays_check ok (m : E (option error)) : stays ok m -> stays false (check m).
Proof. intros Hm s. apply wp_check. apply (stays_wp ok); [done | |]; [intros [e|] s1 H1; by split | by intros]. Qed.
Lemma stays_check_val {A} ok (m : E (A + error)) : stays ok m -> stays false (check_val m).
Proof. intros Hm s. apply wp_check_val. apply (stays_wp ok); [done | |]; [intros [a|e] s1 H1; by split | by intros]. Qed.
Lemma stays_wrap {A} ok f (m : E A) : stays ok m -> stays ok (wrap f m).
Proof. intros Hm s. apply wp_wrap. by apply (stays_wp ok). Qed.
Lemma stays_if_some {B} ok (o : option B) k : (forall r, stays ok (k r)) -> stays ok (if_some o k).
Proof. intros Hk. destruct o; [apply Hk | apply stays_ret]. Qed.
Lemma stays_conf ok {A} (f : EngineConfig -> A) : stays ok (conf f).
Proof. apply stays_bind; [apply stays_get | intros; apply stays_ret]. Qed.

Lemma stays_for_each {A} (l : list A) (body : A -> E unit) : (forall x, stays true (body x)) -> stays true (for_each l body).
Proof. intros Hb. induction l as [|x l IH]; [apply stays_ret |]. apply stays_bind; [apply Hb | by intros _]. Qed.

End stays.

Ltac stays_step :=
  match goal with
  | |- forall _, _ => intros ?
  | |- stays _ (ignore _) => apply stays_ignore
  | |- stays _ (try _) => apply stays_try
  | |- stays _ (wrap _ _) => apply stays_wrap
  | |- stays _ (check _) => apply (stays_check true)
  | |- stays _ (check_val _) => apply (stays_check_val true)
  | |- stays _ (bind _ _) => apply stays_bind
  | |- stays _ (ret _) => apply stays_ret
  | |- stays _ (fail _) => apply stays_fail
  | |- stays _ get => apply stays_get
  | |- stays _ (call _) => apply stays_call
  | |- stays _ (conf _) => apply stays_conf
  | |- stays _ (if_some _ _) => apply stays_if_some
  | |- stays _ (match ?x with _ => _ end) => destruct x
  | |- stays _ (let '_ := ?x in _) => destruct x
  end.
Ltac stays := repeat stays_step.

Section life.
Context {wg : WgTypes} {rl : RouteLib} {el : EngLib} {mo : MapOrder} {me : MultiError}.
Context {W : Type} `{!Handler engC W}.
Notation St := (state engC Engine W).

Ltac units := repeat match goal with u : unit |- _ => destruct u end.

(** ** Closing *)

Lemma if_some_set {A} (o : option A) (m : A -> E unit) (f : Engine -> Engine) s (Q : unit + error -> St -> Prop) :
  (forall a, o = Some a -> wp (m a) (fun r s' => r = inl tt /\ loc s' = f (loc s)) s) ->
  (o = None -> f (loc s) = loc s) ->
  (forall s', loc s' = f (loc s) -> Q (inl tt) s') ->
  wp (if_some o m) Q s.
Proof.
  intros H1 H2 HQ. destruct o as [a|]; cbn.
  - eapply wp_mono; [by apply H1 |]. intros r s' [-> H]. by apply HQ.
  - apply wp_ret, HQ. by rewrite H2.
Qed.

Lemma stopDNSForwarder_wp s (Q : unit + error -> St -> Prop) :
  (forall s', loc s' = set_dnsForwardMgr None (loc s) -> Q (inl tt) s') -> wp stopDNSForwarder Q s.
Proof.
  intros HQ. unfold stopDNSForwarder. wps. eapply if_some_set; [| | exact HQ].
  - intros f _. wps. destruct r; wps; by split.
  - destruct (loc s). cbn. by intros ->.
Qed.

Lemma stopDNSServer_wp s (Q : unit + error -> St -> Prop) :
  (forall s', loc s' = set_dnsServer None (loc s) -> Q (inl tt) s') -> wp stopDNSServer Q s.
Proof.
  intros HQ. unfold stopDNSServer. wps. eapply if_some_set; [| | exact HQ].
  - intros d _. wps. units. by split.
  - destruct (loc s). cbn. by intros ->.
Qed.

Lemma close_wp s (Q : unit + error -> St -> Prop) :
  (forall s', loc s' = set_wgInterface None (loc s) -> Q (inl tt) s') -> wp close Q s.
Proof.
  intros HQ. unfold close. wps. eapply if_some_set with (f := set_wgInterface None).
  - intros w _. wps. destruct r; cbn [wp_then]; wps; units; by split.
  - destruct (loc s). cbn. by intros ->.
  - intros s1 H1. cbn [wp_then]. wps. apply (stays_wp true); [stays | | done]. intros [] s2 H2. cbn [wp_then].
    apply (stays_wp true); [stays | | done]. intros [] s3 H3. apply HQ. congruence.
Qed.

Lemma or_close_wp {A} msg (m : E A) s (Q : A + error -> St -> Prop) :
  wp m (fun r s1 => match r with
                    | inl a => Q (inl a) s1
                    | inr e => forall s2, loc s2 = set_wgInterface None (loc s1) -> Q (inr (Wrap msg e)) s2
                    end) s ->
  wp (or_close msg m) Q s.
Proof.
  intros Hm. unfold or_close. wps. eapply wp_mono; [exact Hm |]. intros [a|e] s1 H1; cbn [wp_then]; wps; [done |].
  apply close_wp. intros s2 H2. cbn [wp_then]. wps. by apply H1.
Qed.

(** ** The interfaces made and the interfaces told to close *)

Definition wg_opened (ev : event engC) : option ref :=
  match ev with
  | @Event _ R c a =>
      match c in engC R' return R' -> option ref with
      | WgNew _ => fun r => match r with inl w => Some w | inr _ => None end
      | _ => fun _ => None
      end a
  end.
Definition wg_closed (ev : event engC) : option ref :=
  match ev with Event (WgClose w) _ => Some w | _ => None end.

(** Since [s0]: the interface it had and those made since, in this order, are those
    whose [Close] was called, in the same order, and then the one the engine has. *)
Definition ledger (s0 s : St) : Prop := exists evs,
  calls s = evs ++ calls s0 /\
  option_list (e_wgInterface (loc s0)) ++ logged wg_opened evs =
  logged wg_closed evs ++ option_list (e_wgInterface (loc s)).

Lemma ledger_refl s : ledger s s.
Proof. exists []. split; [done |]. exact (app_nil_r _). Qed.

Lemma keeps_bind {A B} (I : St -> Prop) (m : E A) (k : A -> E B) s :
  I (m s).2 -> (forall a, preserves I (k a)) -> I (bind m k s).2.
Proof. intros Hm Hk. unfold bind. destruct (m s) as [[a|e|p] s']; [by apply Hk | done | done]. Qed.

(** An event that is neither, and a change of another field. *)
Lemma ledger_step s0 s s' ev :
  ledger s0 s -> calls s' = ev :: calls s -> wg_opened ev = None -> wg_closed ev = None ->
  e_wgInterface (loc s') = e_wgInterface (loc s) -> ledger s0 s'.
Proof.
  intros (evs & Hc & H) Hc' Ho Hx Hw. exists (ev :: evs). split; [by rewrite Hc', Hc |].
  by rewrite !logged_skip, Hw.
Qed.
Lemma ledger_call s0 {R : Set} (c : engC R) :
  (forall a, wg_opened (Event c a) = None /\ wg_closed (Event c a) = None) -> preserves (ledger s0) (call c).
Proof.
  intros Hc s Hs. unfold call. destruct (handle c (world s)) as [a w]. destruct (Hc a). by eapply ledger_step.
Qed.
Lemma ledger_modify s0 f : (forall e, e_wgInterface (f e) = e_wgInterface e) -> preserves (ledger s0) (modify f).
Proof. intros Hf s (evs & Hc & H). exists evs. split; [done |]. cbn. by rewrite Hf. Qed.
Lemma ledger_get s0 : preserves (ledger s0) get.
Proof. intros s Hs. exact Hs. Qed.
Lemma ledger_if_some s0 {B} (o : option B) k : (forall r, preserves (ledger s0) (k r)) -> preserves (ledger s0) (if_some o k).
Proof. intros Hk. destruct o; [apply Hk | by intros s]. Qed.
#[local] Hint Resolve ledger_get : go_inv.
#[local] Hint Extern 1 (preserves (ledger _) (call _)) => apply ledger_call; by intros : go_inv.
#[local] Hint Extern 1 (preserves (ledger _) (modify _)) => apply ledger_modify; by intros : go_inv.
#[local] Hint Extern 2 (preserves (ledger _) (if_some _ _)) => apply ledger_if_some; preserves : go_inv.

(** The interface leaves the engine once its [Close] was called. *)
Lemma ledger_close s0 : preserves (ledger s0) close.
Proof.
  intros s Hs. unfold close. unfold bind at 1, get. apply (keeps_bind (ledger s0)); [| intros; preserves].
  destruct (e_wgInterface (loc s)) as [w|] eqn:Ew; cbn [if_some]; [| exact Hs].
  destruct Hs as (evs & Hc & H). unfold ignore, check, try, bind, call, modify, ret, fail.
  destruct (handle (WgClose w) (world s)) as [r w1]. assert (H1 : forall a w2,
    ledger s0 (mkState (set_wgInterface None (loc s)) w2 (Event (SrSetWgIface None) a :: Event (WgClose w) r :: calls s))).
  { intros a w2. exists (Event (SrSetWgIface None) a :: Event (WgClose w) r :: evs). split; [cbn; by rewrite Hc |].
    rewrite !(logged_skip wg_opened), (logged_skip wg_closed), logged_cons by done. rewrite H, Ew.
    by rewrite app_nil_r. }
  destruct r; cbn; case_match; apply H1.
Qed.

#[local] Hint Resolve ledger_close : go_inv.

(** Before the interface is made there is none. *)
Definition bare (s0 s : St) : Prop := ledger s0 s /\ e_wgInterface (loc s) = None.

Lemma bare_then {A B} s0 (m : E A) (k : A -> E B) s :
  bare s0 s -> preserves (bare s0) m -> (forall a s', bare s0 s' -> ledger s0 (k a s').2) -> ledger s0 (bind m k s).2.
Proof.
  intros Hs Hm Hk. specialize (Hm s Hs). unfold bind. destruct (m s) as [[a|e|p] s']; [by apply Hk | apply Hm | apply Hm].
Qed.
Lemma bare_call s0 {R : Set} (c : engC R) :
  (forall a, wg_opened (Event c a) = None /\ wg_closed (Event c a) = None) -> preserves (bare s0) (call c).
Proof.
  intros Hc s [Hs Hw]. split; [by apply ledger_call |]. unfold call. by destruct (handle c (world s)).
Qed.
Lemma bare_get s0 : preserves (bare s0) get.
Proof. intros s Hs. exact Hs. Qed.
#[local] Hint Resolve bare_get : go_inv.
#[local] Hint Extern 1 (preserves (bare _) (call _)) => apply bare_call; by intros : go_inv.

(** The engine holds the interface before anything else can fail. *)
Definition taken (s0 : St) (o : outcome ref * St) : Prop :=
  match o.1 with
  | Ok w => ledger s0 (mkState (set_wgInterface (Some w) (loc o.2)) (world o.2) (calls o.2))
  | _ => ledger s0 o.2
  end.

Lemma newWgIface_taken s0 md s : bare s0 s -> taken s0 (newWgIface md s).
Proof.
  intros Hs. unfold newWgIface, conf.
  assert (Hcall : forall opts s1, bare s0 s1 -> taken s0 (check_val (call (WgNew opts)) s1)).
  { intros opts s1 [(evs & Hc & H) Hw]. unfold taken, check_val, bind, call.
    destruct (handle (WgNew opts) (world s1)) as [[w|e] w1]; cbn.
    - exists (Event (WgNew opts) (inl w) :: evs). split; [cbn; by rewrite Hc |].
      rewrite logged_cons, (logged_skip wg_closed), (assoc_L (++)), H, Hw, app_nil_r by done. done.
    - exists (Event (WgNew opts) (inr e) :: evs). split; [cbn; by rewrite Hc |].
      by rewrite !logged_skip. }
  unfold bind at 1, call at 1. destruct (handle NewStdNet (world s)) as [net w1] eqn:En.
  unfold bind at 1 2, get. cbn [loc world calls ret id].
  apply Hcall. pose proof (bare_call s0 NewStdNet (fun _ => conj eq_refl eq_refl) s Hs) as H1.
  unfold call in H1. by rewrite En in H1.
Qed.
#[local] Opaque newWgIface.

Lemma ledger_start_interface s0 md s : bare s0 s -> ledger s0 (start_interface md s).2.
Proof.
  intros Hs. unfold start_interface, conf. apply bare_then; [done | preserves |]. clear s Hs. intros c s Hs.
  destruct (ValidateMTU (cfg_MTU c)); [apply Hs |].
  apply bare_then; [done | preserves |]. clear s Hs. intros e s Hs.
  apply bare_then; [done | destruct (e_cancel e); cbn [if_some]; preserves |]. clear s Hs. intros _ s Hs.
  apply bare_then; [done | preserves |]. clear s Hs. intros ctx s Hs.
  apply bare_then; [done | intros ? ?; done |]. clear s Hs. intros _ s Hs.
  pose proof (newWgIface_taken s0 md s Hs) as Ht. unfold taken in Ht. unfold bind at 1, wrap.
  destruct (newWgIface md s) as [[w|e'|p] s1]; [| exact Ht | exact Ht]. cbn [fst snd] in Ht.
  unfold bind at 1, modify at 1. revert Ht. generalize (mkState (set_wgInterface (Some w) (loc s1)) (world s1) (calls s1)).
  change (preserves (ledger s0) (call (SrSetWgIface (Some w)) ;;;
    let* flow := call (NewFlowManager w (PublicKey (WgPrivateKey c))) in
    modify (set_flowManager (Some flow)) ;;; ret w)). preserves.
Qed.

#[local] Opaque start_interface close.
Lemma ledger_or_close s0 {A} msg (m : E A) : preserves (ledger s0) m -> preserves (ledger s0) (or_close msg m).
Proof. intros Hm. unfold or_close. preserves. Qed.
#[local] Hint Resolve ledger_or_close : go_inv.

Lemma ledger_iface_prefixes s0 l : preserves (ledger s0) (iface_prefixes l).
Proof. induction l as [|x l IH]; cbn [iface_prefixes]; preserves; exact IH. Qed.
#[local] Hint Resolve ledger_iface_prefixes : go_inv.

Lemma Start_ledger s0 md cfg url s : bare s0 s -> ledger s0 (Start md cfg url s).2.
Proof.
  intros Hs. unfold Start. apply (keeps_bind (ledger s0)); [by apply ledger_start_interface |]. intros w.
  unfold start_device, start_acl, start_rosenpass, or_close, readInitialSettings, newDnsServer, start_routes,
    wgInterfaceCreate, createFirewall, initFirewall, blockLanAccess, getInterfacePrefixes, PopulateNetbirdConfig,
    start_streams, receiveSignalEvents, receiveManagementEvents, startNetworkMonitor, shutdown_add,
    with_wg, with_dns, with_flow, with_routes, with_firewall, conf.
  preserves.
Qed.

Lemma Stop_ledger s : ledger s (Stop s).2.
Proof.
  revert s. enough (H : forall s0, preserves (ledger s0) Stop) by (intros s; apply H, ledger_refl). intros s0.
  unfold Stop, stopDNSServer, stopDNSForwarder, waitWithContext, removeAllPeers, removePeer. preserves.
Qed.
#[local] Transparent newWgIface start_interface close.

(** ** Start *)

(** The interface values later operations need. *)
Definition started (s : St) : Prop :=
  is_Some (e_wgInterface (loc s)) /\ is_Some (e_dnsServer (loc s)) /\ is_Some (e_routeManager (loc s)) /\
  is_Some (e_connMgr (loc s)) /\ is_Some (e_cancel (loc s)).

(** The engine has no interface: [close] has cleared the field. That its [Close] was called
    is what the log says, see [ledger]. *)
Definition closed (s : St) : Prop := e_wgInterface (loc s) = None.

Lemma start_interface_wp md s (Q : ref + error -> St -> Prop) :
  (forall w c f s', loc s' = set_flowManager (Some f) (set_wgInterface (Some w) (set_cancel (Some c) (loc s))) ->
     Q (inl w) s') ->
  (forall e s', e_wgInterface (loc s') = e_wgInterface (loc s) -> Q (inr e) s') ->
  wp (start_interface md) Q s.
Proof.
  intros H1 H2. unfold start_interface. apply wp_bind, (stays_wp true); [stays | | done].
  intros c s1 L1. cbn [wp_then]. destruct (ValidateMTU (cfg_MTU c)); [wps; apply H2; by rewrite L1 |].
  apply wp_bind, wp_get. cbn [wp_then]. apply wp_bind, (stays_wp true); [stays | | done]. intros [] s2 L2. cbn [wp_then].
  wps. apply (stays_wp false).
  - unfold newWgIface. stays.
  - intros wgi s3 L3. cbn [wp_then] in *. wps. eapply (H1 _ _ _). cbn. rewrite L3. cbn. by rewrite L2, L1.
  - intros e s3 L3 _. cbn [wp_then]. apply H2. rewrite L3. cbn. by rewrite L2, L1.
Qed.

Lemma stays_iface_prefixes l : stays true (iface_prefixes l).
Proof. induction l as [|x l IH]; cbn [iface_prefixes]; stays; apply IH. Qed.

Lemma blockLanAccess_wp s fw :
  e_firewall (loc s) = Some fw -> wp blockLanAccess (fun r s' => r = inl tt /\ loc s' = loc s) s.
Proof.
  intros Hfw. unfold blockLanAccess. apply wp_bind, (stays_wp true); [stays | | done].
  intros c s1 L1. cbn [wp_then]. destruct (BlockInbound c); [wps; by split |].
  apply wp_bind, (stays_wp true); [| | done].
  { unfold getInterfacePrefixes. stays. apply stays_iface_prefixes. }
  intros r s2 L2. cbn [wp_then].
  apply (wp_for_each (fun _ s' => loc s' = loc s)); [congruence | | done].
  intros x l s3 L3. unfold with_firewall. wps. rewrite L3, Hfw. cbn [deref]. apply (stays_wp true); [stays | | done].
  intros [] s4 L4. congruence.
Qed.

Lemma initFirewall_wp s fw (Q : unit + error -> St -> Prop) :
  e_firewall (loc s) = Some fw -> is_Some (e_routeManager (loc s)) ->
  (forall s', loc s' = loc s -> Q (inl tt) s') ->
  (forall e s', closed s' -> Q (inr e) s') ->
  wp initFirewall Q s.
Proof.
  intros Hfw [rm Hrm] H1 H2. unfold initFirewall, with_routes. wps. rewrite Hfw. cbn [deref]. wps.
  rewrite Hrm. cbn [deref]. wps. destruct r as [e|]; cbn [wp_then].
  - wps. apply close_wp. intros s2 L2. cbn [wp_then]. wps. apply H2. unfold closed. by rewrite L2.
  - set (s1 := mkState _ _ _).
    assert (Htail : forall s2, loc s2 = loc s ->
      wp (match e_rpManager (loc s) with
          | None => ret tt
          | Some rp =>
              if negb (RosenpassEnabled (e_config (loc s))) then ret tt
              else let* a := call (RpGetAddress rp) in
                   ignore (check (call (FwAddPeerFiltering fw (wrapu 16 (udp_Port a)))))
          end) Q s2).
    { intros s2 L2. apply (stays_wp true); [stays | | done]. intros [] s3 L3. apply H1. congruence. }
    apply wp_bind. apply wp_when; intros _; [| by apply Htail].
    eapply wp_mono; [by apply (blockLanAccess_wp s1 fw) |]. intros r s2 [-> L2]. by apply Htail.
Qed.

Lemma createFirewall_wp s (Q : unit + error -> St -> Prop) :
  is_Some (e_flowManager (loc s)) -> is_Some (e_routeManager (loc s)) ->
  (forall fw s', loc s' = set_firewall fw (loc s) -> Q (inl tt) s') ->
  (forall e s', closed s' -> Q (inr e) s') ->
  wp createFirewall Q s.
Proof.
  intros [fl Hfl] Hrm H1 H2. unfold createFirewall. wps.
  destruct (DisableFirewall _); [wps; apply (H1 (e_firewall (loc s))); by destruct (loc s) |].
  unfold with_flow. wps. rewrite Hfl. cbn [deref]. wps. destruct r0 as [fw err].
  wps. destruct err as [err|], fw as [fw|]; try (wps; eapply H1; reflexivity).
  apply (initFirewall_wp _ fw); [done | exact Hrm | | exact H2]. intros s' L'. by apply (H1 (Some fw)).
Qed.

(** The fields [started] is about. *)
Definition parts (e : Engine) : option ref * option ref * option ref * option ref :=
  (e_wgInterface e, e_dnsServer e, e_routeManager e, e_cancel e).

Definition quick {A} (m : E A) : Prop :=
  forall s : St, wp m (fun r (s' : St) => (exists a, r = inl a) /\ parts (loc s') = parts (loc s) /\
                              e_connMgr (loc s') = e_connMgr (loc s)) s.

Lemma quick_call {R} (c : engC R) : quick (call c).
Proof. intros s. apply wp_call. intros r w _. by split; [exists r |]. Qed.
Lemma quick_get : quick get.
Proof. intros s. apply wp_get. by split; [eexists |]. Qed.
Lemma quick_ret {A} (a : A) : quick (ret a).
Proof. intros s. apply wp_ret. by split; [eexists |]. Qed.
Lemma quick_modify f :
  (forall e, parts (f e) = parts e /\ e_connMgr (f e) = e_connMgr e) -> quick (modify f).
Proof. intros Hf s. apply wp_modify. cbn. destruct (Hf (loc s)) as [-> ->]. by split; [eexists |]. Qed.
Lemma quick_bind {A B} (m : E A) (k : A -> E B) : quick m -> (forall a, quick (k a)) -> quick (bind m k).
Proof.
  intros Hm Hk s. apply wp_bind. eapply wp_mono; [apply Hm |]. intros r s1 ([a ->] & P1 & C1). cbn [wp_then].
  eapply wp_mono; [apply Hk |]. intros r s2 (H & P2 & C2). split; [done |]. by rewrite P2, C2.
Qed.

Ltac quick := repeat match goal with
  | |- forall _, _ => intros ?
  | |- quick (bind _ _) => apply quick_bind
  | |- quick (call _) => apply quick_call
  | |- quick get => apply quick_get
  | |- quick (ret _) => apply quick_ret
  | |- quick (modify _) => apply quick_modify; by split
  | |- quick (match ?x with _ => _ end) => destruct x
  end.

Lemma start_streams_wp wgi s (Q : unit + error -> St -> Prop) :
  (forall s', parts (loc s') = parts (loc s) -> is_Some (e_connMgr (loc s')) -> Q (inl tt) s') ->
  wp (start_streams wgi) Q s.
Proof.
  intros HQ. unfold start_streams. apply wp_bind, wp_call. intros m w _. cbn [wp_then].
  apply wp_bind, wp_modify. cbn [wp_then].
  match goal with |- wp ?rest _ ?s1 => cut (quick rest); [intros Hq |] end.
  - eapply wp_mono; [apply Hq |]. intros r s' ([[] ->] & P & C). apply HQ; [by rewrite P |].
    rewrite C. by eexists.
  - unfold receiveSignalEvents, receiveManagementEvents, startNetworkMonitor, shutdown_add. quick.
Qed.

Lemma wg_step_wp {A} (k : ref -> E A) s (Q : A + error -> St -> Prop) :
  is_Some (e_wgInterface (loc s)) -> (forall w, stays false (k w)) ->
  (forall r s', loc s' = loc s -> Q r s') -> wp (with_wg k) Q s.
Proof.
  intros Hw Hk HQ. unfold with_wg. apply wp_bind, wp_get. cbn [wp_then]. apply wp_deref; [done |].
  intros w _. eapply stays_wp; [apply Hk | |]; intros; by apply HQ.
Qed.

Lemma dns_step_wp {A} (k : ref -> E A) s (Q : A + error -> St -> Prop) :
  is_Some (e_dnsServer (loc s)) -> (forall w, stays false (k w)) ->
  (forall r s', loc s' = loc s -> Q r s') -> wp (with_dns k) Q s.
Proof.
  intros Hw Hk HQ. unfold with_dns. apply wp_bind, wp_get. cbn [wp_then]. apply wp_deref; [done |].
  intros w _. eapply stays_wp; [apply Hk | |]; intros; by apply HQ.
Qed.

(** What [start_device] needs. *)
Definition alive (e : Engine) : Prop :=
  is_Some (e_wgInterface e) /\ is_Some (e_dnsServer e) /\ is_Some (e_routeManager e) /\
  is_Some (e_cancel e) /\ is_Some (e_flowManager e).

Lemma start_device_wp wgi s :
  alive (loc s) -> wp (start_device wgi) (fun r s' => match r with inl _ => started s' | inr _ => closed s' end) s.
Proof.
  intros Ha. pose proof Ha as (Hw & Hd & Hr & Hc & Hf). unfold start_device.
  assert (Hclose : forall s1 s2 : St, loc s2 = set_wgInterface None (loc s1) -> closed s2).
  { intros s1 s2 H. unfold closed. by rewrite H. }
  apply wp_bind, or_close_wp. unfold wgInterfaceCreate. decide_keys. cbn beta iota.
  apply wg_step_wp; [done | intros w; stays |]. intros [[]|e] s1 L1; [| intros s2 L2; by eapply Hclose].
  cbn [wp_then]. apply wp_bind, createFirewall_wp; [by rewrite L1 | by rewrite L1 | | done].
  intros fw s2 L2. cbn [wp_then]. assert (A2 : alive (loc s2)) by (by rewrite L2, L1).
  clear L1 L2. pose proof A2 as (Hw2 & _).
  apply wp_bind, or_close_wp, wg_step_wp; [done | intros w; stays |].
  intros [mux|e] s3 L3; [| intros s4 L4; by eapply Hclose]. cbn [wp_then].
  apply wp_bind, wp_modify. cbn [wp_then]. set (s4 := mkState _ _ _).
  assert (A4 : alive (loc s4)) by (cbn; by rewrite L3).
  assert (Hacl : wp start_acl (fun r s' => r = inl tt /\ alive (loc s')) s4).
  { unfold start_acl. wps. repeat case_match; wps; by split. }
  apply wp_bind. eapply wp_mono; [exact Hacl |]. intros r s5 [-> A5]. cbn [wp_then]. pose proof A5 as (_ & Hd5 & _).
  apply wp_bind, or_close_wp, dns_step_wp; [done | intros w; stays |].
  intros [[]|e] s6 L6; [| intros s7 L7; by eapply Hclose]. cbn [wp_then].
  apply start_streams_wp. intros s7 P7 C7. rewrite L6 in P7. injection P7 as E1 E2 E3 E4.
  destruct A5 as (? & ? & ? & ? & _). unfold started. rewrite E1, E2, E3, E4. by repeat split.
Qed.

Lemma Start_wp md cfg url s :
  RosenpassEnabled (e_config (loc s)) = false -> e_wgInterface (loc s) = None -> e_dnsServer (loc s) = None ->
  wp (Start md cfg url) (fun r s' => match r with inl _ => started s' | inr _ => closed s' end) s.
Proof.
  intros Hrp Hwg Hdns. unfold Start. apply wp_bind, start_interface_wp.
  2:{ intros e s' H. cbn [wp_then]. unfold closed. congruence. }
  intros w c f s1 L1. cbn [wp_then].
  assert (E1 : RosenpassEnabled (e_config (loc s1)) = false) by (by rewrite L1).
  unfold start_rosenpass at 1, conf. wps. cbn [id]. rewrite E1. wps.
  apply or_close_wp. unfold readInitialSettings. decide_keys. cbn [negb]. wps.
  apply or_close_wp. unfold newDnsServer. wps.
  assert (E2 : e_dnsServer (loc s1) = None) by (by rewrite L1). rewrite E2. decide_keys. cbn beta iota.
  apply (stays_wp false); [stays | |].
  2:{ intros e s3 L3 _ s4 L4. cbn [wp_then]. unfold closed. by rewrite L4. }
  intros dns s3 L3. cbn [wp_then]. apply wp_bind, wp_modify. cbn [wp_then].
  apply wp_bind, (stays_wp true); [unfold PopulateNetbirdConfig; stays | | done]. intros [] s4 L4. cbn [wp_then].
  unfold start_routes. wps. destruct r1; cbn [wp_then]; wps; (apply start_device_wp; cbn; rewrite L4; cbn; rewrite L3; cbn; rewrite L1;
    repeat split; by eexists).
Qed.

(** C5: with Rosenpass off, [Start] on a new engine never panics. When it returns no
    error the interface, the DNS server, the route manager and the connection manager
    are all there, and the interface it made is the engine's. When it fails, at whatever
    step, the engine has no interface, and [Close] was called, once, of the interface it
    made, if it had got that far. *)
Theorem Start_starts_or_closes md cfg url s :
  RosenpassEnabled (e_config (loc s)) = false -> e_wgInterface (loc s) = None -> e_dnsServer (loc s) = None ->
  wp (Start md cfg url) (fun r s' =>
    match r with inl _ => started s' | inr _ => closed s' end /\
    exists evs, calls s' = evs ++ calls s /\
      logged wg_opened evs = logged wg_closed evs ++ option_list (e_wgInterface (loc s'))) s.
Proof.
  intros Hr Hw Hd. pose proof (Start_wp md cfg url s Hr Hw Hd) as H.
  pose proof (Start_ledger s md cfg url s (conj (ledger_refl s) Hw)) as (evs & Hc & Hl). rewrite Hw in Hl.
  unfold wp in *. destruct (Start md cfg url s) as [[a|e|p] s']; [| |done]; (split; [done |]; by exists evs).
Qed.

(** ** Stop *)

Lemma stays_then {A} (m : E unit) (k : unit -> E A) s (Q : A + error -> St -> Prop) :
  stays true m -> (forall s', loc s' = loc s -> wp (k tt) Q s') -> wp (bind m k) Q s.
Proof. intros Hm Hk. apply wp_bind, (stays_wp true); [done | intros [] s' H; by apply Hk | done]. Qed.

(** [Stop] reaches its [close] whatever the engine it is called on. *)
Lemma Stop_closes s : wp Stop (fun _ s' => closed s') s.
Proof.
  unfold Stop. apply wp_bind, wp_get. cbn [wp_then].
  do 4 (apply stays_then; [stays |]; intros ? _).
  apply wp_bind, stopDNSServer_wp. intros s1 _. cbn [wp_then].
  apply wp_bind. eapply wp_mono with (Q := fun r _ => r = inl tt).
  { destruct (e_ingressGatewayMgr _); cbn [if_some]; wps; [|done]. destruct r; wps; done. }
  intros r s2 ->. cbn [wp_then]. apply wp_bind, stopDNSForwarder_wp. intros s3 _. cbn [wp_then].
  do 5 (apply stays_then; [stays |]; intros ? _).
  apply stays_then; [apply stays_wrap; unfold removeAllPeers, removePeer; stays; apply stays_for_each; stays |].
  intros s4 _. apply stays_then; [stays |]. intros s5 _. apply wp_bind, close_wp. intros s6 L6. cbn [wp_then].
  assert (H6 : closed s6) by (unfold closed; by rewrite L6).
  apply (stays_wp false); [unfold waitWithContext; stays | |]; intros a s7 L7; unfold closed; by rewrite L7.
Qed.

Context `{!PeerWorld W}.

Lemma calls_keep_store {A} (m : E A) :
  (forall s0 : St, preserves (fun s : St => store (world s) = store (world s0)) m) ->
  forall s (Q : A + error -> St -> Prop),
  wp m (fun r s' => store (world s') = store (world s) -> Q r s') s -> wp m Q s.
Proof.
  intros Hp s Q Hm. eapply wp_mono; [exact (wp_preserves _ m _ s (Hp s) eq_refl Hm) |].
  intros r s' [H1 H2]. by apply H1.
Qed.

Lemma store_call (s0 : St) {R} (c : engC R) :
  peer_call c = false -> preserves (fun s : St => store (world s) = store (world s0)) (call c).
Proof.
  intros Hc s Hs. unfold call. pose proof (peers_frame R c (world s) Hc) as [H _].
  destruct (handle c (world s)). cbn in *. by rewrite H.
Qed.

Definition stopped (s : St) : Prop :=
  e_wgInterface (loc s) = None /\ e_dnsServer (loc s) = None /\ e_dnsForwardMgr (loc s) = None /\
  e_ingressGatewayMgr (loc s) = None /\ store (world s) = ∅.

(** The end of [Stop], after the peers are gone. *)
Lemma stop_tail_wp s (m : E unit) (Q : unit + error -> St -> Prop) :
  (forall s0 : St, preserves (fun s : St => store (world s) = store (world s0)) m) -> stays false m ->
  stopped s -> (forall r s', stopped s' -> Q r s') -> wp m Q s.
Proof.
  intros Hp Hs (H1 & H2 & H3 & H4 & H5) HQ. apply calls_keep_store; [done |].
  apply (stays_wp false); [done | |]; intros a s' Hl; intros; apply HQ; unfold stopped; rewrite Hl; repeat split; congruence.
Qed.

Ltac kept :=
  repeat match goal with
  | |- forall _, _ => intros ?
  | |- preserves _ (call _) => apply store_call; reflexivity
  | |- preserves _ (modify _) => intros ? H; exact H
  | |- preserves _ (if_some ?o _) => destruct o; cbn [if_some]
  | |- preserves _ close => unfold close
  | |- preserves _ (match ?x with _ => _ end) => destruct x
  | _ => progress preserves
  end.

Lemma Stop_stopped s : is_Some (e_connMgr (loc s)) -> wp Stop (fun _ s' => stopped s') s.
Proof.
  intros Hm. unfold Stop. apply wp_bind, wp_get. cbn [wp_then]. set (e := loc s).
  apply stays_then; [stays |]. intros s1 L1. apply stays_then; [stays |]. intros s2 L2.
  apply stays_then; [stays |]. intros s3 L3. apply stays_then; [stays |]. intros s4 L4.
  apply wp_bind, stopDNSServer_wp. intros s5 L5. cbn [wp_then].
  apply wp_bind, if_some_set with (f := set_ingressGatewayMgr None).
  { intros m _. wps. destruct r; wps; by split. }
  { intros Hn. assert (Hl : e_ingressGatewayMgr (loc s5) = None) by (rewrite L5, L4, L3, L2, L1; exact Hn).
    destruct (loc s5). cbn in *. by subst. }
  intros s6 L6. cbn [wp_then]. apply wp_bind, stopDNSForwarder_wp. intros s7 L7. cbn [wp_then].
  apply stays_then; [stays |]. intros s8 L8. apply stays_then; [stays |]. intros s9 L9.
  apply stays_then; [stays |]. intros s10 L10. apply stays_then; [stays |]. intros s11 L11.
  apply stays_then; [stays |]. intros s12 L12.
  assert (L : loc s12 = set_dnsForwardMgr None (set_ingressGatewayMgr None (set_dnsServer None e))).
  { rewrite L12, L11, L10, L9, L8, L7, L6, L5, L4, L3, L2, L1. done. }
  clear L1 L2 L3 L4 L5 L6 L7 L8 L9 L10 L11.
  apply wp_bind, wp_wrap, removeAllPeers_wp; [by rewrite L |]. intros s13 L13 S13. cbn [wp_then].
  apply wp_bind, calls_keep_store; [kept |]. apply (stays_wp true); [stays | | done].
  intros [] s14 L14 S14. cbn [wp_then].
  apply wp_bind, calls_keep_store; [kept |]. apply close_wp. intros s15 L15 S15. cbn [wp_then].
  apply stop_tail_wp; [unfold waitWithContext; kept | unfold waitWithContext; stays | | done].
  unfold stopped. rewrite L15, L14, L13, L, S15, S14, S13. done.
Qed.

(** C4: stopping a started engine never panics, and however it ends, with the state
    manager's error or without one, the interface, the DNS server, the DNS forwarder
    and the ingress gateway are gone, [Close] was called, once, of the interface it had
    ([ledger]), and no peer is left. *)
Theorem Stop_stops s :
  is_Some (e_connMgr (loc s)) -> wp Stop (fun _ s' => stopped s' /\ ledger s s') s.
Proof.
  intros Hm. pose proof (Stop_stopped s Hm) as H. pose proof (Stop_ledger s) as Hl.
  unfold wp in *. by destruct (Stop s) as [[a|e|p] s'].
Qed.

End life.

Import Keys SampleRoutes SampleData SampleEngine.

Lemma Stop_stops_witness :
  map_to_list (store (world running)) <> [] /\
  wp Stop (fun _ s' => stopped s' /\ ledger running s') running.
Proof. split; [by vm_compute | apply Stop_stops; by eexists; vm_compute]. Defined.

Lemma Start_starts_or_closes_witness :
  let s := mkState (newEngine0 engine_config []) (mkWorld ∅ ∅ 1) [] in
  wp (Start (mkMobileDependency None 0 []) None (Some "https://example.com"))
    (fun r s' =>
      match r with inl _ => started s' | inr _ => closed s' end /\
      exists evs, calls s' = evs ++ calls s /\
        logged wg_opened evs = logged wg_closed evs ++ option_list (e_wgInterface (loc s'))) s.
Proof. intros s. by apply Start_starts_or_closes. Defined.
