(* ===== verification/Connect.v ===== *)
(** * The connection loop: [go/internal/connect.go]

    [ConnectClient] logs in to the management server, connects to the signal server,
    builds an engine and starts it, waits for the end of the engine's context, stops
    the engine, and begins again until its own context ends or the login is denied.

    The clients and the status recorder are calls ([conC]). The engines are not:
    they are the objects of Engine, allocated by [NewEngine] ([cn_engines]) and
    reached through the pointer [cn_engine], and their operations run here as they
    are defined there. While [run] waits, other goroutines run operations on the
    engine: which ones is what the wait answers. *)

From Stdlib Require Import ZArith Lia Ascii.
From stdpp Require Import base tactics list strings gmap fin_maps.
From S2P Require Import Prelude GoStrings Netip Uapi Configurer Routes WgIface EngineData Engine EngineSpec Grpc.
From S2P Require MgmtClient.

(** The states of the client that [run] sets; their names are declared elsewhere. *)
Inductive StatusType := StatusIdle | StatusConnecting | StatusConnected | StatusNeedsLogin | StatusLoginFailed.

#[export] Instance StatusType_eq_dec : EqDecision StatusType.
Proof. solve_decision. Defined.

(** [url.URL], the parts that are read, and [profilemanager.Config]. *)
Record Url := mkUrl { u_Scheme : string; u_Host : string; u_String : string }.
Record Config := mkConfig {
  co_PrivateKey : string; co_PreSharedKey : string; co_ManagementURL : Url; co_SSHKey : string;
  co_NetworkMonitor : option bool; co_WgIface : string; co_WgPort : Z; co_MTU : Z;   (* MTU: a uint16 *)
  co_IFaceBlackList : list string; co_DisableIPv6Discovery : bool; co_NATExternalIPs : list string;
  co_CustomDNSAddress : string; co_RosenpassEnabled : bool; co_RosenpassPermissive : bool;
  co_ServerSSHAllowed : option bool; co_EnableSSHRoot : option bool; co_EnableSSHSFTP : option bool;
  co_EnableSSHLocalPortForwarding : option bool; co_EnableSSHRemotePortForwarding : option bool;
  co_DisableSSHAuth : option bool; co_DNSRouteInterval : Z; co_DisableClientRoutes : bool;
  co_DisableServerRoutes : bool; co_DisableDNS : bool; co_DisableFirewall : bool;
  co_BlockLANAccess : bool; co_BlockInbound : bool; co_LazyConnectionEnabled : bool;
  co_DNSLabels : list string
}.

(** The arguments of [system.Info.SetFlags], in order. *)
Record LoginFlags := mkLoginFlags {
  lf_RosenpassEnabled : bool; lf_RosenpassPermissive : bool; lf_ServerSSHAllowed : option bool;
  lf_DisableClientRoutes : bool; lf_DisableServerRoutes : bool; lf_DisableDNS : bool;
  lf_DisableFirewall : bool; lf_BlockLANAccess : bool; lf_BlockInbound : bool;
  lf_LazyConnectionEnabled : bool; lf_SSH : list (option bool)
}.

(** ** The calls *)

Inductive conC `{!EngLib} : Set -> Type :=
  (* a call of one of the engines *)
  | Eng {R : Set} (c : engC R) : conC R
  (* contexts *)
  | CtxErr (ctx : ref) : conC (option error)
  | NewCancelCtx (parent : ref) : conC ref
  | CancelCtx (ctx : ref) : conC unit
  | WaitDone (ctx : ref) : conC (list op)
  (* the client's state and the status recorder *)
  | StSet (st : StatusType) : conC unit
  | StStatus : conC (StatusType * option error)
  | StWrap (err : error) : conC error
  | SrMarkManagementDisconnected (err : option error) : conC unit
  | SrMarkManagementConnected : conC unit
  | SrMarkSignalDisconnected (err : option error) : conC unit
  | SrMarkSignalConnected : conC unit
  | SrCleanLocalPeerState : conC unit
  | SrUpdateLocalPeerState (ip pubKey : string) (kernelInterface : bool) (fqdn : string) : conC unit
  | SrUpdateSignalAddress (url : string) : conC unit
  | SrSetRelayMgr (m : ref) : conC unit
  | SrClientStart : conC unit
  | SrClientStop : conC unit
  | SrClientTeardown : conC unit
  | SrPublishEvent (msg : string) : conC unit
  (* the management client *)
  | MgmNewClient (ctx : ref) (host : string) (key : Key) (tls : bool) : conC (ref + error)
  | MgmSetListener (m : ref) : conC unit
  | MgmClose (m : ref) : conC (option error)
  | MgmGetServerPublicKey (m : ref) : conC (Key + error)
  | MgmLogin (m : ref) (serverKey : Key) (info : ref) (pubSSHKey : string) (labels : list string) : conC (MgmtClient.LoginResponse + error)
  | SystemGetInfo (ctx : ref) : conC ref
  | InfoSetFlags (info : ref) (flags : LoginFlags) : conC unit
  (* the signal client *)
  | SigNewClient (ctx : ref) (uri : string) (key : Key) (tls : bool) : conC (ref + error)
  | SigSetListener (s : ref) : conC unit
  | SigClose (s : ref) : conC (option error)
  (* the relay manager *)
  | RelayNewManager (ctx : ref) (urls : list string) (pubKey : string) (mtu : Z) : conC ref
  | RelayUpdateToken (m : ref) (payload signature : string) : conC (option error)
  | RelayServe (m : ref) : conC (option error)
  (* the system *)
  | NbnetInit : conC unit
  | SetGCPercent (percent : Z) : conC unit
  | WireGuardModuleIsLoaded : conC bool
  | GeneratePublicKey (sshKey : string) : conC (string + error)
  | ListenUDP (port : Z) : conC (ref * Z + error)   (* the connection and its local port *)
  | CloseUDP (conn : ref) : conC (option error)
  | SetCurrentMTU (mtu : Z) : conC unit
  | CloseChan (ch : ref) : conC unit
  | BackoffReset : conC unit.

(** ** State *)

Record ConnectClient `{!EngLib} := mkConnectClient {
  cn_ctx : ref;
  cn_config : Config;
  cn_engines : list Engine;        (* every engine that was made *)
  cn_engine : option nat;          (* the pointer [engine] *)
  cn_persistSyncResponse : bool;
  cn_runningChan : option ref      (* the variable of [run] *)
}.
Arguments mkConnectClient {_} _ _ _ _ _ _.

Section setters.
Context {el : EngLib}.
Definition set_engines (l : list Engine) (p : option nat) (c : ConnectClient) : ConnectClient :=
  mkConnectClient (cn_ctx c) (cn_config c) l p (cn_persistSyncResponse c) (cn_runningChan c).
Definition set_engine (p : option nat) (c : ConnectClient) : ConnectClient := set_engines (cn_engines c) p c.
Definition set_persist (b : bool) (c : ConnectClient) : ConnectClient :=
  mkConnectClient (cn_ctx c) (cn_config c) (cn_engines c) (cn_engine c) b (cn_runningChan c).
Definition set_runningChan (ch : option ref) (c : ConnectClient) : ConnectClient :=
  mkConnectClient (cn_ctx c) (cn_config c) (cn_engines c) (cn_engine c) (cn_persistSyncResponse c) ch.
End setters.

(** [util.ReturnBoolWithDefaultTrue]. *)
Class ConLib := {
  ReturnBoolWithDefaultTrue : option bool -> bool;
  ReturnBoolWithDefaultTrue_spec : forall b, ReturnBoolWithDefaultTrue b = default true b
}.

Section connect.
Context {wg : WgTypes} {rl : RouteLib} {el : EngLib} {mo : MapOrder} {me : MultiError}.
Context {gl : GrpcLib} {bl : BackoffLib} {cl : ConLib}.
Context {W : Type} `{!Handler engC W, !Handler conC W}.

Definition CN := M conC ConnectClient W.

(** An engine's event, in the client's log. *)
Definition eng_event (ev : event engC) : event conC :=
  match ev with Event c a => Event (Eng c) a end.

(** An operation of the engine [i], in place. *)
Definition on_engine {A} (i : nat) (m : E (W := W) A) : CN A := fun s =>
  match cn_engines (loc s) !! i with
  | None => (Panic "engine: nil pointer dereference", s)
  | Some e =>
      let '(r, s') := m (mkState e (world s) []) in
      (r, mkState (set_engines (<[i := loc s']> (cn_engines (loc s))) (cn_engine (loc s)) (loc s))
            (world s') (map eng_event (calls s') ++ calls s))
  end.

(** The operations other goroutines ran on the engine; what they return is theirs. *)
Definition others (i : nat) (ops : list op) : CN unit :=
  for_each ops (fun o => on_engine i (fun s => (Ok tt, (run_op o s).2))).

(** ** Construction and accessors *)

Definition NewConnectClient (ctx : ref) (config : Config) : ConnectClient :=
  mkConnectClient ctx config [] None false None.

(** [Engine()]. *)
Definition GetEngine : CN (option nat) := let* c := get in ret (cn_engine c).

Definition con_GetLatestSyncResponse : CN SyncResponse :=
  let* engine := GetEngine in
  match engine : option nat with
  | None => fail (New "engine is not initialized")
  | Some i =>
      let* syncResponse := wrap (Wrap "get latest sync response") (on_engine i GetLatestSyncResponse) in
      match syncResponse with
      | None => fail (New "sync response is not available")
      | Some r => ret r
      end
  end.

Definition con_Status : CN StatusType :=
  let* st := call StStatus in
  ret (match st.2 with Some _ => StatusIdle | None => st.1 end).

Definition con_Stop : CN unit :=
  let* engine := GetEngine in
  match engine : option nat with
  | None => ret tt
  | Some i => wrap (Wrap "stop engine") (on_engine i Stop)
  end.

Definition con_SetSyncResponsePersistence (enabled : bool) : CN unit :=
  modify (set_persist enabled) ;;;
  let* engine := GetEngine in
  match engine : option nat with
  | None => ret tt
  | Some i => on_engine i (SetSyncResponsePersistence enabled)
  end.

(** ** Configuration *)

Definition selectMTU (localMTU peerMTU : Z) : CN Z :=
  let finalMTU :=
    if 0 <? localMTU then localMTU
    else if 0 <? peerMTU then wrapu 16 peerMTU
    else DefaultMTU in
  call (SetCurrentMTU finalMTU) ;;;
  ret finalMTU.

Definition closeConnWithLog (conn : ref) : CN unit := ignore (check (call (CloseUDP conn))).

(** The second listener's address is the one UDP connections have. *)
Definition freePort (initPort : Z) : CN Z :=
  let* r := call (ListenUDP initPort) in
  match r with
  | inl (conn, returnPort) => closeConnWithLog conn ;;; ret returnPort
  | inr _ =>
      let* r' := call (ListenUDP 0) in
      match r' with
      | inr err => fail (Opaque "unable to get a free port" err)
      | inl (conn, port) => closeConnWithLog conn ;;; ret port
      end
  end.

Definition engine_config (key : Key) (config : Config) (peerConfig : ProtoPeerConfig) (psk : option Key)
    (port mtu : Z) : EngineConfig :=
  mkEngineConfig port (co_WgIface config) (ppc_Address peerConfig) key
    (default false (co_NetworkMonitor config)) (co_IFaceBlackList config) (co_DisableIPv6Discovery config)
    psk 0 0 (co_SSHKey config) (co_NATExternalIPs config) (co_CustomDNSAddress config)
    (co_RosenpassEnabled config) (co_RosenpassPermissive config)
    (ReturnBoolWithDefaultTrue (co_ServerSSHAllowed config)) (co_EnableSSHRoot config)
    (co_EnableSSHSFTP config) (co_EnableSSHLocalPortForwarding config)
    (co_EnableSSHRemotePortForwarding config) (co_DisableSSHAuth config) (co_DNSRouteInterval config)
    (co_DisableClientRoutes config) (co_DisableServerRoutes config || co_BlockInbound config)
    (co_DisableDNS config) (co_DisableFirewall config) (co_BlockLANAccess config) (co_BlockInbound config)
    (co_LazyConnectionEnabled config) mtu.

Definition createEngineConfig (key : Key) (config : Config) (peerConfig : option ProtoPeerConfig) : CN EngineConfig :=
  deref "peerConfig" peerConfig (fun peerConfig =>
    let* mtu := selectMTU (co_MTU config) (ppc_Mtu peerConfig) in
    let* psk :=
      if bool_decide (co_PreSharedKey config = EmptyString) then ret None
      else match ParseKey (co_PreSharedKey config) with
           | inr err => fail err
           | inl k => ret (Some k)
           end in
    let* port := freePort (co_WgPort config) in
    ret (engine_config key config peerConfig psk port mtu)).

Definition parseRelayInfo (loginResp : MgmtClient.LoginResponse) : list string * option (string * string) :=
  match MgmtClient.lr_NetbirdConfig loginResp ≫= nc_Relay with
  | None => ([], None)
  | Some relayCfg => (rc_Urls relayCfg, Some (rc_TokenPayload relayCfg, rc_TokenSignature relayCfg))
  end.

Definition HostProtocol_String (p : HostProtocol) : string :=
  match p with UDP => "UDP" | TCP => "TCP" | HTTP => "HTTP" | HTTPS => "HTTPS" | DTLS => "DTLS" end.

(** [signalURL]; the getters of nil messages give the first protocol and no URI. *)
Definition signal_url (loginResp : MgmtClient.LoginResponse) : string :=
  let signal := MgmtClient.lr_NetbirdConfig loginResp ≫= nc_Signal in
  ToLower (HostProtocol_String (default UDP (hc_Protocol <$> signal))) +:+ "://" +:+ default EmptyString (hc_Uri <$> signal).

(** ** Connecting *)

Definition connectToSignal (ctx : ref) (wtConfig : option NetbirdConfig) (ourPrivateKey : Key) : CN ref :=
  deref "wtConfig" wtConfig (fun wtConfig => deref "wtConfig.Signal" (nc_Signal wtConfig) (fun signal =>
    let* r := call (SigNewClient ctx (hc_Uri signal) ourPrivateKey (bool_decide (hc_Protocol signal = HTTPS))) in
    match r with
    | inr _ => fail (Status FailedPrecondition "failed connecting to Signal Service")
    | inl s => ret s
    end)).

Definition login_flags (config : Config) : LoginFlags :=
  mkLoginFlags (co_RosenpassEnabled config) (co_RosenpassPermissive config) (co_ServerSSHAllowed config)
    (co_DisableClientRoutes config) (co_DisableServerRoutes config) (co_DisableDNS config)
    (co_DisableFirewall config) (co_BlockLANAccess config) (co_BlockInbound config)
    (co_LazyConnectionEnabled config)
    [co_EnableSSHRoot config; co_EnableSSHSFTP config; co_EnableSSHLocalPortForwarding config;
     co_EnableSSHRemotePortForwarding config; co_DisableSSHAuth config].

Definition loginToManagement (ctx client : ref) (pubSSHKey : string) (config : Config) : CN MgmtClient.LoginResponse :=
  let* r := call (MgmGetServerPublicKey client) in
  match r with
  | inr _ => fail (Status FailedPrecondition "failed while getting Management Service public key")
  | inl serverPublicKey =>
      let* sysInfo := call (SystemGetInfo ctx) in
      call (InfoSetFlags sysInfo (login_flags config)) ;;;
      check_val (call (MgmLogin client serverPublicKey sysInfo pubSSHKey (co_DNSLabels config)))
  end.

(** [return wrapErr(err)]. *)
Definition fail_wrapped {A} (err : error) : CN A :=
  let* e := call (StWrap err) in fail e.
Definition or_wrapped {A} (m : CN A) : CN A :=
  let* r := try m in
  match r with inl a => ret a | inr err => fail_wrapped err end.

(** ** The operation that [run] retries

    Its parts, from the inside out; each [with_defer] is a [defer] of the code. *)

(** After the engine's context has ended. *)
Definition finish : CN unit :=
  let* c := get in
  modify (set_engine None) ;;;
  match cn_engine c with
  | Some i =>
      match cn_engines c !! i ≫= e_wgInterface with
      | Some _ => ignore (on_engine i (with_wg (fun w => call (WgName w)) ;;; Stop))
      | None => ret tt
      end
  | None => ret tt
  end ;;;
  call SrClientTeardown ;;;
  call BackoffReset ;;;
  let* st := call StStatus in
  match st.2 with
  | Some err => if errors_Is err ErrResetConnection then fail err else ret tt
  | None => ret tt
  end.

(** The engine is made, started, and waited for. *)
Definition run_engine (engineCtx : ref) (md : MobileDependency) (stateFilePath : string)
    (loginResp : MgmtClient.LoginResponse) (engineConfig : EngineConfig) : CN unit :=
  let* c := get in
  let i := length (cn_engines c) in
  modify (set_engines (cn_engines c ++ [newEngine0 engineConfig (MgmtClient.lr_Checks loginResp)]) (Some i)) ;;;
  on_engine i (NewEngine stateFilePath) ;;;
  on_engine i (SetSyncResponsePersistence (cn_persistSyncResponse c)) ;;;
  or_wrapped (on_engine i (Start md (MgmtClient.lr_NetbirdConfig loginResp) (Some (u_String (co_ManagementURL (cn_config c)))))) ;;;
  call (StSet StatusConnected) ;;;
  match cn_runningChan c with
  | Some ch => call (CloseChan ch) ;;; modify (set_runningChan None)
  | None => ret tt
  end ;;;
  let* ops := call (WaitDone engineCtx) in
  others i ops ;;;
  finish.

(** With both clients connected. *)
Definition run_relay (engineCtx : ref) (md : MobileDependency) (stateFilePath : string) (myPrivateKey : Key)
    (loginResp : MgmtClient.LoginResponse) : CN unit :=
  let* c := get in
  let '(relayURLs, token) := parseRelayInfo loginResp in
  let* engineConfig := or_wrapped (createEngineConfig myPrivateKey (cn_config c) (MgmtClient.lr_PeerConfig loginResp)) in
  let* relayManager := call (RelayNewManager engineCtx relayURLs (Key_String (PublicKey myPrivateKey)) (cfg_MTU engineConfig)) in
  call (SrSetRelayMgr relayManager) ;;;
  (if bool_decide (relayURLs = []) then ret tt
   else
     match token with
     | Some (payload, signature) => or_wrapped (check (call (RelayUpdateToken relayManager payload signature)))
     | None => ret tt
     end ;;;
     ignore (check (call (RelayServe relayManager)))) ;;;
  run_engine engineCtx md stateFilePath loginResp engineConfig.

Definition run_signal (engineCtx : ref) (md : MobileDependency) (stateFilePath : string) (myPrivateKey : Key)
    (loginResp : MgmtClient.LoginResponse) : CN unit :=
  let peerConfig := MgmtClient.lr_PeerConfig loginResp in
  call SrMarkManagementConnected ;;;
  let* kernelInterface := call WireGuardModuleIsLoaded in
  call (SrUpdateLocalPeerState (default EmptyString (ppc_Address <$> peerConfig))
          (Key_String (PublicKey myPrivateKey)) kernelInterface (default EmptyString (ppc_Fqdn <$> peerConfig))) ;;;
  call (SrUpdateSignalAddress (signal_url loginResp)) ;;;
  call (SrMarkSignalDisconnected None) ;;;
  with_defer
    (let* signalClient := or_wrapped (connectToSignal engineCtx (MgmtClient.lr_NetbirdConfig loginResp) myPrivateKey) in
     with_defer
       (call (SigSetListener signalClient) ;;;
        call SrMarkSignalConnected ;;;
        run_relay engineCtx md stateFilePath myPrivateKey loginResp)
       (ignore (check (call (SigClose signalClient)))))
    (let* st := call StStatus in call (SrMarkSignalDisconnected st.2)).

(** With the management client connected: the login. *)
Definition run_login (engineCtx mgmClient : ref) (md : MobileDependency) (stateFilePath : string)
    (myPrivateKey : Key) (publicSSHKey : string) : CN unit :=
  let* c := get in
  let* r := try (loginToManagement engineCtx mgmClient publicSSHKey (cn_config c)) in
  match r with
  | inr err =>
      if is_status (Some err) PermissionDenied then
        call (StSet StatusNeedsLogin) ;;;
        ignore con_Stop ;;;
        let* e := call (StWrap err) in
        fail (Permanent e)
      else fail_wrapped err
  | inl loginResp => run_signal engineCtx md stateFilePath myPrivateKey loginResp
  end.

Definition run_operation (md : MobileDependency) (stateFilePath : string) (myPrivateKey : Key)
    (mgmTlsEnabled : bool) (publicSSHKey : string) : CN unit :=
  let* c := get in
  let* err := call (CtxErr (cn_ctx c)) in
  match err with
  | Some _ => ret tt
  | None =>
      call (StSet StatusConnecting) ;;;
      let* engineCtx := call (NewCancelCtx (cn_ctx c)) in
      with_defer
        (let* r := call (MgmNewClient engineCtx (u_Host (co_ManagementURL (cn_config c))) myPrivateKey mgmTlsEnabled) in
         match r with
         | inr _ => fail_wrapped (Status FailedPrecondition "failed connecting to Management Service")
         | inl mgmClient =>
             call (MgmSetListener mgmClient) ;;;
             with_defer (run_login engineCtx mgmClient md stateFilePath myPrivateKey publicSSHKey)
               (ignore (check (call (MgmClose mgmClient))))
         end)
        (let* st := call StStatus in
         call (SrMarkManagementDisconnected st.2) ;;;
         call SrCleanLocalPeerState ;;;
         call (CancelCtx engineCtx))
  end.

(** ** [run] *)

(** [defer func() { if r := recover(); r != nil { ...; log.Panicf(...) } }()]. *)
Definition recover_and_panic {A} (m : CN A) : CN A := fun s =>
  match m s with
  | (Panic p, s') => (call (SrPublishEvent "panic occurred") ;;; panic p) s'
  | r => r
  end.

(** The state is reset to idle, unless a login is needed. *)
Definition reset_status : CN unit :=
  let* st := call StStatus in
  if bool_decide (is_Some st.2) || negb (bool_decide (st.1 = StatusNeedsLogin))
  then call (StSet StatusIdle) else ret tt.

Definition run (md : MobileDependency) (stateFilePath : string) (runningChan : option ref) : CN unit :=
  recover_and_panic (
    modify (set_runningChan runningChan) ;;;
    call NbnetInit ;;;
    with_defer
      (let* c := get in
       match ParseKey (co_PrivateKey (cn_config c)) with
       | inr err => fail_wrapped err
       | inl myPrivateKey =>
           let mgmTlsEnabled := bool_decide (u_Scheme (co_ManagementURL (cn_config c)) = "https") in
           let* publicSSHKey := check_val (call (GeneratePublicKey (co_SSHKey (cn_config c)))) in
           with_defer
             (call SrClientStart ;;;
              let* r := try (Retry (run_operation md stateFilePath myPrivateKey mgmTlsEnabled publicSSHKey)) in
              match r with
              | inl _ => ret tt
              | inr err =>
                  when (is_status (Some err) PermissionDenied)
                    (call (StSet StatusNeedsLogin) ;;; ignore con_Stop) ;;;
                  fail err
              end)
             (call SrClientStop)
       end)
      reset_status).

Definition Run (runningChan : ref) : CN unit := run (mkMobileDependency None 0 []) EmptyString (Some runningChan).
Definition RunOnAndroid (tunAdapter : ref) (dnsAddresses : list string) (stateFilePath : string) : CN unit :=
  run (mkMobileDependency (Some tunAdapter) 0 dnsAddresses) stateFilePath None.
Definition RunOniOS (fileDescriptor : Z) (stateFilePath : string) : CN unit :=
  call (SetGCPercent 5) ;;;
  run (mkMobileDependency None (wraps 32 fileDescriptor) []) stateFilePath None.

End connect.
