(* ===== verification/ConnectSpec.v ===== *)
(** * What the connection loop guarantees

    However [run] ends, by an error or a panic included, no engine it made has its
    interface open ([run_closes_interfaces]) and every client and context it opened
    is closed ([run_releases]). The settings it gives the engine are those of the
    configuration ([createEngineConfig_spec], [selectMTU_spec]). *)

From Stdlib Require Import ZArith Lia Ascii.
From stdpp Require Import base tactics list strings gmap fin_maps.
From S2P Require Import Prelude GoStrings Netip Uapi Configurer Routes WgIface EngineData Engine EngineSpec EnginePeers EngineLife Grpc Connect.
From S2P Require MgmtClient.

Section connect.
Context {wg : WgTypes} {rl : RouteLib} {el : EngLib} {mo : MapOrder} {me : MultiError}.
Context {gl : GrpcLib} {bl : BackoffLib} {cl : ConLib}.
Context {W : Type} `{!Handler engC W, !Handler conC W}.
Notation St := (state conC ConnectClient W).

(** ** Interfaces *)

(** Every engine but [except] has no interface, and Rosenpass is off. *)
Definition closed_but (except : option nat) (s : St) : Prop :=
  co_RosenpassEnabled (cn_config (loc s)) = false /\
  forall i e, cn_engines (loc s) !! i = Some e -> except <> Some i -> e_wgInterface e = None.
Definition all_closed : St -> Prop := closed_but None.

Lemma on_engine_wp {A} i e (m : E A) (s : St) (Q : A + error -> St -> Prop) :
  cn_engines (loc s) !! i = Some e ->
  wp m (fun r s' => forall log,
    Q r (mkState (set_engines (<[i := loc s']> (cn_engines (loc s))) (cn_engine (loc s)) (loc s)) (world s') log))
    (mkState e (world s) []) ->
  wp (on_engine i m) Q s.
Proof. intros He. unfold wp, on_engine. rewrite He. destruct (m _) as [[a|e'|p] s']; intros H; [apply H | apply H | done]. Qed.

Lemma closed_but_update o i e (s : St) p w log :
  closed_but o s -> (o = Some i \/ e_wgInterface e = None) ->
  closed_but o (mkState (set_engines (<[i := e]> (cn_engines (loc s))) p (loc s)) w log).
Proof.
  intros [Hr Hc] He. split; [exact Hr |]. intros j e' Hj Hne. cbn in Hj.
  apply list_lookup_insert_Some in Hj as [(<- & <- & _)|[_ Hj]]; [by destruct He | by eapply Hc].
Qed.

(** Closing the excepted engine closes them all. *)
Lemma closed_but_close i e (s : St) p w log :
  closed_but (Some i) s -> e_wgInterface e = None ->
  all_closed (mkState (set_engines (<[i := e]> (cn_engines (loc s))) p (loc s)) w log).
Proof.
  intros [Hr Hc] He. split; [exact Hr |]. intros j e' Hj _. cbn in Hj.
  apply list_lookup_insert_Some in Hj as [(<- & <- & _)|[Hne Hj]]; [done | eapply Hc; [done | congruence]].
Qed.

Lemma closed_call o {R : Set} (c : conC R) : preserves (closed_but o) (call c).
Proof. intros s Hs. unfold call. destruct (handle c (world s)). exact Hs. Qed.
Lemma closed_runningChan o ch : preserves (closed_but o) (modify (set_runningChan ch)).
Proof. intros s Hs. exact Hs. Qed.
Lemma closed_get o : preserves (closed_but o) get.
Proof. intros s Hs. exact Hs. Qed.
Lemma closed_on_engine {A} i (m : E A) :
  (forall s, wp m (fun _ s' => closed s') s) -> preserves all_closed (on_engine i m).
Proof.
  intros Hm s Hs. unfold on_engine. destruct (cn_engines (loc s) !! i) as [e|] eqn:He; [|exact Hs].
  specialize (Hm (mkState e (world s) [])). unfold wp in Hm.
  destruct (m _) as [[a|e'|p] s']; [| |done]; (apply closed_but_update; [exact Hs | by right]).
Qed.
#[local] Hint Resolve closed_call closed_runningChan closed_get : go_inv.

Lemma closed_con_Stop : preserves all_closed con_Stop.
Proof.
  unfold con_Stop, GetEngine. apply preserves_bind; [preserves |]. intros [i|]; [|preserves].
  apply preserves_wrap, closed_on_engine, Stop_closes.
Qed.

Lemma on_engine_stays {A} (m : E A) i (s : St) (Q : A + error -> St -> Prop) :
  is_Some (cn_engines (loc s) !! i) -> stays true m ->
  (forall a w log, Q (inl a) (mkState (loc s) w log)) -> wp (on_engine i m) Q s.
Proof.
  intros [e He] Hm HQ. apply (on_engine_wp _ e); [done |]. apply (stays_wp true); [done | | done].
  intros a s' L log. rewrite L. cbn [loc]. rewrite list_insert_id by done. specialize (HQ a (world s') log).
  by destruct s, loc.
Qed.

(** The engine [i] is the current one. *)
Definition current (i : nat) (s : St) : Prop :=
  closed_but (Some i) s /\ cn_engine (loc s) = Some i /\ is_Some (cn_engines (loc s) !! i).

Lemma current_on_engine {A} i (m : E A) (s : St) (Q : A + error -> St -> Prop) :
  current i s ->
  (forall e, wp m (fun r _ => forall s', current i s' -> Q r s') (mkState e (world s) [])) ->
  wp (on_engine i m) Q s.
Proof.
  intros (Hc & Hp & [e He]) HQ. apply (on_engine_wp _ e); [done |]. eapply wp_mono; [apply HQ |].
  intros r s' HQ' log. apply HQ'. split; [|split]; cbn.
  - apply closed_but_update; [done | by left].
  - done.
  - apply lookup_lt_is_Some. rewrite length_insert. by eapply lookup_lt_Some.
Qed.

Lemma current_others i ops (s : St) (Q : unit + error -> St -> Prop) :
  current i s -> (forall s', current i s' -> Q (inl tt) s') -> wp (others i ops) Q s.
Proof.
  intros Hs HQ. unfold others. apply (wp_for_each (fun _ => current i)); [done | | done].
  intros o l s1 H1. apply current_on_engine; [done |]. intros e. unfold wp. by intros s2.
Qed.

Lemma finish_wp i (s : St) :
  current i s -> wp finish (fun _ => all_closed) s.
Proof.
  intros (Hc & Hp & [e He]). unfold finish. wps. rewrite Hp, He. cbn [mbind option_bind].
  set (s1 := mkState _ _ _). assert (He1 : cn_engines (loc s1) !! i = Some e) by done.
  assert (Hc1 : closed_but (Some i) s1) by done.
  eapply wp_mono with (Q := fun r s' => r = inl tt /\ all_closed s').
  2:{ intros r s2 [-> H2]. cbn [wp_then]. wps. destruct r1.2; [|by wps]. by destruct (errors_Is _ _); wps. }
  destruct (e_wgInterface e) as [w|] eqn:Ew.
  - wps. apply (on_engine_wp _ e); [done |]. unfold with_wg. wps. rewrite Ew. cbn [deref]. wps.
    eapply wp_mono; [apply Stop_closes |]. intros r' s2 H2 log. split; [done |]. by apply closed_but_close.
  - wps. split; [done |]. destruct Hc1 as [Hr Hcl]. split; [done |]. intros j e' Hj _.
    destruct (decide (i = j)) as [<-|Hne]; [congruence | eapply Hcl; [done | congruence]].
Qed.

Lemma SetSyncResponsePersistence_wp b s (Q : unit + error -> state engC Engine W -> Prop) :
  (forall s', e_config (loc s') = e_config (loc s) -> e_wgInterface (loc s') = e_wgInterface (loc s) ->
     e_dnsServer (loc s') = e_dnsServer (loc s) -> Q (inl tt) s') ->
  wp (SetSyncResponsePersistence b) Q s.
Proof.
  intros HQ. unfold SetSyncResponsePersistence. wps. destruct (Bool.eqb _ _); wps; by apply HQ.
Qed.

Lemma run_engine_wp ctx md path resp ec (s : St) :
  all_closed s -> RosenpassEnabled ec = false ->
  wp (run_engine ctx md path resp ec) (fun _ => all_closed) s.
Proof.
  intros [Hr Hc] Hrp. unfold run_engine. wps. set (i := length _). set (e0 := newEngine0 _ _).
  set (s1 := mkState _ _ _).
  assert (He : cn_engines (loc s1) !! i = Some e0) by (cbn; by rewrite lookup_app_r, Nat.sub_diag by (subst i; lia)).
  assert (H1 : closed_but (Some i) s1).
  { split; [done |]. intros j e Hj Hne. cbn in Hj. apply lookup_app_Some in Hj as [Hj|[Hj Hj']]; [by apply (Hc j e) |].
    apply list_lookup_singleton_Some in Hj' as [Hj' _]. subst i. destruct Hne. f_equal. lia. }
  apply on_engine_stays; [by eexists | unfold NewEngine, fileExists, createFile, when; stays |].
  intros [] w1 log1. cbn [wp_then]. wps. set (s2 := mkState _ _ _).
  apply (on_engine_wp _ e0); [done |]. apply SetSyncResponsePersistence_wp. intros se Ec Ew Ed log2. cbn [wp_then].
  set (s3 := mkState _ _ _). assert (H3 : closed_but (Some i) s3) by (apply (closed_but_update _ _ _ s2); [done | by left]).
  assert (He3 : cn_engines (loc s3) !! i = Some (loc se)).
  { cbn. rewrite list_lookup_insert_eq; [done |]. rewrite length_app. cbn. subst i. lia. }
  unfold or_wrapped. wps.
  apply (on_engine_wp _ (loc se)); [done |].
  eapply wp_mono; [apply Start_wp; cbn [loc]; by rewrite ?Ec, ?Ew, ?Ed |].
  intros [[]|err] s4 H4 log4; cbn [wp_then]; wps.
  2:{ unfold fail_wrapped. wps. by apply (closed_but_close _ _ s3). }
  set (s5 := mkState _ _ _).
  assert (H5 : current i s5).
  { split; [apply (closed_but_update _ _ _ s3); [done | by left] |]. split; [done |]. cbn.
    apply lookup_lt_is_Some. rewrite length_insert. by eapply lookup_lt_Some. }
  assert (Htail : forall ops s6, current i s6 ->
    wp (others i ops) (wp_then (fun _ => finish) (fun _ => all_closed)) s6).
  { intros ops s6 H6. apply (current_others i); [done |]. intros s7 H7. by apply (finish_wp i). }
  destruct H5 as (H5 & Hp5 & Hi5). destruct (cn_runningChan (loc s)); wps; by apply Htail.
Qed.

(** A step whose value satisfies [P]. *)
Lemma preserves_bind_val {A B} (I : St -> Prop) (P : A -> Prop) (m : CN A) (k : A -> CN B) :
  preserves I m -> (forall s, I s -> forall a, (m s).1 = Ok a -> P a) ->
  (forall a, P a -> preserves I (k a)) -> preserves I (bind m k).
Proof.
  intros Hm HP Hk s Hs. specialize (Hm s Hs). specialize (HP s Hs). unfold bind.
  destruct (m s) as [[a|e|p] s']; [by apply Hk, Hm; apply HP | done | done].
Qed.
Lemma preserves_wp {A} (I : St -> Prop) (m : CN A) :
  (forall s, I s -> wp m (fun _ => I) s) -> preserves I m.
Proof. intros H s Hs. specialize (H s Hs). unfold wp in H. by destruct (m s) as [[]?]. Qed.


(** ** The engine's configuration *)

(** The MTU by precedence: this client's, else the peer's as a uint16, else the default. *)
Definition mtu_of (localMTU peerMTU : Z) : Z :=
  if 0 <? localMTU then localMTU else if 0 <? peerMTU then wrapu 16 peerMTU else DefaultMTU.

Lemma selectMTU_wp l p (s : St) (Q : Z + error -> St -> Prop) :
  (forall u w, Q (inl (mtu_of l p)) (mkState (loc s) w (Event (SetCurrentMTU (mtu_of l p)) u :: calls s))) ->
  wp (selectMTU l p) Q s.
Proof. intros HQ. unfold selectMTU. wps. apply HQ. Qed.

(** A port that was just bound and freed again: the one asked for, or one the
    system chose because it was taken. *)
Definition port_found (asked port : Z) (evs : list (event conC)) : Prop := exists conn,
  (Event (ListenUDP asked) (inl (conn, port)) ∈ evs \/
   (Event (ListenUDP 0) (inl (conn, port)) ∈ evs /\ exists e, Event (ListenUDP asked) (inr e) ∈ evs)) /\
  exists r, Event (CloseUDP conn) r ∈ evs.

Lemma closeConnWithLog_wp conn (s : St) (Q : unit + error -> St -> Prop) :
  (forall r w, Q (inl tt) (mkState (loc s) w (Event (CloseUDP conn) r :: calls s))) ->
  wp (closeConnWithLog conn) Q s.
Proof. intros HQ. unfold closeConnWithLog. wps. destruct r; apply HQ. Qed.

Lemma freePort_wp port (s : St) (Q : Z + error -> St -> Prop) :
  (forall r w evs, match r with
     | inl p => port_found port p evs
     | inr _ => (exists e, Event (ListenUDP port) (inr e) ∈ evs) /\ exists e, Event (ListenUDP 0) (inr e) ∈ evs
     end -> Q r (mkState (loc s) w (evs ++ calls s))) ->
  wp (freePort port) Q s.
Proof.
  intros HQ. unfold freePort. wps. destruct r as [[conn p]|e]; wps.
  - apply closeConnWithLog_wp. intros r w'. cbn [wp_then]. wps. apply (HQ _ _ [_; _]).
    exists conn. split; [left; right; left | exists r; left].
  - destruct r as [[conn p]|e']; wps.
    + apply closeConnWithLog_wp. intros r w'. cbn [wp_then]. wps. apply (HQ _ _ [_; _; _]).
      exists conn. split; [|exists r; left]. right. split; [right; left | exists e; right; right; left].
    + apply (HQ _ _ [_; _]). split; [exists e; right; left | exists e'; left].
Qed.

(** The preshared key a configuration names. *)
Definition psk_of (config : Config) : option Key + error :=
  if bool_decide (co_PreSharedKey config = EmptyString) then inl None
  else match ParseKey (co_PreSharedKey config) with inl k => inl (Some k) | inr e => inr e end.

Lemma createEngineConfig_wp key config pc (s : St) (Q : EngineConfig + error -> St -> Prop) :
  (forall r w evs,
     match r with
     | inl ec => exists psk port, psk_of config = inl psk /\ port_found (co_WgPort config) port evs /\
                   ec = engine_config key config pc psk port (mtu_of (co_MTU config) (ppc_Mtu pc))
     | inr e => psk_of config = inr e \/
                ((exists e, Event (ListenUDP (co_WgPort config)) (inr e) ∈ evs) /\
                 exists e, Event (ListenUDP 0) (inr e) ∈ evs)
     end -> Q r (mkState (loc s) w (evs ++ calls s))) ->
  wp (createEngineConfig key config (Some pc)) Q s.
Proof.
  intros HQ. unfold createEngineConfig. cbn [deref]. wps. apply selectMTU_wp. intros u w. cbn [wp_then]. wps.
  set (s1 := mkState _ _ _).
  assert (Htail : forall psk, psk_of config = inl psk ->
    wp (freePort (co_WgPort config))
      (wp_then (fun port => ret (engine_config key config pc psk port (mtu_of (co_MTU config) (ppc_Mtu pc)))) Q) s1).
  { intros psk Hpsk. apply freePort_wp. intros r w' evs Hr.
    destruct r as [port|e]; cbn [wp_then]; wps; subst s1; cbn [calls loc];
      rewrite (app_assoc evs [_] (calls s) : evs ++ _ :: calls s = _); apply HQ.
    - exists psk, port. split; [done |]. split; [|done]. destruct Hr as (conn & H & r & Hc). exists conn. set_solver.
    - right. set_solver. }
  unfold psk_of in *. case_bool_decide; wps; [by apply Htail |].
  destruct (ParseKey (co_PreSharedKey config)) as [k|e] eqn:Ek; wps; [by apply Htail |].
  apply (HQ (inr e) w [_]). by left.
Qed.

Lemma closed_createEngineConfig key config pc : preserves all_closed (createEngineConfig key config pc).
Proof.
  unfold createEngineConfig, freePort, selectMTU, closeConnWithLog, deref. preserves.
Qed.

Lemma closed_or_wrapped {A} (m : CN A) : preserves all_closed m -> preserves all_closed (or_wrapped m).
Proof. intros Hm. unfold or_wrapped, fail_wrapped. preserves. Qed.
#[local] Hint Resolve closed_or_wrapped closed_createEngineConfig closed_con_Stop : go_inv.

Lemma or_wrapped_Ok {A} (m : CN A) s a : (or_wrapped m s).1 = Ok a -> (m s).1 = Ok a.
Proof.
  unfold or_wrapped, fail_wrapped, bind, try, call. destruct (m s) as [[b|e|p] s']; cbn; try done.
  by destruct (handle _ _).
Qed.

Lemma createEngineConfig_rosenpass key config pc (s : St) ec :
  co_RosenpassEnabled config = false ->
  (createEngineConfig key config pc s).1 = Ok ec -> RosenpassEnabled ec = false.
Proof.
  intros Hr E. destruct pc as [pc|]; [|done].
  destruct (createEngineConfig key config (Some pc) s) as [o s'] eqn:Ec. cbn in E. subst o.
  refine (wp_run _ (fun r _ => match r with inl ec => RosenpassEnabled ec = false | inr _ => True end) _ _ _ Ec _).
  apply createEngineConfig_wp. intros [ec'|e] w evs; [|done]. by intros (psk & port & _ & _ & ->).
Qed.

Lemma closed_run_engine ctx md path resp ec :
  RosenpassEnabled ec = false -> preserves all_closed (run_engine ctx md path resp ec).
Proof. intros Hec. apply preserves_wp. intros s Hs. by apply run_engine_wp. Qed.
#[local] Opaque run_engine createEngineConfig con_Stop or_wrapped.

Lemma closed_run_relay ctx md path key resp : preserves all_closed (run_relay ctx md path key resp).
Proof.
  unfold run_relay.
  apply preserves_bind_val with (P := fun c => co_RosenpassEnabled (cn_config c) = false); [apply closed_get | |].
  { intros s [H _] c [= <-]. exact H. }
  intros c Hc. destruct (parseRelayInfo resp) as [urls token].
  apply preserves_bind_val with (P := fun ec => RosenpassEnabled ec = false).
  - apply closed_or_wrapped, closed_createEngineConfig.
  - intros s _ ec E. by eapply createEngineConfig_rosenpass, or_wrapped_Ok.
  - intros ec Hec. preserves; by apply closed_run_engine.
Qed.

#[local] Opaque run_relay.

Lemma closed_run_signal ctx md path key resp : preserves all_closed (run_signal ctx md path key resp).
Proof.
  unfold run_signal, connectToSignal, deref. preserves; [apply closed_or_wrapped; preserves | apply closed_run_relay].
Qed.

#[local] Opaque run_signal.

Lemma closed_run_login ctx m md path key pub : preserves all_closed (run_login ctx m md path key pub).
Proof.
  unfold run_login, loginToManagement, fail_wrapped. preserves. apply closed_run_signal.
Qed.

#[local] Opaque run_login.

Lemma closed_run_operation md path key tls pub : preserves all_closed (run_operation md path key tls pub).
Proof. unfold run_operation, fail_wrapped. preserves. apply closed_run_login. Qed.

#[local] Opaque run_operation.

(** C2: however [run] ends, after whatever number of attempts, by an error or a panic
    included, and whatever the other goroutines did with the engines while it waited:
    when Rosenpass is off, no engine it made has its interface open. *)
Theorem run_closes_interfaces md path ch (s : St) :
  all_closed s -> all_closed (run md path ch s).2.
Proof.
  revert s. change (preserves all_closed (run md path ch)). unfold run.
  assert (H : forall A (m : CN A), preserves all_closed m -> preserves all_closed (recover_and_panic m)).
  { intros A m Hm s Hs. specialize (Hm s Hs). unfold recover_and_panic. destruct (m s) as [[a|e|p] s']; [done | done |].
    cbn in Hm |- *. unfold bind, call. by destruct (handle _ _). }
  apply H. unfold reset_status, fail_wrapped. preserves.
  apply preserves_Retry; [by intros ? ? | apply closed_run_operation].
Qed.
#[local] Transparent run_engine createEngineConfig con_Stop or_wrapped run_relay run_signal run_login run_operation.

(** ** Clients and contexts *)

(** What the loop opens and has to close. *)
Inductive res := RMgm (r : Z) | RSig (r : Z) | RCtx (r : Z).

Definition opens (ev : event conC) : option res :=
  match ev with
  | @Event _ R c a =>
      match c in conC R' return R' -> option res with
      | MgmNewClient _ _ _ _ => fun r => match r with inl m => Some (RMgm m) | inr _ => None end
      | SigNewClient _ _ _ _ => fun r => match r with inl m => Some (RSig m) | inr _ => None end
      | NewCancelCtx _ => fun r => Some (RCtx r)
      | _ => fun _ => None
      end a
  end.
Definition closes (ev : event conC) : option res :=
  match ev with
  | Event (MgmClose m) _ => Some (RMgm m)
  | Event (SigClose m) _ => Some (RSig m)
  | Event (CancelCtx c) _ => Some (RCtx c)
  | _ => None
  end.

(** Since [s0], everything opened was closed but [P]. *)
Definition released (s0 : St) (P : list res) (s : St) : Prop := exists evs,
  calls s = evs ++ calls s0 /\
  forall x, x ∈ logged opens evs -> x ∈ logged closes evs \/ x ∈ P.

Lemma released_app s0 P s s' l :
  released s0 P s -> calls s' = l ++ calls s -> logged opens l = [] -> released s0 P s'.
Proof.
  intros (evs & Hc & H) Hc' Hl. exists (l ++ evs). split; [by rewrite Hc', Hc, (assoc_L (++)) |].
  intros x. rewrite !logged_app, Hl, (right_id_L [] (++)). intros Hx. destruct (H x Hx); set_solver.
Qed.
Lemma released_close s0 P x s s' ev :
  released s0 (x :: P) s -> calls s' = ev :: calls s -> opens ev = None -> closes ev = Some x -> released s0 P s'.
Proof.
  intros (evs & Hc & H) Hc' Ho Hx. exists (ev :: evs). split; [by rewrite Hc', Hc |].
  intros y. rewrite (logged_skip opens), logged_cons, Hx by done. intros Hy. cbn. destruct (H y Hy); set_solver.
Qed.
Lemma released_open s0 P x s s' ev :
  released s0 P s -> calls s' = ev :: calls s -> opens ev = Some x -> released s0 (x :: P) s'.
Proof.
  intros (evs & Hc & H) Hc' Ho. exists (ev :: evs). split; [by rewrite Hc', Hc |].
  intros y. rewrite !logged_cons, Ho. cbn. rewrite !elem_of_app. intros [Hy|Hy]; [destruct (H y Hy); set_solver | set_solver].
Qed.

Lemma released_call s0 P {R : Set} (c : conC R) :
  (forall a, opens (Event c a) = None) -> preserves (released s0 P) (call c).
Proof.
  intros Hc s Hs. unfold call. destruct (handle c (world s)) as [r w]. eapply (released_app _ _ _ _ [_]); [done | done |].
  by rewrite (logged_skip opens) by apply Hc.
Qed.
Lemma released_modify s0 P f : preserves (released s0 P) (modify f).
Proof. intros s Hs. exact Hs. Qed.
Lemma released_get s0 P : preserves (released s0 P) get.
Proof. intros s Hs. exact Hs. Qed.
Lemma logged_eng l : logged opens (map eng_event l) = [].
Proof. induction l as [|[R c a] l IH]; [done |]. cbn [map]. by rewrite logged_skip. Qed.
Lemma released_on_engine {A} s0 P i (m : E A) : preserves (released s0 P) (on_engine i m).
Proof.
  intros s Hs. unfold on_engine. destruct (cn_engines (loc s) !! i); [|exact Hs]. destruct (m _) as [r s'].
  eapply released_app; [done | reflexivity | apply logged_eng].
Qed.
#[local] Hint Resolve released_modify released_get released_on_engine : go_inv.
#[local] Hint Extern 1 (preserves (released _ _) (call _)) => apply released_call; by intros : go_inv.

Definition tidy {A} (m : CN A) : Prop := forall s0 P, preserves (released s0 P) m.

(** [x := open(); defer close(x)]: what runs in between has to be tidy itself. *)
Lemma tidy_with_defer {A} s0 P x (m : CN A) (d : CN unit) :
  tidy m -> (forall P s, released s0 (x :: P) s -> released s0 P (d s).2) ->
  forall s, released s0 (x :: P) s -> released s0 P (with_defer m d s).2.
Proof.
  intros Hm Hd s Hs. unfold with_defer. specialize (Hm s0 (x :: P) s Hs). destruct (m s) as [r s1]. cbn in Hm.
  specialize (Hd P s1 Hm). destruct (d s1) as [[u|e|p] s2]; done.
Qed.

Lemma released_closing s0 P x (c : conC (option error)) s :
  (forall a, opens (Event c a) = None /\ closes (Event c a) = Some x) ->
  released s0 (x :: P) s -> released s0 P (ignore (check (call c)) s).2.
Proof.
  intros Hc Hs. unfold ignore, check, try, bind, call. destruct (handle c (world s)) as [r w].
  destruct (Hc r). destruct r; by eapply released_close.
Qed.

Lemma tidy_con_Stop : tidy con_Stop.
Proof. intros s0 P. unfold con_Stop, GetEngine. preserves. Qed.
Lemma tidy_others i ops : tidy (others i ops).
Proof. intros s0 P. unfold others. preserves. Qed.
Lemma tidy_finish : tidy finish.
Proof. intros s0 P. unfold finish. preserves. Qed.
Lemma tidy_or_wrapped {A} (m : CN A) : tidy m -> tidy (or_wrapped m).
Proof. intros Hm s0 P. unfold or_wrapped, fail_wrapped. specialize (Hm s0 P). preserves. Qed.
Lemma tidy_createEngineConfig key config pc : tidy (createEngineConfig key config pc).
Proof. intros s0 P. unfold createEngineConfig, freePort, selectMTU, closeConnWithLog. preserves. Qed.

#[local] Opaque con_Stop others finish or_wrapped createEngineConfig.
Lemma tidy_run_engine ctx md path resp ec : tidy (run_engine ctx md path resp ec).
Proof.
  intros s0 P. unfold run_engine. preserves; first [apply tidy_or_wrapped; intros ? ?; preserves | apply tidy_others | apply tidy_finish].
Qed.
#[local] Opaque run_engine.
Lemma tidy_run_relay ctx md path key resp : tidy (run_relay ctx md path key resp).
Proof.
  intros s0 P. unfold run_relay.
  preserves; first [apply tidy_or_wrapped; intros ? ?; preserves; apply tidy_createEngineConfig | apply tidy_run_engine].
Qed.
#[local] Opaque run_relay.

(** What a call opens, it hands to what follows. *)
Definition hands {A} (s0 : St) (P : list res) (x : A -> option res) (o : outcome A * St) : Prop :=
  released s0 (match o.1 with Ok a => option_list (x a) ++ P | _ => P end) o.2.

Lemma hands_bind {A B} s0 P (x : A -> option res) (m : CN A) (k : A -> CN B) s :
  hands s0 P x (m s) -> (forall a s', released s0 (option_list (x a) ++ P) s' -> released s0 P (k a s').2) ->
  released s0 P (bind m k s).2.
Proof.
  intros Hm Hk. unfold hands in Hm. unfold bind. destruct (m s) as [[a|e|p] s']; [by apply Hk | done | done].
Qed.

Lemma hands_call s0 P {R : Set} (c : conC R) s :
  released s0 P s -> hands s0 P (fun a => opens (Event c a)) (call c s).
Proof.
  intros Hs. unfold hands, call. destruct (handle c (world s)) as [a w]. cbn [fst snd].
  destruct (opens (Event c a)) as [x|] eqn:E; [by eapply released_open |].
  by eapply (released_app _ _ _ _ [_]); [| |rewrite logged_skip].
Qed.

Lemma released_then {B} s0 Q P {R : Set} (c : conC R) (k : R -> CN B) s :
  (forall a, opens (Event c a) = None) -> released s0 Q s ->
  (forall a s', released s0 Q s' -> released s0 P (k a s').2) -> released s0 P (bind (call c) k s).2.
Proof.
  intros Hc Hs Hk. pose proof (released_call s0 Q c Hc s Hs) as H. unfold bind.
  unfold call in *. destruct (handle c (world s)) as [a w]. by apply Hk.
Qed.

Lemma hands_or_wrapped {A} s0 P (x : A -> option res) (m : CN A) s : hands s0 P x (m s) -> hands s0 P x (or_wrapped m s).
Proof.
  unfold hands. with_strategy transparent [or_wrapped] unfold or_wrapped.
  unfold fail_wrapped, bind, try, call. destruct (m s) as [[a|e|p] s']; cbn; [done | | done].
  intros Hs. destruct (handle (StWrap e) (world s')) as [e' w]. cbn.
  eapply (released_app _ _ _ _ [_]); [exact Hs | done | by rewrite logged_skip].
Qed.

Lemma hands_connectToSignal s0 P ctx conf key s :
  released s0 P s -> hands s0 P (fun r => Some (RSig r)) (connectToSignal ctx conf key s).
Proof.
  intros Hs. unfold hands, connectToSignal, deref. destruct conf as [conf|]; [|exact Hs].
  destruct (nc_Signal conf) as [signal|]; [|exact Hs]. unfold bind, call.
  destruct (handle _ (world s)) as [[r|e] w]; cbn.
  - by eapply released_open.
  - eapply (released_app _ _ _ _ [_]); [exact Hs | done | by rewrite logged_skip].
Qed.

#[local] Opaque connectToSignal.

Lemma tidy_run_signal ctx md path key resp : tidy (run_signal ctx md path key resp).
Proof.
  intros s0 P. unfold run_signal.
  repeat (apply preserves_bind; [solve [preserves] | intros ?]). apply preserves_with_defer; [|preserves]. intros s Hs.
  eapply hands_bind; [by apply hands_or_wrapped, hands_connectToSignal |].
  intros r s' Hr. apply (tidy_with_defer s0 P (RSig r)); [|by intros; eapply released_closing |done].
  intros s1 P1. preserves. apply tidy_run_relay.
Qed.

#[local] Opaque run_signal.

Lemma tidy_run_login ctx m md path key pub : tidy (run_login ctx m md path key pub).
Proof.
  intros s0 P. unfold run_login, loginToManagement, fail_wrapped.
  preserves; first [apply tidy_con_Stop | apply tidy_run_signal].
Qed.

#[local] Opaque run_login.

Lemma tidy_run_operation md path key tls pub : tidy (run_operation md path key tls pub).
Proof.
  intros s0 P. unfold run_operation.
  apply preserves_bind; [apply released_get | intros c]. apply preserves_bind; [preserves | intros [e|]; [preserves |]].
  apply preserves_bind; [preserves | intros _]. intros s Hs.
  eapply hands_bind; [by apply hands_call |]. intros ctx s' Hc. apply (tidy_with_defer s0 P (RCtx ctx)); [| |done].
  - intros s1 P1 s2 H2. eapply hands_bind; [by apply hands_call |]. intros [m|e] s3 H3.
    + apply (released_then s1 (RMgm m :: P1)); [done | done |]. intros _.
      apply tidy_with_defer; [apply tidy_run_login | intros; by eapply released_closing].
    + unfold fail_wrapped. by apply (released_then s1 P1).
  - intros P1 s1 H1. do 2 (eapply released_then; [done | done |]; intros). eapply released_then; [done | done |].
    intros _ s3 H3. unfold call. destruct (handle (CancelCtx ctx) (world s3)). by eapply released_close.
Qed.

#[local] Opaque run_operation.

(** C7: however [run] ends, by an error or a panic included, and whatever number of
    attempts it makes: every context it made was cancelled, every management client and
    every signal client it opened was closed. *)
Theorem run_releases md path ch (s : St) : released s [] (run md path ch s).2.
Proof.
  assert (H : tidy (run md path ch)).
  2:{ apply H. exists []. split; [done |]. intros x Hx. by apply elem_of_nil in Hx. }
  intros s0 P. unfold run.
  assert (Hp : forall A (m : CN A), preserves (released s0 P) m -> preserves (released s0 P) (recover_and_panic m)).
  { intros A m Hm s1 Hs. specialize (Hm s1 Hs). unfold recover_and_panic. destruct (m s1) as [[a|e|p] s']; [done | done |].
    by apply (released_then s0 P). }
  apply Hp. unfold reset_status, fail_wrapped.
  preserves; first [apply tidy_con_Stop | apply preserves_Retry; [by intros ? ? | apply tidy_run_operation]].
Qed.

#[local] Transparent con_Stop others finish or_wrapped createEngineConfig run_engine run_relay connectToSignal
  run_signal run_login run_operation.

(** ** The engine's settings *)

(** The engine gets the settings of the configuration and of the peer, the preshared key
    that was parsed, the selected MTU, and a UDP port that was just bound and freed: the
    one asked for, or one the system chose when that is taken. It fails only on a bad
    preshared key or when nothing can be bound, and panics exactly without a peer
    configuration. *)
Theorem createEngineConfig_spec key config pc (s : St) :
  match createEngineConfig key config pc s with
  | (Ok ec, s') => exists peer psk port evs,
      pc = Some peer /\ psk_of config = inl psk /\
      calls s' = evs ++ calls s /\ port_found (co_WgPort config) port evs /\
      ec = engine_config key config peer psk port (mtu_of (co_MTU config) (ppc_Mtu peer))
  | (Err e, s') => exists evs, calls s' = evs ++ calls s /\
      (psk_of config = inr e \/
       ((exists e, Event (ListenUDP (co_WgPort config)) (inr e) ∈ evs) /\ exists e, Event (ListenUDP 0) (inr e) ∈ evs))
  | (Panic _, s') => pc = None /\ s' = s
  end.
Proof.
  destruct pc as [pc|]; [|done].
  assert (H : wp (createEngineConfig key config (Some pc)) (fun r s' => match r with
    | inl ec => exists psk port evs, psk_of config = inl psk /\ calls s' = evs ++ calls s /\
        port_found (co_WgPort config) port evs /\ ec = engine_config key config pc psk port (mtu_of (co_MTU config) (ppc_Mtu pc))
    | inr e => exists evs, calls s' = evs ++ calls s /\ (psk_of config = inr e \/
       ((exists e, Event (ListenUDP (co_WgPort config)) (inr e) ∈ evs) /\ exists e, Event (ListenUDP 0) (inr e) ∈ evs))
    end) s).
  { apply createEngineConfig_wp. intros [ec|e] w evs Hr; [destruct Hr as (psk & port & Hr); exists psk, port, evs; naive_solver |].
    by exists evs. }
  unfold wp in H. destruct (createEngineConfig _ _ _ s) as [[ec|e|p] s']; [|exact H | done].
  destruct H as (psk & port & evs & H). exists pc, psk, port, evs. naive_solver.
Qed.

(** C33: the MTU is a uint16, this client's own when it is set, and recorded for the other
    packages; it is 0 only when the management server sends a positive multiple of 65536. *)
Theorem selectMTU_spec localMTU peerMTU (s : St) :
  0 <= localMTU < 2 ^ 16 ->
  wp (selectMTU localMTU peerMTU) (fun r s' => exists mtu u,
    r = inl mtu /\ 0 <= mtu < 2 ^ 16 /\ calls s' = Event (SetCurrentMTU mtu) u :: calls s /\
    (0 < localMTU -> mtu = localMTU) /\
    (localMTU = 0 -> 0 < peerMTU < 2 ^ 16 -> mtu = peerMTU) /\
    (localMTU = 0 -> peerMTU <= 0 -> mtu = DefaultMTU) /\
    (mtu = 0 <-> localMTU = 0 /\ 0 < peerMTU /\ (2 ^ 16 | peerMTU))) s.
Proof.
  intros Hl. apply selectMTU_wp. intros u w. exists (mtu_of localMTU peerMTU), u.
  unfold mtu_of, wrapu. rewrite <- Z.mod_divide by done.
  pose proof (Z.mod_pos_bound peerMTU (2 ^ 16) eq_refl) as Hp.
  destruct (Z.ltb_spec 0 localMTU), (Z.ltb_spec 0 peerMTU); repeat split; try done; try lia.
  intros _ Hs. by apply Z.mod_small; lia.
Qed.

End connect.

(** ** A sample *)

Module SampleConnect.
Import Keys SampleRoutes SampleData SampleEngine SampleGrpc.

#[export] Instance conlib : ConLib.
Proof. by refine {| ReturnBoolWithDefaultTrue := default true |}. Defined.

Definition private_key : string := b64_encode "0123456789abcdef0123456789abcdef".

Definition login : MgmtClient.LoginResponse :=
  MgmtClient.mkLoginResponse
    (Some (mkNetbirdConfig [] [] (Some (mkHostConfig "signal.example.com:443" HTTPS)) None None))
    (Some (mkProtoPeerConfig "100.64.0.1/16" None "peer.example.com" false false 1300)) [].

(** Everything succeeds; while [run] waits, the persistence of sync responses is turned on. *)
#[export] Instance con_handler : Handler conC World := fun R c w =>
  let fresh := (next w, mkWorld (w_store w) (w_conns w) (next w + 1)) in
  match c in conC R return R * World with
  | Eng c => handle c w
  | CtxErr _ | MgmClose _ | SigClose _ | RelayUpdateToken _ _ _ | RelayServe _ | CloseUDP _ => (None, w)
  | NewCancelCtx _ | SystemGetInfo _ | RelayNewManager _ _ _ _ => fresh
  | WaitDone _ => ([OpPersist true], w)
  | StStatus => ((StatusConnected, None), w)
  | StWrap e => (e, w)
  | MgmNewClient _ _ _ _ | SigNewClient _ _ _ _ => (inl fresh.1, fresh.2)
  | MgmGetServerPublicKey _ => (inl "server", w)
  | MgmLogin _ _ _ _ _ => (inl login, w)
  | WireGuardModuleIsLoaded => (true, w)
  | GeneratePublicKey _ => (inl "ssh", w)
  | ListenUDP p => (inl (7, if p =? 0 then 40000 else p), w)
  | CancelCtx _ | StSet _ | SrMarkManagementDisconnected _ | SrMarkManagementConnected
  | SrMarkSignalDisconnected _ | SrMarkSignalConnected | SrCleanLocalPeerState
  | SrUpdateLocalPeerState _ _ _ _ | SrUpdateSignalAddress _ | SrSetRelayMgr _ | SrClientStart
  | SrClientStop | SrClientTeardown | SrPublishEvent _ | MgmSetListener _ | InfoSetFlags _ _
  | SigSetListener _ | NbnetInit | SetGCPercent _ | SetCurrentMTU _ | CloseChan _ | BackoffReset => (tt, w)
  end.

Definition config : Config :=
  mkConfig private_key "" (mkUrl "https" "api.example.com:443" "https://api.example.com:443") "" None "wt0" 51820 0
    [] false [] "" false false None None None None None None 0 false false false false false false false [].

Definition idle : state conC ConnectClient World :=
  mkState (NewConnectClient 1 config) (mkWorld ∅ ∅ 10) [].

End SampleConnect.

Import Keys SampleRoutes SampleData SampleEngine SampleGrpc SampleConnect.

(** One attempt, with one engine: it is connected, waited for, and stopped. *)
Example run_once :
  let '(r, s) := run (mkMobileDependency None 0 []) "" (Some 3) idle in
  r = Ok tt /\ map e_wgInterface (cn_engines (loc s)) = [None] /\ map cfg_MTU (map e_config (cn_engines (loc s))) = [1300] /\
  logged opens (calls s) = [RCtx 10; RMgm 11; RSig 13] /\ logged closes (calls s) = [RSig 13; RMgm 11; RCtx 10].
Proof. by vm_compute. Qed.

Lemma run_closes_interfaces_witness :
  let md := mkMobileDependency None 0 [] in
  length (cn_engines (loc (run md "" (Some 3) idle).2)) = 1%nat /\ all_closed (run md "" (Some 3) idle).2.
Proof. intros md. split; [by vm_compute |]. apply run_closes_interfaces. split; [done |]. by intros i e H. Defined.

Lemma selectMTU_spec_witness :
  wp (selectMTU 0 65536) (fun r s' => exists mtu u,
    r = inl mtu /\ 0 <= mtu < 2 ^ 16 /\ calls s' = Event (SetCurrentMTU mtu) u :: calls idle /\
    (0 < 0 -> mtu = 0) /\ (0 = 0 -> 0 < 65536 < 2 ^ 16 -> mtu = 65536) /\
    (0 = 0 -> 65536 <= 0 -> mtu = DefaultMTU) /\
    (mtu = 0 <-> 0 = 0 /\ 0 < 65536 /\ (2 ^ 16 | 65536))) idle.
Proof. apply selectMTU_spec. lia. Defined.
